(** * Conference booking: the capacity allocation and waitlist engine

    A shallow embedding of [src/services/bookingService.js] together with the
    helpers it calls ([conferenceService], [userService], the
    [businessValidation] queries) and the table declarations of the database
    initialisation script.

    The four tables are lists of rows, in insertion order.  Every SQL
    statement of the service is a function on these lists.  A statement that
    the database rejects (a violated PRIMARY KEY, UNIQUE or CHECK constraint)
    raises in the service; it is modelled by [None], and the [catch] block of
    the calling operation rolls the transaction back: the operation returns
    the state it started from.  Timestamps are integers (milliseconds), the
    clock is an argument [now] of every operation, and the identifier drawn by
    [uuidv4()] is an argument of [bookConference].  What a statement leaves to
    the database is an argument too: the order in which an [UPDATE] visits
    its rows and the order of [ROW_NUMBER()] among equal timestamps come
    with a [query_plan]. *)

From Stdlib Require Import List ZArith String Bool Lia Permutation Sorted.
Import ListNotations.
Local Open Scope Z_scope.

(** ** Rows and tables *)

Inductive booking_status : Type := CONFIRMED | WAITLISTED | CANCELED.

Definition status_eqb (a b : booking_status) : bool :=
  match a, b with
  | CONFIRMED, CONFIRMED | WAITLISTED, WAITLISTED | CANCELED, CANCELED => true
  | _, _ => false
  end.

Record conference : Type := mkConference {
  name : string;
  start_time : Z;
  end_time : Z;
  total_slots : Z;
  available_slots : Z
}.

Record booking : Type := mkBooking {
  booking_id : string;
  conference_name : string;
  user_id : string;
  status : booking_status;
  created_at : Z;
  confirm_by : option Z
}.

Record waitlist_entry : Type := mkWaitlist {
  w_conference_name : string;
  w_booking_id : string;
  position : Z;
  w_created_at : Z
}.

Record database : Type := mkDatabase {
  conferences : list conference;
  users : list string;
  bookings : list booking;
  waitlist : list waitlist_entry
}.

Definition with_conferences (s : database) (cs : list conference) : database :=
  mkDatabase cs (users s) (bookings s) (waitlist s).
Definition with_bookings (s : database) (bs : list booking) : database :=
  mkDatabase (conferences s) (users s) bs (waitlist s).
Definition with_waitlist (s : database) (ws : list waitlist_entry) : database :=
  mkDatabase (conferences s) (users s) (bookings s) ws.

Definition set_available (c : conference) (a : Z) : conference :=
  mkConference (name c) (start_time c) (end_time c) (total_slots c) a.
Definition set_status (b : booking) (st : booking_status) : booking :=
  mkBooking (booking_id b) (conference_name b) (user_id b) st (created_at b) (confirm_by b).
Definition set_confirm_by (b : booking) (d : option Z) : booking :=
  mkBooking (booking_id b) (conference_name b) (user_id b) (status b) (created_at b) d.
Definition set_position (w : waitlist_entry) (p : Z) : waitlist_entry :=
  mkWaitlist (w_conference_name w) (w_booking_id w) p (w_created_at w).

(** ** Results and exceptions *)

(** What an operation returns to its caller: [{success: true, booking_id,
    status, position}] or [{success: false, error}]. *)
Inductive result : Type :=
| Success (id : string) (st : booking_status) (pos : option Z)
| Failure (error : string).

Definition succeeded (r : result) : bool :=
  match r with Success _ _ _ => true | Failure _ => false end.

(** A statement either yields the next state or raises. *)
Definition bind {A B : Type} (m : option A) (k : A -> option B) : option B :=
  match m with Some a => k a | None => None end.

Notation "x <- m ;; k" := (bind m (fun x => k))
  (at level 61, m at next level, right associativity).

(** [for (const x of rows) { ... }] inside one transaction. *)
Fixpoint for_each {A : Type} (body : A -> database -> option database)
    (rows : list A) (s : database) : option database :=
  match rows with
  | [] => Some s
  | x :: rest => s1 <- body x s ;; for_each body rest s1
  end.

(** ** Queries of conferenceService, userService and businessValidation *)

Definition getConferenceByName (s : database) (n : string) : option conference :=
  find (fun c => String.eqb (name c) n) (conferences s).

Definition getUserById (s : database) (u : string) : option string :=
  find (fun x => String.eqb x u) (users s).

(** [hasConferenceStarted] raises when the conference is unknown. *)
Definition hasConferenceStarted (now : Z) (s : database) (n : string) : option bool :=
  match getConferenceByName s n with
  | None => None
  | Some c => Some (start_time c <=? now)
  end.

Definition getStartedConferences (now : Z) (s : database) : list conference :=
  filter (fun c => start_time c <=? now) (conferences s).

Definition hasExistingBooking (s : database) (u n : string) : bool :=
  existsb (fun b => String.eqb (user_id b) u && String.eqb (conference_name b) n
                    && negb (status_eqb (status b) CANCELED)) (bookings s).

Definition hasConflictingBooking (s : database) (u : string) (startTime endTime : Z) : bool :=
  existsb (fun b =>
    String.eqb (user_id b) u
    && (status_eqb (status b) CONFIRMED || status_eqb (status b) WAITLISTED)
    && existsb (fun c => String.eqb (name c) (conference_name b)
                         && (start_time c <? endTime) && (startTime <? end_time c))
               (conferences s))
    (bookings s).

(** ** Booking identifiers

    [booking_id] is a [UUID] column.  The rows hold identifiers in the form
    in which the database prints them: 32 hexadecimal digits in lower case,
    in groups of 8-4-4-4-12, which is the form [uuidv4()] draws.  The
    [bookingId] of a request is text that the database reads when it runs the
    first statement: an optional pair of braces around 16 pairs of
    hexadecimal digits of either case, with an optional hyphen after any
    group of four digits but the last.  Any other text makes the statement
    raise. *)

Definition is_hex_digit (a : Ascii.ascii) : bool :=
  let n := Ascii.nat_of_ascii a in
  (Nat.leb 48 n && Nat.leb n 57) || (Nat.leb 97 n && Nat.leb n 102)
  || (Nat.leb 65 n && Nat.leb n 70).

Definition lower_case (a : Ascii.ascii) : Ascii.ascii :=
  let n := Ascii.nat_of_ascii a in
  if Nat.leb 65 n && Nat.leb n 90 then Ascii.ascii_of_nat (n + 32) else a.

Definition hyphen : Ascii.ascii := Ascii.ascii_of_nat 45.

(** The pairs of digits from the [i]-th on, [pairs] of them, and the text
    that follows. *)
Fixpoint uuid_digits (i pairs : nat) (src : list Ascii.ascii)
    : option (list Ascii.ascii * list Ascii.ascii) :=
  match pairs with
  | O => Some ([], src)
  | S k =>
      match src with
      | a :: b :: rest =>
          if is_hex_digit a && is_hex_digit b then
            let rest' :=
              match rest with
              | c :: r => if Ascii.eqb c hyphen && Nat.odd i && Nat.ltb i 15
                          then r else rest
              | [] => rest
              end in
            match uuid_digits (S i) k rest' with
            | Some (digits, after) => Some (lower_case a :: lower_case b :: digits, after)
            | None => None
            end
          else None
      | _ => None
      end
  end.

(** The identifier as the database prints it. *)
Definition uuid_out (digits : list Ascii.ascii) : string :=
  string_of_list_ascii
    (firstn 8 digits ++ hyphen :: firstn 4 (skipn 8 digits)
     ++ hyphen :: firstn 4 (skipn 12 digits)
     ++ hyphen :: firstn 4 (skipn 16 digits)
     ++ hyphen :: skipn 20 digits).

(** The identifier that a text denotes, [None] where the database raises
    "invalid input syntax for type uuid". *)
Definition uuid_in (text : string) : option string :=
  let src := list_ascii_of_string text in
  let braces :=
    match src with
    | c :: _ => Ascii.eqb c (Ascii.ascii_of_nat 123)
    | [] => false
    end in
  match uuid_digits 0 16 (if braces then tl src else src) with
  | Some (digits, after) =>
      if braces
      then match after with
           | [c] => if Ascii.eqb c (Ascii.ascii_of_nat 125)
                    then Some (uuid_out digits) else None
           | _ => None
           end
      else match after with
           | [] => Some (uuid_out digits)
           | _ => None
           end
  | None => None
  end.

(** [booking_id: bookingId] in a result: the text as it came. *)
Definition reported (bookingId : string) (r : result) : result :=
  match r with
  | Success _ st pos => Success bookingId st pos
  | Failure e => Failure e
  end.

(** ** Statements *)

(** [INSERT INTO bookings]: rejected on a duplicate [booking_id] (primary
    key) and on a duplicate [(conference_name, user_id)] (UNIQUE). *)
Definition insert_booking (b : booking) (s : database) : option database :=
  if existsb (fun b' => String.eqb (booking_id b') (booking_id b)
                        || (String.eqb (conference_name b') (conference_name b)
                            && String.eqb (user_id b') (user_id b))) (bookings s)
  then None
  else Some (with_bookings s (bookings s ++ [b])).

(** [UPDATE conferences SET available_slots = available_slots + delta WHERE
    name = n]: rejected when an updated row breaks
    [CHECK (available_slots >= 0)] or [CHECK (available_slots <= total_slots)]. *)
Definition add_available_slots (delta : Z) (n : string) (s : database) : option database :=
  let cs := map (fun c => if String.eqb (name c) n
                          then set_available c (available_slots c + delta) else c)
                (conferences s) in
  if forallb (fun c => negb (String.eqb (name c) n)
                       || ((0 <=? available_slots c) && (available_slots c <=? total_slots c))) cs
  then Some (with_conferences s cs)
  else None.

Definition update_booking (id : string) (f : booking -> booking) (s : database) : database :=
  with_bookings s (map (fun b => if String.eqb (booking_id b) id then f b else b) (bookings s)).

Definition waitlist_of (s : database) (n : string) : list waitlist_entry :=
  filter (fun w => String.eqb (w_conference_name w) n) (waitlist s).

Definition max_of (l : list Z) : option Z :=
  match l with
  | [] => None
  | x :: rest => Some (fold_left Z.max rest x)
  end.

(** [SELECT COALESCE(MAX(position), 0) FROM waitlist WHERE conference_name = n] *)
Definition max_position (s : database) (n : string) : Z :=
  match max_of (map position (waitlist_of s n)) with
  | Some m => m
  | None => 0
  end.

(** [INSERT INTO waitlist]: rejected on a duplicate
    [(conference_name, booking_id)] or [(conference_name, position)]. *)
Definition insert_waitlist (w : waitlist_entry) (s : database) : option database :=
  if existsb (fun w' => String.eqb (w_conference_name w') (w_conference_name w)
                        && (String.eqb (w_booking_id w') (w_booking_id w)
                            || (position w' =? position w))) (waitlist s)
  then None
  else Some (with_waitlist s (waitlist s ++ [w])).

(** [DELETE FROM waitlist WHERE booking_id = id] *)
Definition delete_waitlist (id : string) (s : database) : database :=
  with_waitlist s (filter (fun w => negb (String.eqb (w_booking_id w) id)) (waitlist s)).

(** [UPDATE waitlist SET position = p WHERE booking_id = id]: rejected when
    an updated row shares [(conference_name, position)] with another row. *)
Definition update_waitlist_position (p : Z) (id : string) (s : database) : option database :=
  let ws := map (fun w => if String.eqb (w_booking_id w) id then set_position w p else w)
                (waitlist s) in
  if forallb (fun w => negb (String.eqb (w_booking_id w) id)
                       || Nat.leb (List.length (filter (fun w' =>
                              String.eqb (w_conference_name w') (w_conference_name w)
                              && (position w' =? position w)) ws)) 1) ws
  then Some (with_waitlist s ws)
  else None.

(** ** Waitlist queue operations *)

(** The row with the lowest position, the first one among equals. *)
Fixpoint min_by_position (l : list waitlist_entry) : option waitlist_entry :=
  match l with
  | [] => None
  | w :: rest =>
      match min_by_position rest with
      | Some m => if position m <? position w then Some m else Some w
      | None => Some w
      end
  end.

(** [SELECT ... FROM waitlist w JOIN bookings b ON w.booking_id = b.booking_id
    WHERE w.conference_name = n ORDER BY w.position ASC LIMIT 1] *)
Definition waitlist_head (s : database) (n : string) : option waitlist_entry :=
  min_by_position
    (filter (fun w => existsb (fun b => String.eqb (booking_id b) (w_booking_id w)) (bookings s))
            (waitlist_of s n)).

(** One hour, in milliseconds: [60 * 60 * 1000]. *)
Definition confirm_window : Z := 60 * 60 * 1000.

Definition processNextInWaitlist (now : Z) (conferenceName : string) (s : database) : database :=
  match waitlist_head s conferenceName with
  | Some nextBooking =>
      update_booking (w_booking_id nextBooking)
        (fun b => set_confirm_by b (Some (now + confirm_window))) s
  | None => s
  end.

(** The rows selected by [user_id = $1 AND status = 'WAITLISTED'], with
    [AND conference_name != $2] appended under [if (excludeConference)]:
    [null] and the empty string are falsy. *)
Definition displaced (userId : string) (excludeConference : option string) (b : booking) : bool :=
  String.eqb (user_id b) userId
  && status_eqb (status b) WAITLISTED
  && match excludeConference with
     | Some n => if String.eqb n EmptyString then true
                 else negb (String.eqb (conference_name b) n)
     | None => true
     end.

Definition removeUserFromAllWaitlists (userId : string) (excludeConference : option string)
    (s : database) : database :=
  let s1 := with_waitlist s
    (filter (fun w => negb (existsb (fun b => displaced userId excludeConference b
                                              && String.eqb (booking_id b) (w_booking_id w))
                                    (bookings s)))
            (waitlist s)) in
  with_bookings s1
    (map (fun b => if displaced userId excludeConference b then set_status b CANCELED else b)
         (bookings s1)).

(** What the text of a statement leaves to the database.  [tie_rank] orders
    the rows that [ORDER BY created_at] leaves unordered, those with equal
    timestamps; [visit_rank] orders the rows that an [UPDATE] writes, one
    after the other.  Rows of equal rank come in table order. *)
Record query_plan : Type := mkPlan {
  tie_rank : waitlist_entry -> Z;
  visit_rank : waitlist_entry -> Z
}.

(** The plan that follows the table. *)
Definition table_order : query_plan := mkPlan (fun _ => 0) (fun _ => 0).

(** [w] comes before [x] under [ORDER BY created_at]. *)
Definition arrives_before (plan : query_plan) (w x : waitlist_entry) : bool :=
  (w_created_at w <? w_created_at x)
  || ((w_created_at w =? w_created_at x) && (tie_rank plan w <=? tie_rank plan x)).

Fixpoint insert_by_created_at (plan : query_plan) (w : waitlist_entry)
    (l : list waitlist_entry) : list waitlist_entry :=
  match l with
  | [] => [w]
  | x :: rest =>
      if arrives_before plan w x then w :: l
      else x :: insert_by_created_at plan w rest
  end.

Definition order_by_created_at (plan : query_plan) (l : list waitlist_entry)
    : list waitlist_entry :=
  fold_right (insert_by_created_at plan) [] l.

(** [ROW_NUMBER() OVER (...)], paired with the row's [booking_id]. *)
Fixpoint row_number (n : Z) (l : list waitlist_entry) : list (string * Z) :=
  match l with
  | [] => []
  | w :: rest => (w_booking_id w, n) :: row_number (n + 1) rest
  end.

Definition new_position (reordered : list (string * Z)) (id : string) : option Z :=
  option_map snd (find (fun r => String.eqb (fst r) id) reordered).

(** The table once every row of the conference holds its new position. *)
Definition renumbered (plan : query_plan) (conferenceName : string) (s : database)
    : database :=
  let reordered := row_number 1 (order_by_created_at plan (waitlist_of s conferenceName)) in
  with_waitlist s
    (map (fun w =>
            if String.eqb (w_conference_name w) conferenceName then
              match new_position reordered (w_booking_id w) with
              | Some p => set_position w p
              | None => w
              end
            else w)
         (waitlist s)).

(** The order in which the [UPDATE] visits the rows. *)
Fixpoint insert_by_visit (plan : query_plan) (w : waitlist_entry)
    (l : list waitlist_entry) : list waitlist_entry :=
  match l with
  | [] => [w]
  | x :: rest =>
      if visit_rank plan w <=? visit_rank plan x then w :: l
      else x :: insert_by_visit plan w rest
  end.

Definition order_by_visit (plan : query_plan) (l : list waitlist_entry)
    : list waitlist_entry :=
  fold_right (insert_by_visit plan) [] l.

(** One row written: [UNIQUE (conference_name, position)] is not deferrable,
    so the new position is checked against the positions that the other rows
    of the conference hold at that moment, and the statement raises when one
    of them holds it. *)
Definition write_position (conferenceName id : string) (p : Z)
    (ws : list waitlist_entry) : option (list waitlist_entry) :=
  if existsb (fun w => String.eqb (w_conference_name w) conferenceName
                       && negb (String.eqb (w_booking_id w) id)
                       && (position w =? p)) ws
  then None
  else Some (map (fun w => if String.eqb (w_conference_name w) conferenceName
                              && String.eqb (w_booking_id w) id
                           then set_position w p else w) ws).

Fixpoint write_positions (conferenceName : string) (reordered : list (string * Z))
    (rows ws : list waitlist_entry) : option (list waitlist_entry) :=
  match rows with
  | [] => Some ws
  | w :: rest =>
      match new_position reordered (w_booking_id w) with
      | Some p =>
          match write_position conferenceName (w_booking_id w) p ws with
          | Some ws1 => write_positions conferenceName reordered rest ws1
          | None => None
          end
      | None => write_positions conferenceName reordered rest ws
      end
  end.

(** [UPDATE waitlist SET position = new_position FROM (SELECT booking_id,
    ROW_NUMBER() OVER (ORDER BY created_at) ...) WHERE ...]: [None] when the
    statement raises. *)
Definition reorderWaitlist (plan : query_plan) (conferenceName : string) (s : database)
    : option database :=
  let rows := waitlist_of s conferenceName in
  let reordered := row_number 1 (order_by_created_at plan rows) in
  match write_positions conferenceName reordered (order_by_visit plan rows) (waitlist s) with
  | Some ws => Some (with_waitlist s ws)
  | None => None
  end.

(** ** Allocation engine *)

Definition bookConference (now : Z) (bookingId conference_name user_id : string)
    (s : database) : database * result :=
  match getConferenceByName s conference_name with
  | None => (s, Failure "Conference not found")
  | Some conference =>
  match getUserById s user_id with
  | None => (s, Failure "User not found")
  | Some _ =>
  match hasConferenceStarted now s conference_name with
  | None => (s, Failure "Failed to book conference")
  | Some true => (s, Failure "Cannot book conference that has already started")
  | Some false =>
  if hasExistingBooking s user_id conference_name
  then (s, Failure "User already has a booking for this conference")
  else if hasConflictingBooking s user_id (start_time conference) (end_time conference)
  then (s, Failure "User has conflicting booking at this time")
  else if 0 <? available_slots conference then
    match
      s1 <- insert_booking
              (mkBooking bookingId conference_name user_id CONFIRMED now None) s ;;
      s2 <- add_available_slots (-1) conference_name s1 ;;
      Some (removeUserFromAllWaitlists user_id (Some conference_name) s2)
    with
    | Some s' => (s', Success bookingId CONFIRMED None)
    | None => (s, Failure "Failed to book conference")
    end
  else
    match
      s1 <- insert_booking
              (mkBooking bookingId conference_name user_id WAITLISTED now None) s ;;
      let position := max_position s1 conference_name + 1 in
      s2 <- insert_waitlist (mkWaitlist conference_name bookingId position now) s1 ;;
      Some (s2, position)
    with
    | Some (s', position) => (s', Success bookingId WAITLISTED (Some position))
    | None => (s, Failure "Failed to book conference")
    end
  end end end.

Definition booking_by_id (s : database) (id : string) : option booking :=
  find (fun b => String.eqb (booking_id b) id) (bookings s).

(** [SELECT b.*, c.* FROM bookings b JOIN conferences c ON b.conference_name =
    c.name WHERE b.booking_id = id], first row. *)
Definition booking_with_conference (s : database) (id : string) : option (booking * conference) :=
  match booking_by_id s id with
  | Some b =>
      match getConferenceByName s (conference_name b) with
      | Some c => Some (b, c)
      | None => None
      end
  | None => None
  end.

(** [booking.confirm_by && new Date() > new Date(booking.confirm_by)] *)
Definition deadline_passed (now : Z) (b : booking) : bool :=
  match confirm_by b with
  | Some d => d <? now
  | None => false
  end.

(** The transaction of [confirmWaitlistBooking], for the identifier that the
    text of the request denotes. *)
Definition confirm_uuid (now : Z) (bookingId : string) (s : database)
    : database * result :=
  match booking_with_conference s bookingId with
  | None => (s, Failure "Booking not found")
  | Some (booking, conference) =>
  if negb (status_eqb (status booking) WAITLISTED)
  then (s, Failure "Booking is not in waitlisted status")
  else if start_time conference <=? now
  then (s, Failure "Cannot confirm booking for conference that has already started")
  else if deadline_passed now booking
  then (s, Failure "Confirmation deadline has passed")
  else if available_slots conference <=? 0
  then (s, Failure "No slots available to confirm booking")
  else
    match
      let s1 := update_booking bookingId
                  (fun b => set_confirm_by (set_status b CONFIRMED) None) s in
      s2 <- add_available_slots (-1) (conference_name booking) s1 ;;
      let s3 := delete_waitlist bookingId s2 in
      let s4 := removeUserFromAllWaitlists (user_id booking)
                  (Some (conference_name booking)) s3 in
      Some (processNextInWaitlist now (conference_name booking) s4)
    with
    | Some s' => (s', Success bookingId CONFIRMED None)
    | None => (s, Failure "Failed to confirm booking")
    end
  end.

(** A text that is no identifier makes the first query raise; the [catch]
    block rolls back. *)
Definition confirmWaitlistBooking (now : Z) (bookingId : string) (s : database)
    : database * result :=
  match uuid_in bookingId with
  | Some id => (fst (confirm_uuid now id s), reported bookingId (snd (confirm_uuid now id s)))
  | None => (s, Failure "Failed to confirm booking")
  end.

(** The transaction of [cancelBooking], for the identifier that the text of
    the request denotes. *)
Definition cancel_uuid (plan : query_plan) (now : Z) (bookingId : string) (s : database)
    : database * result :=
  match booking_with_conference s bookingId with
  | None => (s, Failure "Booking not found")
  | Some (booking, conference) =>
  if status_eqb (status booking) CANCELED
  then (s, Failure "Booking is already canceled")
  else if start_time conference <=? now
  then (s, Failure "Cannot cancel booking for conference that has already started")
  else
    match
      let s1 := update_booking bookingId (fun b => set_status b CANCELED) s in
      s2 <- (if status_eqb (status booking) CONFIRMED
             then s' <- add_available_slots 1 (conference_name booking) s1 ;;
                  Some (processNextInWaitlist now (conference_name booking) s')
             else Some s1) ;;
      if status_eqb (status booking) WAITLISTED
      then reorderWaitlist plan (conference_name booking) (delete_waitlist bookingId s2)
      else Some s2
    with
    | Some s' => (s', Success bookingId CANCELED None)
    | None => (s, Failure "Failed to cancel booking")
    end
  end.

Definition cancelBooking (plan : query_plan) (now : Z) (bookingId : string) (s : database)
    : database * result :=
  match uuid_in bookingId with
  | Some id => (fst (cancel_uuid plan now id s),
                reported bookingId (snd (cancel_uuid plan now id s)))
  | None => (s, Failure "Failed to cancel booking")
  end.

(** ** Reconciliation sweeps *)

(** The body of the loop of [handleExpiredWaitlistBookings]. *)
Definition requeue_expired (now : Z) (expiredBooking : booking) (s : database)
    : option database :=
  let newPosition := max_position s (conference_name expiredBooking) + 1 in
  s1 <- update_waitlist_position newPosition (booking_id expiredBooking) s ;;
  let s2 := update_booking (booking_id expiredBooking)
              (fun b => set_confirm_by b None) s1 in
  Some (processNextInWaitlist now (conference_name expiredBooking) s2).

Definition expired (now : Z) (b : booking) : bool :=
  status_eqb (status b) WAITLISTED
  && match confirm_by b with
     | Some d => d <? now
     | None => false
     end.

(** Returns the final state and the number of bookings processed, or the
    initial state and [None] when the transaction was rolled back and the
    error thrown again. *)
Definition handleExpiredWaitlistBookings (now : Z) (s : database)
    : database * option nat :=
  let expiredRows := filter (expired now) (bookings s) in
  match for_each (requeue_expired now) expiredRows s with
  | Some s' => (s', Some (List.length expiredRows))
  | None => (s, None)
  end.

(** The body of the loop of [autoCancelForStartedConferences].  Storage
    failures are given by [query_fails]: the statements issued for the
    conference named [n] are rejected when [query_fails n] is [true]. *)
Definition cancel_waitlisted (query_fails : string -> bool) (c : conference)
    (s : database) : option database :=
  if query_fails (name c) then None
  else
    let s1 := with_bookings s
      (map (fun b => if String.eqb (conference_name b) (name c)
                        && status_eqb (status b) WAITLISTED
                     then set_status b CANCELED else b) (bookings s)) in
    Some (with_waitlist s1
            (filter (fun w => negb (String.eqb (w_conference_name w) (name c)))
                    (waitlist s1))).

(** One [BEGIN] before the loop, one [COMMIT] after it, [ROLLBACK] and
    rethrow in the [catch] block.  The boolean tells whether the sweep
    committed. *)
Definition autoCancelForStartedConferences (query_fails : string -> bool) (now : Z)
    (s : database) : database * bool :=
  match for_each (cancel_waitlisted query_fails) (getStartedConferences now s) s with
  | Some s' => (s', true)
  | None => (s, false)
  end.

(** ** The engine as a transition system *)

Inductive operation : Type :=
| BookConference (bookingId conference_name user_id : string)
| ConfirmWaitlistBooking (bookingId : string)
| CancelBooking (bookingId : string) (plan : query_plan)
| HandleExpiredWaitlistBookings
| AutoCancelForStartedConferences (query_fails : string -> bool).

Definition run (now : Z) (op : operation) (s : database) : database :=
  match op with
  | BookConference id n u => fst (bookConference now id n u s)
  | ConfirmWaitlistBooking id => fst (confirmWaitlistBooking now id s)
  | CancelBooking id plan => fst (cancelBooking plan now id s)
  | HandleExpiredWaitlistBookings => fst (handleExpiredWaitlistBookings now s)
  | AutoCancelForStartedConferences query_fails =>
      fst (autoCancelForStartedConferences query_fails now s)
  end.

(** The states the engine reaches from [init]. *)
Inductive reachable (init : database) : database -> Prop :=
| reachable_init : reachable init init
| reachable_step (now : Z) (op : operation) (s : database) :
    reachable init s -> reachable init (run now op s).

(** ** What the schema guarantees of every stored state *)

(** [booking_id UUID PRIMARY KEY] *)
Definition booking_ids_unique (s : database) : Prop :=
  NoDup (map booking_id (bookings s)).

(** [UNIQUE (conference_name, user_id)] on bookings *)
Definition one_booking_per_pair (s : database) : Prop :=
  NoDup (map (fun b => (conference_name b, user_id b)) (bookings s)).

(** [CHECK (available_slots >= 0)], [CHECK (available_slots <= total_slots)] *)
Definition checks_hold (s : database) : Prop :=
  forall c, In c (conferences s) -> 0 <= available_slots c <= total_slots c.

(** [conference_name ... REFERENCES conferences(name)] on bookings *)
Definition bookings_reference_conferences (s : database) : Prop :=
  forall b, In b (bookings s) -> getConferenceByName s (conference_name b) <> None.

(** [booking_id ... REFERENCES bookings(booking_id)] on waitlist *)
Definition waitlist_references_bookings (s : database) : Prop :=
  forall w, In w (waitlist s) -> In (w_booking_id w) (map booking_id (bookings s)).

(** [UNIQUE (conference_name, booking_id)] on waitlist, for one conference *)
Definition waitlist_ids_unique (s : database) (n : string) : Prop :=
  NoDup (map w_booking_id (waitlist_of s n)).

(** [name VARCHAR(255) PRIMARY KEY] on conferences *)
Definition conference_names_unique (s : database) : Prop :=
  NoDup (map name (conferences s)).

(** The guarantees of the table declarations that the proofs rely on. *)
Definition schema_ok (s : database) : Prop :=
  conference_names_unique s
  /\ checks_hold s
  /\ booking_ids_unique s
  /\ one_booking_per_pair s
  /\ bookings_reference_conferences s
  /\ waitlist_references_bookings s
  /\ forall n, waitlist_ids_unique s n.

(** ** Properties of states *)

Definition confirmed_for (n : string) (b : booking) : bool :=
  String.eqb (conference_name b) n && status_eqb (status b) CONFIRMED.

Definition waitlisted_for (n : string) (b : booking) : bool :=
  String.eqb (conference_name b) n && status_eqb (status b) WAITLISTED.

Definition count_confirmed (s : database) (n : string) : nat :=
  List.length (filter (confirmed_for n) (bookings s)).

Definition count_waitlisted (s : database) (n : string) : nat :=
  List.length (filter (waitlisted_for n) (bookings s)).

(** Capacity ledger. *)
Definition ledger_invariant (s : database) : Prop :=
  forall c, In c (conferences s) ->
    available_slots c = total_slots c - Z.of_nat (count_confirmed s (name c)).

Fixpoint zseq (start : Z) (n : nat) : list Z :=
  match n with
  | O => []
  | S k => start :: zseq (start + 1) k
  end.

(** The positions of a list of waitlist rows are exactly [1..N], once each. *)
Definition dense (rows : list waitlist_entry) : Prop :=
  Permutation (map position rows) (zseq 1 (List.length rows)).

(** Dense positions, [N] being the number of WAITLISTED bookings. *)
Definition dense_positions (s : database) (n : string) : Prop :=
  Permutation (map position (waitlist_of s n)) (zseq 1 (count_waitlisted s n)).

(** A row that arrived earlier has the lower position. *)
Definition arrival_ordered (rows : list waitlist_entry) : Prop :=
  forall w1 w2, In w1 rows -> In w2 rows ->
    w_created_at w1 < w_created_at w2 -> position w1 < position w2.

Definition bookings_with_id (s : database) (id : string) : list booking :=
  filter (fun b => String.eqb (booking_id b) id) (bookings s).

(** There is a booking row with this identifier, and every such row
    satisfies [P]. *)
Definition booking_has (s : database) (id : string) (P : booking -> Prop) : Prop :=
  (exists b, In b (bookings s) /\ booking_id b = id)
  /\ forall b, In b (bookings s) -> booking_id b = id -> P b.

Definition indicator (x : bool) : Z := if x then 1 else 0.

(** Two states with the same conference rows and the same number of
    CONFIRMED bookings per conference. *)
Definition same_ledger (s s' : database) : Prop :=
  conferences s' = conferences s
  /\ forall n, count_confirmed s' n = count_confirmed s n.

(** The columns of a booking row that no statement updates. *)
Definition identity (b : booking) : string * string * string :=
  (booking_id b, conference_name b, user_id b).

Definition same_identities (s s' : database) : Prop :=
  map identity (bookings s') = map identity (bookings s).

(** ** A worked scenario

    Two conferences that do not overlap in time, four users.  The one seat
    of "Rust Days" goes to alice; bob and carol queue behind her. *)

(** The identifiers drawn in the scenarios. *)
Definition id_b1 : string := "00000000-0000-4000-8000-0000000000b1".
Definition id_b2 : string := "00000000-0000-4000-8000-0000000000b2".
Definition id_b3 : string := "00000000-0000-4000-8000-0000000000b3".
Definition id_b4 : string := "00000000-0000-4000-8000-0000000000b4".
Definition id_b5 : string := "00000000-0000-4000-8000-0000000000b5".
Definition id_b9 : string := "00000000-0000-4000-8000-0000000000b9".
Definition id_w1 : string := "00000000-0000-4000-8000-0000000000a1".
Definition id_w2 : string := "00000000-0000-4000-8000-0000000000a2".
Definition id_w3 : string := "00000000-0000-4000-8000-0000000000a3".
Definition id_w4 : string := "00000000-0000-4000-8000-0000000000a4".

Definition rust_days : string := "Rust Days".
Definition web_summit : string := "Web Summit".

Definition two_conferences : database :=
  mkDatabase
    [mkConference rust_days 10000000 20000000 1 1;
     mkConference web_summit 30000000 40000000 5 5]
    ["alice"; "bob"; "carol"; "dave"]%string [] [].

Definition alice_confirmed : database :=
  run 1 (BookConference id_b1 rust_days "alice") two_conferences.

(** alice CONFIRMED, bob at position 1. *)
Definition bob_waitlisted : database :=
  run 2 (BookConference id_b2 rust_days "bob") alice_confirmed.

(** alice CONFIRMED, bob at position 1, carol at position 2. *)
Definition carol_waitlisted : database :=
  run 3 (BookConference id_b3 rust_days "carol") bob_waitlisted.

(** bob takes a seat of the other conference: he is displaced from the
    waitlist of "Rust Days". *)
Definition bob_displaced : database :=
  run 4 (BookConference id_b4 web_summit "bob") carol_waitlisted.

(** alice cancels at time 3 while bob is the only waitlisted booking: bob is
    promoted, with a deadline one hour later. *)
Definition bob_promoted : database :=
  run 3 (CancelBooking id_b1 table_order) bob_waitlisted.

(** The first instant after bob's deadline. *)
Definition after_deadline : Z := 3 + confirm_window + 1.

(** alice cancels at time 4 with bob and carol waiting. *)
Definition seat_freed : database :=
  run 4 (CancelBooking id_b1 table_order) carol_waitlisted.

(** dave queues behind bob and carol: positions 1, 2 and 3. *)
Definition dave_waitlisted : database :=
  run 4 (BookConference id_b5 rust_days "dave") carol_waitlisted.

(** A plan whose [UPDATE] writes the rows from the last arrival to the
    first. *)
Definition last_arrival_first : query_plan :=
  mkPlan (fun _ => 0) (fun w => - w_created_at w).

(** The preconditions of [bookConference], as the service checks them. *)
Definition book_preconditions (now : Z) (n u : string) (s : database) (c : conference) : Prop :=
  getConferenceByName s n = Some c
  /\ getUserById s u <> None
  /\ now < start_time c
  /\ hasExistingBooking s u n = false
  /\ hasConflictingBooking s u (start_time c) (end_time c) = false.

(** Booking a full conference reports the waitlist size plus one. *)
Definition reports_size_plus_one (now : Z) (id n u : string) (s : database) : Prop :=
  snd (bookConference now id n u s)
  = Success id WAITLISTED (Some (Z.of_nat (List.length (waitlist_of s n)) + 1)).

(** ** The preconditions of [confirmWaitlistBooking] *)

Inductive confirm_violation : Type :=
| BookingMissing
| NotWaitlisted
| ConferenceStarted
| DeadlinePassed
| NoSlotsAvailable.

(** The order in which the service checks them. *)
Definition rank (v : confirm_violation) : nat :=
  match v with
  | BookingMissing => 0
  | NotWaitlisted => 1
  | ConferenceStarted => 2
  | DeadlinePassed => 3
  | NoSlotsAvailable => 4
  end.

Definition confirm_error (v : confirm_violation) : string :=
  match v with
  | BookingMissing => "Booking not found"
  | NotWaitlisted => "Booking is not in waitlisted status"
  | ConferenceStarted => "Cannot confirm booking for conference that has already started"
  | DeadlinePassed => "Confirmation deadline has passed"
  | NoSlotsAvailable => "No slots available to confirm booking"
  end.

Definition violated (now : Z) (id : string) (s : database) (v : confirm_violation) : Prop :=
  match v with
  | BookingMissing => booking_by_id s id = None
  | NotWaitlisted =>
      exists b, booking_by_id s id = Some b /\ status b <> WAITLISTED
  | ConferenceStarted =>
      exists b c, booking_by_id s id = Some b
        /\ getConferenceByName s (conference_name b) = Some c /\ start_time c <= now
  | DeadlinePassed =>
      exists b d, booking_by_id s id = Some b /\ confirm_by b = Some d /\ now > d
  | NoSlotsAvailable =>
      exists b c, booking_by_id s id = Some b
        /\ getConferenceByName s (conference_name b) = Some c /\ available_slots c <= 0
  end.

(** [v] is violated and no precondition checked before it is. *)
Definition first_violated (now : Z) (id : string) (s : database) (v : confirm_violation) : Prop :=
  violated now id s v /\ forall v', (rank v' < rank v)%nat -> ~ violated now id s v'.

(** [ORDER BY created_at] ascending. *)
Definition created_le (a b : waitlist_entry) : Prop := w_created_at a <= w_created_at b.

(** The position that [reorderWaitlist] writes into a row of the conference. *)
Definition reordered_position (plan : query_plan) (rows : list waitlist_entry)
    (w : waitlist_entry) : Z :=
  match new_position (row_number 1 (order_by_created_at plan rows)) (w_booking_id w) with
  | Some p => p
  | None => position w
  end.

(** What a reorder leaves of a row: whose it is and when it arrived. *)
Definition arrival (w : waitlist_entry) : string * Z := (w_booking_id w, w_created_at w).

(** ** Displacement *)

(** A WAITLISTED booking that user [u] holds for a conference other than [n]. *)
Definition held_elsewhere (u n : string) (b : booking) : Prop :=
  user_id b = u /\ status b = WAITLISTED /\ conference_name b <> n.

(** User [u] gains the CONFIRMED booking [id] of conference [n]: by the
    confirmed branch of [bookConference], or by [confirmWaitlistBooking]. *)
Definition gains_confirmed (now : Z) (id u n : string) (s s' : database) : Prop :=
  bookConference now id n u s = (s', Success id CONFIRMED None)
  \/ (exists b c bookingId,
        uuid_in bookingId = Some id
        /\ booking_with_conference s id = Some (b, c)
        /\ user_id b = u /\ conference_name b = n
        /\ confirmWaitlistBooking now bookingId s = (s', Success bookingId CONFIRMED None)).

(** ** The post-start sweep *)

(** The sweep has dealt with conference [n]: none of its bookings is
    WAITLISTED and it has no waitlist row. *)
Definition swept (s : database) (n : string) : Prop :=
  (forall b, In b (bookings s) -> conference_name b = n -> status b <> WAITLISTED)
  /\ waitlist_of s n = [].

(** The conference named [n] is one of the started conferences [rows] that
    the sweep goes through. *)
Definition started (rows : list conference) (n : string) : bool :=
  existsb (fun c => String.eqb n (name c)) rows.

(** What a committed sweep makes of a booking row: CANCELED when it was a
    WAITLISTED booking of a started conference. *)
Definition swept_booking (rows : list conference) (b : booking) : booking :=
  if started rows (conference_name b) && status_eqb (status b) WAITLISTED
  then set_status b CANCELED else b.

(** Failure isolation: whatever fails for other conferences, every started
    conference whose own statements succeed has been dealt with when
    [autoCancelForStartedConferences] returns. *)
Definition sweep_isolated (query_fails : string -> bool) (now : Z) (s : database) : Prop :=
  forall c, In c (getStartedConferences now s) ->
    query_fails (name c) = false ->
    swept (fst (autoCancelForStartedConferences query_fails now s)) (name c).

(** Two workshops of one seat each; alice and carol hold the seats, bob and
    dave wait.  At time 300 both workshops have started. *)
Definition morning : string := "Morning Workshop".
Definition evening : string := "Evening Workshop".

Definition two_workshops : database :=
  mkDatabase
    [mkConference morning 100 150 1 1; mkConference evening 200 250 1 1]
    ["alice"; "bob"; "carol"; "dave"]%string [] [].

Definition workshops_booked : database :=
  run 4 (BookConference id_w4 evening "dave")
    (run 3 (BookConference id_w3 evening "carol")
       (run 2 (BookConference id_w2 morning "bob")
          (run 1 (BookConference id_w1 morning "alice") two_workshops))).

Definition evening_fails (n : string) : bool := String.eqb n evening.
Definition nothing_fails (n : string) : bool := false.

(** * The rest of the services

    Definitions for the code around the allocation engine: the other
    functions of [bookingService], [conferenceService] and [userService], the
    pure helpers of the validators, and the predicates used to state further
    properties of the engine.

    Values have the types of their columns: timestamps and slot counts are
    integers, names are strings of characters.  A report carries the columns
    that the tables of the model have.  Where the code looks inside a JavaScript string
    (the topic lists), the string is the list of its UTF-16 code units. *)

(** bob gives up his place in the queue at time 4. *)
Definition bob_cancelled : database :=
  run 4 (CancelBooking id_b2 table_order) carol_waitlisted.

(** [UNIQUE (conference_name, position)] on waitlist: within a conference no
    two waitlist rows share a position. *)
Definition positions_unique (s : database) : Prop :=
  forall n, NoDup (map position (waitlist_of s n)).

(** ** validators: the overlap test *)

(** [hasTimeOverlap = (start1, end1, start2, end2) => start1 < end2 && start2 < end1] *)
Definition hasTimeOverlap (start1 end1 start2 end2 : Z) : bool :=
  (start1 <? end2) && (start2 <? end1).

(** An active booking of user [u]: CONFIRMED or WAITLISTED. *)
Definition active_booking (u : string) (b : booking) : Prop :=
  user_id b = u /\ (status b = CONFIRMED \/ status b = WAITLISTED).

(** ** conferenceService.updateAvailableSlots *)

(** The rows selected by [WHERE name = $2 AND available_slots + $1 >= 0 AND
    available_slots + $1 <= total_slots]. *)
Definition slot_change_allowed (conferenceName : string) (change : Z) (c : conference) : bool :=
  String.eqb (name c) conferenceName
  && (0 <=? available_slots c + change)
  && (available_slots c + change <=? total_slots c).

(** The range of an [INTEGER] column. *)
Definition integer (x : Z) : bool :=
  (-2147483648 <=? x) && (x <=? 2147483647).

(** The statement raises "out of range" where [$1] is no [INTEGER], and
    where [available_slots + $1] leaves the range on a row of that name; the
    other rows fail [name = $2] before the sum is looked at. *)
Definition slot_change_raises (conferenceName : string) (change : Z) (s : database) : bool :=
  negb (integer change)
  || existsb (fun c => String.eqb (name c) conferenceName
                       && negb (integer (available_slots c + change)))
       (conferences s).

(** Returns the new state and [result.rows.length > 0]; [None] when the
    statement raises, which the [catch] block throws again. *)
Definition updateAvailableSlots (conferenceName : string) (change : Z) (s : database)
    : option (database * bool) :=
  if slot_change_raises conferenceName change s then None
  else Some
    (with_conferences s
       (map (fun c => if slot_change_allowed conferenceName change c
                      then set_available c (available_slots c + change) else c)
            (conferences s)),
     existsb (slot_change_allowed conferenceName change) (conferences s)).

(** The slot counts that the table holds are [INTEGER]s. *)
Definition slots_are_integers (s : database) : Prop :=
  forall c, In c (conferences s) ->
    integer (total_slots c) = true /\ integer (available_slots c) = true.

(** ** Read-only reports *)

(** What a report returns: [{success: true, data}] or [{success: false, error}]. *)
Inductive reply (A : Type) : Type :=
| Data (data : A)
| Error (error : string).
Arguments Data {A} data.
Arguments Error {A} error.

(** [COUNT(CASE WHEN status = st THEN 1 END)] *)
Definition count_status (st : booking_status) (bs : list booking) : nat :=
  List.length (filter (fun b => status_eqb (status b) st) bs).

Definition bookings_of (s : database) (n : string) : list booking :=
  filter (fun b => String.eqb (conference_name b) n) (bookings s).

Record conference_stats : Type := mkConferenceStats {
  cs_name : string;
  cs_total_slots : Z;
  cs_available_slots : Z;
  cs_booked_slots : Z;
  cs_confirmed_bookings : nat;
  cs_waitlisted_bookings : nat;
  cs_canceled_bookings : nat
}.

(** conferenceService.getConferenceStats: one group per conference row, the
    name being the primary key; the bookings joined are those of that name. *)
Definition getConferenceStats (s : database) (conferenceName : string)
    : reply conference_stats :=
  match getConferenceByName s conferenceName with
  | None => Error "Conference not found"
  | Some c =>
      let joined := bookings_of s (name c) in
      Data (mkConferenceStats (name c) (total_slots c) (available_slots c)
              (total_slots c - available_slots c)
              (count_status CONFIRMED joined)
              (count_status WAITLISTED joined)
              (count_status CANCELED joined))
  end.

(** [SUM(...)] is NULL on an empty table. *)
Definition sum_of (l : list Z) : option Z :=
  match l with
  | [] => None
  | _ => Some (fold_right Z.add 0 l)
  end.

(** [COUNT(DISTINCT ...)] *)
Definition count_distinct (l : list string) : nat :=
  List.length (nodup string_dec l).

Record booking_statistics : Type := mkBookingStatistics {
  total_bookings : nat;
  confirmed_bookings : nat;
  waitlisted_bookings : nat;
  canceled_bookings : nat;
  unique_users : nat;
  conferences_with_bookings : nat;
  total_conferences : nat;
  total_capacity : option Z;
  available_capacity : option Z;
  booked_capacity : option Z
}.

(** bookingService.getBookingStatistics: the row of booking counts and the
    row of conference sums. *)
Definition getBookingStatistics (s : database) : booking_statistics :=
  mkBookingStatistics
    (List.length (bookings s))
    (count_status CONFIRMED (bookings s))
    (count_status WAITLISTED (bookings s))
    (count_status CANCELED (bookings s))
    (count_distinct (map user_id (bookings s)))
    (count_distinct (map conference_name (bookings s)))
    (List.length (conferences s))
    (sum_of (map total_slots (conferences s)))
    (sum_of (map available_slots (conferences s)))
    (sum_of (map (fun c => total_slots c - available_slots c) (conferences s))).

(** The row of bookingService.getBookingStatus: the booking, the position of
    its waitlist row if it has one ([LEFT JOIN]), and the window of its
    conference.  [updated_at], [location] and [topics], which the tables of
    the model do not hold, are not in it. *)
Record booking_status_data : Type := mkBookingStatusData {
  bsd_booking : booking;
  bsd_waitlist_position : option Z;
  bsd_start_time : Z;
  bsd_end_time : Z
}.

(** The report for the identifier that the text of the request denotes. *)
Definition status_uuid (s : database) (bookingId : string) : reply booking_status_data :=
  match booking_with_conference s bookingId with
  | None => Error "Booking not found"
  | Some (b, c) =>
      Data (mkBookingStatusData b
              (option_map position
                 (find (fun w => String.eqb (w_booking_id w) bookingId) (waitlist s)))
              (start_time c) (end_time c))
  end.

(** A text that is no identifier makes the query raise; the [catch] block
    answers for it. *)
Definition getBookingStatus (s : database) (bookingId : string) : reply booking_status_data :=
  match uuid_in bookingId with
  | Some id => status_uuid s id
  | None => Error "Failed to get booking status"
  end.

(** ** Waitlist rows and WAITLISTED bookings *)

(** Every waitlist row belongs to a WAITLISTED booking of the same
    conference, and every WAITLISTED booking has a waitlist row. *)
Definition consistent_rows (bs : list booking) (ws : list waitlist_entry) : Prop :=
  (forall w, In w ws ->
     exists b, In b bs /\ booking_id b = w_booking_id w
               /\ conference_name b = w_conference_name w /\ status b = WAITLISTED)
  /\ (forall b, In b bs -> status b = WAITLISTED ->
        exists w, In w ws /\ w_booking_id w = booking_id b
                  /\ w_conference_name w = conference_name b).

Definition waitlist_consistent (s : database) : Prop :=
  consistent_rows (bookings s) (waitlist s).

(** ** bookingService.getConferenceWaitlist *)

(** The columns selected: [w.position, b.booking_id, b.user_id, b.created_at,
    b.confirm_by]. *)
Record waitlist_line : Type := mkWaitlistLine {
  wl_position : Z;
  wl_booking_id : string;
  wl_user_id : string;
  wl_created_at : Z;
  wl_confirm_by : option Z
}.

(** [FROM waitlist w JOIN bookings b ON w.booking_id = b.booking_id
    WHERE w.conference_name = n] *)
Definition waitlist_join (s : database) (n : string) : list waitlist_line :=
  flat_map (fun w =>
              map (fun b => mkWaitlistLine (position w) (booking_id b) (user_id b)
                              (created_at b) (confirm_by b))
                  (bookings_with_id s (w_booking_id w)))
           (waitlist_of s n).

(** [ORDER BY w.position ASC]: lines with equal positions stay in join order. *)
Fixpoint insert_by_position (x : waitlist_line) (l : list waitlist_line) : list waitlist_line :=
  match l with
  | [] => [x]
  | y :: rest =>
      if wl_position x <=? wl_position y then x :: l
      else y :: insert_by_position x rest
  end.

Definition order_by_position (l : list waitlist_line) : list waitlist_line :=
  fold_right insert_by_position [] l.

(** Returns [data] and [count: result.rows.length]. *)
Definition getConferenceWaitlist (s : database) (n : string) : list waitlist_line * nat :=
  let rows := order_by_position (waitlist_join s n) in
  (rows, List.length rows).

Definition ascending (l : list waitlist_line) : Prop :=
  StronglySorted (fun a b => wl_position a < wl_position b) l.

Definition line_key (l : waitlist_line) : string * Z := (wl_booking_id l, wl_position l).

Definition entry_key (w : waitlist_entry) : string * Z := (w_booking_id w, position w).

(** ** validators and services: topic lists *)

(** A JavaScript string, where the code looks inside it: the sequence of its
    UTF-16 code units. *)
Definition js_string : Type := list Z.

Definition code_units (x : string) : js_string :=
  map (fun a => Z.of_nat (Ascii.nat_of_ascii a)) (list_ascii_of_string x).

(** The code units that [String.prototype.trim] strips and that the class
    [\s] matches: WhiteSpace and LineTerminator. *)
Definition is_space (c : Z) : bool :=
  (c =? 9) || (c =? 10) || (c =? 11) || (c =? 12) || (c =? 13) || (c =? 32)
  || (c =? 160) || (c =? 5760) || ((8192 <=? c) && (c <=? 8202))
  || (c =? 8232) || (c =? 8233) || (c =? 8239) || (c =? 8287) || (c =? 12288)
  || (c =? 65279).

Definition comma : Z := 44.

(** [x.split(',')]: the empty string gives one empty piece. *)
Fixpoint split_commas (x : js_string) : list js_string :=
  match x with
  | [] => [[]]
  | c :: rest =>
      if c =? comma then [] :: split_commas rest
      else match split_commas rest with
           | piece :: pieces => (c :: piece) :: pieces
           | [] => [[c]]
           end
  end.

Fixpoint trim_start (x : js_string) : js_string :=
  match x with
  | [] => []
  | c :: rest => if is_space c then trim_start rest else x
  end.

Definition trim (x : js_string) : js_string :=
  rev (trim_start (rev (trim_start x))).

(** [topics.split(',').map(topic => topic.trim()).filter(topic => topic.length > 0)] *)
Definition parse_topics (topics : js_string) : list js_string :=
  filter (fun topic => Nat.ltb 0 (List.length topic)) (map trim (split_commas topics)).

(** One code unit of the class [[a-zA-Z0-9\s]]. *)
Definition is_alphanumeric_or_space (c : Z) : bool :=
  ((97 <=? c) && (c <=? 122)) || ((65 <=? c) && (c <=? 90))
  || ((48 <=? c) && (c <=? 57)) || is_space c.

(** [/^[a-zA-Z0-9\s]+$/.test(str)] *)
Definition isAlphanumericWithSpaces (str : js_string) : bool :=
  match str with
  | [] => false
  | _ => forallb is_alphanumeric_or_space str
  end.

Definition validateTopicsString (topicsString : js_string) : bool :=
  match topicsString with
  | [] => false
  | _ =>
      let topics := map trim (split_commas topicsString) in
      if Nat.ltb 50 (List.length topics) then false
      else forallb (fun topic => Nat.ltb 0 (List.length topic)
                                 && Nat.leb (List.length topic) 100
                                 && isAlphanumericWithSpaces topic) topics
  end.

(** The [topics] rule of [conferenceValidation] and the [interested_topics]
    rule of [userValidation]: [true] when the rule raises no error. *)
Definition conference_topics_accepted (value : js_string) : bool :=
  validateTopicsString value
  && negb (Nat.ltb 10 (List.length (map trim (split_commas value)))).

Definition user_topics_accepted (value : js_string) : bool :=
  validateTopicsString value
  && negb (Nat.ltb 50 (List.length (map trim (split_commas value)))).

(** [pieces.join(',')] *)
Fixpoint join_commas (pieces : list js_string) : js_string :=
  match pieces with
  | [] => []
  | [piece] => piece
  | piece :: rest => piece ++ comma :: join_commas rest
  end.

(** A topic as the services store it: not empty, without a comma, and with
    no space at either end. *)
Definition clean_topic (topic : js_string) : Prop :=
  topic <> []
  /\ ~ In comma topic
  /\ (forall c, hd_error topic = Some c -> is_space c = false)
  /\ (forall c, hd_error (rev topic) = Some c -> is_space c = false).

(** ** Column types *)

Definition all_spaces (x : string) : bool :=
  forallb (Ascii.eqb Ascii.Space) (list_ascii_of_string x).

(** The value stored in a [VARCHAR(255)] column.  A longer value is rejected,
    unless the excess characters are all spaces: then they are cut. *)
Definition varchar255 (x : string) : option string :=
  if Nat.leb (String.length x) 255 then Some x
  else if all_spaces (substring 255 (String.length x - 255) x)
  then Some (substring 0 255 x)
  else None.

(** [INTERVAL '12 hours'], in milliseconds. *)
Definition twelve_hours : Z := 12 * 60 * 60 * 1000.

Definition with_users (s : database) (us : list string) : database :=
  mkDatabase (conferences s) us (bookings s) (waitlist s).

(** ** conferenceService.addConference *)

(** [SELECT name FROM conferences WHERE name = $1], [result.rows.length === 0] *)
Definition isUniqueConferenceName (s : database) (n : string) : bool :=
  Nat.eqb (List.length (filter (fun c => String.eqb (name c) n) (conferences s))) 0.

(** [INSERT INTO conferences (name, location, topics, start_time, end_time,
    total_slots, available_slots) VALUES ($1, $2, $3, $4, $5, $6, $6)
    RETURNING *]: rejected when a value does not fit its column, when a CHECK
    constraint of the table fails, or when the name is taken. *)
Definition insert_conference (n location : string) (start finish slots : Z) (s : database)
    : option (database * conference) :=
  match varchar255 n, varchar255 location with
  | Some stored, Some _ =>
      let row := mkConference stored start finish slots slots in
      if integer slots
         && (0 <? total_slots row)
         && (0 <=? available_slots row)
         && (start_time row <? end_time row)
         && (end_time row <=? start_time row + twelve_hours)
         && (available_slots row <=? total_slots row)
         && negb (existsb (fun c => String.eqb (name c) stored) (conferences s))
      then Some (with_conferences s (conferences s ++ [row]), row)
      else None
  | _, _ => None
  end.

Definition addConference (name location : string) (topics : js_string)
    (start_time end_time total_slots : Z) (s : database) : database * reply conference :=
  if negb (isUniqueConferenceName s name)
  then (s, Error "Conference name already exists")
  else
    let topicsArray := parse_topics topics in
    if Nat.ltb 10 (List.length topicsArray)
    then (s, Error "Maximum 10 topics allowed per conference")
    else if Nat.eqb (List.length topicsArray) 0
    then (s, Error "At least one topic is required")
    else
      match insert_conference name location start_time end_time total_slots s with
      | Some (s', conference) => (s', Data conference)
      | None => (s, Error "Failed to add conference")
      end.

(** ** userService.addUser *)

(** What [INSERT INTO users] does: the row is stored, or the statement raises
    a unique violation (code 23505), or it raises another error. *)
Inductive user_insert : Type :=
| Inserted (s' : database) (row : string)
| UniqueViolation
| OtherError.

(** [CONSTRAINT max_topics CHECK (array_length(interested_topics, 1) <= 50)]
    is checked on the new row before the primary key index is updated; the
    array length of an empty array is NULL, which passes. *)
Definition insert_user (u : string) (topicsArray : list js_string) (s : database)
    : user_insert :=
  match varchar255 u with
  | None => OtherError
  | Some stored =>
      if Nat.ltb 50 (List.length topicsArray) then OtherError
      else if existsb (String.eqb stored) (users s) then UniqueViolation
      else Inserted (with_users s (users s ++ [stored])) stored
  end.

Definition addUser (user_id : string) (interested_topics : js_string) (s : database)
    : database * reply string :=
  let topicsArray := parse_topics interested_topics in
  match insert_user user_id topicsArray s with
  | Inserted s' row => (s', Data row)
  | UniqueViolation => (s, Error "User ID already exists")
  | OtherError => (s, Error "Failed to add user")
  end.

(** The values that the rules of [conferenceValidation] let through, as far
    as the table is concerned. *)
Definition conference_row_valid (n location : string) (topics : js_string)
    (start finish slots : Z) : Prop :=
  (String.length n <= 255)%nat
  /\ (String.length location <= 255)%nat
  /\ conference_topics_accepted topics = true
  /\ start < finish <= start + twelve_hours
  /\ 1 <= slots <= 2147483647.

(** A third conference is announced, and dave's sister signs up. *)
Definition types_forum : conference :=
  mkConference "Types Forum" 50000000 60000000 30 30.

Definition three_conferences : database :=
  with_conferences two_conferences (conferences two_conferences ++ [types_forum]).

Definition erin_signed_up : database :=
  with_users three_conferences (users three_conferences ++ ["erin"%string]).

(** ** The service as a whole *)

(** The columns of a conference that only [addConference] writes. *)
Definition window (c : conference) : string * Z * Z * Z :=
  (name c, start_time c, end_time c, total_slots c).

(** What the engine leaves alone: the users, and of each conference all but
    [available_slots]. *)
Definition same_setup (s s' : database) : Prop :=
  map window (conferences s') = map window (conferences s)
  /\ users s' = users s.

(** [user_id ... REFERENCES users(user_id)] on bookings *)
Definition bookings_reference_users (s : database) : Prop :=
  forall b, In b (bookings s) -> In (user_id b) (users s).

(** [CHECK (total_slots > 0)], [CHECK (end_time > start_time)],
    [CHECK (end_time <= start_time + INTERVAL '12 hours')] *)
Definition windows_valid (s : database) : Prop :=
  forall c, In c (conferences s) ->
    0 < total_slots c /\ start_time c < end_time c <= start_time c + twelve_hours.

(** What a client can ask for: an operation of the booking engine, a new
    conference, a new user. *)
Inductive request : Type :=
| Engine (op : operation)
| AddConference (name location : string) (topics : js_string)
    (start_time end_time total_slots : Z)
| AddUser (user_id : string) (interested_topics : js_string).

Definition serve (now : Z) (r : request) (s : database) : database :=
  match r with
  | Engine op => run now op s
  | AddConference n location topics start finish slots =>
      fst (addConference n location topics start finish slots s)
  | AddUser u topics => fst (addUser u topics s)
  end.

(** The requests of a log, each with the time at which it is served. *)
Definition serve_all (log : list (Z * request)) (s : database) : database :=
  fold_left (fun t entry => serve (fst entry) (snd entry) t) log s.

Definition empty_database : database := mkDatabase [] [] [] [].

Definition sound (s : database) : Prop :=
  schema_ok s /\ bookings_reference_users s /\ windows_valid s
  /\ ledger_invariant s /\ positions_unique s /\ waitlist_consistent s.

(** The first three requests of a fresh installation, with their times. *)
Definition opening_log : list (Z * request) :=
  [(0, AddConference "Types Forum" "Lyon" (code_units "Types, Proofs") 50000000 60000000 30);
   (1, AddUser "erin" (code_units "Types"));
   (2, Engine (BookConference id_b1 "Types Forum" "erin"))].

(** ** userService.deleteUser *)

(** [DELETE FROM bookings WHERE user_id = $1]; the waitlist rows of the
    deleted bookings go with them ([ON DELETE CASCADE]). *)
Definition delete_bookings_of (userId : string) (s : database) : database :=
  let deleted := filter (fun b => String.eqb (user_id b) userId) (bookings s) in
  mkDatabase (conferences s) (users s)
    (filter (fun b => negb (String.eqb (user_id b) userId)) (bookings s))
    (filter (fun w => negb (existsb (fun b => String.eqb (booking_id b) (w_booking_id w))
                                    deleted))
            (waitlist s)).

(** [DELETE FROM users WHERE user_id = $1 RETURNING *], with the rows
    returned. *)
Definition delete_user_row (userId : string) (s : database) : database * list string :=
  (with_users s (filter (fun x => negb (String.eqb x userId)) (users s)),
   filter (fun x => String.eqb x userId) (users s)).

(** [const client = await query.getClient()] stands before the [try]: when
    it yields no client, given here by [client = false], the call raises.
    With a client, the two statements run in one transaction, rolled back
    when no user row was deleted. *)
Definition deleteUser (client : bool) (userId : string) (s : database)
    : option (database * reply string) :=
  if negb client then None
  else
    let s1 := delete_bookings_of userId s in
    let (s2, rows) := delete_user_row userId s1 in
    if Nat.eqb (List.length rows) 0
    then Some (s, Error "User not found")
    else Some (s2, Data "User deleted successfully"%string).

(** The CONFIRMED bookings that user [u] holds of conference [n]. *)
Definition seats_held (s : database) (u n : string) : nat :=
  List.length (filter (fun b => confirmed_for n b && String.eqb (user_id b) u) (bookings s)).

(** ** No user is booked twice at the same time *)

(** Two different active bookings of one user are of conferences whose
    windows do not overlap. *)
Definition no_double_booking (s : database) : Prop :=
  forall u b1 b2 c1 c2,
    In b1 (bookings s) -> In b2 (bookings s) ->
    booking_id b1 <> booking_id b2 ->
    active_booking u b1 -> active_booking u b2 ->
    getConferenceByName s (conference_name b1) = Some c1 ->
    getConferenceByName s (conference_name b2) = Some c2 ->
    hasTimeOverlap (start_time c1) (end_time c1) (start_time c2) (end_time c2) = false.

(** The rows [bs'] are the rows [bs] after updates that keep whose booking
    each row is and never bring a CANCELED booking back. *)
Definition retired (bs bs' : list booking) : Prop :=
  exists f, bs' = map f bs
            /\ forall b, In b bs ->
                 identity (f b) = identity b
                 /\ (status b = CANCELED -> status (f b) = CANCELED).

(** A second conference is announced and erin books it too. *)
Definition second_log : list (Z * request) :=
  opening_log
  ++ [(3, AddConference "Proof Camp" "Nantes" (code_units "Proofs") 70000000 80000000 10);
      (4, Engine (BookConference id_b2 "Proof Camp" "erin"))].

(** * Proofs *)

(** ** Lists, filters and counting *)

Lemma filter_map_length {A B : Type} (p : B -> bool) (f : A -> B) (l : list A) :
  List.length (filter p (map f l)) = List.length (filter (fun x => p (f x)) l).
Proof.
  induction l as [|x l IH]; simpl; [reflexivity|].
  destruct (p (f x)); simpl; now rewrite IH.
Qed.

Lemma map_unchanged {A : Type} (f : A -> A) (l : list A) :
  (forall x, In x l -> f x = x) -> map f l = l.
Proof.
  induction l as [|x l IH]; simpl; intros H; [reflexivity|].
  rewrite H by now left. f_equal. apply IH. intros; apply H; now right.
Qed.

Lemma count_after_map (n : string) (f : booking -> booking) (bs : list booking) :
  (forall b, In b bs -> confirmed_for n (f b) = confirmed_for n b) ->
  List.length (filter (confirmed_for n) (map f bs)) = List.length (filter (confirmed_for n) bs).
Proof.
  intros H. rewrite filter_map_length.
  induction bs as [|b bs IH]; simpl; [reflexivity|].
  rewrite H by now left.
  destruct (confirmed_for n b); simpl; rewrite IH; auto; intros; apply H; now right.
Qed.

(** Updating the one row that carries an identifier changes the count of
    CONFIRMED rows by the difference of that row's contributions. *)
Lemma count_after_update (n id : string) (f : booking -> booking) (bs : list booking) (b : booking) :
  NoDup (map booking_id bs) ->
  find (fun x => String.eqb (booking_id x) id) bs = Some b ->
  Z.of_nat (List.length (filter (confirmed_for n)
      (map (fun x => if String.eqb (booking_id x) id then f x else x) bs)))
  = Z.of_nat (List.length (filter (confirmed_for n) bs))
    - indicator (confirmed_for n b) + indicator (confirmed_for n (f b)).
Proof.
  induction bs as [|x bs IH]; simpl; intros Hnd Hfind; [discriminate|].
  inversion Hnd as [|? ? Hnotin Hnd']; subst.
  destruct (String.eqb (booking_id x) id) eqn:E.
  - injection Hfind as ->.
    apply String.eqb_eq in E.
    rewrite (map_unchanged _ bs).
    + destruct (confirmed_for n (f b)), (confirmed_for n b); simpl List.length;
        unfold indicator; lia.
    + intros y Hy. destruct (String.eqb (booking_id y) id) eqn:E'; [|reflexivity].
      apply String.eqb_eq in E'. exfalso. apply Hnotin. rewrite E, <- E'.
      now apply in_map.
  - specialize (IH Hnd' Hfind).
    destruct (confirmed_for n x); simpl List.length; lia.
Qed.

Lemma count_after_insert (n : string) (bs : list booking) (b : booking) :
  Z.of_nat (List.length (filter (confirmed_for n) (bs ++ [b])))
  = Z.of_nat (List.length (filter (confirmed_for n) bs)) + indicator (confirmed_for n b).
Proof.
  rewrite filter_app, length_app. simpl.
  destruct (confirmed_for n b); simpl; unfold indicator; lia.
Qed.

Lemma find_some_id (bs : list booking) (id : string) (b : booking) :
  find (fun x => String.eqb (booking_id x) id) bs = Some b ->
  In b bs /\ booking_id b = id.
Proof.
  intros H. apply find_some in H. destruct H as [H1 H2].
  apply String.eqb_eq in H2. auto.
Qed.

Lemma status_eqb_eq (a b : booking_status) : status_eqb a b = true <-> a = b.
Proof. destruct a, b; simpl; split; intros; congruence. Qed.

Lemma status_eqb_neq (a b : booking_status) : status_eqb a b = false <-> a <> b.
Proof. destruct a, b; simpl; split; intros; congruence. Qed.

(** ** The text of a request and the plan of a statement *)

Lemma confirm_parsed (P : database -> Prop) (now : Z) (bookingId : string) (s : database) :
  P s ->
  (forall id, uuid_in bookingId = Some id -> P (fst (confirm_uuid now id s))) ->
  P (fst (confirmWaitlistBooking now bookingId s)).
Proof.
  intros H0 H. unfold confirmWaitlistBooking.
  destruct (uuid_in bookingId) as [id|]; simpl; auto.
Qed.

Lemma cancel_parsed (P : database -> Prop) (plan : query_plan) (now : Z)
    (bookingId : string) (s : database) :
  P s ->
  (forall id, uuid_in bookingId = Some id -> P (fst (cancel_uuid plan now id s))) ->
  P (fst (cancelBooking plan now bookingId s)).
Proof.
  intros H0 H. unfold cancelBooking.
  destruct (uuid_in bookingId) as [id|]; simpl; auto.
Qed.

Lemma insert_by_visit_perm (plan : query_plan) (w : waitlist_entry)
    (l : list waitlist_entry) :
  Permutation (insert_by_visit plan w l) (w :: l).
Proof.
  induction l as [|x l IH]; simpl; [apply Permutation_refl|].
  destruct (visit_rank plan w <=? visit_rank plan x); [apply Permutation_refl|].
  eapply perm_trans; [apply perm_skip, IH|apply perm_swap].
Qed.

Lemma order_by_visit_perm (plan : query_plan) (l : list waitlist_entry) :
  Permutation (order_by_visit plan l) l.
Proof.
  induction l as [|x l IH]; simpl; [constructor|].
  eapply perm_trans; [apply insert_by_visit_perm|now apply perm_skip].
Qed.

Lemma write_position_some (n id : string) (p : Z) (ws ws' : list waitlist_entry) :
  write_position n id p ws = Some ws' ->
  ws' = map (fun w => if String.eqb (w_conference_name w) n
                         && String.eqb (w_booking_id w) id
                      then set_position w p else w) ws.
Proof.
  unfold write_position. destruct (existsb _ ws); [discriminate|]. now intros [= <-].
Qed.

(** The rows once every write of the statement has passed: each visited row
    of the conference holds its new position. *)
Lemma write_positions_some (n : string) (reordered : list (string * Z))
    (rows : list waitlist_entry) :
  forall ws ws',
  write_positions n reordered rows ws = Some ws' ->
  ws' = map (fun w =>
               if String.eqb (w_conference_name w) n
                  && existsb (fun r => String.eqb (w_booking_id w) (w_booking_id r)) rows
               then match new_position reordered (w_booking_id w) with
                    | Some p => set_position w p
                    | None => w
                    end
               else w) ws.
Proof.
  induction rows as [|r rows IH]; intros ws ws' H; simpl in H.
  - injection H as <-. symmetry. apply map_unchanged. intros w _.
    now rewrite andb_false_r.
  - destruct (new_position reordered (w_booking_id r)) as [p|] eqn:Ep.
    + destruct (write_position n (w_booking_id r) p ws) as [ws1|] eqn:Ew; [|discriminate].
      apply write_position_some in Ew. subst ws1.
      apply IH in H. rewrite H, map_map. apply map_ext. intros w.
      cbn [existsb].
      destruct (String.eqb (w_conference_name w) n) eqn:En; cbn [andb]; [|now rewrite En].
      destruct (String.eqb (w_booking_id w) (w_booking_id r)) eqn:Eid; cbn [orb].
      * apply String.eqb_eq in Eid. cbn [w_conference_name w_booking_id set_position].
        rewrite En, Eid, Ep. cbn [andb].
        now destruct (existsb _ rows).
      * rewrite En. reflexivity.
    + apply IH in H. rewrite H. apply map_ext. intros w.
      cbn [existsb].
      destruct (String.eqb (w_conference_name w) n) eqn:En; cbn [andb]; [|reflexivity].
      destruct (String.eqb (w_booking_id w) (w_booking_id r)) eqn:Eid; cbn [orb];
        [|reflexivity].
      apply String.eqb_eq in Eid. rewrite Eid, Ep.
      now destruct (existsb _ rows).
Qed.

(** When the [UPDATE] of [reorderWaitlist] passes, the table is the
    renumbered one, whatever the order of the writes. *)
Lemma reorderWaitlist_renumbered (plan : query_plan) (n : string) (s s' : database) :
  reorderWaitlist plan n s = Some s' -> s' = renumbered plan n s.
Proof.
  unfold reorderWaitlist.
  destruct (write_positions n _ _ (waitlist s)) as [ws|] eqn:E; [|discriminate].
  intros [= <-]. apply write_positions_some in E. subst ws.
  unfold renumbered. f_equal. apply map_ext_in. intros w Hw.
  destruct (String.eqb (w_conference_name w) n) eqn:En; cbn [andb]; [|reflexivity].
  assert (Hin : In w (order_by_visit plan (waitlist_of s n))).
  { eapply Permutation_in; [apply Permutation_sym, order_by_visit_perm|].
    unfold waitlist_of. apply filter_In. now split. }
  assert (Hex : existsb (fun r => String.eqb (w_booking_id w) (w_booking_id r))
                  (order_by_visit plan (waitlist_of s n)) = true).
  { apply existsb_exists. exists w. split; [assumption|apply String.eqb_refl]. }
  now rewrite Hex.
Qed.

(** A goal about the state after [confirmWaitlistBooking] or
    [cancelBooking]: nothing has happened, or the transaction has run for the
    identifier that the text denotes. *)
Ltac parse_id id :=
  first [apply confirm_parsed | apply cancel_parsed];
  [try assumption
  |let u := fresh "uuid" in intros u _; clear id; rename u into id].

(** The [UPDATE] of [reorderWaitlist] in a goal: passed, or raised. *)
Ltac open_reorder :=
  match goal with
  | |- context [reorderWaitlist ?p ?n ?s] =>
      let E := fresh "Er" in
      let t := fresh "s" in
      destruct (reorderWaitlist p n s) as [t|] eqn:E;
      [apply reorderWaitlist_renumbered in E; subst t|]
  end.

(** ** Frames of the statements *)

Lemma add_available_slots_some (delta : Z) (n : string) (s s' : database) :
  add_available_slots delta n s = Some s' ->
  conferences s' = map (fun c => if String.eqb (name c) n
                                 then set_available c (available_slots c + delta) else c)
                       (conferences s)
  /\ bookings s' = bookings s /\ waitlist s' = waitlist s /\ users s' = users s.
Proof.
  unfold add_available_slots. destruct (forallb _ _); [|discriminate].
  intros [= <-]. simpl. auto.
Qed.

Lemma insert_booking_some (b : booking) (s s' : database) :
  insert_booking b s = Some s' ->
  bookings s' = bookings s ++ [b] /\ conferences s' = conferences s
  /\ waitlist s' = waitlist s /\ users s' = users s
  /\ ~ In (booking_id b) (map booking_id (bookings s))
  /\ (forall b', In b' (bookings s) ->
        ~ (conference_name b' = conference_name b /\ user_id b' = user_id b)).
Proof.
  unfold insert_booking. destruct (existsb _ _) eqn:E; [discriminate|].
  intros [= <-]. simpl. repeat split; try reflexivity.
  - intros Hin. apply in_map_iff in Hin. destruct Hin as [b' [Hid Hb']].
    assert (X : existsb (fun b'0 => String.eqb (booking_id b'0) (booking_id b)
               || (String.eqb (conference_name b'0) (conference_name b)
                   && String.eqb (user_id b'0) (user_id b))) (bookings s) = true).
    { apply existsb_exists. exists b'. split; [assumption|].
      rewrite Hid, String.eqb_refl. reflexivity. }
    congruence.
  - intros b' Hb' [H1 H2].
    assert (X : existsb (fun b'0 => String.eqb (booking_id b'0) (booking_id b)
               || (String.eqb (conference_name b'0) (conference_name b)
                   && String.eqb (user_id b'0) (user_id b))) (bookings s) = true).
    { apply existsb_exists. exists b'. split; [assumption|].
      rewrite H1, H2, !String.eqb_refl. apply orb_true_r. }
    congruence.
Qed.

Lemma processNextInWaitlist_frame (now : Z) (n : string) (s : database) :
  conferences (processNextInWaitlist now n s) = conferences s
  /\ waitlist (processNextInWaitlist now n s) = waitlist s
  /\ users (processNextInWaitlist now n s) = users s
  /\ exists f, (forall b, f b = b \/ f b = set_confirm_by b (Some (now + confirm_window)))
               /\ bookings (processNextInWaitlist now n s) = map f (bookings s).
Proof.
  unfold processNextInWaitlist. destruct (waitlist_head s n) as [h|]; simpl.
  - repeat split; try reflexivity.
    eexists; split; [|reflexivity].
    intros b; simpl. destruct (String.eqb _ _); auto.
  - repeat split; try reflexivity.
    exists (fun b => b). split; [auto|]. now rewrite map_id.
Qed.

Lemma removeUserFromAllWaitlists_frame (u : string) (ex : option string) (s : database) :
  conferences (removeUserFromAllWaitlists u ex s) = conferences s
  /\ users (removeUserFromAllWaitlists u ex s) = users s
  /\ bookings (removeUserFromAllWaitlists u ex s)
     = map (fun b => if displaced u ex b then set_status b CANCELED else b) (bookings s).
Proof. unfold removeUserFromAllWaitlists. simpl. auto. Qed.

Lemma displaced_waitlisted (u : string) (ex : option string) (b : booking) :
  displaced u ex b = true -> status b = WAITLISTED /\ user_id b = u.
Proof.
  unfold displaced. intros H.
  apply andb_true_iff in H. destruct H as [H _].
  apply andb_true_iff in H. destruct H as [H1 H2].
  apply String.eqb_eq in H1. apply status_eqb_eq in H2. auto.
Qed.

(** ** The capacity ledger *)

Lemma same_ledger_refl (s : database) : same_ledger s s.
Proof. split; auto. Qed.

Lemma same_ledger_trans (s1 s2 s3 : database) :
  same_ledger s1 s2 -> same_ledger s2 s3 -> same_ledger s1 s3.
Proof.
  intros [H1 H2] [H3 H4]. split; [congruence|].
  intros n. now rewrite H4, H2.
Qed.

Lemma same_ledger_bookings (s s' : database) :
  conferences s' = conferences s -> bookings s' = bookings s -> same_ledger s s'.
Proof. intros H1 H2. split; [assumption|]. intros n. unfold count_confirmed. now rewrite H2. Qed.

Lemma same_ledger_map (s s' : database) (f : booking -> booking) :
  conferences s' = conferences s ->
  bookings s' = map f (bookings s) ->
  (forall n b, In b (bookings s) -> confirmed_for n (f b) = confirmed_for n b) ->
  same_ledger s s'.
Proof.
  intros H1 H2 H3. split; [assumption|]. intros n. unfold count_confirmed.
  rewrite H2. apply count_after_map. intros; now apply H3.
Qed.

Lemma ledger_same (s s' : database) :
  same_ledger s s' -> ledger_invariant s -> ledger_invariant s'.
Proof.
  intros [H1 H2] H c Hc. rewrite H1 in Hc. rewrite H2. now apply H.
Qed.

Lemma ledger_bump (delta : Z) (n : string) (s s' : database) :
  ledger_invariant s ->
  conferences s' = map (fun c => if String.eqb (name c) n
                                 then set_available c (available_slots c + delta) else c)
                       (conferences s) ->
  (forall m, Z.of_nat (count_confirmed s' m)
             = Z.of_nat (count_confirmed s m) - (if String.eqb m n then delta else 0)) ->
  ledger_invariant s'.
Proof.
  intros H Hc Hn c' Hin. rewrite Hc in Hin.
  apply in_map_iff in Hin. destruct Hin as [c [<- Hin]].
  specialize (H c Hin).
  destruct (String.eqb (name c) n) eqn:E; simpl.
  - rewrite Hn, E. lia.
  - rewrite Hn, E. lia.
Qed.

Lemma processNextInWaitlist_ledger (now : Z) (n : string) (s : database) :
  same_ledger s (processNextInWaitlist now n s).
Proof.
  destruct (processNextInWaitlist_frame now n s) as (Hc & _ & _ & f & Hf & Hb).
  apply (same_ledger_map _ _ f); auto.
  intros m b _. destruct (Hf b) as [-> | ->]; reflexivity.
Qed.

Lemma removeUserFromAllWaitlists_ledger (u : string) (ex : option string) (s : database) :
  same_ledger s (removeUserFromAllWaitlists u ex s).
Proof.
  destruct (removeUserFromAllWaitlists_frame u ex s) as (Hc & _ & Hb).
  eapply same_ledger_map; eauto.
  intros m b _. simpl. destruct (displaced u ex b) eqn:E; [|reflexivity].
  apply displaced_waitlisted in E. destruct E as [E _].
  unfold confirmed_for. simpl. rewrite E. simpl. now rewrite !andb_false_r.
Qed.

Lemma for_each_preserves {A : Type} (R : database -> database -> Prop)
    (body : A -> database -> option database) :
  (forall s, R s s) ->
  (forall s1 s2 s3, R s1 s2 -> R s2 s3 -> R s1 s3) ->
  (forall x s s', body x s = Some s' -> R s s') ->
  forall rows s s', for_each body rows s = Some s' -> R s s'.
Proof.
  intros Hrefl Htrans Hbody rows.
  induction rows as [|x rows IH]; simpl; intros s s' H.
  - injection H as <-. apply Hrefl.
  - unfold bind in H. destruct (body x s) as [s1|] eqn:E; [|discriminate].
    eapply Htrans; eauto.
Qed.

Lemma requeue_expired_ledger (now : Z) (e : booking) (s s' : database) :
  requeue_expired now e s = Some s' -> same_ledger s s'.
Proof.
  unfold requeue_expired, bind, update_waitlist_position.
  destruct (forallb _ _); [|discriminate]. intros [= <-].
  eapply same_ledger_trans; [|apply processNextInWaitlist_ledger].
  eapply same_ledger_map; [reflexivity|reflexivity|].
  intros m b _. simpl. destruct (String.eqb (booking_id b) (booking_id e)); reflexivity.
Qed.

Lemma cancel_waitlisted_ledger (query_fails : string -> bool) (c : conference)
    (s s' : database) :
  cancel_waitlisted query_fails c s = Some s' -> same_ledger s s'.
Proof.
  unfold cancel_waitlisted. destruct (query_fails (name c)); [discriminate|].
  intros [= <-].
  eapply same_ledger_map; [reflexivity|reflexivity|].
  intros m b _. simpl.
  destruct (String.eqb (conference_name b) (name c) && status_eqb (status b) WAITLISTED) eqn:E;
    [|reflexivity].
  apply andb_true_iff in E. destruct E as [_ E]. apply status_eqb_eq in E.
  unfold confirmed_for. simpl. rewrite E. simpl. now rewrite !andb_false_r.
Qed.

Lemma renumbered_ledger (plan : query_plan) (n : string) (s : database) :
  same_ledger s (renumbered plan n s).
Proof. apply same_ledger_bookings; reflexivity. Qed.

Lemma delete_waitlist_ledger (id : string) (s : database) :
  same_ledger s (delete_waitlist id s).
Proof. apply same_ledger_bookings; reflexivity. Qed.

Lemma getConferenceByName_name (s : database) (n : string) (c : conference) :
  getConferenceByName s n = Some c -> In c (conferences s) /\ name c = n.
Proof.
  unfold getConferenceByName. intros H. apply find_some in H.
  destruct H as [H1 H2]. apply String.eqb_eq in H2. auto.
Qed.

Lemma booking_with_conference_some (s : database) (id : string) (b : booking) (c : conference) :
  booking_with_conference s id = Some (b, c) ->
  booking_by_id s id = Some b
  /\ getConferenceByName s (conference_name b) = Some c.
Proof.
  unfold booking_with_conference.
  destruct (booking_by_id s id) as [b'|]; [|discriminate].
  destruct (getConferenceByName s (conference_name b')) as [c'|] eqn:E; [|discriminate].
  intros [= <- <-]. auto.
Qed.

Lemma confirmed_for_row (m id n u : string) (st : booking_status) (t : Z) (d : option Z) :
  confirmed_for m (mkBooking id n u st t d) = String.eqb n m && status_eqb st CONFIRMED.
Proof. reflexivity. Qed.

Lemma bookConference_ledger (now : Z) (id n u : string) (s : database) :
  ledger_invariant s -> ledger_invariant (fst (bookConference now id n u s)).
Proof.
  intros Hinv. unfold bookConference.
  destruct (getConferenceByName s n) as [c|] eqn:Ec; [|assumption].
  destruct (getUserById s u); [|assumption].
  destruct (hasConferenceStarted now s n) as [[|]|]; try assumption.
  destruct (hasExistingBooking s u n); [assumption|].
  destruct (hasConflictingBooking s u (start_time c) (end_time c)); [assumption|].
  destruct (0 <? available_slots c).
  - unfold bind.
    destruct (insert_booking _ s) as [s1|] eqn:E1; [|assumption].
    destruct (add_available_slots (-1) n s1) as [s2|] eqn:E2; [|assumption].
    simpl.
    apply insert_booking_some in E1. destruct E1 as (Hb1 & Hc1 & _).
    apply add_available_slots_some in E2. destruct E2 as (Hc2 & Hb2 & _).
    eapply ledger_same; [apply removeUserFromAllWaitlists_ledger|].
    apply (ledger_bump (-1) n s); [assumption|congruence|].
    intros m. unfold count_confirmed. rewrite Hb2, Hb1, count_after_insert.
    rewrite confirmed_for_row, andb_true_r, String.eqb_sym.
    destruct (String.eqb m n); simpl; lia.
  - unfold bind.
    destruct (insert_booking _ s) as [s1|] eqn:E1; [|assumption].
    destruct (insert_waitlist _ s1) as [s2|] eqn:E2; [|assumption].
    simpl.
    apply insert_booking_some in E1. destruct E1 as (Hb1 & Hc1 & _).
    unfold insert_waitlist in E2. destruct (existsb _ _); [discriminate|].
    injection E2 as <-.
    eapply ledger_same; [|exact Hinv].
    split; [simpl; assumption|].
    intros m. apply Nat2Z.inj. unfold count_confirmed. simpl.
    rewrite Hb1, count_after_insert.
    rewrite confirmed_for_row, andb_false_r. simpl. lia.
Qed.

Lemma update_booking_count (id : string) (f : booking -> booking) (s : database)
    (b : booking) (m : string) :
  booking_ids_unique s ->
  booking_by_id s id = Some b ->
  Z.of_nat (count_confirmed (update_booking id f s) m)
  = Z.of_nat (count_confirmed s m)
    - indicator (confirmed_for m b) + indicator (confirmed_for m (f b)).
Proof.
  intros Hnd Hfind. unfold count_confirmed, update_booking. simpl.
  now apply count_after_update.
Qed.

Lemma confirm_uuid_ledger (now : Z) (id : string) (s : database) :
  booking_ids_unique s ->
  ledger_invariant s -> ledger_invariant (fst (confirm_uuid now id s)).
Proof.
  intros Hnd Hinv. unfold confirm_uuid.
  destruct (booking_with_conference s id) as [[b c]|] eqn:E; [|assumption].
  apply booking_with_conference_some in E. destruct E as [Hfind Hconf].
  destruct (status_eqb (status b) WAITLISTED) eqn:Est; simpl negb; cbv iota; [|assumption].
  destruct (start_time c <=? now); [assumption|].
  destruct (deadline_passed now b); [assumption|].
  destruct (available_slots c <=? 0); [assumption|].
  unfold bind.
  destruct (add_available_slots (-1) (conference_name b) _) as [s2|] eqn:E2; [|assumption].
  simpl.
  apply add_available_slots_some in E2. destruct E2 as (Hc2 & Hb2 & _).
  eapply ledger_same; [apply processNextInWaitlist_ledger|].
  eapply ledger_same; [apply removeUserFromAllWaitlists_ledger|].
  eapply ledger_same; [apply delete_waitlist_ledger|].
  apply (ledger_bump (-1) (conference_name b) s); [assumption|exact Hc2|].
  intros m. unfold count_confirmed at 1. rewrite Hb2.
  fold (count_confirmed (update_booking id
          (fun b0 => set_confirm_by (set_status b0 CONFIRMED) None) s) m).
  rewrite (update_booking_count id _ s b m Hnd Hfind).
  apply status_eqb_eq in Est.
  unfold confirmed_for. simpl. rewrite Est. simpl.
  rewrite andb_false_r, andb_true_r, String.eqb_sym.
  destruct (String.eqb m (conference_name b)); simpl; lia.
Qed.

Lemma confirmWaitlistBooking_ledger (now : Z) (bookingId : string) (s : database) :
  booking_ids_unique s ->
  ledger_invariant s -> ledger_invariant (fst (confirmWaitlistBooking now bookingId s)).
Proof.
  intros Hnd Hinv. apply confirm_parsed; [assumption|].
  intros id _. now apply confirm_uuid_ledger.
Qed.

Lemma cancel_uuid_ledger (plan : query_plan) (now : Z) (id : string) (s : database) :
  booking_ids_unique s ->
  ledger_invariant s -> ledger_invariant (fst (cancel_uuid plan now id s)).
Proof.
  intros Hnd Hinv. unfold cancel_uuid.
  destruct (booking_with_conference s id) as [[b c]|] eqn:E; [|assumption].
  apply booking_with_conference_some in E. destruct E as [Hfind Hconf].
  destruct (status_eqb (status b) CANCELED) eqn:Ecan; [assumption|].
  destruct (start_time c <=? now); [assumption|].
  unfold bind.
  destruct (status b) eqn:Est; simpl status_eqb; cbv iota.
  - destruct (add_available_slots 1 (conference_name b) _) as [s2|] eqn:E2; [|assumption].
    simpl.
    apply add_available_slots_some in E2. destruct E2 as (Hc2 & Hb2 & _).
    eapply ledger_same; [apply processNextInWaitlist_ledger|].
    apply (ledger_bump 1 (conference_name b) s); [assumption|exact Hc2|].
    intros m. unfold count_confirmed at 1. rewrite Hb2.
    fold (count_confirmed (update_booking id (fun b0 => set_status b0 CANCELED) s) m).
    rewrite (update_booking_count id _ s b m Hnd Hfind).
    unfold confirmed_for. simpl. rewrite Est. simpl.
    rewrite andb_false_r, andb_true_r, String.eqb_sym.
    destruct (String.eqb m (conference_name b)); simpl; lia.
  - simpl. open_reorder; [|assumption]. simpl.
    eapply ledger_same; [apply renumbered_ledger|].
    eapply ledger_same; [apply delete_waitlist_ledger|].
    eapply ledger_same; [|exact Hinv].
    split; [reflexivity|]. intros m. apply Nat2Z.inj.
    rewrite (update_booking_count id _ s b m Hnd Hfind).
    unfold confirmed_for. simpl. rewrite Est. simpl.
    rewrite !andb_false_r. simpl. lia.
  - discriminate.
Qed.

Lemma cancelBooking_ledger (plan : query_plan) (now : Z) (bookingId : string)
    (s : database) :
  booking_ids_unique s ->
  ledger_invariant s -> ledger_invariant (fst (cancelBooking plan now bookingId s)).
Proof.
  intros Hnd Hinv. apply cancel_parsed; [assumption|].
  intros id _. now apply cancel_uuid_ledger.
Qed.

Lemma handleExpiredWaitlistBookings_ledger (now : Z) (s : database) :
  same_ledger s (fst (handleExpiredWaitlistBookings now s)).
Proof.
  unfold handleExpiredWaitlistBookings.
  destruct (for_each _ _ s) as [s'|] eqn:E; simpl; [|apply same_ledger_refl].
  revert E. apply for_each_preserves.
  - apply same_ledger_refl.
  - apply same_ledger_trans.
  - apply requeue_expired_ledger.
Qed.

Lemma autoCancelForStartedConferences_ledger (query_fails : string -> bool) (now : Z)
    (s : database) :
  same_ledger s (fst (autoCancelForStartedConferences query_fails now s)).
Proof.
  unfold autoCancelForStartedConferences.
  destruct (for_each _ _ s) as [s'|] eqn:E; simpl; [|apply same_ledger_refl].
  revert E. apply for_each_preserves.
  - apply same_ledger_refl.
  - apply same_ledger_trans.
  - apply cancel_waitlisted_ledger.
Qed.

(** ** The primary key of bookings is kept by every operation *)

Lemma same_identities_refl (s : database) : same_identities s s.
Proof. reflexivity. Qed.

Lemma same_identities_trans (s1 s2 s3 : database) :
  same_identities s1 s2 -> same_identities s2 s3 -> same_identities s1 s3.
Proof. unfold same_identities. congruence. Qed.

Lemma same_identities_map (s s' : database) (f : booking -> booking) :
  bookings s' = map f (bookings s) ->
  (forall b, identity (f b) = identity b) ->
  same_identities s s'.
Proof.
  intros H1 H2. unfold same_identities. rewrite H1, map_map.
  apply map_ext. assumption.
Qed.

Lemma same_identities_bookings (s s' : database) :
  bookings s' = bookings s -> same_identities s s'.
Proof. unfold same_identities. congruence. Qed.

Lemma update_booking_identities (id : string) (f : booking -> booking) (s : database) :
  (forall b, identity (f b) = identity b) ->
  same_identities s (update_booking id f s).
Proof.
  intros H. eapply same_identities_map; [reflexivity|].
  intros b. simpl. destruct (String.eqb (booking_id b) id); auto.
Qed.

Lemma processNextInWaitlist_identities (now : Z) (n : string) (s : database) :
  same_identities s (processNextInWaitlist now n s).
Proof.
  destruct (processNextInWaitlist_frame now n s) as (_ & _ & _ & f & Hf & Hb).
  apply (same_identities_map _ _ f); [assumption|].
  intros b. destruct (Hf b) as [-> | ->]; reflexivity.
Qed.

Lemma removeUserFromAllWaitlists_identities (u : string) (ex : option string) (s : database) :
  same_identities s (removeUserFromAllWaitlists u ex s).
Proof.
  destruct (removeUserFromAllWaitlists_frame u ex s) as (_ & _ & Hb).
  eapply same_identities_map; [exact Hb|].
  intros b. simpl. destruct (displaced u ex b); reflexivity.
Qed.

Lemma requeue_expired_identities (now : Z) (e : booking) (s s' : database) :
  requeue_expired now e s = Some s' -> same_identities s s'.
Proof.
  unfold requeue_expired, bind, update_waitlist_position.
  destruct (forallb _ _); [|discriminate]. intros [= <-].
  eapply same_identities_trans; [|apply processNextInWaitlist_identities].
  eapply same_identities_map; [reflexivity|].
  intros b. simpl. destruct (String.eqb (booking_id b) (booking_id e)); reflexivity.
Qed.

Lemma cancel_waitlisted_identities (query_fails : string -> bool) (c : conference)
    (s s' : database) :
  cancel_waitlisted query_fails c s = Some s' -> same_identities s s'.
Proof.
  unfold cancel_waitlisted. destruct (query_fails (name c)); [discriminate|].
  intros [= <-].
  eapply same_identities_map; [reflexivity|].
  intros b. simpl.
  destruct (String.eqb (conference_name b) (name c) && status_eqb (status b) WAITLISTED);
    reflexivity.
Qed.

Lemma confirm_uuid_identities (now : Z) (id : string) (s : database) :
  same_identities s (fst (confirm_uuid now id s)).
Proof.
  unfold confirm_uuid.
  destruct (booking_with_conference s id) as [[b c]|]; [|reflexivity].
  destruct (negb _); [reflexivity|].
  destruct (start_time c <=? now); [reflexivity|].
  destruct (deadline_passed now b); [reflexivity|].
  destruct (available_slots c <=? 0); [reflexivity|].
  unfold bind.
  destruct (add_available_slots (-1) (conference_name b) _) as [s2|] eqn:E2; [|reflexivity].
  simpl. apply add_available_slots_some in E2. destruct E2 as (_ & Hb2 & _).
  eapply same_identities_trans; [|apply processNextInWaitlist_identities].
  eapply same_identities_trans; [|apply removeUserFromAllWaitlists_identities].
  eapply same_identities_trans; [|apply (same_identities_bookings s2); reflexivity].
  eapply same_identities_trans; [|apply same_identities_bookings; exact Hb2].
  apply update_booking_identities. reflexivity.
Qed.

Lemma confirmWaitlistBooking_identities (now : Z) (bookingId : string) (s : database) :
  same_identities s (fst (confirmWaitlistBooking now bookingId s)).
Proof.
  apply confirm_parsed; [reflexivity|]. intros id _. apply confirm_uuid_identities.
Qed.

Lemma cancel_uuid_identities (plan : query_plan) (now : Z) (id : string) (s : database) :
  same_identities s (fst (cancel_uuid plan now id s)).
Proof.
  unfold cancel_uuid.
  destruct (booking_with_conference s id) as [[b c]|]; [|reflexivity].
  destruct (status_eqb (status b) CANCELED); [reflexivity|].
  destruct (start_time c <=? now); [reflexivity|].
  unfold bind.
  destruct (status_eqb (status b) CONFIRMED).
  - destruct (add_available_slots 1 (conference_name b) _) as [s2|] eqn:E2; [|reflexivity].
    apply add_available_slots_some in E2. destruct E2 as (_ & Hb2 & _).
    assert (H : same_identities s (processNextInWaitlist now (conference_name b) s2)).
    { eapply same_identities_trans; [|apply processNextInWaitlist_identities].
      eapply same_identities_trans; [|apply same_identities_bookings; exact Hb2].
      apply update_booking_identities. reflexivity. }
    destruct (status_eqb (status b) WAITLISTED); simpl; [|exact H].
    open_reorder; [exact H|reflexivity].
  - assert (H : same_identities s (update_booking id (fun b0 => set_status b0 CANCELED) s)).
    { apply update_booking_identities. reflexivity. }
    destruct (status_eqb (status b) WAITLISTED); simpl; [|exact H].
    open_reorder; [exact H|reflexivity].
Qed.

Lemma cancelBooking_identities (plan : query_plan) (now : Z) (bookingId : string)
    (s : database) :
  same_identities s (fst (cancelBooking plan now bookingId s)).
Proof.
  apply cancel_parsed; [reflexivity|]. intros id _. apply cancel_uuid_identities.
Qed.

Lemma handleExpiredWaitlistBookings_identities (now : Z) (s : database) :
  same_identities s (fst (handleExpiredWaitlistBookings now s)).
Proof.
  unfold handleExpiredWaitlistBookings.
  destruct (for_each _ _ s) as [s'|] eqn:E; simpl; [|reflexivity].
  revert E. apply for_each_preserves.
  - apply same_identities_refl.
  - apply same_identities_trans.
  - apply requeue_expired_identities.
Qed.

Lemma autoCancelForStartedConferences_identities (query_fails : string -> bool) (now : Z)
    (s : database) :
  same_identities s (fst (autoCancelForStartedConferences query_fails now s)).
Proof.
  unfold autoCancelForStartedConferences.
  destruct (for_each _ _ s) as [s'|] eqn:E; simpl; [|reflexivity].
  revert E. apply for_each_preserves.
  - apply same_identities_refl.
  - apply same_identities_trans.
  - apply cancel_waitlisted_identities.
Qed.

Lemma same_identities_ids (s s' : database) :
  same_identities s s' -> map booking_id (bookings s') = map booking_id (bookings s).
Proof.
  unfold same_identities. intros H.
  assert (X : forall bs, map booking_id bs = map (fun t => fst (fst t)) (map identity bs)).
  { intros bs. rewrite map_map. reflexivity. }
  now rewrite !X, H.
Qed.

Lemma bookConference_ids_unique (now : Z) (id n u : string) (s : database) :
  booking_ids_unique s -> booking_ids_unique (fst (bookConference now id n u s)).
Proof.
  intros Hnd. unfold bookConference.
  destruct (getConferenceByName s n) as [c|]; [|assumption].
  destruct (getUserById s u); [|assumption].
  destruct (hasConferenceStarted now s n) as [[|]|]; try assumption.
  destruct (hasExistingBooking s u n); [assumption|].
  destruct (hasConflictingBooking s u (start_time c) (end_time c)); [assumption|].
  assert (Hins : forall b s1, insert_booking b s = Some s1 -> booking_ids_unique s1).
  { intros b s1 E1. apply insert_booking_some in E1.
    destruct E1 as (Hb1 & _ & _ & _ & Hfresh & _).
    unfold booking_ids_unique. rewrite Hb1, map_app. simpl.
    apply NoDup_app; [assumption|repeat constructor; auto|].
    intros x Hx [<-|[]]. contradiction. }
  destruct (0 <? available_slots c); unfold bind.
  - destruct (insert_booking _ s) as [s1|] eqn:E1; [|assumption].
    destruct (add_available_slots (-1) n s1) as [s2|] eqn:E2; [|assumption].
    simpl. apply Hins in E1.
    apply add_available_slots_some in E2. destruct E2 as (_ & Hb2 & _).
    unfold booking_ids_unique.
    rewrite (same_identities_ids s2); [|apply removeUserFromAllWaitlists_identities].
    rewrite Hb2. assumption.
  - destruct (insert_booking _ s) as [s1|] eqn:E1; [|assumption].
    destruct (insert_waitlist _ s1) as [s2|] eqn:E2; [|assumption].
    simpl. apply Hins in E1.
    unfold insert_waitlist in E2. destruct (existsb _ _); [discriminate|].
    injection E2 as <-. assumption.
Qed.

Lemma run_keeps_booking_ids_unique (now : Z) (op : operation) (s : database) :
  booking_ids_unique s -> booking_ids_unique (run now op s).
Proof.
  intros Hnd. destruct op; simpl.
  - now apply bookConference_ids_unique.
  - unfold booking_ids_unique.
    now rewrite (same_identities_ids s); [|apply confirmWaitlistBooking_identities].
  - unfold booking_ids_unique.
    now rewrite (same_identities_ids s); [|apply cancelBooking_identities].
  - unfold booking_ids_unique.
    now rewrite (same_identities_ids s); [|apply handleExpiredWaitlistBookings_identities].
  - unfold booking_ids_unique.
    now rewrite (same_identities_ids s); [|apply autoCancelForStartedConferences_identities].
Qed.

Lemma run_keeps_ledger (now : Z) (op : operation) (s : database) :
  booking_ids_unique s -> ledger_invariant s -> ledger_invariant (run now op s).
Proof.
  intros Hnd Hinv. destruct op; simpl.
  - now apply bookConference_ledger.
  - now apply confirmWaitlistBooking_ledger.
  - now apply cancelBooking_ledger.
  - eapply ledger_same; [apply handleExpiredWaitlistBookings_ledger|assumption].
  - eapply ledger_same; [apply autoCancelForStartedConferences_ledger|assumption].
Qed.

(** C1.  Capacity ledger invariant: every mutating engine operation
    ([bookConference], [confirmWaitlistBooking], [cancelBooking],
    [handleExpiredWaitlistBookings], [autoCancelForStartedConferences], at any
    time and with any arguments) maps a state in which, for every conference,
    [available_slots = total_slots - (number of CONFIRMED bookings of that
    conference)] to a state in which this holds again.  The states are those
    the bookings table can store: booking identifiers are a primary key. *)
Theorem capacity_ledger_preserved (now : Z) (op : operation) (s : database) :
  booking_ids_unique s ->
  ledger_invariant s ->
  ledger_invariant (run now op s).
Proof. exact (run_keeps_ledger now op s). Qed.

Lemma capacity_ledger_preserved_witness :
  ledger_invariant (run 4 (BookConference id_b4 web_summit "bob") carol_waitlisted).
Proof.
  apply capacity_ledger_preserved.
  - unfold booking_ids_unique. vm_compute.
    repeat constructor; simpl; intuition discriminate.
  - intros c Hc. vm_compute in Hc.
    destruct Hc as [<-|[<-|[]]]; reflexivity.
Defined.

(** ** Dense positions *)

Lemma not_dense_single (s : database) (n : string) (p : Z) :
  map position (waitlist_of s n) = [p] -> p <> 1 ->
  count_waitlisted s n = 1%nat -> ~ dense_positions s n.
Proof.
  intros Hp Hne Hn Hd. unfold dense_positions in Hd. rewrite Hp, Hn in Hd.
  simpl in Hd. apply Permutation_length_1 in Hd. contradiction.
Qed.

(** C2.  Dense-position invariant, evaluated where the code breaks it.
    With alice CONFIRMED and bob, carol waiting at positions 1, 2 (dense),
    bob's confirmed booking of another conference displaces him: carol is
    left alone at position 2.  With bob the only waitlisted booking and his
    deadline passed, [handleExpiredWaitlistBookings] requeues him at position
    2.  With bob and carol waiting and a seat freed, bob's
    [confirmWaitlistBooking] deletes his row and leaves carol at position 2.
    In each resulting state one booking is WAITLISTED and the set of
    positions is {2}, not {1}. *)
Theorem dense_positions_broken :
  dense_positions carol_waitlisted rust_days
  /\ map position (waitlist_of bob_displaced rust_days) = [2]
  /\ count_waitlisted bob_displaced rust_days = 1%nat
  /\ ~ dense_positions bob_displaced rust_days
  /\ dense_positions bob_promoted rust_days
  /\ map position
       (waitlist_of (run after_deadline HandleExpiredWaitlistBookings bob_promoted) rust_days)
     = [2]
  /\ count_waitlisted (run after_deadline HandleExpiredWaitlistBookings bob_promoted) rust_days
     = 1%nat
  /\ ~ dense_positions (run after_deadline HandleExpiredWaitlistBookings bob_promoted) rust_days
  /\ dense_positions seat_freed rust_days
  /\ map position (waitlist_of (run 5 (ConfirmWaitlistBooking id_b2) seat_freed) rust_days)
     = [2]
  /\ count_waitlisted (run 5 (ConfirmWaitlistBooking id_b2) seat_freed) rust_days = 1%nat
  /\ ~ dense_positions (run 5 (ConfirmWaitlistBooking id_b2) seat_freed) rust_days.
Proof.
  assert (H1 : map position (waitlist_of bob_displaced rust_days) = [2]) by reflexivity.
  assert (H2 : count_waitlisted bob_displaced rust_days = 1%nat) by reflexivity.
  assert (H3 : map position
       (waitlist_of (run after_deadline HandleExpiredWaitlistBookings bob_promoted) rust_days)
     = [2]) by reflexivity.
  assert (H4 : count_waitlisted
       (run after_deadline HandleExpiredWaitlistBookings bob_promoted) rust_days = 1%nat)
    by reflexivity.
  assert (H5 : map position
       (waitlist_of (run 5 (ConfirmWaitlistBooking id_b2) seat_freed) rust_days) = [2])
    by reflexivity.
  assert (H6 : count_waitlisted (run 5 (ConfirmWaitlistBooking id_b2) seat_freed) rust_days
               = 1%nat) by reflexivity.
  repeat split; try assumption.
  - unfold dense_positions. vm_compute. apply Permutation_refl.
  - apply (not_dense_single _ _ 2); [assumption|discriminate|assumption].
  - unfold dense_positions. vm_compute. apply Permutation_refl.
  - apply (not_dense_single _ _ 2); [assumption|discriminate|assumption].
  - unfold dense_positions. vm_compute. apply Permutation_refl.
  - apply (not_dense_single _ _ 2); [assumption|discriminate|assumption].
Qed.

(** C3.  Expiry requeue of a sole waitlist entry, evaluated.  bob's booking
    id_b2 is the only waitlist entry of its conference, at position 1, and its
    deadline has passed.  [handleExpiredWaitlistBookings] processes one
    booking, clears the deadline and sets a fresh one, one hour after the
    sweep, but leaves the entry at position 2: the maximum it adds 1 to counts
    bob's own entry.  A second sweep after the fresh deadline moves it to
    position 3. *)
Theorem sole_entry_requeued_past_position_1 :
  waitlist bob_promoted = [mkWaitlist rust_days id_b2 1 2]
  /\ bookings_with_id bob_promoted id_b2
     = [mkBooking id_b2 rust_days "bob" WAITLISTED 2 (Some (3 + confirm_window))]
  /\ snd (handleExpiredWaitlistBookings after_deadline bob_promoted) = Some 1%nat
  /\ waitlist (run after_deadline HandleExpiredWaitlistBookings bob_promoted)
     = [mkWaitlist rust_days id_b2 2 2]
  /\ bookings_with_id (run after_deadline HandleExpiredWaitlistBookings bob_promoted) id_b2
     = [mkBooking id_b2 rust_days "bob" WAITLISTED 2 (Some (after_deadline + confirm_window))]
  /\ waitlist (run (after_deadline + confirm_window + 1) HandleExpiredWaitlistBookings
                 (run after_deadline HandleExpiredWaitlistBookings bob_promoted))
     = [mkWaitlist rust_days id_b2 3 2].
Proof. repeat split; reflexivity. Qed.

(** ** Booking a full conference *)

Lemma fold_max_spec (l : list Z) (a : Z) :
  (fold_left Z.max l a = a \/ In (fold_left Z.max l a) l)
  /\ a <= fold_left Z.max l a
  /\ forall x, In x l -> x <= fold_left Z.max l a.
Proof.
  revert a. induction l as [|y l IH]; simpl; intros a.
  - split; [auto|split; [lia|intros x []]].
  - destruct (IH (Z.max a y)) as (H1 & H2 & H3).
    repeat split.
    + destruct H1 as [H1|H1]; [|right; now right].
      rewrite H1. destruct (Z.max_spec a y) as [[_ ->]|[_ ->]]; auto.
    + lia.
    + intros x [<-|Hx]; [lia|auto].
Qed.

Lemma max_of_spec (l : list Z) (m : Z) :
  max_of l = Some m -> In m l /\ forall x, In x l -> x <= m.
Proof.
  destruct l as [|a l]; simpl; [discriminate|].
  intros [= <-]. destruct (fold_max_spec l a) as (H1 & H2 & H3).
  split.
  - destruct H1 as [->|H1]; auto.
  - intros x [<-|Hx]; auto.
Qed.

Lemma max_position_upper (s : database) (n : string) (w : waitlist_entry) :
  In w (waitlist_of s n) -> position w <= max_position s n.
Proof.
  intros Hw. unfold max_position.
  destruct (max_of (map position (waitlist_of s n))) as [m|] eqn:E.
  - apply max_of_spec in E. apply E. now apply in_map.
  - destruct (waitlist_of s n); [destruct Hw|discriminate].
Qed.

Lemma zseq_In (x a : Z) (k : nat) : In x (zseq a k) <-> a <= x < a + Z.of_nat k.
Proof.
  revert a. induction k as [|k IH]; intros a.
  - simpl. lia.
  - cbn [zseq In]. rewrite IH. lia.
Qed.

Lemma zseq_length (a : Z) (k : nat) : List.length (zseq a k) = k.
Proof. revert a. induction k; simpl; intros; auto. Qed.

Lemma max_position_dense (s : database) (n : string) :
  dense (waitlist_of s n) ->
  max_position s n = Z.of_nat (List.length (waitlist_of s n)).
Proof.
  unfold dense, max_position. intros Hd.
  destruct (max_of (map position (waitlist_of s n))) as [m|] eqn:E.
  - apply max_of_spec in E. destruct E as [Hin Hmax].
    assert (H1 : In m (zseq 1 (List.length (waitlist_of s n)))).
    { eapply Permutation_in; eauto. }
    apply zseq_In in H1.
    assert (H2 : In (Z.of_nat (List.length (waitlist_of s n)))
                    (map position (waitlist_of s n))).
    { eapply Permutation_in; [apply Permutation_sym; eauto|]. apply zseq_In. lia. }
    apply Hmax in H2. lia.
  - destruct (waitlist_of s n); [reflexivity|discriminate].
Qed.

Lemma existsb_false {A : Type} (p : A -> bool) (l : list A) :
  (forall x, In x l -> p x = false) -> existsb p l = false.
Proof.
  intros H. destruct (existsb p l) eqn:E; [|reflexivity].
  apply existsb_exists in E. destruct E as [x [Hx Hp]].
  rewrite H in Hp by assumption. discriminate.
Qed.

Lemma counterexample_position_is_size_plus_one :
  book_preconditions 5 rust_days "dave" bob_displaced
    (mkConference rust_days 10000000 20000000 1 0)
  /\ List.length (waitlist_of bob_displaced rust_days) = 1%nat
  /\ snd (bookConference 5 id_b5 rust_days "dave" bob_displaced)
     = Success id_b5 WAITLISTED (Some 3)
  /\ ~ reports_size_plus_one 5 id_b5 rust_days "dave" bob_displaced.
Proof.
  split; [|split; [|split]].
  - unfold book_preconditions. repeat split; try reflexivity. discriminate.
  - reflexivity.
  - reflexivity.
  - unfold reports_size_plus_one. vm_compute. discriminate.
Qed.

(** C4, amended.  When [bookConference] is called with all preconditions
    passing (the conference exists and has not started, the user exists, has
    no booking of this conference that is not CANCELED and no booking that
    overlaps in time), the conference has [available_slots = 0], the new
    identifier is fresh and the user has no earlier booking row of this
    conference, the result is success with status WAITLISTED, never
    CONFIRMED, and the reported position is the highest waitlist position of
    the conference plus 1 (1 when it has none), which is the waitlist size
    plus 1 whenever the positions are dense.  The conference rows,
    [available_slots] included, are unchanged; one booking row and one
    waitlist row are added. *)
Theorem book_full_conference_waitlists (now : Z) (id n u : string) (s : database)
    (c : conference) :
  book_preconditions now n u s c ->
  available_slots c = 0 ->
  ~ In id (map booking_id (bookings s)) ->
  (forall b, In b (bookings s) -> conference_name b = n -> user_id b <> u) ->
  waitlist_references_bookings s ->
  bookConference now id n u s
  = (mkDatabase (conferences s) (users s)
       (bookings s ++ [mkBooking id n u WAITLISTED now None])
       (waitlist s ++ [mkWaitlist n id (max_position s n + 1) now]),
     Success id WAITLISTED (Some (max_position s n + 1)))
  /\ (dense (waitlist_of s n) ->
      max_position s n + 1 = Z.of_nat (List.length (waitlist_of s n)) + 1).
Proof.
  intros (Hc & Hu & Hstart & Hex & Hconf) Hfull Hfresh Hpair Hfk.
  split; [|intros Hd; now rewrite max_position_dense].
  unfold bookConference, hasConferenceStarted. rewrite Hc.
  destruct (getUserById s u); [|contradiction].
  replace (start_time c <=? now) with false by (symmetry; apply Z.leb_gt; lia).
  rewrite Hex, Hconf, Hfull. simpl (0 <? 0). cbv iota.
  unfold insert_booking. cbn [booking_id conference_name user_id].
  rewrite existsb_false.
  2:{ intros b Hb. apply orb_false_iff. split.
      - apply String.eqb_neq. intros E. apply Hfresh. rewrite <- E. now apply in_map.
      - destruct (String.eqb (conference_name b) n) eqn:E1; [|reflexivity].
        apply String.eqb_eq in E1. apply (Hpair b Hb) in E1.
        apply String.eqb_neq in E1. now rewrite E1. }
  unfold bind, insert_waitlist. cbn [waitlist with_bookings w_conference_name w_booking_id position].
  rewrite existsb_false.
  2:{ intros w Hw.
      destruct (String.eqb (w_conference_name w) n) eqn:E1; [|reflexivity].
      simpl. apply orb_false_iff. split.
      - apply String.eqb_neq. intros E. apply Hfresh. rewrite <- E. now apply Hfk.
      - apply Z.eqb_neq.
        assert (Hle : position w <= max_position s n).
        { apply max_position_upper. unfold waitlist_of. apply filter_In. auto. }
        unfold max_position, waitlist_of in *. simpl. lia. }
  reflexivity.
Qed.

Lemma book_full_conference_waitlists_witness :
  bookConference 5 id_b5 rust_days "dave" carol_waitlisted
  = (mkDatabase (conferences carol_waitlisted) (users carol_waitlisted)
       (bookings carol_waitlisted ++ [mkBooking id_b5 rust_days "dave" WAITLISTED 5 None])
       (waitlist carol_waitlisted
        ++ [mkWaitlist rust_days id_b5 (max_position carol_waitlisted rust_days + 1) 5]),
     Success id_b5 WAITLISTED (Some (max_position carol_waitlisted rust_days + 1)))
  /\ (dense (waitlist_of carol_waitlisted rust_days) ->
      max_position carol_waitlisted rust_days + 1
      = Z.of_nat (List.length (waitlist_of carol_waitlisted rust_days)) + 1).
Proof.
  apply (book_full_conference_waitlists 5 id_b5 rust_days "dave" carol_waitlisted
           (mkConference rust_days 10000000 20000000 1 0)).
  - unfold book_preconditions. repeat split; try reflexivity. discriminate.
  - reflexivity.
  - vm_compute. intuition discriminate.
  - intros b Hb. vm_compute in Hb.
    destruct Hb as [<-|[<-|[<-|[]]]]; intros _; discriminate.
  - intros w Hw. vm_compute in Hw.
    destruct Hw as [<-|[<-|[]]]; vm_compute; auto.
Defined.

(** ** Confirming a waitlisted booking *)

Lemma booking_by_id_some (s : database) (id : string) (b : booking) :
  booking_by_id s id = Some b -> In b (bookings s) /\ booking_id b = id.
Proof. apply find_some_id. Qed.

Lemma unique_conference (cs : list conference) (c1 c2 : conference) :
  NoDup (map name cs) -> In c1 cs -> In c2 cs -> name c1 = name c2 -> c1 = c2.
Proof.
  induction cs as [|c cs IH]; simpl; intros Hnd H1 H2 Hn; [contradiction|].
  inversion Hnd as [|? ? Hnotin Hnd']; subst.
  destruct H1 as [<-|H1], H2 as [<-|H2]; auto.
  - exfalso. apply Hnotin. rewrite Hn. now apply in_map.
  - exfalso. apply Hnotin. rewrite <- Hn. now apply in_map.
Qed.

(** The update of [available_slots] is accepted when the one row of that
    name stays within its CHECK constraints. *)
Lemma add_available_slots_accepted (delta : Z) (n : string) (s : database) (c : conference) :
  conference_names_unique s ->
  getConferenceByName s n = Some c ->
  0 <= available_slots c + delta <= total_slots c ->
  exists s', add_available_slots delta n s = Some s'.
Proof.
  intros Hnd Hc Hrange. unfold add_available_slots.
  apply getConferenceByName_name in Hc. destruct Hc as [Hin Hname].
  match goal with |- context [forallb ?p ?l] => assert (X : forallb p l = true) end.
  { apply forallb_forall. intros c' Hc'. apply in_map_iff in Hc'.
    destruct Hc' as [c0 [<- Hc0]].
    destruct (String.eqb (name c0) n) eqn:E.
    - apply String.eqb_eq in E.
      assert (c0 = c) by (apply (unique_conference (conferences s)); auto; congruence).
      subst c0. simpl. rewrite Hname, String.eqb_refl. simpl.
      apply andb_true_iff. split; [apply Z.leb_le|apply Z.leb_le]; lia.
    - rewrite E. reflexivity. }
  rewrite X. eauto.
Qed.

Lemma booking_has_map (s s' : database) (f : booking -> booking) (id : string)
    (P Q : booking -> Prop) :
  bookings s' = map f (bookings s) ->
  (forall b, booking_id (f b) = booking_id b) ->
  (forall b, booking_id b = id -> P b -> Q (f b)) ->
  booking_has s id P -> booking_has s' id Q.
Proof.
  intros Hb Hid HPQ [[b [Hin Hb_id]] HP]. split.
  - exists (f b). rewrite Hb, Hid. split; [now apply in_map|assumption].
  - intros b' Hin' Hid'. rewrite Hb in Hin'. apply in_map_iff in Hin'.
    destruct Hin' as [b0 [<- Hin0]]. rewrite Hid in Hid'. auto.
Qed.

Lemma update_booking_has (id : string) (f : booking -> booking) (s : database)
    (b : booking) (P : booking -> Prop) :
  booking_by_id s id = Some b ->
  (forall x, booking_id (f x) = booking_id x) ->
  (forall x, P (f x)) ->
  booking_has (update_booking id f s) id P.
Proof.
  intros Hb Hid HP. apply booking_by_id_some in Hb. destruct Hb as [Hin Hb].
  split.
  - exists (f b). split; [|now rewrite Hid].
    unfold update_booking. simpl. apply in_map_iff. exists b.
    rewrite <- Hb, String.eqb_refl. auto.
  - intros x Hx Hxid. unfold update_booking in Hx. simpl in Hx.
    apply in_map_iff in Hx. destruct Hx as [x0 [<- Hx0]].
    destruct (String.eqb (booking_id x0) id) eqn:E; [apply HP|].
    apply String.eqb_neq in E. contradiction.
Qed.

Lemma processNextInWaitlist_keeps (now : Z) (n id : string) (s : database)
    (P : booking -> Prop) :
  (forall b d, P b -> P (set_confirm_by b d)) ->
  booking_has s id P -> booking_has (processNextInWaitlist now n s) id P.
Proof.
  intros HP. destruct (processNextInWaitlist_frame now n s) as (_ & _ & _ & f & Hf & Hb).
  apply (booking_has_map s _ f); [assumption| |].
  - intros b. destruct (Hf b) as [-> | ->]; reflexivity.
  - intros b _ Hb'. destruct (Hf b) as [-> | ->]; auto.
Qed.

Lemma removeUserFromAllWaitlists_keeps (u : string) (ex : option string) (id : string)
    (s : database) (st : booking_status) :
  st <> WAITLISTED ->
  booking_has s id (fun b => status b = st) ->
  booking_has (removeUserFromAllWaitlists u ex s) id (fun b => status b = st).
Proof.
  intros Hst. destruct (removeUserFromAllWaitlists_frame u ex s) as (_ & _ & Hb).
  eapply booking_has_map; [exact Hb| |].
  - intros b. simpl. destruct (displaced u ex b); reflexivity.
  - intros b _ Hb'. simpl. destruct (displaced u ex b) eqn:E; [|assumption].
    apply displaced_waitlisted in E. destruct E as [E _]. congruence.
Qed.

Lemma booking_has_same_bookings (s s' : database) (id : string) (P : booking -> Prop) :
  bookings s' = bookings s -> booking_has s id P -> booking_has s' id P.
Proof. unfold booking_has. intros ->. auto. Qed.

Lemma confirm_error_injective (v v' : confirm_violation) :
  confirm_error v = confirm_error v' -> v = v'.
Proof. destruct v, v'; simpl; intros H; try reflexivity; discriminate. Qed.

(** The transaction of [confirmWaitlistBooking], once every check has passed. *)
Lemma confirm_transaction (now : Z) (id : string) (s : database) (b : booking) (c : conference) :
  conference_names_unique s ->
  checks_hold s ->
  booking_by_id s id = Some b ->
  getConferenceByName s (conference_name b) = Some c ->
  0 < available_slots c ->
  exists s2,
    add_available_slots (-1) (conference_name b)
      (update_booking id (fun x => set_confirm_by (set_status x CONFIRMED) None) s) = Some s2
    /\ booking_has
         (processNextInWaitlist now (conference_name b)
            (removeUserFromAllWaitlists (user_id b) (Some (conference_name b))
               (delete_waitlist id s2)))
         id (fun x => status x = CONFIRMED).
Proof.
  intros Hnd Hchk Hb Hc Havail.
  destruct (add_available_slots_accepted (-1) (conference_name b)
              (update_booking id (fun x => set_confirm_by (set_status x CONFIRMED) None) s) c)
    as [s2 E2]; auto.
  { apply getConferenceByName_name in Hc. destruct Hc as [Hin _].
    specialize (Hchk c Hin). lia. }
  exists s2. split; [assumption|].
  apply add_available_slots_some in E2. destruct E2 as (_ & Hb2 & _).
  apply processNextInWaitlist_keeps; [auto|].
  apply removeUserFromAllWaitlists_keeps; [discriminate|].
  apply (booking_has_same_bookings s2); [reflexivity|].
  apply (booking_has_same_bookings
           (update_booking id (fun x => set_confirm_by (set_status x CONFIRMED) None) s));
    [assumption|].
  apply (update_booking_has id _ s b); auto.
Qed.

Ltac open_violation H :=
  simpl in H;
  repeat match type of H with
         | exists _, _ => let x := fresh "x" in destruct H as [x H]
         end;
  repeat match goal with
         | K : _ /\ _ |- _ => destruct K
         end.

Ltac earlier_hold v' Hr :=
  intros v' Hr; destruct v'; simpl in Hr; try lia.

(** What [confirmWaitlistBooking] does with an identifier: the failure of
    the first violated precondition, or the whole transaction. *)
Lemma confirm_uuid_outcome (now : Z) (id : string) (s : database) :
  conference_names_unique s ->
  checks_hold s ->
  bookings_reference_conferences s ->
  (exists v, first_violated now id s v
             /\ confirm_uuid now id s = (s, Failure (confirm_error v)))
  \/ ((forall v, ~ violated now id s v)
      /\ exists s', confirm_uuid now id s = (s', Success id CONFIRMED None)
                    /\ booking_has s' id (fun b => status b = CONFIRMED)).
Proof.
  intros Hnd Hchk Hfk.
  unfold confirm_uuid, booking_with_conference.
  destruct (booking_by_id s id) as [b|] eqn:Eb.
  2:{ left. exists BookingMissing. split; [split|reflexivity].
      - exact Eb.
      - earlier_hold v' Hr. }
  destruct (getConferenceByName s (conference_name b)) as [c|] eqn:Ec.
  2:{ exfalso. apply booking_by_id_some in Eb. destruct Eb as [Hin _].
      now apply (Hfk b Hin). }
  assert (N0 : ~ violated now id s BookingMissing) by (simpl; congruence).
  destruct (status_eqb (status b) WAITLISTED) eqn:Est; simpl negb; cbv iota.
  2:{ left. exists NotWaitlisted. split; [split|reflexivity].
      - exists b. split; [assumption|]. now apply status_eqb_neq.
      - earlier_hold v' Hr. exact N0. }
  apply status_eqb_eq in Est.
  assert (N1 : ~ violated now id s NotWaitlisted).
  { intros H. open_violation H. congruence. }
  destruct (start_time c <=? now) eqn:Estart.
  { left. exists ConferenceStarted. split; [split|reflexivity].
    - exists b, c. repeat split; auto. now apply Z.leb_le.
    - earlier_hold v' Hr; assumption. }
  apply Z.leb_gt in Estart.
  assert (N2 : ~ violated now id s ConferenceStarted).
  { intros H. open_violation H.
    assert (x = b) by congruence. subst x.
    assert (x0 = c) by congruence. subst x0. lia. }
  unfold deadline_passed.
  destruct (confirm_by b) as [d|] eqn:Ed.
  - destruct (d <? now) eqn:Edl.
    { left. exists DeadlinePassed. split; [split|reflexivity].
      - exists b, d. repeat split; auto. apply Z.ltb_lt in Edl. lia.
      - earlier_hold v' Hr; assumption. }
    apply Z.ltb_ge in Edl.
    assert (N3 : ~ violated now id s DeadlinePassed).
    { intros H. open_violation H.
      assert (x = b) by congruence. subst x.
      assert (x0 = d) by congruence. subst x0. lia. }
    destruct (available_slots c <=? 0) eqn:Eav.
    { left. exists NoSlotsAvailable. split; [split|reflexivity].
      - exists b, c. repeat split; auto. now apply Z.leb_le.
      - earlier_hold v' Hr; assumption. }
    apply Z.leb_gt in Eav. right. split.
    + intros v. destruct v; try assumption.
      intros H. open_violation H.
      assert (x = b) by congruence. subst x.
      assert (x0 = c) by congruence. subst x0. lia.
    + destruct (confirm_transaction now id s b c) as (s2 & E2 & Hhas); auto.
      unfold bind. rewrite E2. eauto.
  - assert (N3 : ~ violated now id s DeadlinePassed).
    { intros H. open_violation H.
      assert (x = b) by congruence. subst x. congruence. }
    destruct (available_slots c <=? 0) eqn:Eav.
    { left. exists NoSlotsAvailable. split; [split|reflexivity].
      - exists b, c. repeat split; auto. now apply Z.leb_le.
      - earlier_hold v' Hr; assumption. }
    apply Z.leb_gt in Eav. right. split.
    + intros v. destruct v; try assumption.
      intros H. open_violation H.
      assert (x = b) by congruence. subst x.
      assert (x0 = c) by congruence. subst x0. lia.
    + destruct (confirm_transaction now id s b c) as (s2 & E2 & Hhas); auto.
      unfold bind. rewrite E2. eauto.
Qed.

Lemma confirm_text (now : Z) (bookingId id : string) (s s' : database) (r : result) :
  uuid_in bookingId = Some id ->
  confirm_uuid now id s = (s', r) ->
  confirmWaitlistBooking now bookingId s = (s', reported bookingId r).
Proof. intros Hid H. unfold confirmWaitlistBooking. now rewrite Hid, H. Qed.

(** C5.  Confirm fails iff a precondition is violated, for a [bookingId]
    that is the text of an identifier.  The five preconditions are: the
    booking exists; its status is WAITLISTED; the conference has not started;
    [confirm_by], when set, has not passed; [available_slots > 0].  When all
    hold, [confirmWaitlistBooking] succeeds with status CONFIRMED and the
    booking is CONFIRMED in the resulting state.  When one is violated, it
    returns the business-rule failure of the first violated precondition and
    the state it started from.  The five failures are pairwise distinct, and
    distinct from the failure reported when the transaction is rolled back.
    That last failure is what a [bookingId] that is not the text of an
    identifier gets, with the state unchanged: the lookup raises before any
    precondition is checked.  The states are those the schema allows:
    conference names are a primary key, the CHECK constraints on
    [available_slots] hold, and every booking references a conference. *)
Theorem confirm_fails_iff_precondition_violated (now : Z) (bookingId : string)
    (s : database) :
  conference_names_unique s ->
  checks_hold s ->
  bookings_reference_conferences s ->
  (uuid_in bookingId = None ->
     confirmWaitlistBooking now bookingId s = (s, Failure "Failed to confirm booking"))
  /\ (forall id, uuid_in bookingId = Some id ->
        ((forall v, ~ violated now id s v) ->
           exists s', confirmWaitlistBooking now bookingId s
                      = (s', Success bookingId CONFIRMED None)
                      /\ booking_has s' id (fun b => status b = CONFIRMED))
        /\ ((exists v, violated now id s v) ->
           exists v, first_violated now id s v
                     /\ confirmWaitlistBooking now bookingId s
                        = (s, Failure (confirm_error v))))
  /\ (forall v v', confirm_error v = confirm_error v' -> v = v')
  /\ (forall v, confirm_error v <> "Failed to confirm booking"%string).
Proof.
  intros Hnd Hchk Hfk.
  split; [|split; [|split]].
  - intros Hid. unfold confirmWaitlistBooking. now rewrite Hid.
  - intros id Hid.
    destruct (confirm_uuid_outcome now id s Hnd Hchk Hfk)
      as [(v & Hv & E)|(Hnone & s' & E & Hhas)].
    + apply (confirm_text now bookingId id) in E; [|exact Hid]. split.
      * intros Hno. exfalso. destruct Hv as [Hv _]. now apply (Hno v).
      * intros _. exists v. now split.
    + apply (confirm_text now bookingId id) in E; [|exact Hid]. split.
      * intros _. exists s'. now split.
      * intros [v Hv]. exfalso. now apply (Hnone v).
  - apply confirm_error_injective.
  - intros v. destruct v; discriminate.
Qed.

Lemma confirm_fails_iff_precondition_violated_witness :
  uuid_in "{00000000-0000-4000-8000-0000000000B2}" = Some id_b2
  /\ exists s', confirmWaitlistBooking 5 "{00000000-0000-4000-8000-0000000000B2}" seat_freed
                = (s', Success "{00000000-0000-4000-8000-0000000000B2}" CONFIRMED None)
                /\ booking_has s' id_b2 (fun b => status b = CONFIRMED).
Proof.
  assert (H1 : conference_names_unique seat_freed).
  { unfold conference_names_unique. vm_compute.
    repeat constructor; simpl; intuition discriminate. }
  assert (H2 : checks_hold seat_freed).
  { intros c Hc. vm_compute in Hc. destruct Hc as [<-|[<-|[]]]; simpl; lia. }
  assert (H3 : bookings_reference_conferences seat_freed).
  { intros b Hb. vm_compute in Hb.
    destruct Hb as [<-|[<-|[<-|[]]]]; vm_compute; discriminate. }
  split; [reflexivity|].
  destruct (confirm_fails_iff_precondition_violated 5
              "{00000000-0000-4000-8000-0000000000B2}" seat_freed H1 H2 H3)
    as (_ & A & _).
  destruct (A id_b2) as [A' _]; [reflexivity|].
  apply A'. intros v.
  destruct v; simpl; intros H.
  - vm_compute in H. discriminate.
  - destruct H as (b & Hb & Hst). vm_compute in Hb. injection Hb as <-. now apply Hst.
  - destruct H as (b & c & Hb & Hc & Hle). vm_compute in Hb. injection Hb as <-.
    vm_compute in Hc. injection Hc as <-. simpl in Hle. lia.
  - destruct H as (b & d & Hb & Hd & Hgt). vm_compute in Hb. injection Hb as <-.
    vm_compute in Hd. injection Hd as <-. lia.
  - destruct H as (b & c & Hb & Hc & Hle). vm_compute in Hb. injection Hb as <-.
    vm_compute in Hc. injection Hc as <-. simpl in Hle. lia.
Defined.

(** A [bookingId] that is the text of no identifier names no booking, yet
    the call does not answer "Booking not found": the lookup raises, and the
    failure is the one of a rolled-back transaction, which is none of the
    five business-rule failures. *)
Lemma counterexample_confirm_without_identifier :
  uuid_in "not-a-uuid" = None
  /\ first_violated 5 "not-a-uuid" seat_freed BookingMissing
  /\ confirmWaitlistBooking 5 "not-a-uuid" seat_freed
     = (seat_freed, Failure "Failed to confirm booking")
  /\ forall v, snd (confirmWaitlistBooking 5 "not-a-uuid" seat_freed)
               <> Failure (confirm_error v).
Proof.
  split; [reflexivity|]. split; [|split].
  - split; [reflexivity|]. intros v' Hr. destruct v'; simpl in Hr; lia.
  - reflexivity.
  - intros v. destruct v; vm_compute; discriminate.
Qed.

(** ** Promotion *)

Lemma min_by_position_In (l : list waitlist_entry) (m : waitlist_entry) :
  min_by_position l = Some m -> In m l.
Proof.
  revert m. induction l as [|w l IH]; simpl; intros m H; [discriminate|].
  destruct (min_by_position l) as [m'|].
  - destruct (position m' <? position w); injection H as <-; auto.
  - injection H as <-. auto.
Qed.

Lemma min_by_position_lowest (l : list waitlist_entry) (m : waitlist_entry) :
  min_by_position l = Some m -> forall w, In w l -> position m <= position w.
Proof.
  revert m. induction l as [|x l IH]; simpl; intros m H w Hw; [contradiction|].
  destruct (min_by_position l) as [m'|] eqn:E.
  - specialize (IH m' eq_refl).
    destruct (position m' <? position x) eqn:Elt; injection H as <-.
    + apply Z.ltb_lt in Elt. destruct Hw as [<-|Hw]; [lia|auto].
    + apply Z.ltb_ge in Elt. destruct Hw as [<-|Hw]; [lia|].
      specialize (IH w Hw). lia.
  - injection H as <-. destruct Hw as [<-|Hw]; [lia|].
    destruct l; [contradiction|]. simpl in E.
    destruct (min_by_position l); [destruct (_ <? _)|]; discriminate.
Qed.

Lemma existsb_booking_id (x : string) (bs : list booking) :
  existsb (fun b => String.eqb (booking_id b) x) bs = true <-> In x (map booking_id bs).
Proof.
  rewrite existsb_exists, in_map_iff. split.
  - intros [b [H1 H2]]. apply String.eqb_eq in H2. eauto.
  - intros [b [H1 H2]]. exists b. split; [assumption|]. now apply String.eqb_eq.
Qed.

Lemma waitlist_head_spec (s : database) (n : string) (h : waitlist_entry) :
  waitlist_head s n = Some h ->
  In h (waitlist_of s n)
  /\ In (w_booking_id h) (map booking_id (bookings s))
  /\ forall w, In w (waitlist_of s n) ->
       In (w_booking_id w) (map booking_id (bookings s)) ->
       position h <= position w.
Proof.
  unfold waitlist_head. intros H.
  pose proof (min_by_position_In _ _ H) as Hin.
  apply filter_In in Hin. destruct Hin as [Hin Hex].
  apply existsb_booking_id in Hex.
  repeat split; auto.
  intros w Hw Hb. apply (min_by_position_lowest _ _ H).
  apply filter_In. split; [assumption|]. now apply existsb_booking_id.
Qed.

(** A waitlist that is not empty has a head, its rows referring to bookings. *)
Lemma waitlist_head_exists (s : database) (n : string) :
  waitlist_references_bookings s ->
  waitlist_of s n <> [] -> exists h, waitlist_head s n = Some h.
Proof.
  intros Hfk Hne. unfold waitlist_head.
  assert (X : filter (fun w => existsb (fun b => String.eqb (booking_id b) (w_booking_id w))
                                       (bookings s)) (waitlist_of s n) = waitlist_of s n).
  { apply forallb_filter_id. apply forallb_forall. intros w Hw.
    apply existsb_booking_id, Hfk. apply filter_In in Hw. tauto. }
  rewrite X. destruct (waitlist_of s n) as [|w l]; [contradiction|].
  simpl. destruct (min_by_position l) as [m|]; [|eauto].
  destruct (position m <? position w); eauto.
Qed.

Lemma waitlist_head_same (s s' : database) (n : string) :
  waitlist s' = waitlist s ->
  map booking_id (bookings s') = map booking_id (bookings s) ->
  waitlist_head s' n = waitlist_head s n.
Proof.
  intros Hw Hb. unfold waitlist_head, waitlist_of. rewrite Hw. f_equal.
  apply filter_ext. intros w.
  destruct (existsb (fun b => String.eqb (booking_id b) (w_booking_id w)) (bookings s)) eqn:E.
  - apply existsb_booking_id. rewrite Hb. now apply existsb_booking_id.
  - destruct (existsb _ (bookings s')) eqn:E'; [|reflexivity].
    apply existsb_booking_id in E'. rewrite Hb in E'.
    apply existsb_booking_id in E'. congruence.
Qed.

Lemma waitlist_head_processNext (now : Z) (n m : string) (s : database) :
  waitlist_head (processNextInWaitlist now n s) m = waitlist_head s m.
Proof.
  apply waitlist_head_same.
  - apply processNextInWaitlist_frame.
  - apply same_identities_ids, processNextInWaitlist_identities.
Qed.

Lemma processNextInWaitlist_statuses (now : Z) (n : string) (s : database) :
  map status (bookings (processNextInWaitlist now n s)) = map status (bookings s).
Proof.
  destruct (processNextInWaitlist_frame now n s) as (_ & _ & _ & f & Hf & Hb).
  rewrite Hb, map_map. apply map_ext.
  intros b. destruct (Hf b) as [-> | ->]; reflexivity.
Qed.

Lemma processNextInWaitlist_head (now : Z) (n : string) (s : database) (h : waitlist_entry) :
  waitlist_head s n = Some h ->
  bookings (processNextInWaitlist now n s)
  = map (fun b => if String.eqb (booking_id b) (w_booking_id h)
                  then set_confirm_by b (Some (now + confirm_window)) else b)
        (bookings s).
Proof. unfold processNextInWaitlist. intros ->. reflexivity. Qed.

Lemma promotion_head_deadline (now : Z) (n : string) (s : database) (h : waitlist_entry) :
  waitlist_head s n = Some h ->
  booking_has (processNextInWaitlist now n s) (w_booking_id h)
    (fun b => confirm_by b = Some (now + confirm_window)).
Proof.
  intros Hh.
  destruct (waitlist_head_spec s n h Hh) as (_ & Hbk & _).
  pose proof (processNextInWaitlist_head now n s h Hh) as Hb.
  split.
  - apply in_map_iff in Hbk. destruct Hbk as [b [Hid Hb_in]].
    exists (set_confirm_by b (Some (now + confirm_window))). split; [|assumption].
    rewrite Hb. apply in_map_iff. exists b. rewrite Hid, String.eqb_refl. auto.
  - intros b Hb_in Hid. rewrite Hb in Hb_in. apply in_map_iff in Hb_in.
    destruct Hb_in as [b0 [<- _]].
    destruct (String.eqb (booking_id b0) (w_booking_id h)) eqn:E; [reflexivity|].
    apply String.eqb_neq in E. contradiction.
Qed.

(** C10.  Whenever promotion runs and the waitlist of the conference is not
    empty, the head (the entry with the lowest position) has a booking, and
    that booking's [confirm_by] is overwritten with [now] + 1 hour whatever
    deadline it held before: an earlier deadline that has not expired is
    replaced as well.  Every other booking row, every waitlist row and every
    conference row is left as it was, and no status changes. *)
Theorem promotion_overwrites_deadline (now : Z) (n : string) (s : database)
    (h : waitlist_entry) :
  waitlist_head s n = Some h ->
  (forall w, In w (waitlist_of s n) ->
     In (w_booking_id w) (map booking_id (bookings s)) -> position h <= position w)
  /\ booking_has (processNextInWaitlist now n s) (w_booking_id h)
       (fun b => confirm_by b = Some (now + 60 * 60 * 1000))
  /\ (forall b, In b (bookings s) -> booking_id b = w_booking_id h ->
        In (set_confirm_by b (Some (now + 60 * 60 * 1000)))
           (bookings (processNextInWaitlist now n s)))
  /\ (forall b, In b (bookings s) -> booking_id b <> w_booking_id h ->
        In b (bookings (processNextInWaitlist now n s)))
  /\ map status (bookings (processNextInWaitlist now n s)) = map status (bookings s)
  /\ waitlist (processNextInWaitlist now n s) = waitlist s
  /\ conferences (processNextInWaitlist now n s) = conferences s.
Proof.
  intros Hh.
  destruct (waitlist_head_spec s n h Hh) as (Hin & Hbk & Hlow).
  pose proof (processNextInWaitlist_head now n s h Hh) as Hb.
  change (60 * 60 * 1000) with confirm_window.
  split; [exact Hlow|].
  split; [now apply promotion_head_deadline|].
  repeat split.
  - intros b Hb_in Hid. rewrite Hb. apply in_map_iff. exists b.
    rewrite Hid, String.eqb_refl. auto.
  - intros b Hb_in Hid. rewrite Hb. apply in_map_iff. exists b.
    apply String.eqb_neq in Hid. rewrite Hid. auto.
  - apply processNextInWaitlist_statuses.
  - apply processNextInWaitlist_frame.
  - apply processNextInWaitlist_frame.
Qed.

Lemma promotion_overwrites_deadline_witness :
  In (mkBooking id_b2 rust_days "bob" WAITLISTED 2 (Some (4 + 60 * 60 * 1000)))
     (bookings seat_freed)
  /\ In (mkBooking id_b2 rust_days "bob" WAITLISTED 2 (Some (10 + 60 * 60 * 1000)))
        (bookings (processNextInWaitlist 10 rust_days seat_freed)).
Proof.
  split; [vm_compute; auto|].
  assert (Hh : waitlist_head seat_freed rust_days = Some (mkWaitlist rust_days id_b2 1 2))
    by reflexivity.
  destruct (promotion_overwrites_deadline 10 rust_days seat_freed _ Hh)
    as (_ & _ & H & _).
  apply (H (mkBooking id_b2 rust_days "bob" WAITLISTED 2 (Some (4 + 60 * 60 * 1000)))).
  - vm_compute. auto.
  - reflexivity.
Defined.

(** A successful [confirmWaitlistBooking] ran the whole transaction. *)
Lemma confirm_success_inv (now : Z) (id id' : string) (s s' : database)
    (st : booking_status) (pos : option Z) :
  confirm_uuid now id s = (s', Success id' st pos) ->
  exists b c s2,
    booking_with_conference s id = Some (b, c)
    /\ status b = WAITLISTED
    /\ now < start_time c
    /\ 0 < available_slots c
    /\ add_available_slots (-1) (conference_name b)
         (update_booking id (fun x => set_confirm_by (set_status x CONFIRMED) None) s) = Some s2
    /\ s' = processNextInWaitlist now (conference_name b)
              (removeUserFromAllWaitlists (user_id b) (Some (conference_name b))
                 (delete_waitlist id s2))
    /\ id' = id /\ st = CONFIRMED /\ pos = None.
Proof.
  unfold confirm_uuid.
  destruct (booking_with_conference s id) as [[b c]|]; [|discriminate].
  destruct (status_eqb (status b) WAITLISTED) eqn:Est; simpl negb; cbv iota; [|discriminate].
  destruct (start_time c <=? now) eqn:Estart; [discriminate|].
  destruct (deadline_passed now b); [discriminate|].
  destruct (available_slots c <=? 0) eqn:Eav; [discriminate|].
  unfold bind.
  destruct (add_available_slots (-1) (conference_name b) _) as [s2|] eqn:E2; [|discriminate].
  intros [= <- <- <- <-].
  apply status_eqb_eq in Est. apply Z.leb_gt in Estart. apply Z.leb_gt in Eav.
  exists b, c, s2. repeat split; auto.
Qed.

(** A success of [confirmWaitlistBooking] is a success of the transaction
    for the identifier that the text denotes. *)
Lemma confirm_text_inv (now : Z) (bookingId id reported_id : string) (s s' : database)
    (st : booking_status) (pos : option Z) :
  uuid_in bookingId = Some id ->
  confirmWaitlistBooking now bookingId s = (s', Success reported_id st pos) ->
  confirm_uuid now id s = (s', Success id st pos).
Proof.
  intros Hid. unfold confirmWaitlistBooking. rewrite Hid.
  destruct (confirm_uuid now id s) as [s1 r] eqn:E.
  destruct r as [i st1 pos1|e]; simpl; [|discriminate].
  intros [= <- _ <- <-].
  destruct (confirm_success_inv _ _ _ _ _ _ _ E)
    as (b & c & s2 & _ & _ & _ & _ & _ & _ & Hi & _).
  now rewrite Hi.
Qed.

(** C6.  Unconditional promotion after confirm.  A successful
    [confirmWaitlistBooking] ends with [processNextInWaitlist] for the
    booking's conference, with no test of the remaining capacity: in the
    resulting state the head of that conference's waitlist, if there is one,
    holds the deadline [now] + 1 hour, whatever [available_slots] has become.
    The promotion step itself changes no status, no waitlist row and no
    conference row. *)
Theorem confirm_promotes_unconditionally (now : Z) (bookingId id : string)
    (s s' : database) (b : booking) (c : conference) :
  uuid_in bookingId = Some id ->
  booking_with_conference s id = Some (b, c) ->
  confirmWaitlistBooking now bookingId s = (s', Success bookingId CONFIRMED None) ->
  (exists s0, s' = processNextInWaitlist now (conference_name b) s0
              /\ map status (bookings s') = map status (bookings s0)
              /\ waitlist s' = waitlist s0
              /\ conferences s' = conferences s0)
  /\ (forall h, waitlist_head s' (conference_name b) = Some h ->
        booking_has s' (w_booking_id h)
          (fun x => confirm_by x = Some (now + 60 * 60 * 1000))).
Proof.
  intros Hid Hb Hok.
  apply (confirm_text_inv now bookingId id) in Hok; [|exact Hid].
  apply confirm_success_inv in Hok.
  destruct Hok as (b' & c' & s2 & Hb' & _ & _ & _ & _ & Hs' & _).
  assert (b' = b) by congruence. subst b'.
  split.
  - eexists. split; [exact Hs'|]. subst s'. repeat split.
    + apply processNextInWaitlist_statuses.
    + apply processNextInWaitlist_frame.
    + apply processNextInWaitlist_frame.
  - intros h Hh. subst s'.
    rewrite waitlist_head_processNext in Hh.
    now apply promotion_head_deadline.
Qed.

Lemma confirm_promotes_unconditionally_witness :
  exists s',
    confirmWaitlistBooking 5 id_b2 seat_freed = (s', Success id_b2 CONFIRMED None)
    /\ getConferenceByName s' rust_days = Some (mkConference rust_days 10000000 20000000 1 0)
    /\ waitlist_head s' rust_days = Some (mkWaitlist rust_days id_b3 2 3)
    /\ booking_has s' id_b3 (fun x => confirm_by x = Some (5 + 60 * 60 * 1000)).
Proof.
  eexists. split; [reflexivity|]. split; [reflexivity|]. split; [reflexivity|].
  refine (proj2 (confirm_promotes_unconditionally 5 id_b2 id_b2 seat_freed _
                   (mkBooking id_b2 rust_days "bob" WAITLISTED 2 (Some (4 + 60 * 60 * 1000)))
                   (mkConference rust_days 10000000 20000000 1 1) _ _ _)
                (mkWaitlist rust_days id_b3 2 3) _); reflexivity.
Defined.

(** ** Reordering a waitlist *)

Lemma insert_by_created_at_perm (plan : query_plan) (w : waitlist_entry)
    (l : list waitlist_entry) :
  Permutation (insert_by_created_at plan w l) (w :: l).
Proof.
  induction l as [|x l IH]; simpl; [apply Permutation_refl|].
  destruct (arrives_before plan w x); [apply Permutation_refl|].
  eapply perm_trans; [apply perm_skip, IH|apply perm_swap].
Qed.

Lemma order_by_created_at_perm (plan : query_plan) (l : list waitlist_entry) :
  Permutation (order_by_created_at plan l) l.
Proof.
  induction l as [|x l IH]; simpl; [apply perm_nil|].
  eapply perm_trans; [apply insert_by_created_at_perm|now apply perm_skip].
Qed.

Lemma arrives_before_spec (plan : query_plan) (w x : waitlist_entry) :
  if arrives_before plan w x then w_created_at w <= w_created_at x
  else w_created_at x <= w_created_at w.
Proof.
  unfold arrives_before.
  destruct (w_created_at w <? w_created_at x) eqn:E1; simpl.
  - apply Z.ltb_lt in E1. lia.
  - apply Z.ltb_ge in E1.
    destruct (w_created_at w =? w_created_at x) eqn:E2; simpl.
    + apply Z.eqb_eq in E2. destruct (tie_rank plan w <=? tie_rank plan x); lia.
    + exact E1.
Qed.

Lemma insert_by_created_at_sorted (plan : query_plan) (w : waitlist_entry)
    (l : list waitlist_entry) :
  StronglySorted created_le l -> StronglySorted created_le (insert_by_created_at plan w l).
Proof.
  induction l as [|x l IH]; simpl; intros Hs.
  - constructor; constructor.
  - inversion Hs as [|? ? Hs' Hall]; subst.
    pose proof (arrives_before_spec plan w x) as E.
    destruct (arrives_before plan w x).
    + constructor; [assumption|].
      constructor; [exact E|].
      eapply Forall_impl; [|exact Hall]. unfold created_le. intros; lia.
    + constructor; [auto|].
      eapply Permutation_Forall; [apply Permutation_sym, insert_by_created_at_perm|].
      constructor; [unfold created_le; lia|assumption].
Qed.

Lemma order_by_created_at_sorted (plan : query_plan) (l : list waitlist_entry) :
  StronglySorted created_le (order_by_created_at plan l).
Proof.
  induction l as [|x l IH]; simpl; [constructor|].
  now apply insert_by_created_at_sorted.
Qed.

Lemma new_position_skip (id : string) (x : waitlist_entry) (start : Z)
    (l : list waitlist_entry) :
  w_booking_id x <> id ->
  new_position (row_number start (x :: l)) id = new_position (row_number (start + 1) l) id.
Proof.
  intros H. unfold new_position. simpl.
  apply String.eqb_neq in H. now rewrite H.
Qed.

Lemma new_position_range (id : string) (l : list waitlist_entry) (start p : Z) :
  new_position (row_number start l) id = Some p ->
  start <= p < start + Z.of_nat (List.length l).
Proof.
  revert start. induction l as [|x l IH]; intros start; [discriminate|].
  unfold new_position. simpl.
  destruct (String.eqb (w_booking_id x) id) eqn:E.
  - simpl. intros [= <-]. lia.
  - intros H. apply IH in H. lia.
Qed.

(** The rows of a list with distinct identifiers, taken in the order of the
    list, are numbered consecutively. *)
Lemma new_position_in_order (l : list waitlist_entry) (start : Z) :
  NoDup (map w_booking_id l) ->
  map (fun w => new_position (row_number start l) (w_booking_id w)) l
  = map Some (zseq start (List.length l)).
Proof.
  revert start. induction l as [|x l IH]; intros start Hnd; [reflexivity|].
  inversion Hnd as [|? ? Hnotin Hnd']; subst.
  cbn [map List.length zseq]. f_equal.
  - unfold new_position. simpl. now rewrite String.eqb_refl.
  - rewrite <- IH by assumption. apply map_ext_in.
    intros w Hw. apply new_position_skip.
    intros E. apply Hnotin. rewrite E. now apply in_map.
Qed.

Lemma new_position_sorted (l : list waitlist_entry) (start : Z) (w1 w2 : waitlist_entry) :
  NoDup (map w_booking_id l) ->
  StronglySorted created_le l ->
  In w1 l -> In w2 l ->
  w_created_at w1 < w_created_at w2 ->
  exists p1 p2,
    new_position (row_number start l) (w_booking_id w1) = Some p1
    /\ new_position (row_number start l) (w_booking_id w2) = Some p2
    /\ p1 < p2.
Proof.
  revert start. induction l as [|x l IH]; intros start Hnd Hs H1 H2 Hlt; [contradiction|].
  inversion Hnd as [|? ? Hnotin Hnd']; subst.
  inversion Hs as [|? ? Hs' Hall]; subst.
  assert (Hne : forall w, In w l -> w_booking_id x <> w_booking_id w).
  { intros w Hw E. apply Hnotin. rewrite E. now apply in_map. }
  destruct H1 as [<-|H1], H2 as [<-|H2].
  - lia.
  - pose proof (new_position_in_order l (start + 1) Hnd') as Hall2.
    assert (Hex : exists p2, new_position (row_number (start + 1) l) (w_booking_id w2) = Some p2).
    { assert (Hin : In (new_position (row_number (start + 1) l) (w_booking_id w2))
                       (map (fun w => new_position (row_number (start + 1) l) (w_booking_id w)) l)).
      { apply in_map_iff. eauto. }
      rewrite Hall2 in Hin. apply in_map_iff in Hin. destruct Hin as [p [Hp _]]. eauto. }
    destruct Hex as [p2 Hp2].
    exists start, p2. repeat split.
    + unfold new_position. simpl. now rewrite String.eqb_refl.
    + rewrite new_position_skip by auto. exact Hp2.
    + apply new_position_range in Hp2. lia.
  - exfalso. rewrite Forall_forall in Hall. specialize (Hall w1 H1).
    unfold created_le in Hall. lia.
  - destruct (IH (start + 1) Hnd' Hs' H1 H2 Hlt) as (p1 & p2 & Hp1 & Hp2 & Hp).
    exists p1, p2. rewrite !new_position_skip by auto. auto.
Qed.

(** Deleting the rows of one booking keeps the identifiers distinct. *)
Lemma remaining_ids_unique (id : string) (rows : list waitlist_entry) :
  NoDup (map w_booking_id rows) ->
  NoDup (map w_booking_id
           (filter (fun w => negb (String.eqb (w_booking_id w) id)) rows)).
Proof.
  intros Hnd. induction rows as [|w rows IH]; simpl; [constructor|].
  inversion Hnd as [|? ? Hfresh Hrest]; subst.
  destruct (String.eqb (w_booking_id w) id); simpl; [now apply IH|].
  constructor; [|now apply IH].
  rewrite in_map_iff. intros (x & Hx & Hin).
  apply filter_In in Hin. apply Hfresh. rewrite <- Hx. apply in_map. tauto.
Qed.

Lemma filter_map_commute {A : Type} (p : A -> bool) (g : A -> A) (l : list A) :
  (forall x, p (g x) = p x) -> filter p (map g l) = map g (filter p l).
Proof.
  intros H. induction l as [|x l IH]; simpl; [reflexivity|].
  rewrite H. destruct (p x); simpl; now rewrite IH.
Qed.

(** The waitlist of the conference after [reorderWaitlist]: the same rows,
    each with its reordered position. *)
Lemma renumbered_rows (plan : query_plan) (n : string) (s : database) :
  waitlist_of (renumbered plan n s) n
  = map (fun w => set_position w (reordered_position plan (waitlist_of s n) w))
        (waitlist_of s n).
Proof.
  unfold renumbered, waitlist_of at 1. cbn [waitlist with_waitlist].
  rewrite filter_map_commute.
  - fold (waitlist_of s n). apply map_ext_in. intros w Hw.
    apply filter_In in Hw. destruct Hw as [_ Hw]. rewrite Hw.
    unfold reordered_position.
    destruct (new_position _ (w_booking_id w)); [reflexivity|].
    destruct w; reflexivity.
  - intros w. destruct (String.eqb (w_conference_name w) n) eqn:E; [|now rewrite E].
    destruct (new_position _ (w_booking_id w)); simpl; now rewrite E.
Qed.

Lemma renumbered_other (plan : query_plan) (n m : string) (s : database) :
  m <> n -> waitlist_of (renumbered plan n s) m = waitlist_of s m.
Proof.
  intros Hne. unfold renumbered, waitlist_of. cbn [waitlist with_waitlist].
  generalize (row_number 1 (order_by_created_at plan
    (filter (fun w => String.eqb (w_conference_name w) n) (waitlist s)))).
  intros numbered.
  induction (waitlist s) as [|w l IH]; simpl; [reflexivity|].
  destruct (String.eqb (w_conference_name w) n) eqn:E.
  - apply String.eqb_eq in E.
    assert (X : String.eqb (w_conference_name w) m = false).
    { apply String.eqb_neq. congruence. }
    destruct (new_position _ (w_booking_id w)); simpl; rewrite X; exact IH.
  - destruct (String.eqb (w_conference_name w) m); [f_equal|]; exact IH.
Qed.

Lemma map_some_values {A : Type} (f : A -> option Z) (d : A -> Z) (l : list A) (zs : list Z) :
  map f l = map Some zs ->
  map (fun x => match f x with Some p => p | None => d x end) l = zs.
Proof.
  revert zs. induction l as [|x l IH]; intros zs H.
  - destruct zs; [reflexivity|discriminate].
  - destruct zs as [|z zs]; [discriminate|].
    simpl in H. injection H as H1 H2. simpl. rewrite H1. f_equal. now apply IH.
Qed.

Lemma reordered_positions_dense (plan : query_plan) (rows : list waitlist_entry) :
  NoDup (map w_booking_id rows) ->
  Permutation (map (reordered_position plan rows) rows) (zseq 1 (List.length rows)).
Proof.
  intros Hnd.
  pose proof (order_by_created_at_perm plan rows) as Hperm.
  assert (Hnd' : NoDup (map w_booking_id (order_by_created_at plan rows))).
  { eapply Permutation_NoDup; [|exact Hnd].
    apply Permutation_map, Permutation_sym, Hperm. }
  eapply perm_trans.
  { apply Permutation_map, Permutation_sym, Hperm. }
  rewrite <- (Permutation_length Hperm).
  pose proof (new_position_in_order (order_by_created_at plan rows) 1 Hnd') as H.
  assert (X : map (reordered_position plan rows) (order_by_created_at plan rows)
              = zseq 1 (List.length (order_by_created_at plan rows))).
  { unfold reordered_position. now apply map_some_values. }
  rewrite X. apply Permutation_refl.
Qed.

Lemma reordered_positions_ordered (plan : query_plan) (rows : list waitlist_entry)
    (w1 w2 : waitlist_entry) :
  NoDup (map w_booking_id rows) ->
  In w1 rows -> In w2 rows ->
  w_created_at w1 < w_created_at w2 ->
  reordered_position plan rows w1 < reordered_position plan rows w2.
Proof.
  intros Hnd H1 H2 Hlt.
  pose proof (order_by_created_at_perm plan rows) as Hperm.
  assert (Hnd' : NoDup (map w_booking_id (order_by_created_at plan rows))).
  { eapply Permutation_NoDup; [|exact Hnd].
    apply Permutation_map, Permutation_sym, Hperm. }
  destruct (new_position_sorted (order_by_created_at plan rows) 1 w1 w2)
    as (p1 & p2 & Hp1 & Hp2 & Hp);
    auto.
  - apply order_by_created_at_sorted.
  - eapply Permutation_in; [apply Permutation_sym, Hperm|assumption].
  - eapply Permutation_in; [apply Permutation_sym, Hperm|assumption].
  - unfold reordered_position. now rewrite Hp1, Hp2.
Qed.

(** ** Cancelling a booking *)

Lemma filter_comm {A : Type} (p q : A -> bool) (l : list A) :
  filter p (filter q l) = filter q (filter p l).
Proof.
  induction l as [|x l IH]; simpl; [reflexivity|].
  destruct (p x) eqn:Ep, (q x) eqn:Eq; simpl; rewrite ?Ep, ?Eq, IH; reflexivity.
Qed.

Lemma count_confirmed_positive (s : database) (b : booking) :
  In b (bookings s) -> status b = CONFIRMED ->
  (1 <= count_confirmed s (conference_name b))%nat.
Proof.
  intros Hin Hst. unfold count_confirmed.
  assert (H : In b (filter (confirmed_for (conference_name b)) (bookings s))).
  { apply filter_In. split; [assumption|].
    unfold confirmed_for. rewrite Hst, String.eqb_refl. reflexivity. }
  destruct (filter _ (bookings s)); [contradiction|simpl; lia].
Qed.

Lemma getConferenceByName_after_update (delta : Z) (n m : string) (s s' : database) :
  add_available_slots delta n s = Some s' ->
  getConferenceByName s' m
  = if String.eqb m n
    then option_map (fun c => set_available c (available_slots c + delta))
                    (getConferenceByName s n)
    else getConferenceByName s m.
Proof.
  intros H. apply add_available_slots_some in H. destruct H as (Hc & _).
  unfold getConferenceByName. rewrite Hc. clear Hc.
  destruct (String.eqb m n) eqn:E.
  - apply String.eqb_eq in E. subst m.
    induction (conferences s) as [|c cs IH]; simpl; [reflexivity|].
    destruct (String.eqb (name c) n) eqn:E1; simpl; rewrite E1; [reflexivity|exact IH].
  - induction (conferences s) as [|c cs IH]; simpl; [reflexivity|].
    destruct (String.eqb (name c) n) eqn:E1; simpl.
    + apply String.eqb_eq in E1. rewrite E1, String.eqb_sym, E. exact IH.
    + destruct (String.eqb (name c) m); [reflexivity|exact IH].
Qed.

(** The CONFIRMED branch of [cancelBooking]. *)
Lemma cancel_confirmed (plan : query_plan) (now : Z) (id : string) (s : database)
    (b : booking) (c : conference) :
  booking_with_conference s id = Some (b, c) ->
  now < start_time c ->
  status b = CONFIRMED ->
  conference_names_unique s -> checks_hold s -> ledger_invariant s ->
  exists s',
    cancel_uuid plan now id s = (s', Success id CANCELED None)
    /\ booking_has s' id (fun x => status x = CANCELED)
    /\ getConferenceByName s' (conference_name b)
       = Some (set_available c (available_slots c + 1))
    /\ (forall m, m <> conference_name b ->
          getConferenceByName s' m = getConferenceByName s m)
    /\ (forall h, waitlist_head s' (conference_name b) = Some h ->
          booking_has s' (w_booking_id h)
            (fun x => confirm_by x = Some (now + 60 * 60 * 1000)))
    /\ waitlist s' = waitlist s.
Proof.
  intros Hbc Hstart Hst Hnd Hchk Hinv.
  pose proof (booking_with_conference_some _ _ _ _ Hbc) as [Hb Hc].
  pose proof (booking_by_id_some _ _ _ Hb) as [Hin Hid].
  pose proof (getConferenceByName_name _ _ _ Hc) as [Hcin Hcname].
  set (s1 := update_booking id (fun x => set_status x CANCELED) s).
  destruct (add_available_slots_accepted 1 (conference_name b) s1 c) as [s2 E2].
  { exact Hnd. }
  { exact Hc. }
  { specialize (Hchk c Hcin). specialize (Hinv c Hcin).
    pose proof (count_confirmed_positive s b Hin Hst) as Hpos.
    rewrite Hcname in Hinv. lia. }
  exists (processNextInWaitlist now (conference_name b) s2).
  pose proof (add_available_slots_some _ _ _ _ E2) as (Hc2 & Hb2 & Hw2 & _).
  split.
  { unfold cancel_uuid. rewrite Hbc, Hst. simpl status_eqb. cbv iota.
    replace (start_time c <=? now) with false by (symmetry; apply Z.leb_gt; lia).
    fold s1. unfold bind. rewrite E2. reflexivity. }
  split.
  { apply processNextInWaitlist_keeps; [auto|].
    apply (booking_has_same_bookings s1); [assumption|].
    apply (update_booking_has id _ s b); auto. }
  destruct (processNextInWaitlist_frame now (conference_name b) s2) as (Hpc & Hpw & _).
  split.
  { unfold getConferenceByName. rewrite Hpc. fold (getConferenceByName s2 (conference_name b)).
    rewrite (getConferenceByName_after_update 1 (conference_name b) _ s1 s2 E2).
    rewrite String.eqb_refl. change (getConferenceByName s1 (conference_name b))
      with (getConferenceByName s (conference_name b)). now rewrite Hc. }
  split.
  { intros m Hm. unfold getConferenceByName at 1. rewrite Hpc.
    fold (getConferenceByName s2 m).
    rewrite (getConferenceByName_after_update 1 (conference_name b) _ s1 s2 E2).
    apply String.eqb_neq in Hm. rewrite Hm. reflexivity. }
  split.
  { intros h Hh. rewrite waitlist_head_processNext in Hh.
    now apply promotion_head_deadline. }
  rewrite Hpw, Hw2. reflexivity.
Qed.

(** The WAITLISTED branch of [cancelBooking], when the [UPDATE] of
    [reorderWaitlist] raises: the transaction is rolled back. *)
Lemma cancel_waitlisted_raised (plan : query_plan) (now : Z) (id : string)
    (s : database) (b : booking) (c : conference) :
  booking_with_conference s id = Some (b, c) ->
  now < start_time c ->
  status b = WAITLISTED ->
  reorderWaitlist plan (conference_name b)
    (delete_waitlist id (update_booking id (fun x => set_status x CANCELED) s)) = None ->
  cancel_uuid plan now id s = (s, Failure "Failed to cancel booking").
Proof.
  intros Hbc Hstart Hst Hr.
  unfold cancel_uuid. rewrite Hbc, Hst. simpl status_eqb. cbv iota.
  replace (start_time c <=? now) with false by (symmetry; apply Z.leb_gt; lia).
  cbn [bind]. now rewrite Hr.
Qed.

(** The WAITLISTED branch of [cancelBooking], when it passes. *)
Lemma cancel_waitlisted_booking (plan : query_plan) (now : Z) (id : string)
    (s s' : database) (b : booking) (c : conference) :
  booking_with_conference s id = Some (b, c) ->
  now < start_time c ->
  status b = WAITLISTED ->
  waitlist_ids_unique s (conference_name b) ->
  reorderWaitlist plan (conference_name b)
    (delete_waitlist id (update_booking id (fun x => set_status x CANCELED) s)) = Some s' ->
  cancel_uuid plan now id s = (s', Success id CANCELED None)
  /\ booking_has s' id (fun x => status x = CANCELED)
  /\ (forall w, In w (waitlist s') -> w_booking_id w <> id)
  /\ dense (waitlist_of s' (conference_name b))
  /\ arrival_ordered (waitlist_of s' (conference_name b))
  /\ map arrival (waitlist_of s' (conference_name b))
     = map arrival (filter (fun w => negb (String.eqb (w_booking_id w) id))
                           (waitlist_of s (conference_name b)))
  /\ (forall m, m <> conference_name b ->
        waitlist_of s' m
        = filter (fun w => negb (String.eqb (w_booking_id w) id)) (waitlist_of s m))
  /\ conferences s' = conferences s.
Proof.
  intros Hbc Hstart Hst Huniq Hr.
  pose proof (booking_with_conference_some _ _ _ _ Hbc) as [Hb Hc].
  set (n := conference_name b) in *.
  set (s1 := update_booking id (fun x => set_status x CANCELED) s) in *.
  set (s0 := delete_waitlist id s1) in *.
  assert (Hrows : forall m, waitlist_of s0 m
            = filter (fun w => negb (String.eqb (w_booking_id w) id)) (waitlist_of s m)).
  { intros m. unfold waitlist_of, s0, delete_waitlist. cbn [waitlist with_waitlist s1 update_booking with_bookings].
    apply filter_comm. }
  assert (Hnd : NoDup (map w_booking_id (waitlist_of s0 n))).
  { rewrite Hrows. now apply remaining_ids_unique. }
  split.
  { unfold cancel_uuid. rewrite Hbc, Hst. simpl status_eqb. cbv iota.
    replace (start_time c <=? now) with false by (symmetry; apply Z.leb_gt; lia).
    cbn [bind]. fold n s1 s0. now rewrite Hr. }
  apply reorderWaitlist_renumbered in Hr. subst s'.
  split.
  { apply (booking_has_same_bookings s1); [reflexivity|].
    apply (update_booking_has id _ s b); auto. }
  split.
  { intros w Hw. unfold renumbered in Hw. cbn [waitlist with_waitlist] in Hw.
    apply in_map_iff in Hw. destruct Hw as [w0 [Hw0 Hin0]].
    assert (Hid : w_booking_id w = w_booking_id w0).
    { rewrite <- Hw0. destruct (String.eqb (w_conference_name w0) n); [|reflexivity].
      destruct (new_position _ (w_booking_id w0)); reflexivity. }
    rewrite Hid. unfold s0, delete_waitlist in Hin0. cbn [waitlist with_waitlist] in Hin0.
    apply filter_In in Hin0. destruct Hin0 as [_ Hne].
    apply negb_true_iff in Hne. now apply String.eqb_neq. }
  rewrite renumbered_rows.
  split.
  { unfold dense. rewrite map_map, length_map. cbn [position set_position].
    now apply reordered_positions_dense. }
  split.
  { intros w1 w2 H1 H2. apply in_map_iff in H1, H2.
    destruct H1 as [x1 [<- H1]], H2 as [x2 [<- H2]]. simpl.
    now apply reordered_positions_ordered. }
  split.
  { rewrite map_map. simpl. rewrite <- Hrows. reflexivity. }
  split.
  { intros m Hm. rewrite renumbered_other by assumption. apply Hrows. }
  reflexivity.
Qed.

Lemma cancel_text (plan : query_plan) (now : Z) (bookingId id : string)
    (s s' : database) (r : result) :
  uuid_in bookingId = Some id ->
  cancel_uuid plan now id s = (s', r) ->
  cancelBooking plan now bookingId s = (s', reported bookingId r).
Proof. intros Hid H. unfold cancelBooking. now rewrite Hid, H. Qed.

(** C7.  Cancel postcondition by prior status: the WAITLISTED case can fail.
    alice holds the one seat of "Rust Days"; bob, carol and dave wait at
    positions 1, 2 and 3, and the conference has not started.  bob cancels.
    His row is deleted, and [reorderWaitlist] has to move carol to position 1
    and dave to position 2.  When its [UPDATE] writes dave's row first,
    position 2 is still carol's: the statement raises on
    [UNIQUE (conference_name, position)], the transaction is rolled back and
    the call fails.  bob's booking is still WAITLISTED, his waitlist row is
    still there, and the positions are those from before.  When the
    [UPDATE] writes the rows in table order, the same call succeeds and
    leaves carol and dave at positions 1 and 2. *)
Theorem waitlisted_cancel_rolls_back :
  booking_with_conference dave_waitlisted id_b2
  = Some (mkBooking id_b2 rust_days "bob" WAITLISTED 2 None,
          mkConference rust_days 10000000 20000000 1 0)
  /\ map arrival (waitlist_of dave_waitlisted rust_days) = [(id_b2, 2); (id_b3, 3); (id_b5, 4)]
  /\ map position (waitlist_of dave_waitlisted rust_days) = [1; 2; 3]
  /\ cancelBooking last_arrival_first 5 id_b2 dave_waitlisted
     = (dave_waitlisted, Failure "Failed to cancel booking")
  /\ booking_has dave_waitlisted id_b2 (fun x => status x = WAITLISTED)
  /\ (exists s',
        cancelBooking table_order 5 id_b2 dave_waitlisted = (s', Success id_b2 CANCELED None)
        /\ booking_has s' id_b2 (fun x => status x = CANCELED)
        /\ map arrival (waitlist_of s' rust_days) = [(id_b3, 3); (id_b5, 4)]
        /\ map position (waitlist_of s' rust_days) = [1; 2]).
Proof.
  split; [reflexivity|]. split; [reflexivity|]. split; [reflexivity|].
  split; [reflexivity|]. split.
  - split.
    + exists (mkBooking id_b2 rust_days "bob" WAITLISTED 2 None).
      split; [vm_compute; auto|reflexivity].
    + intros x Hx Hid. vm_compute in Hx.
      destruct Hx as [<-|[<-|[<-|[<-|[]]]]]; try reflexivity; discriminate.
  - eexists. split; [reflexivity|]. split; [|split; reflexivity].
    split.
    + exists (mkBooking id_b2 rust_days "bob" CANCELED 2 None).
      split; [vm_compute; auto|reflexivity].
    + intros x Hx Hid. vm_compute in Hx.
      destruct Hx as [<-|[<-|[<-|[<-|[]]]]]; try reflexivity; discriminate.
Qed.

(** ** Displacement *)

Lemma held_elsewhere_displaced (u n : string) (b : booking) :
  held_elsewhere u n b -> displaced u (Some n) b = true.
Proof.
  intros (Hu & Hst & Hn). unfold displaced.
  rewrite Hu, Hst, String.eqb_refl. simpl.
  destruct (String.eqb n EmptyString); [reflexivity|].
  apply negb_true_iff. now apply String.eqb_neq.
Qed.

Lemma displaced_some (u n : string) (b : booking) :
  displaced u (Some n) b = true ->
  held_elsewhere u n b
  \/ (n = EmptyString /\ user_id b = u /\ status b = WAITLISTED /\ conference_name b = n).
Proof.
  intros H. pose proof (displaced_waitlisted _ _ _ H) as [Hst Hu].
  unfold displaced in H. apply andb_true_iff in H. destruct H as [_ H].
  destruct (String.eqb n EmptyString) eqn:E.
  - apply String.eqb_eq in E.
    destruct (String.eqb (conference_name b) n) eqn:E'.
    + apply String.eqb_eq in E'. right. auto.
    + apply String.eqb_neq in E'. left. repeat split; auto.
  - apply negb_true_iff in H. apply String.eqb_neq in H. left. repeat split; auto.
Qed.

(** What [removeUserFromAllWaitlists] does, and what it leaves alone. *)
Lemma removeUserFromAllWaitlists_effect (u n : string) (s : database) :
  (forall b, In b (bookings s) -> held_elsewhere u n b ->
     In (set_status b CANCELED) (bookings (removeUserFromAllWaitlists u (Some n) s))
     /\ forall w, In w (waitlist (removeUserFromAllWaitlists u (Some n) s)) ->
          w_booking_id w <> booking_id b)
  /\ (forall w, In w (waitlist (removeUserFromAllWaitlists u (Some n) s)) ->
        In w (waitlist s))
  /\ (forall w, In w (waitlist s) ->
        (forall b, In b (bookings s) -> displaced u (Some n) b = true ->
           booking_id b <> w_booking_id w) ->
        In w (waitlist (removeUserFromAllWaitlists u (Some n) s))).
Proof.
  unfold removeUserFromAllWaitlists. cbn [bookings waitlist with_bookings with_waitlist].
  repeat split.
  - apply in_map_iff. exists b. apply held_elsewhere_displaced in H0.
    rewrite H0. auto.
  - intros w Hw E. apply filter_In in Hw. destruct Hw as [_ Hw].
    apply negb_true_iff in Hw.
    assert (X : existsb (fun b0 => displaced u (Some n) b0
                          && String.eqb (booking_id b0) (w_booking_id w)) (bookings s) = true).
    { apply existsb_exists. exists b. split; [assumption|].
      apply held_elsewhere_displaced in H0. rewrite H0, E, String.eqb_refl. reflexivity. }
    congruence.
  - intros w Hw. apply filter_In in Hw. tauto.
  - intros w Hw Hnone. apply filter_In. split; [assumption|].
    apply negb_true_iff. apply existsb_false. intros b Hb.
    destruct (displaced u (Some n) b) eqn:E; [|reflexivity].
    simpl. apply String.eqb_neq. now apply Hnone.
Qed.

Lemma processNextInWaitlist_keeps_row (now : Z) (n : string) (s : database) (b : booking) :
  In b (bookings s) ->
  (forall w, In w (waitlist s) -> w_booking_id w <> booking_id b) ->
  In b (bookings (processNextInWaitlist now n s)).
Proof.
  intros Hin Hnone.
  destruct (waitlist_head s n) as [h|] eqn:Hh.
  - rewrite (processNextInWaitlist_head now n s h Hh).
    apply in_map_iff. exists b. split; [|assumption].
    destruct (waitlist_head_spec s n h Hh) as (Hhin & _).
    apply filter_In in Hhin. destruct Hhin as [Hhin _].
    specialize (Hnone h Hhin).
    assert (X : String.eqb (booking_id b) (w_booking_id h) = false).
    { apply String.eqb_neq. congruence. }
    now rewrite X.
  - unfold processNextInWaitlist. now rewrite Hh.
Qed.

Lemma book_confirmed_inv (now : Z) (id n u : string) (s s' : database) :
  bookConference now id n u s = (s', Success id CONFIRMED None) ->
  exists s1 s2,
    hasExistingBooking s u n = false
    /\ insert_booking (mkBooking id n u CONFIRMED now None) s = Some s1
    /\ add_available_slots (-1) n s1 = Some s2
    /\ s' = removeUserFromAllWaitlists u (Some n) s2.
Proof.
  unfold bookConference.
  destruct (getConferenceByName s n) as [c|]; [|discriminate].
  destruct (getUserById s u); [|discriminate].
  destruct (hasConferenceStarted now s n) as [[|]|]; try discriminate.
  destruct (hasExistingBooking s u n); [discriminate|].
  destruct (hasConflictingBooking s u (start_time c) (end_time c)); [discriminate|].
  destruct (0 <? available_slots c); unfold bind.
  - destruct (insert_booking _ s) as [s1|] eqn:E1; [|discriminate].
    destruct (add_available_slots (-1) n s1) as [s2|] eqn:E2; [|discriminate].
    intros [= <-]. exists s1, s2. auto.
  - destruct (insert_booking _ s) as [s1|]; [|discriminate].
    destruct (insert_waitlist _ s1); discriminate.
Qed.

Lemma hasExistingBooking_false (s : database) (u n : string) (b : booking) :
  hasExistingBooking s u n = false ->
  In b (bookings s) -> user_id b = u -> conference_name b = n -> status b = CANCELED.
Proof.
  unfold hasExistingBooking. intros H Hin Hu Hn.
  destruct (status_eqb (status b) CANCELED) eqn:E; [now apply status_eqb_eq|].
  assert (X : existsb (fun b0 => String.eqb (user_id b0) u && String.eqb (conference_name b0) n
                         && negb (status_eqb (status b0) CANCELED)) (bookings s) = true).
  { apply existsb_exists. exists b. split; [assumption|].
    rewrite Hu, Hn, !String.eqb_refl, E. reflexivity. }
  congruence.
Qed.

Lemma unique_pair (bs : list booking) (b1 b2 : booking) :
  NoDup (map (fun b => (conference_name b, user_id b)) bs) ->
  In b1 bs -> In b2 bs ->
  conference_name b1 = conference_name b2 -> user_id b1 = user_id b2 -> b1 = b2.
Proof.
  induction bs as [|b bs IH]; simpl; intros Hnd H1 H2 Hc Hu; [contradiction|].
  inversion Hnd as [|? ? Hnotin Hnd']; subst.
  destruct H1 as [<-|H1], H2 as [<-|H2]; auto.
  - exfalso. apply Hnotin. rewrite Hc, Hu.
    apply (in_map (fun b => (conference_name b, user_id b))). assumption.
  - exfalso. apply Hnotin. rewrite <- Hc, <- Hu.
    apply (in_map (fun b => (conference_name b, user_id b))). assumption.
Qed.

Lemma unique_id (bs : list booking) (b1 b2 : booking) :
  NoDup (map booking_id bs) ->
  In b1 bs -> In b2 bs -> booking_id b1 = booking_id b2 -> b1 = b2.
Proof.
  induction bs as [|b bs IH]; simpl; intros Hnd H1 H2 Hid; [contradiction|].
  inversion Hnd as [|? ? Hnotin Hnd']; subst.
  destruct H1 as [<-|H1], H2 as [<-|H2]; auto.
  - exfalso. apply Hnotin. rewrite Hid. now apply in_map.
  - exfalso. apply Hnotin. rewrite <- Hid. now apply in_map.
Qed.

Lemma displacement_after_book (now : Z) (id u n : string) (s s' : database) :
  bookConference now id n u s = (s', Success id CONFIRMED None) ->
  (forall b, In b (bookings s) -> held_elsewhere u n b ->
     In (set_status b CANCELED) (bookings s')
     /\ forall w, In w (waitlist s') -> w_booking_id w <> booking_id b)
  /\ (forall w, In w (waitlist s') -> In w (waitlist s))
  /\ (forall w, In w (waitlist s) ->
        (forall b, In b (bookings s) -> held_elsewhere u n b ->
           booking_id b <> w_booking_id w) ->
        In w (waitlist s')).
Proof.
  intros Hok. apply book_confirmed_inv in Hok.
  destruct Hok as (s1 & s2 & Hex & E1 & E2 & ->).
  apply insert_booking_some in E1. destruct E1 as (Hb1 & _ & Hw1 & _).
  apply add_available_slots_some in E2. destruct E2 as (_ & Hb2 & Hw2 & _).
  destruct (removeUserFromAllWaitlists_effect u n s2) as (Eff & Sub & Keep).
  assert (Hbs : bookings s2 = bookings s ++ [mkBooking id n u CONFIRMED now None])
    by congruence.
  assert (Hws : waitlist s2 = waitlist s) by congruence.
  split; [|split].
  - intros b Hb Hheld. apply Eff; [|assumption].
    rewrite Hbs. apply in_or_app. now left.
  - intros w Hw. rewrite <- Hws. now apply Sub.
  - intros w Hw Hnone. apply Keep; [now rewrite Hws|].
    intros b Hb Hdis. rewrite Hbs in Hb. apply in_app_or in Hb.
    destruct Hb as [Hb|[<-|[]]].
    + destruct (displaced_some _ _ _ Hdis) as [Hheld|(_ & Hu & Hst & Hn)].
      * now apply Hnone.
      * pose proof (hasExistingBooking_false s u n b Hex Hb Hu Hn). congruence.
    + apply displaced_waitlisted in Hdis. destruct Hdis as [Hst _]. discriminate.
Qed.

Lemma displacement_after_confirm (now : Z) (id u n : string) (s s' : database)
    (b0 : booking) (c0 : conference) :
  booking_with_conference s id = Some (b0, c0) ->
  user_id b0 = u -> conference_name b0 = n ->
  confirm_uuid now id s = (s', Success id CONFIRMED None) ->
  booking_ids_unique s ->
  one_booking_per_pair s ->
  (forall b, In b (bookings s) -> held_elsewhere u n b ->
     In (set_status b CANCELED) (bookings s')
     /\ forall w, In w (waitlist s') -> w_booking_id w <> booking_id b)
  /\ (forall w, In w (waitlist s') -> In w (waitlist s))
  /\ (forall w, In w (waitlist s) -> w_booking_id w <> id ->
        (forall b, In b (bookings s) -> held_elsewhere u n b ->
           booking_id b <> w_booking_id w) ->
        In w (waitlist s')).
Proof.
  intros Hbc Hu Hn Hok Hids Hpair.
  apply confirm_success_inv in Hok.
  destruct Hok as (b' & c' & s2 & Hbc' & _ & _ & _ & E2 & -> & _).
  assert (b' = b0) by congruence. subst b'. rewrite Hu, Hn in *.
  pose proof (booking_with_conference_some _ _ _ _ Hbc) as [Hb0 _].
  pose proof (booking_by_id_some _ _ _ Hb0) as [Hin0 Hid0].
  apply add_available_slots_some in E2. destruct E2 as (_ & Hb2 & Hw2 & _).
  set (s3 := delete_waitlist id s2).
  assert (Hbs : bookings s3
            = map (fun x => if String.eqb (booking_id x) id
                            then set_confirm_by (set_status x CONFIRMED) None else x)
                  (bookings s)) by (simpl; rewrite Hb2; reflexivity).
  assert (Hws : waitlist s3
            = filter (fun w => negb (String.eqb (w_booking_id w) id)) (waitlist s))
    by (simpl; rewrite Hw2; reflexivity).
  destruct (removeUserFromAllWaitlists_effect u n s3) as (Eff & Sub & Keep).
  destruct (processNextInWaitlist_frame now n (removeUserFromAllWaitlists u (Some n) s3))
    as (_ & Hpw & _).
  split; [|split].
  - intros b Hb Hheld.
    assert (Hne : String.eqb (booking_id b) id = false).
    { apply String.eqb_neq. intros E.
      assert (b = b0) by (apply (unique_id (bookings s)); auto; congruence).
      subst b. destruct Hheld as (_ & _ & Hc). congruence. }
    assert (Hb3 : In b (bookings s3)).
    { rewrite Hbs. apply in_map_iff. exists b. now rewrite Hne. }
    destruct (Eff b Hb3 Hheld) as [Hcan Hgone].
    split.
    + apply processNextInWaitlist_keeps_row; [assumption|].
      intros w Hw. simpl. now apply Hgone.
    + intros w Hw. rewrite Hpw in Hw. now apply Hgone.
  - intros w Hw. rewrite Hpw in Hw. apply Sub in Hw. rewrite Hws in Hw.
    apply filter_In in Hw. tauto.
  - intros w Hw Hid Hnone. rewrite Hpw. apply Keep.
    + rewrite Hws. apply filter_In. split; [assumption|].
      apply negb_true_iff. now apply String.eqb_neq.
    + intros b Hb Hdis. rewrite Hbs in Hb. apply in_map_iff in Hb.
      destruct Hb as [x [Hx Hxin]].
      destruct (String.eqb (booking_id x) id) eqn:E.
      * subst b. apply displaced_waitlisted in Hdis. destruct Hdis as [Hst _]. discriminate.
      * subst x. apply String.eqb_neq in E.
        destruct (displaced_some _ _ _ Hdis) as [Hheld|(_ & Hu' & _ & Hn')].
        -- now apply Hnone.
        -- exfalso. apply E.
           assert (b = b0) by (apply (unique_pair (bookings s)); auto; congruence).
           congruence.
Qed.

(** C8.  Displacement effect and frame.  When user [u] gains the CONFIRMED
    booking [id] of conference [n], by the confirmed branch of
    [bookConference] or by [confirmWaitlistBooking], every WAITLISTED booking
    that [u] held for another conference is CANCELED in the resulting state
    and no waitlist row refers to it.  No waitlist row is created or
    rewritten: every row of the resulting waitlist is a row of the old one,
    position included, and every old row is still there unless it belongs to
    a displaced booking or to the booking just confirmed.  No reorder takes
    place.  The states are those the schema allows: booking identifiers and
    (conference, user) pairs are unique. *)
Theorem displacement_effect_and_frame (now : Z) (id u n : string) (s s' : database) :
  gains_confirmed now id u n s s' ->
  booking_ids_unique s ->
  one_booking_per_pair s ->
  (forall b, In b (bookings s) -> held_elsewhere u n b ->
     In (set_status b CANCELED) (bookings s')
     /\ forall w, In w (waitlist s') -> w_booking_id w <> booking_id b)
  /\ (forall w, In w (waitlist s') -> In w (waitlist s))
  /\ (forall w, In w (waitlist s) -> w_booking_id w <> id ->
        (forall b, In b (bookings s) -> held_elsewhere u n b ->
           booking_id b <> w_booking_id w) ->
        In w (waitlist s')).
Proof.
  intros [Hbook|(b0 & c0 & bookingId & Hid & Hbc & Hu & Hn & Hconf)] Hids Hpair.
  - destruct (displacement_after_book now id u n s s' Hbook) as (H1 & H2 & H3).
    split; [exact H1|]. split; [exact H2|].
    intros w Hw _ Hnone. now apply H3.
  - apply (confirm_text_inv now bookingId id) in Hconf; [|exact Hid].
    now apply (displacement_after_confirm now id u n s s' b0 c0).
Qed.

Lemma displacement_effect_and_frame_witness :
  In (mkBooking id_b2 rust_days "bob" CANCELED 2 None) (bookings bob_displaced)
  /\ In (mkWaitlist rust_days id_b3 2 3) (waitlist bob_displaced).
Proof.
  assert (Hg : gains_confirmed 4 id_b4 "bob" web_summit carol_waitlisted bob_displaced).
  { left. reflexivity. }
  assert (Hids : booking_ids_unique carol_waitlisted).
  { unfold booking_ids_unique. vm_compute.
    repeat constructor; simpl; intuition discriminate. }
  assert (Hpair : one_booking_per_pair carol_waitlisted).
  { unfold one_booking_per_pair. vm_compute.
    repeat constructor; simpl; intuition discriminate. }
  destruct (displacement_effect_and_frame 4 id_b4 "bob" web_summit
              carol_waitlisted bob_displaced Hg Hids Hpair) as (H1 & _ & H3).
  split.
  - apply (H1 (mkBooking id_b2 rust_days "bob" WAITLISTED 2 None)).
    + vm_compute. auto.
    + repeat split. discriminate.
  - apply H3.
    + vm_compute. auto.
    + discriminate.
    + intros b Hb (Hu & _). vm_compute in Hb.
      destruct Hb as [<-|[<-|[<-|[]]]]; simpl in *; discriminate.
Defined.

(** ** The expiry sweep on a sole waitlist entry *)

Lemma filter_both {A : Type} (p q : A -> bool) (l : list A) :
  filter (fun x => p x && q x) l = filter q (filter p l).
Proof.
  induction l as [|x l IH]; simpl; [reflexivity|].
  destruct (p x); simpl; [destruct (q x)|]; now rewrite IH.
Qed.

(** Whatever its position [p], an expired booking that is the only waitlist
    entry of its conference is requeued at [p + 1], and promoted again. *)
Lemma expiry_requeue_sole_entry (now : Z) (s : database) (e : booking) (w : waitlist_entry) :
  filter (expired now) (bookings s) = [e] ->
  waitlist_of s (conference_name e) = [w] ->
  w_booking_id w = booking_id e ->
  (forall x, In x (waitlist s) -> w_booking_id x = booking_id e -> x = w) ->
  exists s',
    handleExpiredWaitlistBookings now s = (s', Some 1%nat)
    /\ waitlist_of s' (conference_name e) = [set_position w (position w + 1)]
    /\ booking_has s' (booking_id e) (fun b => confirm_by b = Some (now + confirm_window)).
Proof.
  intros Hexp Hrows Hid Honly.
  set (n := conference_name e) in *. set (id := booking_id e) in *.
  set (w' := set_position w (position w + 1)).
  set (upd := fun x => if String.eqb (w_booking_id x) id
                       then set_position x (position w + 1) else x).
  assert (Hw : In w (waitlist s) /\ w_conference_name w = n).
  { assert (H : In w (waitlist_of s n)) by (rewrite Hrows; now left).
    apply filter_In in H. destruct H as [H1 H2]. apply String.eqb_eq in H2. auto. }
  destruct Hw as [Hwin Hwn].
  assert (Hmax : max_position s n = position w).
  { unfold max_position. now rewrite Hrows. }
  assert (Hupd : upd w = w').
  { unfold upd. now rewrite Hid, String.eqb_refl. }
  assert (Hconf : filter (fun x => String.eqb (w_conference_name x) n) (map upd (waitlist s))
                  = [w']).
  { rewrite filter_map_commute.
    - fold (waitlist_of s n). rewrite Hrows. simpl. now rewrite Hupd.
    - intros x. unfold upd. destruct (String.eqb (w_booking_id x) id); reflexivity. }
  assert (Hcheck : update_waitlist_position (position w + 1) id s
                   = Some (with_waitlist s (map upd (waitlist s)))).
  { unfold update_waitlist_position. fold upd.
    match goal with |- context [forallb ?p ?l] => assert (X : forallb p l = true) end.
    { apply forallb_forall. intros x' Hx'.
      destruct (String.eqb (w_booking_id x') id) eqn:E; [|reflexivity].
      simpl. apply String.eqb_eq in E.
      apply in_map_iff in Hx'. destruct Hx' as [x [Hx Hxin]].
      assert (Hxid : w_booking_id x = id).
      { rewrite <- E, <- Hx. unfold upd.
        destruct (String.eqb (w_booking_id x) id); reflexivity. }
      assert (x = w) by now apply Honly. subst x.
      rewrite Hupd in Hx. subst x'.
      rewrite filter_both. cbn [w_conference_name w' set_position]. rewrite Hwn, Hconf.
      simpl. rewrite Z.eqb_refl. reflexivity. }
    now rewrite X. }
  set (s1 := with_waitlist s (map upd (waitlist s))) in *.
  set (s2 := update_booking id (fun b => set_confirm_by b None) s1).
  assert (Hhead : waitlist_head s2 n = Some w').
  { unfold waitlist_head, waitlist_of. cbn [waitlist s2 update_booking with_bookings s1 with_waitlist].
    rewrite Hconf. simpl.
    assert (X : existsb (fun b => String.eqb (booking_id b) (w_booking_id w))
                  (map (fun b => if String.eqb (booking_id b) id
                                 then set_confirm_by b None else b) (bookings s)) = true).
    { apply existsb_exists. exists (set_confirm_by e None). split.
      - apply in_map_iff. exists e. unfold id. rewrite String.eqb_refl. split; [reflexivity|].
        assert (H : In e (filter (expired now) (bookings s))) by (rewrite Hexp; now left).
        apply filter_In in H. tauto.
      - simpl. rewrite Hid. apply String.eqb_refl. }
    now rewrite X. }
  exists (processNextInWaitlist now n s2).
  split; [|split].
  - unfold handleExpiredWaitlistBookings. rewrite Hexp. simpl.
    unfold requeue_expired, bind. fold n id. rewrite Hmax, Hcheck. reflexivity.
  - unfold waitlist_of.
    destruct (processNextInWaitlist_frame now n s2) as (_ & -> & _).
    exact Hconf.
  - pose proof (promotion_head_deadline now n s2 w' Hhead) as H.
    simpl in H. now rewrite Hid in H.
Qed.

(** ** The post-start sweep *)

Lemma sweep_aborts (query_fails : string -> bool) (rows : list conference) (s : database) :
  (exists c, In c rows /\ query_fails (name c) = true) ->
  for_each (cancel_waitlisted query_fails) rows s = None.
Proof.
  revert s. induction rows as [|x rows IH]; intros s [c [Hin Hf]]; [contradiction|].
  simpl. unfold bind, cancel_waitlisted at 1.
  destruct (query_fails (name x)) eqn:E; [reflexivity|].
  apply IH. destruct Hin as [<-|Hin]; [congruence|eauto].
Qed.

Lemma sweep_completes (query_fails : string -> bool) (rows : list conference) (s : database) :
  (forall c, In c rows -> query_fails (name c) = false) ->
  exists s', for_each (cancel_waitlisted query_fails) rows s = Some s'.
Proof.
  revert s. induction rows as [|x rows IH]; intros s Hok; simpl; [eauto|].
  unfold bind, cancel_waitlisted at 1. rewrite (Hok x) by now left.
  apply IH. intros c Hc. apply Hok. now right.
Qed.

Lemma filter_excluded {A : Type} (p : A -> bool) (l : list A) :
  filter p (filter (fun x => negb (p x)) l) = [].
Proof.
  induction l as [|x l IH]; simpl; [reflexivity|].
  destruct (p x) eqn:E; simpl; [exact IH|]. now rewrite E.
Qed.

Lemma cancel_waitlisted_sweeps (query_fails : string -> bool) (c : conference)
    (s s' : database) :
  cancel_waitlisted query_fails c s = Some s' -> swept s' (name c).
Proof.
  unfold cancel_waitlisted. destruct (query_fails (name c)); [discriminate|].
  intros [= <-]. split.
  - cbn [bookings with_bookings with_waitlist]. intros b Hb Hn Hst.
    apply in_map_iff in Hb. destruct Hb as [b0 [Hb0 _]].
    destruct (String.eqb (conference_name b0) (name c) && status_eqb (status b0) WAITLISTED)
      eqn:E.
    + subst b. discriminate.
    + subst b0. rewrite Hn, String.eqb_refl, Hst in E. discriminate.
  - unfold waitlist_of. cbn [waitlist with_bookings with_waitlist].
    apply (filter_excluded (fun w => String.eqb (w_conference_name w) (name c))).
Qed.

(** A step of the sweep only cancels WAITLISTED bookings and deletes
    waitlist rows. *)
Lemma cancel_waitlisted_step (query_fails : string -> bool) (c : conference)
    (s s' : database) :
  cancel_waitlisted query_fails c s = Some s' ->
  conferences s' = conferences s
  /\ (forall w, In w (waitlist s') -> In w (waitlist s))
  /\ (forall b', In b' (bookings s') ->
        In b' (bookings s)
        \/ exists b, In b (bookings s) /\ status b = WAITLISTED
                     /\ b' = set_status b CANCELED)
  /\ (forall b, In b (bookings s) -> status b <> WAITLISTED -> In b (bookings s')).
Proof.
  unfold cancel_waitlisted. destruct (query_fails (name c)); [discriminate|].
  intros [= <-]. cbn [conferences bookings waitlist with_bookings with_waitlist].
  split; [reflexivity|]. split; [|split].
  - intros w Hw. apply filter_In in Hw. tauto.
  - intros b' Hb'. apply in_map_iff in Hb'. destruct Hb' as [b [Hb Hin]].
    destruct (String.eqb (conference_name b) (name c) && status_eqb (status b) WAITLISTED)
      eqn:E.
    + right. exists b. apply andb_true_iff in E. destruct E as [_ E].
      apply status_eqb_eq in E. auto.
    + left. now subst b'.
  - intros b Hb Hst. apply in_map_iff. exists b. split; [|assumption].
    apply status_eqb_neq in Hst. rewrite Hst, andb_false_r. reflexivity.
Qed.

Lemma swept_kept (query_fails : string -> bool) (c : conference) (n : string)
    (s s' : database) :
  cancel_waitlisted query_fails c s = Some s' -> swept s n -> swept s' n.
Proof.
  intros Hstep [Hb Hw]. apply cancel_waitlisted_step in Hstep.
  destruct Hstep as (_ & Hsub & Hfrom & _). split.
  - intros b' Hb' Hn. destruct (Hfrom b' Hb') as [Hin|(b & _ & _ & ->)].
    + now apply Hb.
    + simpl. discriminate.
  - destruct (waitlist_of s' n) as [|w l] eqn:E; [reflexivity|].
    assert (Hin : In w (waitlist_of s' n)) by (rewrite E; now left).
    apply filter_In in Hin. destruct Hin as [Hin Hc].
    assert (Hin' : In w (waitlist_of s n)) by (apply filter_In; auto).
    rewrite Hw in Hin'. contradiction.
Qed.

Lemma sweep_result (query_fails : string -> bool) (rows : list conference)
    (s s' : database) :
  for_each (cancel_waitlisted query_fails) rows s = Some s' ->
  (forall c, In c rows -> swept s' (name c))
  /\ (forall b, In b (bookings s) -> status b <> WAITLISTED -> In b (bookings s'))
  /\ conferences s' = conferences s.
Proof.
  revert s. induction rows as [|x rows IH]; simpl; intros s H.
  - injection H as <-. split; [intros c []|split; auto].
  - unfold bind in H.
    destruct (cancel_waitlisted query_fails x s) as [s1|] eqn:E; [|discriminate].
    destruct (IH s1 H) as (Hswept & Hkeep & Hconf).
    pose proof (cancel_waitlisted_step _ _ _ _ E) as (Hc1 & _ & _ & Hk1).
    split; [|split].
    + intros c [<-|Hc]; [|auto].
      pose proof (cancel_waitlisted_sweeps _ _ _ _ E) as Hx.
      clear - H Hx. revert s1 H Hx.
      induction rows as [|y rows IH2]; simpl; intros s1 H Hx.
      * now injection H as <-.
      * unfold bind in H.
        destruct (cancel_waitlisted query_fails y s1) as [s2|] eqn:E2; [|discriminate].
        apply (IH2 s2 H). eapply swept_kept; eauto.
    + intros b Hb Hst. apply Hkeep; auto.
    + congruence.
Qed.

(** The tables after a sweep that went through: the WAITLISTED bookings of
    the conferences it went through are CANCELED, the waitlist rows of those
    conferences are gone, and nothing else has changed. *)
Lemma sweep_tables (query_fails : string -> bool) (rows : list conference) :
  forall s s',
  for_each (cancel_waitlisted query_fails) rows s = Some s' ->
  bookings s' = map (swept_booking rows) (bookings s)
  /\ waitlist s'
     = filter (fun w => negb (started rows (w_conference_name w))) (waitlist s)
  /\ users s' = users s.
Proof.
  induction rows as [|x rows IH]; simpl; intros s s' H.
  - injection H as <-. split; [|split; [|reflexivity]].
    + symmetry. apply map_unchanged. intros b _. reflexivity.
    + symmetry. clear. induction (waitlist s) as [|w l IHl]; simpl; [reflexivity|].
      now rewrite IHl.
  - unfold bind in H.
    destruct (cancel_waitlisted query_fails x s) as [s1|] eqn:E; [|discriminate].
    destruct (IH s1 s' H) as (Hb & Hw & Hu).
    unfold cancel_waitlisted in E. destruct (query_fails (name x)); [discriminate|].
    injection E as <-.
    cbn [bookings waitlist users with_bookings with_waitlist] in Hb, Hw, Hu.
    split; [|split; [|exact Hu]].
    + rewrite Hb, map_map. apply map_ext. intros b.
      unfold swept_booking, started. cbn [existsb].
      destruct (String.eqb (conference_name b) (name x)) eqn:En; cbn [andb orb].
      * destruct (status_eqb (status b) WAITLISTED) eqn:Est.
        -- cbn [conference_name status set_status status_eqb]. now rewrite andb_false_r.
        -- rewrite Est. now rewrite andb_false_r.
      * reflexivity.
    + rewrite Hw, <- filter_both. apply filter_ext. intros w.
      unfold started. cbn [existsb].
      now rewrite negb_orb.
Qed.

Lemma counterexample_sweep_isolation :
  In (mkConference morning 100 150 1 0) (getStartedConferences 300 workshops_booked)
  /\ evening_fails morning = false
  /\ evening_fails evening = true
  /\ In (mkBooking id_w2 morning "bob" WAITLISTED 2 None)
        (bookings (fst (autoCancelForStartedConferences evening_fails 300 workshops_booked)))
  /\ ~ sweep_isolated evening_fails 300 workshops_booked.
Proof.
  assert (Hin : In (mkBooking id_w2 morning "bob" WAITLISTED 2 None)
        (bookings (fst (autoCancelForStartedConferences evening_fails 300 workshops_booked))))
    by (vm_compute; auto).
  assert (Hc : In (mkConference morning 100 150 1 0)
                  (getStartedConferences 300 workshops_booked)) by (vm_compute; auto).
  repeat split; try assumption; try reflexivity.
  intros Hiso. destruct (Hiso _ Hc eq_refl) as [Hb _].
  now apply (Hb _ Hin).
Qed.

(** C9, amended.  [autoCancelForStartedConferences] runs the whole sweep in
    one transaction.  When a statement fails for any started conference, the
    sweep is aborted and rolled back as a whole: the state is the one it
    started from, the waitlisted bookings of the other started conferences
    included, and the error is thrown again.  When no statement fails, the
    sweep commits, and then the bookings are the old ones, with every
    WAITLISTED booking of a started conference now CANCELED and every other
    booking as it was; the waitlist rows are the old ones without those of the
    started conferences; the conference rows and the users are unchanged.  In
    particular every started conference has no WAITLISTED booking and no
    waitlist row left, and every booking that was not WAITLISTED (a CONFIRMED
    one in particular) is untouched. *)
Theorem sweep_is_one_transaction (query_fails : string -> bool) (now : Z) (s : database) :
  ((exists c, In c (getStartedConferences now s) /\ query_fails (name c) = true) ->
     autoCancelForStartedConferences query_fails now s = (s, false))
  /\ ((forall c, In c (getStartedConferences now s) -> query_fails (name c) = false) ->
      exists s',
        autoCancelForStartedConferences query_fails now s = (s', true)
        /\ bookings s' = map (swept_booking (getStartedConferences now s)) (bookings s)
        /\ waitlist s'
           = filter (fun w => negb (started (getStartedConferences now s)
                                      (w_conference_name w)))
                    (waitlist s)
        /\ conferences s' = conferences s
        /\ users s' = users s
        /\ (forall c b, In c (getStartedConferences now s) -> In b (bookings s) ->
              conference_name b = name c -> status b = WAITLISTED ->
              In (set_status b CANCELED) (bookings s'))
        /\ (forall c, In c (getStartedConferences now s) -> swept s' (name c))
        /\ (forall b, In b (bookings s) -> status b <> WAITLISTED -> In b (bookings s'))).
Proof.
  unfold autoCancelForStartedConferences. split.
  - intros Hfail. now rewrite (sweep_aborts query_fails _ s Hfail).
  - intros Hok.
    destruct (sweep_completes query_fails (getStartedConferences now s) s Hok) as [s' E].
    rewrite E. exists s'. split; [reflexivity|].
    destruct (sweep_tables query_fails _ s s' E) as (Hb & Hw & Hu).
    destruct (sweep_result query_fails _ s s' E) as (Hswept & Hkeep & Hc).
    repeat (split; [assumption|]). split; [|split; assumption].
    intros c b Hcin Hbin Hn Hst. rewrite Hb. apply in_map_iff. exists b.
    split; [|assumption]. unfold swept_booking.
    assert (X : started (getStartedConferences now s) (conference_name b) = true).
    { apply existsb_exists. exists c. split; [assumption|]. now apply String.eqb_eq. }
    now rewrite X, Hst.
Qed.

Lemma sweep_is_one_transaction_witness :
  autoCancelForStartedConferences evening_fails 300 workshops_booked
  = (workshops_booked, false)
  /\ exists s',
       autoCancelForStartedConferences nothing_fails 300 workshops_booked = (s', true)
       /\ In (mkBooking id_w2 morning "bob" CANCELED 2 None) (bookings s')
       /\ In (mkBooking id_w4 evening "dave" CANCELED 4 None) (bookings s')
       /\ swept s' morning /\ swept s' evening.
Proof.
  split.
  - apply (proj1 (sweep_is_one_transaction evening_fails 300 workshops_booked)).
    exists (mkConference evening 200 250 1 0). split; [vm_compute; auto|reflexivity].
  - destruct (proj2 (sweep_is_one_transaction nothing_fails 300 workshops_booked))
      as (s' & H1 & _ & _ & _ & _ & H3 & H2 & _).
    + intros c _. reflexivity.
    + exists s'. split; [exact H1|]. split; [|split; [|split]].
      * apply (H3 (mkConference morning 100 150 1 0)
                  (mkBooking id_w2 morning "bob" WAITLISTED 2 None));
          [vm_compute; auto|vm_compute; auto|reflexivity|reflexivity].
      * apply (H3 (mkConference evening 200 250 1 0)
                  (mkBooking id_w4 evening "dave" WAITLISTED 4 None));
          [vm_compute; auto|vm_compute; auto|reflexivity|reflexivity].
      * apply (H2 (mkConference morning 100 150 1 0)). vm_compute. auto.
      * apply (H2 (mkConference evening 200 250 1 0)). vm_compute. auto.
Defined.

(** ** Every operation keeps the guarantees of the schema

    The theorems above assume of a state what the table declarations
    guarantee.  These guarantees hold of every state the engine reaches. *)

Lemma known_conference_names (s s' : database) (n : string) :
  map name (conferences s') = map name (conferences s) ->
  getConferenceByName s n <> None -> getConferenceByName s' n <> None.
Proof.
  unfold getConferenceByName. intros Hnames.
  assert (X : forall cs, find (fun c => String.eqb (name c) n) cs <> None
                         <-> In n (map name cs)).
  { intros cs. induction cs as [|c cs IH]; simpl; [tauto|].
    destruct (String.eqb (name c) n) eqn:E.
    - apply String.eqb_eq in E. split; [auto|discriminate].
    - apply String.eqb_neq in E. rewrite IH. tauto. }
  rewrite !X, Hnames. auto.
Qed.

Lemma kept_ids_unique (keep : waitlist_entry -> bool) (rows : list waitlist_entry) :
  NoDup (map w_booking_id rows) -> NoDup (map w_booking_id (filter keep rows)).
Proof.
  intros Hnd. induction rows as [|w rows IH]; simpl; [constructor|].
  inversion Hnd as [|? ? Hfresh Hrest]; subst.
  destruct (keep w); simpl; [|now apply IH].
  constructor; [|now apply IH].
  rewrite in_map_iff. intros (x & Hx & Hin).
  apply filter_In in Hin. apply Hfresh. rewrite <- Hx. apply in_map. tauto.
Qed.

(** A statement that inserts nothing: conference names and booking
    identities stay, updated conference rows pass their CHECKs, and the
    waitlist is the old one with some rows deleted and positions rewritten. *)
Lemma schema_ok_frame (s s' : database) (keep : waitlist_entry -> bool)
    (f : waitlist_entry -> waitlist_entry) :
  map name (conferences s') = map name (conferences s) ->
  (forall c, In c (conferences s') ->
     In c (conferences s) \/ 0 <= available_slots c <= total_slots c) ->
  same_identities s s' ->
  waitlist s' = map f (filter keep (waitlist s)) ->
  (forall w, w_conference_name (f w) = w_conference_name w
             /\ w_booking_id (f w) = w_booking_id w) ->
  schema_ok s -> schema_ok s'.
Proof.
  intros Hnames Hchk Hids Hwl Hf (S1 & S2 & S3 & S4 & S5 & S6 & S7).
  pose proof (same_identities_ids _ _ Hids) as Hbid.
  assert (Hrows : forall n, waitlist_of s' n = map f (filter keep (waitlist_of s n))).
  { intros n. unfold waitlist_of. rewrite Hwl, filter_map_commute.
    - f_equal. apply filter_comm.
    - intros w. now rewrite (proj1 (Hf w)). }
  repeat split.
  - unfold conference_names_unique. now rewrite Hnames.
  - destruct (Hchk c H) as [Hin|Hr]; [apply (S2 c Hin)|lia].
  - destruct (Hchk c H) as [Hin|Hr]; [apply (S2 c Hin)|lia].
  - unfold booking_ids_unique. now rewrite Hbid.
  - unfold one_booking_per_pair.
    assert (X : forall bs, map (fun b => (conference_name b, user_id b)) bs
                           = map (fun t => (snd (fst t), snd t)) (map identity bs)).
    { intros bs. rewrite map_map. reflexivity. }
    rewrite X, Hids, <- X. exact S4.
  - intros b Hb. apply (known_conference_names s s'); [assumption|].
    assert (Hin : In (identity b) (map identity (bookings s))).
    { rewrite <- Hids. now apply in_map. }
    apply in_map_iff in Hin. destruct Hin as [b0 [Hb0 Hin0]].
    injection Hb0 as _ Hc _. rewrite <- Hc. now apply S5.
  - intros w Hw. rewrite Hwl in Hw. apply in_map_iff in Hw.
    destruct Hw as [w0 [<- Hw0]]. apply filter_In in Hw0.
    rewrite (proj2 (Hf w0)), Hbid. apply S6. tauto.
  - intros n. unfold waitlist_ids_unique. rewrite Hrows, map_map.
    rewrite (map_ext _ w_booking_id) by (intros w; apply Hf).
    apply kept_ids_unique, S7.
Qed.

Lemma filter_all {A : Type} (l : list A) : filter (fun _ => true) l = l.
Proof. induction l as [|x l IH]; simpl; [reflexivity|now rewrite IH]. Qed.

Lemma same_waitlist (s : database) :
  waitlist s = map (fun w => w) (filter (fun _ => true) (waitlist s)).
Proof. now rewrite filter_all, map_id. Qed.

Lemma add_available_slots_schema (delta : Z) (n : string) (s s' : database) :
  add_available_slots delta n s = Some s' -> schema_ok s -> schema_ok s'.
Proof.
  intros H. pose proof H as H0. revert H0. unfold add_available_slots.
  destruct (forallb _ _) eqn:Echk; [|discriminate]. intros _.
  apply add_available_slots_some in H. destruct H as (Hc & Hb & Hw & _).
  apply (schema_ok_frame s s' (fun _ => true) (fun w => w)); auto.
  - rewrite Hc, map_map. apply map_ext. intros c.
    destruct (String.eqb (name c) n); reflexivity.
  - intros c Hin. rewrite forallb_forall in Echk. rewrite <- Hc in Echk.
    specialize (Echk c Hin). rewrite Hc in Hin. apply in_map_iff in Hin.
    destruct Hin as [c0 [Hc0 Hin0]].
    destruct (String.eqb (name c0) n) eqn:E.
    + right. subst c. simpl in Echk. rewrite E in Echk. simpl in Echk.
      apply andb_true_iff in Echk. destruct Echk as [E1 E2].
      apply Z.leb_le in E1, E2. simpl. lia.
    + left. now subst c.
  - now apply same_identities_bookings.
  - rewrite Hw. apply same_waitlist.
Qed.

Lemma update_booking_schema (id : string) (f : booking -> booking) (s : database) :
  (forall b, identity (f b) = identity b) ->
  schema_ok s -> schema_ok (update_booking id f s).
Proof.
  intros Hf. apply (schema_ok_frame s _ (fun _ => true) (fun w => w)); auto.
  - now apply update_booking_identities.
  - exact (same_waitlist s).
Qed.

Lemma processNextInWaitlist_schema (now : Z) (n : string) (s : database) :
  schema_ok s -> schema_ok (processNextInWaitlist now n s).
Proof.
  unfold processNextInWaitlist. destruct (waitlist_head s n); [|auto].
  now apply update_booking_schema.
Qed.

Lemma delete_waitlist_schema (id : string) (s : database) :
  schema_ok s -> schema_ok (delete_waitlist id s).
Proof.
  apply (schema_ok_frame s _ (fun w => negb (String.eqb (w_booking_id w) id)) (fun w => w));
    auto.
  - now apply same_identities_bookings.
  - simpl. now rewrite map_id.
Qed.

Lemma removeUserFromAllWaitlists_schema (u : string) (ex : option string) (s : database) :
  schema_ok s -> schema_ok (removeUserFromAllWaitlists u ex s).
Proof.
  apply (schema_ok_frame s _
           (fun w => negb (existsb (fun b => displaced u ex b
                                             && String.eqb (booking_id b) (w_booking_id w))
                                   (bookings s)))
           (fun w => w)); auto.
  - apply removeUserFromAllWaitlists_identities.
  - simpl. now rewrite map_id.
Qed.

Lemma renumbered_schema (plan : query_plan) (n : string) (s : database) :
  schema_ok s -> schema_ok (renumbered plan n s).
Proof.
  unfold renumbered.
  match goal with
  | |- _ -> schema_ok (with_waitlist s (map ?g (waitlist s))) =>
      apply (schema_ok_frame s _ (fun _ => true) g)
  end; auto.
  - now apply same_identities_bookings.
  - simpl. now rewrite filter_all.
  - intros w. destruct (String.eqb (w_conference_name w) n); [|auto].
    destruct (new_position _ (w_booking_id w)); auto.
Qed.

Lemma update_waitlist_position_schema (p : Z) (id : string) (s s' : database) :
  update_waitlist_position p id s = Some s' -> schema_ok s -> schema_ok s'.
Proof.
  unfold update_waitlist_position. destruct (forallb _ _); [|discriminate].
  intros [= <-].
  match goal with
  | |- _ -> schema_ok (with_waitlist s (map ?g (waitlist s))) =>
      apply (schema_ok_frame s _ (fun _ => true) g)
  end; auto.
  - now apply same_identities_bookings.
  - simpl. now rewrite filter_all.
  - intros w. destruct (String.eqb (w_booking_id w) id); auto.
Qed.

Lemma cancel_waitlisted_schema (query_fails : string -> bool) (c : conference)
    (s s' : database) :
  cancel_waitlisted query_fails c s = Some s' -> schema_ok s -> schema_ok s'.
Proof.
  intros H. pose proof (cancel_waitlisted_identities _ _ _ _ H) as Hids.
  revert H. unfold cancel_waitlisted. destruct (query_fails (name c)); [discriminate|].
  intros [= <-].
  apply (schema_ok_frame s _
           (fun w => negb (String.eqb (w_conference_name w) (name c))) (fun w => w)); auto.
  simpl. now rewrite map_id.
Qed.

Lemma insert_booking_schema (b : booking) (s s' : database) :
  insert_booking b s = Some s' ->
  getConferenceByName s (conference_name b) <> None ->
  schema_ok s -> schema_ok s'.
Proof.
  intros H Hconf (S1 & S2 & S3 & S4 & S5 & S6 & S7).
  apply insert_booking_some in H.
  destruct H as (Hb & Hc & Hw & _ & Hfresh & Hpair).
  assert (Hnames : forall n, getConferenceByName s' n = getConferenceByName s n).
  { intros n. unfold getConferenceByName. now rewrite Hc. }
  repeat split.
  - unfold conference_names_unique. now rewrite Hc.
  - rewrite Hc in H. now apply S2.
  - rewrite Hc in H. now apply S2.
  - unfold booking_ids_unique. rewrite Hb, map_app. simpl.
    apply NoDup_app; [assumption|repeat constructor; auto|].
    intros x Hx [<-|[]]. contradiction.
  - unfold one_booking_per_pair. rewrite Hb, map_app. simpl.
    apply NoDup_app; [assumption|repeat constructor; auto|].
    intros x Hx [<-|[]]. apply in_map_iff in Hx. destruct Hx as [b' [Hb' Hin]].
    injection Hb' as H1 H2. now apply (Hpair b' Hin).
  - intros b' Hb'. rewrite Hnames. rewrite Hb in Hb'. apply in_app_or in Hb'.
    destruct Hb' as [Hb'|[<-|[]]]; [now apply S5|assumption].
  - intros w Hin. rewrite Hw in Hin. rewrite Hb, map_app. apply in_or_app. left.
    now apply S6.
  - intros n. unfold waitlist_ids_unique, waitlist_of. rewrite Hw. apply S7.
Qed.

Lemma insert_waitlist_schema (w : waitlist_entry) (s s' : database) :
  insert_waitlist w s = Some s' ->
  In (w_booking_id w) (map booking_id (bookings s)) ->
  schema_ok s -> schema_ok s'.
Proof.
  unfold insert_waitlist. destruct (existsb _ _) eqn:E; [discriminate|].
  intros [= <-] Hbk (S1 & S2 & S3 & S4 & S5 & S6 & S7).
  repeat split; auto.
  - apply (S2 c H).
  - apply (S2 c H).
  - intros x Hx. cbn [waitlist with_waitlist] in Hx. apply in_app_or in Hx.
    destruct Hx as [Hx|[<-|[]]]; [now apply S6|assumption].
  - intros n. unfold waitlist_ids_unique, waitlist_of. cbn [waitlist with_waitlist].
    rewrite filter_app, map_app. simpl.
    destruct (String.eqb (w_conference_name w) n) eqn:En; simpl.
    + apply NoDup_app; [apply S7|repeat constructor; auto|].
      intros x Hx [<-|[]]. apply in_map_iff in Hx. destruct Hx as [w0 [Hid Hin]].
      apply filter_In in Hin. destruct Hin as [Hin Hc].
      assert (X : existsb (fun w' => String.eqb (w_conference_name w') (w_conference_name w)
                    && (String.eqb (w_booking_id w') (w_booking_id w)
                        || (position w' =? position w))) (waitlist s) = true).
      { apply existsb_exists. exists w0. split; [assumption|].
        apply String.eqb_eq in Hc, En. rewrite Hc, En, Hid, !String.eqb_refl. reflexivity. }
      congruence.
    + rewrite app_nil_r. apply S7.
Qed.

Lemma bookConference_schema (now : Z) (id n u : string) (s : database) :
  schema_ok s -> schema_ok (fst (bookConference now id n u s)).
Proof.
  intros Hok. unfold bookConference.
  destruct (getConferenceByName s n) as [c|] eqn:Ec; [|assumption].
  destruct (getUserById s u); [|assumption].
  destruct (hasConferenceStarted now s n) as [[|]|]; try assumption.
  destruct (hasExistingBooking s u n); [assumption|].
  destruct (hasConflictingBooking s u (start_time c) (end_time c)); [assumption|].
  assert (Hknown : getConferenceByName s n <> None) by congruence.
  destruct (0 <? available_slots c); unfold bind.
  - destruct (insert_booking _ s) as [s1|] eqn:E1; [|assumption].
    destruct (add_available_slots (-1) n s1) as [s2|] eqn:E2; [|assumption].
    simpl. apply removeUserFromAllWaitlists_schema.
    apply (add_available_slots_schema _ _ _ _ E2).
    now apply (insert_booking_schema _ _ _ E1).
  - destruct (insert_booking _ s) as [s1|] eqn:E1; [|assumption].
    destruct (insert_waitlist _ s1) as [s2|] eqn:E2; [|assumption].
    simpl. apply (insert_waitlist_schema _ _ _ E2).
    + apply insert_booking_some in E1. destruct E1 as (Hb & _).
      rewrite Hb, map_app. apply in_or_app. right. simpl. auto.
    + now apply (insert_booking_schema _ _ _ E1).
Qed.

Lemma confirm_uuid_schema (now : Z) (id : string) (s : database) :
  schema_ok s -> schema_ok (fst (confirm_uuid now id s)).
Proof.
  intros Hok. unfold confirm_uuid.
  destruct (booking_with_conference s id) as [[b c]|]; [|assumption].
  destruct (negb _); [assumption|].
  destruct (start_time c <=? now); [assumption|].
  destruct (deadline_passed now b); [assumption|].
  destruct (available_slots c <=? 0); [assumption|].
  unfold bind.
  destruct (add_available_slots (-1) (conference_name b) _) as [s2|] eqn:E2; [|assumption].
  simpl. apply processNextInWaitlist_schema, removeUserFromAllWaitlists_schema,
    delete_waitlist_schema.
  apply (add_available_slots_schema _ _ _ _ E2).
  now apply update_booking_schema.
Qed.

Lemma confirmWaitlistBooking_schema (now : Z) (bookingId : string) (s : database) :
  schema_ok s -> schema_ok (fst (confirmWaitlistBooking now bookingId s)).
Proof.
  intros Hok. apply confirm_parsed; [assumption|].
  intros id _. now apply confirm_uuid_schema.
Qed.

Lemma cancel_uuid_schema (plan : query_plan) (now : Z) (id : string) (s : database) :
  schema_ok s -> schema_ok (fst (cancel_uuid plan now id s)).
Proof.
  intros Hok. unfold cancel_uuid.
  destruct (booking_with_conference s id) as [[b c]|]; [|assumption].
  destruct (status_eqb (status b) CANCELED); [assumption|].
  destruct (start_time c <=? now); [assumption|].
  assert (H1 : schema_ok (update_booking id (fun x => set_status x CANCELED) s))
    by now apply update_booking_schema.
  unfold bind.
  destruct (status_eqb (status b) CONFIRMED).
  - destruct (add_available_slots 1 (conference_name b) _) as [s2|] eqn:E2; [|assumption].
    assert (H2 : schema_ok (processNextInWaitlist now (conference_name b) s2)).
    { apply processNextInWaitlist_schema. now apply (add_available_slots_schema _ _ _ _ E2). }
    destruct (status_eqb (status b) WAITLISTED); simpl; [|assumption].
    open_reorder; [|assumption].
    now apply renumbered_schema, delete_waitlist_schema.
  - destruct (status_eqb (status b) WAITLISTED); simpl; [|assumption].
    open_reorder; [|assumption].
    now apply renumbered_schema, delete_waitlist_schema.
Qed.

Lemma cancelBooking_schema (plan : query_plan) (now : Z) (bookingId : string)
    (s : database) :
  schema_ok s -> schema_ok (fst (cancelBooking plan now bookingId s)).
Proof.
  intros Hok. apply cancel_parsed; [assumption|].
  intros id _. now apply cancel_uuid_schema.
Qed.

Lemma requeue_expired_schema (now : Z) (e : booking) (s s' : database) :
  requeue_expired now e s = Some s' -> schema_ok s -> schema_ok s'.
Proof.
  unfold requeue_expired, bind.
  destruct (update_waitlist_position _ _ s) as [s1|] eqn:E1; [|discriminate].
  intros [= <-] Hok.
  apply processNextInWaitlist_schema, update_booking_schema; [reflexivity|].
  now apply (update_waitlist_position_schema _ _ _ _ E1).
Qed.

(** The guarantees of the schema are invariants of the engine. *)
Lemma run_keeps_schema (now : Z) (op : operation) (s : database) :
  schema_ok s -> schema_ok (run now op s).
Proof.
  intros Hok. destruct op; simpl.
  - now apply bookConference_schema.
  - now apply confirmWaitlistBooking_schema.
  - now apply cancelBooking_schema.
  - unfold handleExpiredWaitlistBookings.
    destruct (for_each _ _ s) as [s'|] eqn:E; simpl; [|assumption].
    revert Hok. revert E.
    apply (for_each_preserves (fun s s' => schema_ok s -> schema_ok s')); auto.
    apply requeue_expired_schema.
  - unfold autoCancelForStartedConferences.
    destruct (for_each _ _ s) as [s'|] eqn:E; simpl; [|assumption].
    revert Hok. revert E.
    apply (for_each_preserves (fun s s' => schema_ok s -> schema_ok s')); auto.
    apply cancel_waitlisted_schema.
Qed.

Lemma reachable_states_ok (init s : database) :
  schema_ok init -> ledger_invariant init ->
  reachable init s -> schema_ok s /\ ledger_invariant s.
Proof.
  intros Hschema Hledger Hreach.
  induction Hreach as [|now op s Hreach [IH1 IH2]]; [auto|].
  split.
  - now apply run_keeps_schema.
  - apply run_keeps_ledger; [apply IH1|assumption].
Qed.

(** The scenario starts from a state in which both the schema's guarantees
    and the capacity ledger hold, hence they hold in every state of it. *)
Lemma two_conferences_ok : schema_ok two_conferences /\ ledger_invariant two_conferences.
Proof.
  split.
  - unfold schema_ok, conference_names_unique, checks_hold, booking_ids_unique,
      one_booking_per_pair, bookings_reference_conferences, waitlist_references_bookings,
      waitlist_ids_unique.
    simpl. repeat split; try constructor; try (intros ? []).
    + intros [E|[]]. discriminate.
    + constructor; [intros []|constructor].
    + destruct H as [<-|[<-|[]]]; simpl; lia.
    + destruct H as [<-|[<-|[]]]; simpl; lia.
  - intros c [<-|[<-|[]]]; reflexivity.
Qed.

(** * Further properties of the engine *)

(** X1.  No overbooking.  In every state the engine reaches from a state
    that satisfies the schema's guarantees and the capacity ledger, every
    conference has [0 <= available_slots <= total_slots], the number of its
    CONFIRMED bookings is at most [total_slots], and a user has at most one
    booking row per conference. *)
Theorem reachable_never_overbooked (init s : database) :
  schema_ok init ->
  ledger_invariant init ->
  reachable init s ->
  (forall c, In c (conferences s) ->
     0 <= available_slots c <= total_slots c
     /\ Z.of_nat (count_confirmed s (name c)) <= total_slots c)
  /\ (forall b1 b2, In b1 (bookings s) -> In b2 (bookings s) ->
        conference_name b1 = conference_name b2 -> user_id b1 = user_id b2 -> b1 = b2).
Proof.
  intros Hschema Hledger Hreach.
  destruct (reachable_states_ok init s Hschema Hledger Hreach)
    as [(_ & Hchk & _ & Hpair & _) Hinv].
  split.
  - intros c Hc. specialize (Hchk c Hc). specialize (Hinv c Hc). lia.
  - intros b1 b2 H1 H2. now apply (unique_pair (bookings s)).
Qed.

Lemma reachable_never_overbooked_witness :
  0 <= available_slots (mkConference rust_days 10000000 20000000 1 0) <= 1
  /\ Z.of_nat (count_confirmed carol_waitlisted rust_days) <= 1.
Proof.
  refine (proj1 (reachable_never_overbooked two_conferences carol_waitlisted
                   (proj1 two_conferences_ok) (proj2 two_conferences_ok) _)
            (mkConference rust_days 10000000 20000000 1 0) _).
  - unfold carol_waitlisted, bob_waitlisted, alice_confirmed.
    repeat apply reachable_step. apply reachable_init.
  - vm_compute. auto.
Defined.

Lemma book_free_seat (now : Z) (id n u : string) (s : database)
    (c : conference) :
  book_preconditions now n u s c ->
  0 < available_slots c ->
  ~ In id (map booking_id (bookings s)) ->
  (forall b, In b (bookings s) -> conference_name b = n -> user_id b <> u) ->
  conference_names_unique s ->
  checks_hold s ->
  exists s',
    bookConference now id n u s = (s', Success id CONFIRMED None)
    /\ In (mkBooking id n u CONFIRMED now None) (bookings s')
    /\ getConferenceByName s' n = Some (set_available c (available_slots c - 1))
    /\ (forall m, m <> n -> getConferenceByName s' m = getConferenceByName s m).
Proof.
  intros (Hc & Hu & Hstart & Hex & Hconf) Hfree Hfresh Hpair Hnames Hchk.
  pose proof (getConferenceByName_name _ _ _ Hc) as [Hcin Hcname].
  set (b := mkBooking id n u CONFIRMED now None).
  assert (E1 : insert_booking b s = Some (with_bookings s (bookings s ++ [b]))).
  { unfold insert_booking. rewrite existsb_false; [reflexivity|].
    intros b' Hb'. apply orb_false_iff. split.
    - apply String.eqb_neq. intros E. apply Hfresh. simpl in E. rewrite <- E.
      now apply in_map.
    - simpl. destruct (String.eqb (conference_name b') n) eqn:E1; [|reflexivity].
      apply String.eqb_eq in E1. apply (Hpair b' Hb') in E1.
      apply String.eqb_neq in E1. now rewrite E1. }
  set (s1 := with_bookings s (bookings s ++ [b])) in *.
  destruct (add_available_slots_accepted (-1) n s1 c) as [s2 E2]; auto.
  { specialize (Hchk c Hcin). lia. }
  exists (removeUserFromAllWaitlists u (Some n) s2).
  pose proof (add_available_slots_some _ _ _ _ E2) as (_ & Hb2 & _).
  destruct (removeUserFromAllWaitlists_frame u (Some n) s2) as (Hrc & _ & Hrb).
  split; [|split; [|split]].
  - unfold bookConference, hasConferenceStarted. rewrite Hc.
    destruct (getUserById s u); [|contradiction].
    replace (start_time c <=? now) with false by (symmetry; apply Z.leb_gt; lia).
    rewrite Hex, Hconf.
    replace (0 <? available_slots c) with true by (symmetry; apply Z.ltb_lt; lia).
    fold b. unfold bind. rewrite E1, E2. reflexivity.
  - rewrite Hrb, Hb2. apply in_map_iff. exists b. split.
    + destruct (displaced u (Some n) b) eqn:E; [|reflexivity].
      apply displaced_waitlisted in E. destruct E as [E _]. discriminate.
    + simpl. apply in_or_app. right. now left.
  - unfold getConferenceByName. rewrite Hrc. fold (getConferenceByName s2 n).
    rewrite (getConferenceByName_after_update (-1) n n s1 s2 E2), String.eqb_refl.
    change (getConferenceByName s1 n) with (getConferenceByName s n). now rewrite Hc.
  - intros m Hm. unfold getConferenceByName at 1. rewrite Hrc.
    fold (getConferenceByName s2 m).
    rewrite (getConferenceByName_after_update (-1) n m s1 s2 E2).
    apply String.eqb_neq in Hm. now rewrite Hm.
Qed.

(** X2.  Booking a conference that has a free seat.  When all preconditions
    of [bookConference] pass, [available_slots > 0], the identifier is fresh
    and the user has no earlier booking row of the conference, the call
    succeeds with status CONFIRMED, the booking row is stored as CONFIRMED
    with the clock's time and no deadline, [available_slots] of that
    conference drops by exactly 1 and no other conference changes.  The state
    is one the schema allows (conference names unique, CHECKs hold). *)
Theorem book_free_seat_confirms (now : Z) (id n u : string) (s : database)
    (c : conference) :
  book_preconditions now n u s c ->
  0 < available_slots c ->
  ~ In id (map booking_id (bookings s)) ->
  (forall b, In b (bookings s) -> conference_name b = n -> user_id b <> u) ->
  conference_names_unique s ->
  checks_hold s ->
  exists s',
    bookConference now id n u s = (s', Success id CONFIRMED None)
    /\ In (mkBooking id n u CONFIRMED now None) (bookings s')
    /\ getConferenceByName s' n = Some (set_available c (available_slots c - 1))
    /\ (forall m, m <> n -> getConferenceByName s' m = getConferenceByName s m).
Proof. exact (book_free_seat now id n u s c). Qed.

Lemma book_free_seat_confirms_witness :
  exists s',
    bookConference 4 id_b4 web_summit "bob" carol_waitlisted
    = (s', Success id_b4 CONFIRMED None)
    /\ getConferenceByName s' web_summit
       = Some (mkConference web_summit 30000000 40000000 5 4).
Proof.
  destruct (book_free_seat_confirms 4 id_b4 web_summit "bob" carol_waitlisted
              (mkConference web_summit 30000000 40000000 5 5))
    as (s' & H1 & _ & H2 & _).
  - unfold book_preconditions. repeat split; try reflexivity. discriminate.
  - reflexivity.
  - vm_compute. intuition discriminate.
  - intros b Hb. vm_compute in Hb.
    destruct Hb as [<-|[<-|[<-|[]]]]; intros E; discriminate.
  - unfold conference_names_unique. vm_compute.
    repeat constructor; simpl; intuition discriminate.
  - intros c Hc. vm_compute in Hc. destruct Hc as [<-|[<-|[]]]; simpl; lia.
  - exists s'. split; [exact H1|exact H2].
Defined.

(** X3.  Booking again after a cancellation.  A user who already has a
    booking row of the conference, which the duplicate check lets pass
    because it is CANCELED, cannot book that conference again: the INSERT
    violates [UNIQUE (conference_name, user_id)], the transaction is rolled
    back, and the call returns "Failed to book conference" with the state
    unchanged, whether or not a seat is free. *)
Theorem rebooking_after_cancel_fails (now : Z) (id n u : string) (s : database)
    (c : conference) (b : booking) :
  book_preconditions now n u s c ->
  In b (bookings s) -> conference_name b = n -> user_id b = u ->
  status b = CANCELED
  /\ bookConference now id n u s = (s, Failure "Failed to book conference").
Proof.
  intros (Hc & Hu & Hstart & Hex & Hconf) Hb Hn Hbu.
  split; [now apply (hasExistingBooking_false s u n)|].
  assert (Hins : forall st, insert_booking (mkBooking id n u st now None) s = None).
  { intros st. unfold insert_booking.
    match goal with |- context [existsb ?p ?l] => assert (X : existsb p l = true) end.
    { apply existsb_exists. exists b. split; [assumption|].
      simpl. rewrite Hn, Hbu, !String.eqb_refl. apply orb_true_r. }
    now rewrite X. }
  unfold bookConference, hasConferenceStarted. rewrite Hc.
  destruct (getUserById s u); [|contradiction].
  replace (start_time c <=? now) with false by (symmetry; apply Z.leb_gt; lia).
  rewrite Hex, Hconf. unfold bind. rewrite !Hins.
  destruct (0 <? available_slots c); reflexivity.
Qed.

Lemma rebooking_after_cancel_fails_witness :
  bookConference 5 id_b5 rust_days "bob" bob_cancelled
  = (bob_cancelled, Failure "Failed to book conference").
Proof.
  refine (proj2 (rebooking_after_cancel_fails 5 id_b5 rust_days "bob" bob_cancelled
            (mkConference rust_days 10000000 20000000 1 0)
            (mkBooking id_b2 rust_days "bob" CANCELED 2 None) _ _ _ _)).
  - unfold book_preconditions. repeat split; try reflexivity. discriminate.
  - vm_compute. auto.
  - reflexivity.
  - reflexivity.
Defined.

(** ** The expiry sweep *)

Lemma not_expired_after_clear (now : Z) (b : booking) :
  expired now (set_confirm_by b None) = false.
Proof. unfold expired. simpl. apply andb_false_r. Qed.

Lemma not_expired_after_promotion (now : Z) (b : booking) :
  expired now (set_confirm_by b (Some (now + confirm_window))) = false.
Proof.
  unfold expired. simpl.
  replace (now + confirm_window <? now) with false; [apply andb_false_r|].
  symmetry. apply Z.ltb_ge. unfold confirm_window. lia.
Qed.

(** A booking that is still expired after one step of the sweep was expired
    before it, and is not the one the step dealt with. *)
Lemma requeue_expired_step (now : Z) (e : booking) (t t1 : database) (b1 : booking) :
  requeue_expired now e t = Some t1 ->
  In b1 (bookings t1) -> expired now b1 = true ->
  In b1 (bookings t) /\ booking_id b1 <> booking_id e.
Proof.
  unfold requeue_expired, bind, update_waitlist_position.
  destruct (forallb _ _); [|discriminate]. intros [= <-] Hin Hexp.
  match type of Hin with
  | In _ (bookings (processNextInWaitlist _ _ ?s2)) =>
      destruct (processNextInWaitlist_frame now (conference_name e) s2)
        as (_ & _ & _ & f & Hf & Hb)
  end.
  rewrite Hb in Hin. apply in_map_iff in Hin. destruct Hin as [b2 [Hb2 Hin2]].
  destruct (Hf b2) as [Hsame|Hset]; [rewrite Hsame in Hb2|rewrite Hset in Hb2]; subst b1;
    [|now rewrite not_expired_after_promotion in Hexp].
  cbn [bookings update_booking with_bookings with_waitlist] in Hin2.
  apply in_map_iff in Hin2. destruct Hin2 as [b [Hb' Hin']].
  destruct (String.eqb (booking_id b) (booking_id e)) eqn:E.
  - subst b2. now rewrite not_expired_after_clear in Hexp.
  - subst b2. apply String.eqb_neq in E. auto.
Qed.

Lemma requeue_all_expired (now : Z) (rows : list booking) (t t' : database) :
  for_each (requeue_expired now) rows t = Some t' ->
  (forall b, In b (bookings t) -> expired now b = true ->
     In (booking_id b) (map booking_id rows)) ->
  forall b, In b (bookings t') -> expired now b = false.
Proof.
  revert t. induction rows as [|e rows IH]; simpl; intros t H Hcover b Hb.
  - injection H as <-. destruct (expired now b) eqn:E; [|reflexivity].
    destruct (Hcover b Hb E).
  - unfold bind in H. destruct (requeue_expired now e t) as [t1|] eqn:E1; [|discriminate].
    apply (IH t1 H); [|assumption].
    intros b1 Hb1 Hexp1.
    destruct (requeue_expired_step now e t t1 b1 E1 Hb1 Hexp1) as [Hin Hne].
    destruct (Hcover b1 Hin Hexp1) as [Heq|Hrest]; [congruence|assumption].
Qed.

Lemma requeue_expired_statuses (now : Z) (e : booking) (t t1 : database) :
  requeue_expired now e t = Some t1 ->
  map status (bookings t1) = map status (bookings t) /\ conferences t1 = conferences t.
Proof.
  unfold requeue_expired, bind, update_waitlist_position.
  destruct (forallb _ _); [|discriminate]. intros [= <-].
  rewrite processNextInWaitlist_statuses.
  destruct (processNextInWaitlist_frame now (conference_name e)
              (update_booking (booking_id e) (fun b => set_confirm_by b None)
                 (with_waitlist t
                    (map (fun w => if String.eqb (w_booking_id w) (booking_id e)
                                   then set_position w (max_position t (conference_name e) + 1)
                                   else w) (waitlist t))))) as (Hc & _).
  rewrite Hc. split; [|reflexivity].
  cbn [bookings update_booking with_bookings with_waitlist].
  rewrite map_map. apply map_ext. intros b.
  destruct (String.eqb (booking_id b) (booking_id e)); reflexivity.
Qed.

(** X4.  The expiry sweep leaves nothing expired.  When
    [handleExpiredWaitlistBookings] commits, it reports the number of
    bookings that were WAITLISTED with a deadline before [now]; in the
    resulting state no booking is expired any more, so running the sweep
    again at the same time processes nothing and changes nothing.  The sweep
    changes no booking's status and no conference row. *)
Theorem expiry_sweep_leaves_nothing_expired (now : Z) (s s' : database) (k : nat) :
  handleExpiredWaitlistBookings now s = (s', Some k) ->
  k = List.length (filter (expired now) (bookings s))
  /\ filter (expired now) (bookings s') = []
  /\ handleExpiredWaitlistBookings now s' = (s', Some 0%nat)
  /\ map status (bookings s') = map status (bookings s)
  /\ conferences s' = conferences s.
Proof.
  unfold handleExpiredWaitlistBookings at 1.
  destruct (for_each _ _ s) as [t|] eqn:E; [|discriminate].
  intros [= <- <-].
  assert (Hnone : filter (expired now) (bookings t) = []).
  { destruct (filter (expired now) (bookings t)) as [|b l] eqn:Ef; [reflexivity|].
    assert (Hin : In b (filter (expired now) (bookings t))) by (rewrite Ef; now left).
    apply filter_In in Hin. destruct Hin as [Hin Hexp].
    rewrite (requeue_all_expired now _ s t E) in Hexp; [discriminate| |assumption].
    intros b0 Hb0 Hexp0. apply in_map. apply filter_In. auto. }
  split; [reflexivity|]. split; [assumption|]. split.
  - unfold handleExpiredWaitlistBookings. rewrite Hnone. reflexivity.
  - revert E.
    apply (for_each_preserves
             (fun a b => map status (bookings b) = map status (bookings a)
                         /\ conferences b = conferences a)).
    + auto.
    + intros s1 s2 s3 [H1 H2] [H3 H4]. split; congruence.
    + apply requeue_expired_statuses.
Qed.

Lemma expiry_sweep_leaves_nothing_expired_witness :
  exists s',
    handleExpiredWaitlistBookings after_deadline bob_promoted = (s', Some 1%nat)
    /\ handleExpiredWaitlistBookings after_deadline s' = (s', Some 0%nat).
Proof.
  eexists. split; [reflexivity|].
  refine (proj1 (proj2 (proj2
    (expiry_sweep_leaves_nothing_expired after_deadline bob_promoted _ 1 _)))).
  reflexivity.
Defined.

(** ** The post-start sweep *)

Lemma sweep_committed (query_fails : string -> bool) (rows : list conference)
    (s s' : database) :
  for_each (cancel_waitlisted query_fails) rows s = Some s' ->
  forall c, In c rows -> query_fails (name c) = false.
Proof.
  revert s. induction rows as [|x rows IH]; simpl; intros s H c Hc; [contradiction|].
  unfold bind in H. destruct (cancel_waitlisted query_fails x s) as [s1|] eqn:E; [|discriminate].
  destruct Hc as [<-|Hc]; [|eauto].
  unfold cancel_waitlisted in E. destruct (query_fails (name x)); [discriminate|reflexivity].
Qed.

Lemma cancel_waitlisted_on_swept (query_fails : string -> bool) (c : conference)
    (s : database) :
  query_fails (name c) = false -> swept s (name c) ->
  cancel_waitlisted query_fails c s = Some s.
Proof.
  intros Hq [Hb Hw]. unfold cancel_waitlisted. rewrite Hq. f_equal.
  destruct s as [cs us bs ws]. unfold with_waitlist, with_bookings. simpl in *. f_equal.
  - apply map_unchanged. intros b Hin.
    destruct (String.eqb (conference_name b) (name c)) eqn:E; [|reflexivity].
    apply String.eqb_eq in E. specialize (Hb b Hin E).
    apply status_eqb_neq in Hb. now rewrite Hb.
  - apply forallb_filter_id. apply forallb_forall. intros w Hin.
    destruct (String.eqb (w_conference_name w) (name c)) eqn:E; [|reflexivity].
    exfalso. unfold waitlist_of in Hw. simpl in Hw.
    assert (X : In w (filter (fun w0 => String.eqb (w_conference_name w0) (name c)) ws))
      by (apply filter_In; auto).
    rewrite Hw in X. contradiction.
Qed.

(** X5.  The post-start sweep is idempotent.  When
    [autoCancelForStartedConferences] commits, running it again at the same
    time on the resulting state commits again and changes nothing. *)
Theorem post_start_sweep_idempotent (query_fails : string -> bool) (now : Z)
    (s s' : database) :
  autoCancelForStartedConferences query_fails now s = (s', true) ->
  autoCancelForStartedConferences query_fails now s' = (s', true).
Proof.
  unfold autoCancelForStartedConferences.
  destruct (for_each _ _ s) as [t|] eqn:E; [|discriminate].
  intros [= <-].
  pose proof (sweep_committed _ _ _ _ E) as Hok.
  destruct (sweep_result _ _ _ _ E) as (Hswept & _ & Hconf).
  unfold getStartedConferences in *. rewrite Hconf.
  assert (X : forall rows,
            (forall c, In c rows -> query_fails (name c) = false /\ swept t (name c)) ->
            for_each (cancel_waitlisted query_fails) rows t = Some t).
  { induction rows as [|x rows IH]; intros H; [reflexivity|].
    simpl. unfold bind.
    rewrite cancel_waitlisted_on_swept; try (apply H; now left).
    apply IH. intros c Hc. apply H. now right. }
  rewrite X; [reflexivity|]. intros c Hc. split; auto.
Qed.

Lemma post_start_sweep_idempotent_witness :
  exists s',
    autoCancelForStartedConferences nothing_fails 300 workshops_booked = (s', true)
    /\ autoCancelForStartedConferences nothing_fails 300 s' = (s', true).
Proof.
  eexists. split; [reflexivity|].
  apply (post_start_sweep_idempotent nothing_fails 300 workshops_booked).
  reflexivity.
Defined.

(** ** Positions stay pairwise distinct *)

Lemma kept_positions_unique (keep : waitlist_entry -> bool) (rows : list waitlist_entry) :
  NoDup (map position rows) -> NoDup (map position (filter keep rows)).
Proof.
  intros Hnd. induction rows as [|w rows IH]; simpl; [constructor|].
  inversion Hnd as [|? ? Hfresh Hrest]; subst.
  destruct (keep w); simpl; [|now apply IH].
  constructor; [|now apply IH].
  rewrite in_map_iff. intros (x & Hx & Hin).
  apply filter_In in Hin. apply Hfresh. rewrite <- Hx. apply in_map. tauto.
Qed.

Lemma positions_unique_after_delete (s s' : database) (keep : waitlist_entry -> bool) :
  waitlist s' = filter keep (waitlist s) ->
  positions_unique s -> positions_unique s'.
Proof.
  intros Hw H n. unfold waitlist_of. rewrite Hw, filter_comm.
  apply kept_positions_unique, H.
Qed.

Lemma positions_unique_same_waitlist (s s' : database) :
  waitlist s' = waitlist s -> positions_unique s -> positions_unique s'.
Proof. intros Hw H n. unfold waitlist_of. rewrite Hw. apply H. Qed.

Lemma zseq_NoDup (a : Z) (k : nat) : NoDup (zseq a k).
Proof.
  revert a. induction k as [|k IH]; intros a; simpl; [constructor|].
  constructor; [|apply IH]. rewrite zseq_In. lia.
Qed.

Lemma positions_unique_after_reorder (plan : query_plan) (n : string) (s : database) :
  waitlist_ids_unique s n ->
  positions_unique s -> positions_unique (renumbered plan n s).
Proof.
  intros Hids H m. destruct (String.eqb m n) eqn:E.
  - apply String.eqb_eq in E. subst m. rewrite renumbered_rows, map_map.
    cbn [position set_position].
    eapply Permutation_NoDup; [apply Permutation_sym, reordered_positions_dense, Hids|].
    apply zseq_NoDup.
  - apply String.eqb_neq in E. rewrite renumbered_other by assumption. apply H.
Qed.

Lemma positions_unique_after_insert (w : waitlist_entry) (s s' : database) :
  insert_waitlist w s = Some s' ->
  positions_unique s -> positions_unique s'.
Proof.
  unfold insert_waitlist. destruct (existsb _ _) eqn:E; [discriminate|].
  intros [= <-] H n. unfold waitlist_of. cbn [waitlist with_waitlist].
  rewrite filter_app, map_app. simpl.
  destruct (String.eqb (w_conference_name w) n) eqn:En; simpl;
    [|rewrite app_nil_r; apply H].
  apply NoDup_app; [apply H|repeat constructor; auto|].
  intros x Hx [<-|[]]. apply in_map_iff in Hx. destruct Hx as [w0 [Hp Hin]].
  apply filter_In in Hin. destruct Hin as [Hin Hc].
  assert (X : existsb (fun w' => String.eqb (w_conference_name w') (w_conference_name w)
                && (String.eqb (w_booking_id w') (w_booking_id w)
                    || (position w' =? position w))) (waitlist s) = true).
  { apply existsb_exists. exists w0. split; [assumption|].
    apply String.eqb_eq in Hc, En. rewrite Hc, En, Hp, String.eqb_refl, Z.eqb_refl.
    apply orb_true_r. }
  congruence.
Qed.

Lemma count_positions (q : Z) (rows : list waitlist_entry) :
  count_occ Z.eq_dec (map position rows) q
  = List.length (filter (fun w => position w =? q) rows).
Proof.
  induction rows as [|w rows IH]; simpl; [reflexivity|].
  destruct (Z.eq_dec (position w) q) as [E|E].
  - rewrite (proj2 (Z.eqb_eq _ _) E). simpl. now rewrite IH.
  - rewrite (proj2 (Z.eqb_neq _ _) E). exact IH.
Qed.

Lemma filter_length_bound {A : Type} (p q : A -> bool) (l : list A) :
  (forall x, In x l -> p x = true -> q x = true) ->
  (List.length (filter p l) <= List.length (filter q l))%nat.
Proof.
  induction l as [|x l IH]; simpl; intros H; [lia|].
  assert (IH' : (List.length (filter p l) <= List.length (filter q l))%nat).
  { apply IH. intros y Hy. apply H. now right. }
  destruct (p x) eqn:Ep.
  - rewrite (H x (or_introl eq_refl) Ep). simpl. lia.
  - destruct (q x); simpl; lia.
Qed.

(** Rows that an update by [booking_id] does not touch can be selected
    before or after it. *)
Lemma filter_untouched (P : waitlist_entry -> bool) (p : Z) (id : string)
    (l : list waitlist_entry) :
  let upd := fun w => if String.eqb (w_booking_id w) id then set_position w p else w in
  (forall w, In w (filter P (map upd l)) -> String.eqb (w_booking_id w) id = false) ->
  filter P (map upd l)
  = filter (fun w => P w && negb (String.eqb (w_booking_id w) id)) l.
Proof.
  intros upd. induction l as [|w l IH]; intros Hnone; [reflexivity|].
  cbn [map filter] in *.
  destruct (String.eqb (w_booking_id w) id) eqn:E.
  - assert (Hupd : upd w = set_position w p) by (unfold upd; now rewrite E).
    rewrite Hupd in *. rewrite andb_false_r.
    destruct (P (set_position w p)) eqn:EP.
    + specialize (Hnone (set_position w p) (or_introl eq_refl)).
      simpl in Hnone. congruence.
    + now apply IH.
  - assert (Hupd : upd w = w) by (unfold upd; now rewrite E).
    rewrite Hupd in *. rewrite andb_true_r.
    destruct (P w).
    + f_equal. apply IH. intros w0 Hw0. apply Hnone. now right.
    + now apply IH.
Qed.

(** The position update of the expiry sweep, once the database has accepted
    it, leaves the positions of every conference pairwise distinct. *)
Lemma positions_unique_after_update (p : Z) (id : string) (s s' : database) :
  update_waitlist_position p id s = Some s' ->
  positions_unique s -> positions_unique s'.
Proof.
  unfold update_waitlist_position.
  set (upd := fun w => if String.eqb (w_booking_id w) id then set_position w p else w).
  set (ws := map upd (waitlist s)).
  destruct (forallb _ ws) eqn:Echk; [|discriminate].
  intros [= <-] H n. unfold waitlist_of. cbn [waitlist with_waitlist].
  apply (NoDup_count_occ Z.eq_dec). intros q.
  rewrite count_positions.
  set (P := fun w => String.eqb (w_conference_name w) n && (position w =? q)).
  assert (Hboth : forall l, filter (fun w => position w =? q)
                    (filter (fun w => String.eqb (w_conference_name w) n) l) = filter P l).
  { intros l. symmetry. apply filter_both. }
  rewrite Hboth.
  assert (Hold : (List.length (filter P (waitlist s)) <= 1)%nat).
  { rewrite <- Hboth, <- count_positions.
    apply (NoDup_count_occ Z.eq_dec). apply H. }
  destruct (existsb (fun w => String.eqb (w_booking_id w) id) (filter P ws)) eqn:Ex.
  - apply existsb_exists in Ex. destruct Ex as [w' [Hin Hid]].
    apply filter_In in Hin. destruct Hin as [Hin HP].
    rewrite forallb_forall in Echk. specialize (Echk w' Hin).
    rewrite Hid in Echk. simpl in Echk. apply Nat.leb_le in Echk.
    unfold P in HP. apply andb_true_iff in HP. destruct HP as [Hc Hq].
    apply String.eqb_eq in Hc. apply Z.eqb_eq in Hq.
    rewrite Hc, Hq in Echk. exact Echk.
  - eapply Nat.le_trans; [|exact Hold].
    unfold ws, upd. rewrite filter_untouched.
    + apply filter_length_bound. intros w _ Hw. apply andb_true_iff in Hw. tauto.
    + intros w Hw. destruct (String.eqb (w_booking_id w) id) eqn:E; [|reflexivity].
      assert (X : existsb (fun w => String.eqb (w_booking_id w) id) (filter P ws) = true).
      { apply existsb_exists. exists w. split; [exact Hw|exact E]. }
      congruence.
Qed.

Lemma run_keeps_positions (now : Z) (op : operation) (s : database) :
  schema_ok s -> positions_unique s -> positions_unique (run now op s).
Proof.
  intros Hok Hpos. destruct op as [id n u|id|id plan| |query_fails]; simpl.
  - unfold bookConference.
    destruct (getConferenceByName s n) as [c|]; [|assumption].
    destruct (getUserById s u); [|assumption].
    destruct (hasConferenceStarted now s n) as [[|]|]; try assumption.
    destruct (hasExistingBooking s u n); [assumption|].
    destruct (hasConflictingBooking s u (start_time c) (end_time c)); [assumption|].
    destruct (0 <? available_slots c); unfold bind.
    + destruct (insert_booking _ s) as [s1|] eqn:E1; [|assumption].
      destruct (add_available_slots (-1) n s1) as [s2|] eqn:E2; [|assumption].
      simpl. apply insert_booking_some in E1. destruct E1 as (_ & _ & Hw1 & _).
      apply add_available_slots_some in E2. destruct E2 as (_ & _ & Hw2 & _).
      eapply positions_unique_after_delete; [reflexivity|].
      apply (positions_unique_same_waitlist s); [congruence|assumption].
    + destruct (insert_booking _ s) as [s1|] eqn:E1; [|assumption].
      destruct (insert_waitlist _ s1) as [s2|] eqn:E2; [|assumption].
      simpl. apply insert_booking_some in E1. destruct E1 as (_ & _ & Hw1 & _).
      apply (positions_unique_after_insert _ _ _ E2).
      now apply (positions_unique_same_waitlist s).
  - parse_id id. unfold confirm_uuid.
    destruct (booking_with_conference s id) as [[b c]|]; [|assumption].
    destruct (negb _); [assumption|].
    destruct (start_time c <=? now); [assumption|].
    destruct (deadline_passed now b); [assumption|].
    destruct (available_slots c <=? 0); [assumption|].
    unfold bind.
    destruct (add_available_slots (-1) (conference_name b) _) as [s2|] eqn:E2; [|assumption].
    simpl. apply add_available_slots_some in E2. destruct E2 as (_ & _ & Hw2 & _).
    eapply positions_unique_same_waitlist; [apply processNextInWaitlist_frame|].
    eapply positions_unique_after_delete; [reflexivity|].
    eapply positions_unique_after_delete; [reflexivity|].
    now apply (positions_unique_same_waitlist s).
  - parse_id id. unfold cancel_uuid.
    destruct (booking_with_conference s id) as [[b c]|]; [|assumption].
    destruct (status_eqb (status b) CANCELED); [assumption|].
    destruct (start_time c <=? now); [assumption|].
    set (s1 := update_booking id (fun x => set_status x CANCELED) s).
    assert (Hok1 : schema_ok s1) by now apply update_booking_schema.
    assert (Hpos1 : positions_unique s1)
      by now apply (positions_unique_same_waitlist s).
    assert (Hwl : forall t, schema_ok t -> positions_unique t ->
              positions_unique (renumbered plan (conference_name b) (delete_waitlist id t))).
    { intros t Ht Hpt. apply positions_unique_after_reorder.
      - apply (delete_waitlist_schema id t Ht).
      - eapply positions_unique_after_delete; [reflexivity|assumption]. }
    unfold bind.
    destruct (status_eqb (status b) CONFIRMED).
    + destruct (add_available_slots 1 (conference_name b) s1) as [s2|] eqn:E2; [|assumption].
      pose proof (add_available_slots_schema _ _ _ _ E2 Hok1) as Hok2.
      apply add_available_slots_some in E2. destruct E2 as (_ & _ & Hw2 & _).
      assert (Hpos2 : positions_unique (processNextInWaitlist now (conference_name b) s2)).
      { eapply positions_unique_same_waitlist; [apply processNextInWaitlist_frame|].
        now apply (positions_unique_same_waitlist s1). }
      destruct (status_eqb (status b) WAITLISTED); simpl; [|assumption].
      open_reorder; [|assumption].
      apply Hwl; [now apply processNextInWaitlist_schema|assumption].
    + destruct (status_eqb (status b) WAITLISTED); simpl; [|assumption].
      open_reorder; [|assumption].
      now apply Hwl.
  - unfold handleExpiredWaitlistBookings.
    destruct (for_each _ _ s) as [s'|] eqn:E; simpl; [|assumption].
    revert Hpos. revert E.
    apply (for_each_preserves (fun a b => positions_unique a -> positions_unique b)); auto.
    intros e t t'. unfold requeue_expired, bind.
    destruct (update_waitlist_position _ _ t) as [t1|] eqn:E1; [|discriminate].
    intros [= <-] Ht.
    eapply positions_unique_same_waitlist; [apply processNextInWaitlist_frame|].
    apply (positions_unique_same_waitlist t1); [reflexivity|].
    now apply (positions_unique_after_update _ _ _ _ E1).
  - unfold autoCancelForStartedConferences.
    destruct (for_each _ _ s) as [s'|] eqn:E; simpl; [|assumption].
    revert Hpos. revert E.
    apply (for_each_preserves (fun a b => positions_unique a -> positions_unique b)); auto.
    intros c t t'. unfold cancel_waitlisted.
    destruct (query_fails (name c)); [discriminate|]. intros [= <-].
    apply positions_unique_after_delete with
      (keep := fun w => negb (String.eqb (w_conference_name w) (name c))).
    reflexivity.
Qed.

Lemma reachable_positions_unique (init s : database) :
  schema_ok init -> ledger_invariant init -> positions_unique init ->
  reachable init s -> positions_unique s.
Proof.
  intros Hschema Hledger Hpos Hreach.
  induction Hreach as [|now op s Hreach IH]; [assumption|].
  apply run_keeps_positions; [|assumption].
  now apply (reachable_states_ok init s Hschema Hledger).
Qed.

Lemma carol_waitlisted_reachable : reachable two_conferences carol_waitlisted.
Proof.
  unfold carol_waitlisted, bob_waitlisted, alice_confirmed.
  repeat apply reachable_step. apply reachable_init.
Qed.

(** X6.  Positions stay pairwise distinct.  Every engine operation maps a
    state the schema allows in which no two waitlist rows of a conference
    share a position to a state in which this holds again: the positions of
    a conference may have gaps, but they always order its waitlist. *)
Theorem positions_stay_distinct (now : Z) (op : operation) (s : database) :
  schema_ok s ->
  positions_unique s ->
  positions_unique (run now op s).
Proof. exact (run_keeps_positions now op s). Qed.

Lemma positions_stay_distinct_witness :
  positions_unique (run 4 (CancelBooking id_b2 table_order) carol_waitlisted).
Proof.
  apply positions_stay_distinct.
  - apply (reachable_states_ok two_conferences carol_waitlisted);
      [apply two_conferences_ok|apply two_conferences_ok|apply carol_waitlisted_reachable].
  - apply (reachable_positions_unique two_conferences);
      [apply two_conferences_ok|apply two_conferences_ok| |apply carol_waitlisted_reachable].
    intros n. simpl. constructor.
Defined.

(** * validators *)

Lemma hasTimeOverlap_shared_instant (start1 end1 start2 end2 : Z) :
  start1 < end1 -> start2 < end2 ->
  hasTimeOverlap start1 end1 start2 end2 = true
  <-> exists t, start1 <= t < end1 /\ start2 <= t < end2.
Proof.
  intros H1 H2. unfold hasTimeOverlap. rewrite andb_true_iff, !Z.ltb_lt. split.
  - intros [Ha Hb]. exists (Z.max start1 start2). lia.
  - intros [t Ht]. lia.
Qed.

(** X7.  [hasTimeOverlap] is the intersection test of half-open intervals:
    two intervals that are not empty overlap exactly when some instant lies
    in both [[start1, end1)] and [[start2, end2)]; the test is symmetric, and
    an interval that starts when the other ends does not overlap it. *)
Theorem hasTimeOverlap_is_intersection (start1 end1 start2 end2 : Z) :
  start1 < end1 ->
  start2 < end2 ->
  (hasTimeOverlap start1 end1 start2 end2 = true
   <-> exists t, start1 <= t < end1 /\ start2 <= t < end2)
  /\ hasTimeOverlap start1 end1 start2 end2 = hasTimeOverlap start2 end2 start1 end1
  /\ hasTimeOverlap start1 end1 end1 (end1 + (end2 - start2)) = false.
Proof.
  intros H1 H2. split; [now apply hasTimeOverlap_shared_instant|].
  unfold hasTimeOverlap. split.
  - apply andb_comm.
  - rewrite Z.ltb_irrefl. apply andb_false_r.
Qed.

Lemma hasTimeOverlap_is_intersection_witness :
  hasTimeOverlap 10000000 20000000 15000000 25000000 = true
  <-> exists t, 10000000 <= t < 20000000 /\ 15000000 <= t < 25000000.
Proof.
  apply (hasTimeOverlap_is_intersection 10000000 20000000 15000000 25000000); lia.
Defined.

Lemma hasConflictingBooking_spec (s : database) (u : string) (startTime endTime : Z) :
  hasConflictingBooking s u startTime endTime = true
  <-> exists b c, In b (bookings s) /\ active_booking u b
                  /\ In c (conferences s) /\ name c = conference_name b
                  /\ hasTimeOverlap (start_time c) (end_time c) startTime endTime = true.
Proof.
  unfold hasConflictingBooking, hasTimeOverlap, active_booking.
  rewrite existsb_exists. split.
  - intros (b & Hb & H). apply andb_true_iff in H. destruct H as [H Hc].
    apply andb_true_iff in H. destruct H as [Hu Hst].
    apply existsb_exists in Hc. destruct Hc as (c & Hc & H).
    apply andb_true_iff in H. destruct H as [H H3].
    apply andb_true_iff in H. destruct H as [Hn H2].
    apply String.eqb_eq in Hu, Hn. apply orb_true_iff in Hst.
    exists b, c. repeat split; auto.
    + destruct Hst as [E|E]; apply status_eqb_eq in E; auto.
    + now rewrite H2, H3.
  - intros (b & c & Hb & [Hu Hst] & Hc & Hn & H).
    apply andb_true_iff in H. destruct H as [H2 H3].
    exists b. split; [assumption|].
    rewrite Hu, String.eqb_refl. simpl.
    replace (status_eqb (status b) CONFIRMED || status_eqb (status b) WAITLISTED) with true
      by (destruct Hst as [-> | ->]; reflexivity).
    simpl. apply existsb_exists. exists c. split; [assumption|].
    now rewrite Hn, String.eqb_refl, H2, H3.
Qed.

(** X8.  The conflict check of [bookConference].  For a conference window
    [[startTime, endTime)] that is not empty and conferences whose windows are
    not empty, [hasConflictingBooking] answers [true] exactly when the user
    has a CONFIRMED or WAITLISTED booking of a conference whose window shares
    an instant with it.  CANCELED bookings never conflict, and neither does a
    conference that starts when the other ends. *)
Theorem conflict_iff_shared_instant (s : database) (u : string) (startTime endTime : Z) :
  startTime < endTime ->
  (forall c, In c (conferences s) -> start_time c < end_time c) ->
  (hasConflictingBooking s u startTime endTime = true
   <-> exists b c t, In b (bookings s) /\ active_booking u b
                     /\ In c (conferences s) /\ name c = conference_name b
                     /\ start_time c <= t < end_time c /\ startTime <= t < endTime).
Proof.
  intros Hne Hwin. rewrite hasConflictingBooking_spec. split.
  - intros (b & c & Hb & Hact & Hc & Hn & Hov).
    apply (hasTimeOverlap_shared_instant _ _ _ _ (Hwin c Hc) Hne) in Hov.
    destruct Hov as [t Ht]. exists b, c, t. tauto.
  - intros (b & c & t & Hb & Hact & Hc & Hn & Ht1 & Ht2).
    exists b, c. split; [exact Hb|]. split; [exact Hact|]. split; [exact Hc|].
    split; [exact Hn|].
    apply (hasTimeOverlap_shared_instant _ _ _ _ (Hwin c Hc) Hne). eauto.
Qed.

Lemma conflict_iff_shared_instant_witness :
  hasConflictingBooking carol_waitlisted "bob" 15000000 25000000 = true.
Proof.
  apply (conflict_iff_shared_instant carol_waitlisted "bob" 15000000 25000000).
  - lia.
  - intros c Hc. vm_compute in Hc. destruct Hc as [<-|[<-|[]]]; simpl; lia.
  - exists (mkBooking id_b2 rust_days "bob" WAITLISTED 2 None),
      (mkConference rust_days 10000000 20000000 1 0), 15000000.
    unfold active_booking. simpl.
    split; [vm_compute; auto|]. split; [auto|]. split; [vm_compute; auto|].
    split; [reflexivity|]. lia.
Defined.

(** * conferenceService.updateAvailableSlots *)

Lemma slot_change_allowed_spec (n : string) (change : Z) (c : conference) :
  slot_change_allowed n change c = true
  <-> name c = n /\ 0 <= available_slots c + change <= total_slots c.
Proof.
  unfold slot_change_allowed.
  rewrite !andb_true_iff, String.eqb_eq, !Z.leb_le. tauto.
Qed.

Lemma with_conferences_same (s : database) : with_conferences s (conferences s) = s.
Proof. destruct s; reflexivity. Qed.

Lemma updated_row_found (n : string) (change : Z) (cs : list conference) (c : conference) :
  find (fun x => String.eqb (name x) n) cs = Some c ->
  slot_change_allowed n change c = true ->
  find (fun x => String.eqb (name x) n)
       (map (fun x => if slot_change_allowed n change x
                      then set_available x (available_slots x + change) else x) cs)
  = Some (set_available c (available_slots c + change)).
Proof.
  intros Hfind Hhit. induction cs as [|x cs IH]; simpl in *; [discriminate|].
  destruct (String.eqb (name x) n) eqn:E.
  - injection Hfind as ->. rewrite Hhit. simpl. now rewrite E.
  - assert (X : slot_change_allowed n change x = false).
    { unfold slot_change_allowed. now rewrite E. }
    rewrite X, E. now apply IH.
Qed.

Lemma slot_change_passes_unknown (n : string) (change : Z) (s : database) :
  integer change = true ->
  getConferenceByName s n = None ->
  slot_change_raises n change s = false.
Proof.
  intros Hint Hnone. unfold slot_change_raises. rewrite Hint. simpl.
  apply existsb_false. intros x Hx.
  unfold getConferenceByName in Hnone.
  now rewrite (find_none _ _ Hnone x Hx).
Qed.

Lemma slot_change_raises_known (n : string) (change : Z) (s : database) (c : conference) :
  integer change = true ->
  conference_names_unique s ->
  getConferenceByName s n = Some c ->
  slot_change_raises n change s = negb (integer (available_slots c + change)).
Proof.
  intros Hint Hnd Hc. unfold slot_change_raises. rewrite Hint. simpl.
  pose proof (getConferenceByName_name _ _ _ Hc) as [Hcin Hcname].
  destruct (integer (available_slots c + change)) eqn:E; simpl.
  - apply existsb_false. intros x Hx.
    destruct (String.eqb (name x) n) eqn:En; [|reflexivity].
    apply String.eqb_eq in En.
    assert (x = c) by (apply (unique_conference (conferences s)); auto; congruence).
    subst x. now rewrite E.
  - apply existsb_exists. exists c. split; [assumption|].
    now rewrite Hcname, String.eqb_refl, E.
Qed.

Lemma slot_change_missed (n : string) (change : Z) (s : database) :
  existsb (slot_change_allowed n change) (conferences s) = false ->
  with_conferences s
    (map (fun c => if slot_change_allowed n change c
                   then set_available c (available_slots c + change) else c)
         (conferences s)) = s.
Proof.
  intros Hno. rewrite map_unchanged; [apply with_conferences_same|].
  intros x Hx. destruct (slot_change_allowed n change x) eqn:E; [|reflexivity].
  assert (X : existsb (slot_change_allowed n change) (conferences s) = true)
    by (apply existsb_exists; eauto).
  congruence.
Qed.

(** X9.  [updateAvailableSlots] is a guarded update.  It raises when
    [change] is no INTEGER, and when [available_slots + change] of the
    conference of that name is none.  Otherwise: for an unknown conference it
    returns [false] and changes nothing; for a known one it returns [true]
    exactly when [available_slots + change] stays within [0..total_slots];
    then that conference is stored with the new value, otherwise nothing
    changes.  When it returns, it has not broken the CHECK constraints, and
    it has touched no booking and no waitlist row. *)
Theorem updateAvailableSlots_guarded (n : string) (change : Z) (s : database) :
  (integer change = false -> updateAvailableSlots n change s = None)
  /\ (integer change = true ->
      getConferenceByName s n = None ->
      updateAvailableSlots n change s = Some (s, false))
  /\ (forall c,
        integer change = true ->
        conference_names_unique s ->
        getConferenceByName s n = Some c ->
        (integer (available_slots c + change) = false ->
         updateAvailableSlots n change s = None)
        /\ (integer (available_slots c + change) = true ->
            exists s' ok,
              updateAvailableSlots n change s = Some (s', ok)
              /\ (ok = true <-> 0 <= available_slots c + change <= total_slots c)
              /\ (ok = true ->
                  getConferenceByName s' n
                  = Some (set_available c (available_slots c + change)))
              /\ (ok = false -> s' = s)))
  /\ (forall s' ok,
        updateAvailableSlots n change s = Some (s', ok) ->
        (checks_hold s -> checks_hold s')
        /\ bookings s' = bookings s
        /\ waitlist s' = waitlist s).
Proof.
  split; [|split; [|split]].
  - intros Hint. unfold updateAvailableSlots, slot_change_raises. now rewrite Hint.
  - intros Hint Hnone. unfold updateAvailableSlots.
    rewrite (slot_change_passes_unknown n change s Hint Hnone).
    assert (Hno : existsb (slot_change_allowed n change) (conferences s) = false).
    { apply existsb_false. intros x Hx.
      destruct (slot_change_allowed n change x) eqn:E; [|reflexivity].
      apply slot_change_allowed_spec in E. destruct E as [E _].
      unfold getConferenceByName in Hnone.
      apply (find_none _ _ Hnone) in Hx. apply String.eqb_neq in Hx. contradiction. }
    now rewrite Hno, (slot_change_missed n change s Hno).
  - intros c Hint Hnd Hc.
    pose proof (getConferenceByName_name _ _ _ Hc) as [Hcin Hcname].
    unfold updateAvailableSlots.
    rewrite (slot_change_raises_known n change s c Hint Hnd Hc).
    split; intros Hsum; rewrite Hsum; simpl; [reflexivity|].
    eexists. eexists. split; [reflexivity|].
    assert (Hiff : existsb (slot_change_allowed n change) (conferences s) = true
                   <-> 0 <= available_slots c + change <= total_slots c).
    { rewrite existsb_exists. split.
      - intros (x & Hx & Hhit). apply slot_change_allowed_spec in Hhit.
        destruct Hhit as [Hn Hr].
        assert (x = c) by (apply (unique_conference (conferences s)); auto; congruence).
        now subst x.
      - intros Hr. exists c. split; [assumption|].
        apply slot_change_allowed_spec. auto. }
    split; [exact Hiff|]. split.
    + intros Hok. apply Hiff in Hok. unfold getConferenceByName. simpl.
      apply updated_row_found; [exact Hc|].
      apply slot_change_allowed_spec. auto.
    + intros Hno. now apply slot_change_missed.
  - intros s' ok. unfold updateAvailableSlots.
    destruct (slot_change_raises n change s); [discriminate|].
    intros [= <- _]. split; [|split; reflexivity].
    intros Hchk c Hc. simpl in Hc. apply in_map_iff in Hc.
    destruct Hc as [x [Hx Hin]].
    destruct (slot_change_allowed n change x) eqn:E.
    + apply slot_change_allowed_spec in E. subst c. simpl. tauto.
    + subst c. now apply Hchk.
Qed.

Lemma updateAvailableSlots_guarded_witness :
  updateAvailableSlots web_summit 4294967296 two_conferences = None
  /\ updateAvailableSlots web_summit 2147483647 two_conferences = None
  /\ updateAvailableSlots web_summit 1 two_conferences = Some (two_conferences, false)
  /\ exists s',
       updateAvailableSlots web_summit (-1) two_conferences = Some (s', true)
       /\ getConferenceByName s' web_summit
          = Some (mkConference web_summit 30000000 40000000 5 4).
Proof.
  destruct (updateAvailableSlots_guarded web_summit 4294967296 two_conferences)
    as (H0 & _).
  split; [now apply H0|].
  destruct (updateAvailableSlots_guarded web_summit 2147483647 two_conferences)
    as (_ & _ & H1 & _).
  destruct (H1 (mkConference web_summit 30000000 40000000 5 5)) as (H1' & _);
    [reflexivity|apply two_conferences_ok|reflexivity|].
  split; [now apply H1'|].
  split; [reflexivity|].
  destruct (updateAvailableSlots_guarded web_summit (-1) two_conferences)
    as (_ & _ & H & _).
  destruct (H (mkConference web_summit 30000000 40000000 5 5)) as (_ & H2);
    [reflexivity|apply two_conferences_ok|reflexivity|].
  destruct H2 as (s' & ok & E & Hiff & Hrow & _); [reflexivity|].
  assert (Hok : ok = true) by (apply Hiff; simpl; lia).
  subst ok. exists s'. split; [exact E|exact (Hrow eq_refl)].
Defined.

(** X10.  Taking a seat and giving it back.  In a state the schema allows,
    whose slot counts are INTEGERs, when [updateAvailableSlots] applies a
    change, applying the opposite change afterwards succeeds and restores the
    state exactly. *)
Theorem updateAvailableSlots_round_trip (n : string) (change : Z) (s s' : database) :
  conference_names_unique s ->
  checks_hold s ->
  slots_are_integers s ->
  updateAvailableSlots n change s = Some (s', true) ->
  updateAvailableSlots n (- change) s' = Some (s, true).
Proof.
  intros Hnd Hchk Hcols. unfold updateAvailableSlots at 1.
  destruct (slot_change_raises n change s) eqn:Eraise; [discriminate|].
  intros [= <- Hok].
  apply existsb_exists in Hok. destruct Hok as (c & Hcin & Hhit).
  pose proof (proj1 (slot_change_allowed_spec _ _ _) Hhit) as [Hcn Hcr].
  assert (Hrow : forall x, In x (conferences s) ->
            let x' := if slot_change_allowed n change x
                      then set_available x (available_slots x + change) else x in
            (if slot_change_allowed n (- change) x'
             then set_available x' (available_slots x' + - change) else x') = x
            /\ (x = c -> slot_change_allowed n (- change) x' = true)).
  { intros x Hx. simpl. destruct (slot_change_allowed n change x) eqn:E.
    - apply slot_change_allowed_spec in E. destruct E as [En Er].
      pose proof (Hchk x Hx) as Hb.
      assert (X : slot_change_allowed n (- change)
                    (set_available x (available_slots x + change)) = true).
      { apply slot_change_allowed_spec. simpl. split; [assumption|lia]. }
      rewrite X. split; [|reflexivity].
      destruct x as [xn xs xe xt xa]. unfold set_available. simpl. f_equal. lia.
    - assert (X : slot_change_allowed n (- change) x = false).
      { destruct (slot_change_allowed n (- change) x) eqn:E'; [|reflexivity].
        apply slot_change_allowed_spec in E'. destruct E' as [En _].
        assert (x = c) by (apply (unique_conference (conferences s)); auto; congruence).
        subst x. congruence. }
      rewrite X. split; [reflexivity|]. intros ->. congruence. }
  assert (Hback : slot_change_raises n (- change)
            (with_conferences s
               (map (fun x => if slot_change_allowed n change x
                              then set_available x (available_slots x + change) else x)
                    (conferences s))) = false).
  { unfold slot_change_raises in *. apply orb_false_iff in Eraise.
    destruct Eraise as [Eint _]. apply negb_false_iff in Eint.
    destruct (Hcols c Hcin) as [_ Hav].
    unfold integer in *. apply andb_true_iff in Eint, Hav.
    rewrite !Z.leb_le in Eint, Hav.
    apply orb_false_iff. split.
    - apply negb_false_iff, andb_true_iff. rewrite !Z.leb_le. lia.
    - apply existsb_false. intros x' Hx'. cbn [conferences with_conferences] in Hx'.
      apply in_map_iff in Hx'. destruct Hx' as [x [<- Hx]].
      destruct (slot_change_allowed n change x) eqn:E.
      + apply slot_change_allowed_spec in E. destruct E as [En Er].
        destruct (Hcols x Hx) as [_ Hxa]. apply andb_true_iff in Hxa.
        rewrite !Z.leb_le in Hxa. cbn [name available_slots set_available].
        rewrite En, String.eqb_refl. cbn [andb negb].
        apply negb_false_iff, andb_true_iff. rewrite !Z.leb_le. lia.
      + destruct (String.eqb (name x) n) eqn:En; [|reflexivity].
        apply String.eqb_eq in En.
        assert (x = c) by (apply (unique_conference (conferences s)); auto; congruence).
        subst x. congruence. }
  unfold updateAvailableSlots. rewrite Hback.
  cbn [conferences with_conferences]. f_equal. f_equal.
  - rewrite map_map.
    change (with_conferences (with_conferences s ?l) ?l') with (with_conferences s l').
    rewrite map_unchanged; [apply with_conferences_same|].
    intros x Hx. apply (Hrow x Hx).
  - apply existsb_exists.
    exists (if slot_change_allowed n change c
            then set_available c (available_slots c + change) else c).
    split.
    + apply in_map_iff. exists c. auto.
    + now apply (Hrow c Hcin).
Qed.

Lemma updateAvailableSlots_round_trip_witness :
  updateAvailableSlots web_summit 1
    (with_conferences two_conferences
       [mkConference rust_days 10000000 20000000 1 1;
        mkConference web_summit 30000000 40000000 5 4])
  = Some (two_conferences, true).
Proof.
  apply (updateAvailableSlots_round_trip web_summit (-1) two_conferences).
  - apply two_conferences_ok.
  - apply two_conferences_ok.
  - intros c Hc. vm_compute in Hc. destruct Hc as [<-|[<-|[]]]; split; reflexivity.
  - reflexivity.
Defined.

(** * Statistics *)

Lemma count_status_total (bs : list booking) :
  (count_status CONFIRMED bs + count_status WAITLISTED bs + count_status CANCELED bs
   = List.length bs)%nat.
Proof.
  unfold count_status. induction bs as [|b bs IH]; simpl; [reflexivity|].
  destruct (status b); simpl; lia.
Qed.

Lemma count_confirmed_of_conference (s : database) (n : string) :
  count_status CONFIRMED (bookings_of s n) = count_confirmed s n.
Proof.
  unfold count_status, bookings_of, count_confirmed, confirmed_for.
  rewrite <- filter_both. reflexivity.
Qed.

(** X11.  Conference statistics.  [getConferenceStats] fails with
    "Conference not found" exactly for an unknown name.  For a known
    conference the three status counts add up to the number of its bookings
    and [booked_slots + available_slots = total_slots]; in a state that
    satisfies the capacity ledger, [booked_slots] equals
    [confirmed_bookings]. *)
Theorem conference_stats_agree (s : database) (n : string) :
  (getConferenceByName s n = None <-> getConferenceStats s n = Error "Conference not found")
  /\ forall st, getConferenceStats s n = Data st ->
       (cs_confirmed_bookings st + cs_waitlisted_bookings st + cs_canceled_bookings st
        = List.length (bookings_of s n))%nat
       /\ cs_booked_slots st + cs_available_slots st = cs_total_slots st
       /\ (ledger_invariant s -> cs_booked_slots st = Z.of_nat (cs_confirmed_bookings st)).
Proof.
  unfold getConferenceStats. split.
  - destruct (getConferenceByName s n); split; intros; congruence.
  - intros st. destruct (getConferenceByName s n) as [c|] eqn:Ec; [|discriminate].
    intros [= <-]. simpl.
    pose proof (getConferenceByName_name _ _ _ Ec) as [Hin Hname].
    rewrite Hname. split; [apply count_status_total|]. split; [lia|].
    intros Hinv. rewrite count_confirmed_of_conference.
    specialize (Hinv c Hin). rewrite Hname in Hinv. lia.
Qed.

Lemma conference_stats_agree_witness :
  exists st,
    getConferenceStats carol_waitlisted rust_days = Data st
    /\ cs_booked_slots st = Z.of_nat (cs_confirmed_bookings st).
Proof.
  destruct (conference_stats_agree carol_waitlisted rust_days) as [_ H].
  eexists. split; [reflexivity|].
  apply (H _ eq_refl).
  apply (reachable_states_ok two_conferences carol_waitlisted);
    [apply two_conferences_ok|apply two_conferences_ok|apply carol_waitlisted_reachable].
Defined.

Lemma sum_zero (cs : list conference) :
  fold_right Z.add 0 (map (fun _ => 0) cs) = 0.
Proof. induction cs as [|c cs IH]; simpl; [reflexivity|exact IH]. Qed.

Lemma one_conference_per_name (cs : list conference) (n : string) :
  NoDup (map name cs) -> In n (map name cs) ->
  fold_right Z.add 0 (map (fun c => indicator (String.eqb n (name c))) cs) = 1.
Proof.
  induction cs as [|c cs IH]; simpl; intros Hnd Hin; [contradiction|].
  inversion Hnd as [|? ? Hfresh Hrest]; subst.
  destruct (String.eqb n (name c)) eqn:E.
  - apply String.eqb_eq in E. subst n.
    assert (X : fold_right Z.add 0 (map (fun c0 => indicator (String.eqb (name c) (name c0))) cs)
                = 0).
    { transitivity (fold_right Z.add 0 (map (fun _ : conference => 0) cs));
        [|apply sum_zero].
      f_equal. apply map_ext_in. intros c0 Hc0.
      destruct (String.eqb (name c) (name c0)) eqn:E'; [|reflexivity].
      apply String.eqb_eq in E'. exfalso. apply Hfresh. rewrite E'. now apply in_map. }
    rewrite X. reflexivity.
  - apply String.eqb_neq in E. destruct Hin as [Hin|Hin]; [congruence|].
    rewrite IH by assumption. reflexivity.
Qed.

Lemma sum_pointwise (f g : conference -> Z) (cs : list conference) :
  fold_right Z.add 0 (map (fun c => f c + g c) cs)
  = fold_right Z.add 0 (map f cs) + fold_right Z.add 0 (map g cs).
Proof. induction cs as [|c cs IH]; simpl; [reflexivity|]. rewrite IH. lia. Qed.

(** Counting the CONFIRMED bookings conference by conference counts each of
    them once. *)
Lemma confirmed_per_conference (cs : list conference) (bs : list booking) :
  NoDup (map name cs) ->
  (forall b, In b bs -> In (conference_name b) (map name cs)) ->
  fold_right Z.add 0
    (map (fun c => Z.of_nat (List.length (filter (confirmed_for (name c)) bs))) cs)
  = Z.of_nat (count_status CONFIRMED bs).
Proof.
  intros Hnd. induction bs as [|b bs IH]; intros Hfk.
  - simpl. apply sum_zero.
  - assert (Hstep : forall c,
              Z.of_nat (List.length (filter (confirmed_for (name c)) (b :: bs)))
              = indicator (status_eqb (status b) CONFIRMED)
                * indicator (String.eqb (conference_name b) (name c))
                + Z.of_nat (List.length (filter (confirmed_for (name c)) bs))).
    { intros c. cbn [filter]. unfold confirmed_for at 1.
      destruct (String.eqb (conference_name b) (name c)),
               (status_eqb (status b) CONFIRMED);
        cbn [andb List.length]; rewrite ?Nat2Z.inj_succ; unfold indicator; lia. }
    rewrite (map_ext _ _ Hstep), sum_pointwise, IH
      by (intros; apply Hfk; now right).
    assert (Hone : fold_right Z.add 0
              (map (fun c => indicator (status_eqb (status b) CONFIRMED)
                             * indicator (String.eqb (conference_name b) (name c))) cs)
              = indicator (status_eqb (status b) CONFIRMED)).
    { destruct (status_eqb (status b) CONFIRMED); simpl indicator.
      - rewrite (map_ext _ (fun c => indicator (String.eqb (conference_name b) (name c))))
          by (intros; lia).
        apply one_conference_per_name; [assumption|]. apply Hfk. now left.
      - rewrite (map_ext _ (fun _ => 0)) by reflexivity. apply sum_zero. }
    rewrite Hone. unfold count_status. cbn [filter].
    destruct (status_eqb (status b) CONFIRMED);
      cbn [List.length]; rewrite ?Nat2Z.inj_succ; unfold indicator; lia.
Qed.

(** X12.  Booking statistics.  The three status counts of
    [getBookingStatistics] add up to [total_bookings], and the numbers of
    distinct users and of distinct conferences are at most [total_bookings].
    In a state the schema allows that satisfies the capacity ledger and has
    at least one conference, [booked_capacity] is the number of CONFIRMED
    bookings and [booked_capacity + available_capacity = total_capacity]. *)
Theorem booking_statistics_agree (s : database) :
  let st := getBookingStatistics s in
  (confirmed_bookings st + waitlisted_bookings st + canceled_bookings st
   = total_bookings st)%nat
  /\ (unique_users st <= total_bookings st)%nat
  /\ (conferences_with_bookings st <= total_bookings st)%nat
  /\ (conference_names_unique s -> bookings_reference_conferences s ->
      ledger_invariant s -> conferences s <> [] ->
      exists total available,
        total_capacity st = Some total
        /\ available_capacity st = Some available
        /\ booked_capacity st = Some (Z.of_nat (confirmed_bookings st))
        /\ Z.of_nat (confirmed_bookings st) + available = total).
Proof.
  simpl. split; [apply count_status_total|].
  assert (Hdistinct : forall l, (count_distinct l <= List.length l)%nat).
  { intros l. unfold count_distinct. induction l as [|x l IH]; simpl; [lia|].
    destruct (in_dec string_dec x l); simpl; lia. }
  split; [rewrite <- (length_map user_id); apply Hdistinct|].
  split; [rewrite <- (length_map conference_name); apply Hdistinct|].
  intros Hnd Hfk Hinv Hne.
  assert (Hbooked : fold_right Z.add 0
            (map (fun c => total_slots c - available_slots c) (conferences s))
            = Z.of_nat (count_status CONFIRMED (bookings s))).
  { rewrite <- (confirmed_per_conference (conferences s) (bookings s) Hnd).
    - f_equal. apply map_ext_in. intros c Hc. specialize (Hinv c Hc).
      unfold count_confirmed in Hinv. lia.
    - intros b Hb. specialize (Hfk b Hb).
      destruct (getConferenceByName s (conference_name b)) as [c|] eqn:E; [|contradiction].
      apply getConferenceByName_name in E. destruct E as [Hin Hn].
      rewrite <- Hn. now apply in_map. }
  assert (Hsplit : fold_right Z.add 0
            (map (fun c => total_slots c - available_slots c) (conferences s))
            + fold_right Z.add 0 (map available_slots (conferences s))
            = fold_right Z.add 0 (map total_slots (conferences s))).
  { rewrite <- sum_pointwise. f_equal. apply map_ext. intros; lia. }
  unfold sum_of. destruct (conferences s) as [|c cs]; [contradiction|].
  cbn [map]. eexists. eexists.
  split; [reflexivity|]. split; [reflexivity|]. split; [f_equal; exact Hbooked|].
  rewrite <- Hbooked. exact Hsplit.
Qed.

Lemma booking_statistics_agree_witness :
  booked_capacity (getBookingStatistics carol_waitlisted) = Some 1
  /\ confirmed_bookings (getBookingStatistics carol_waitlisted) = 1%nat.
Proof.
  destruct (booking_statistics_agree carol_waitlisted) as (_ & _ & _ & H).
  destruct (reachable_states_ok two_conferences carol_waitlisted
              (proj1 two_conferences_ok) (proj2 two_conferences_ok)
              carol_waitlisted_reachable) as [(S1 & _ & _ & _ & S5 & _) Hinv].
  destruct (H S1 S5 Hinv) as (total & available & _ & _ & Hb & _).
  - discriminate.
  - split; [exact Hb|reflexivity].
Defined.

(** * bookingService.getBookingStatus *)

Lemma find_none_all {A : Type} (p : A -> bool) (l : list A) :
  (forall x, In x l -> p x = false) -> find p l = None.
Proof.
  induction l as [|x l IH]; simpl; intros H; [reflexivity|].
  rewrite (H x) by now left. apply IH. intros y Hy. apply H. now right.
Qed.

Lemma find_appended {A : Type} (p : A -> bool) (l : list A) (x : A) :
  (forall y, In y l -> p y = false) -> p x = true -> find p (l ++ [x]) = Some x.
Proof.
  induction l as [|y l IH]; simpl; intros H Hx; [now rewrite Hx|].
  rewrite (H y) by now left. apply IH; [|assumption]. intros z Hz. apply H. now right.
Qed.

Lemma booking_by_id_after_map (id : string) (f : booking -> booking) (s s' : database) :
  bookings s' = map f (bookings s) ->
  (forall b, booking_id (f b) = booking_id b) ->
  booking_by_id s' id = option_map f (booking_by_id s id).
Proof.
  intros Hb Hid. unfold booking_by_id. rewrite Hb. clear Hb.
  induction (bookings s) as [|b bs IH]; simpl; [reflexivity|].
  rewrite Hid. destruct (String.eqb (booking_id b) id); [reflexivity|exact IH].
Qed.

Lemma fresh_id_no_match (id : string) (bs : list booking) :
  ~ In id (map booking_id bs) ->
  forall b, In b bs -> String.eqb (booking_id b) id = false.
Proof.
  intros Hfresh b Hb. apply String.eqb_neq. intros E. apply Hfresh.
  rewrite <- E. now apply in_map.
Qed.

Lemma fresh_id_no_waitlist_row (id : string) (s : database) :
  waitlist_references_bookings s ->
  ~ In id (map booking_id (bookings s)) ->
  forall w, In w (waitlist s) -> String.eqb (w_booking_id w) id = false.
Proof.
  intros Hfk Hfresh w Hw. apply String.eqb_neq. intros E. apply Hfresh.
  rewrite <- E. now apply Hfk.
Qed.

(** A successful [bookConference], branch by branch. *)
Lemma book_success_inv (now : Z) (id n u id' : string) (s s' : database)
    (st : booking_status) (pos : option Z) :
  bookConference now id n u s = (s', Success id' st pos) ->
  exists c,
    getConferenceByName s n = Some c
    /\ id' = id
    /\ ~ In id (map booking_id (bookings s))
    /\ ((st = CONFIRMED /\ pos = None
         /\ exists s2,
              add_available_slots (-1) n
                (with_bookings s (bookings s ++ [mkBooking id n u CONFIRMED now None]))
              = Some s2
              /\ s' = removeUserFromAllWaitlists u (Some n) s2)
        \/ (st = WAITLISTED /\ pos = Some (max_position s n + 1)
            /\ s' = mkDatabase (conferences s) (users s)
                      (bookings s ++ [mkBooking id n u WAITLISTED now None])
                      (waitlist s ++ [mkWaitlist n id (max_position s n + 1) now]))).
Proof.
  unfold bookConference.
  destruct (getConferenceByName s n) as [c|]; [|discriminate].
  destruct (getUserById s u); [|discriminate].
  destruct (hasConferenceStarted now s n) as [[|]|]; try discriminate.
  destruct (hasExistingBooking s u n); [discriminate|].
  destruct (hasConflictingBooking s u (start_time c) (end_time c)); [discriminate|].
  destruct (0 <? available_slots c); unfold bind.
  - destruct (insert_booking _ s) as [s1|] eqn:E1; [|discriminate].
    destruct (add_available_slots (-1) n s1) as [s2|] eqn:E2; [|discriminate].
    intros [= <- <- <- <-]. exists c.
    pose proof (insert_booking_some _ _ _ E1) as (_ & _ & _ & _ & Hfresh & _).
    unfold insert_booking in E1. destruct (existsb _ _); [discriminate|].
    injection E1 as <-.
    repeat split; auto. left. repeat split; auto. eauto.
  - destruct (insert_booking _ s) as [s1|] eqn:E1; [|discriminate].
    destruct (insert_waitlist _ s1) as [s2|] eqn:E2; [|discriminate].
    intros [= <- <- <- <-]. exists c.
    pose proof (insert_booking_some _ _ _ E1) as (_ & _ & _ & _ & Hfresh & _).
    unfold insert_booking in E1. destruct (existsb _ _); [discriminate|].
    injection E1 as <-.
    unfold insert_waitlist in E2. destruct (existsb _ _); [discriminate|].
    injection E2 as <-.
    repeat split; auto.
Qed.

(** X13.  Booking, then asking for the status.  After a successful
    [bookConference], [getBookingStatus] of the new identifier returns the
    booking as it was reported: the same conference, user and status, created
    at the clock's time, with no deadline; its waitlist position is the
    position reported for a WAITLISTED booking and absent for a CONFIRMED one.
    The identifier is in the form in which [uuidv4()] draws it, and the
    state is one in which waitlist rows reference bookings. *)
Theorem status_after_booking (now : Z) (id n u : string) (s s' : database)
    (st : booking_status) (pos : option Z) :
  uuid_in id = Some id ->
  waitlist_references_bookings s ->
  bookConference now id n u s = (s', Success id st pos) ->
  exists c,
    getConferenceByName s n = Some c
    /\ getBookingStatus s' id
       = Data (mkBookingStatusData (mkBooking id n u st now None) pos
                 (start_time c) (end_time c)).
Proof.
  intros Huuid Hfk Hok. apply book_success_inv in Hok.
  destruct Hok as (c & Hc & _ & Hfresh & Hcase). exists c. split; [assumption|].
  pose proof (fresh_id_no_match id (bookings s) Hfresh) as Hnob.
  pose proof (fresh_id_no_waitlist_row id s Hfk Hfresh) as Hnow.
  unfold getBookingStatus. rewrite Huuid.
  unfold status_uuid, booking_with_conference.
  destruct Hcase as [(-> & -> & s2 & E2 & ->)|(-> & -> & ->)].
  - pose proof (add_available_slots_some _ _ _ _ E2) as (_ & Hb2 & Hw2 & _).
    destruct (removeUserFromAllWaitlists_frame u (Some n) s2) as (Hrc & _ & Hrb).
    rewrite (booking_by_id_after_map id _ s2 _ Hrb)
      by (intros b; destruct (displaced u (Some n) b); reflexivity).
    unfold booking_by_id. rewrite Hb2. cbn [bookings with_bookings].
    rewrite find_appended; [|assumption|apply String.eqb_refl].
    cbn [option_map].
    replace (displaced u (Some n) (mkBooking id n u CONFIRMED now None)) with false
      by (unfold displaced; simpl; now rewrite andb_false_r).
    cbn [conference_name].
    assert (Hconf : getConferenceByName (removeUserFromAllWaitlists u (Some n) s2) n
                    = Some (set_available c (available_slots c + -1))).
    { unfold getConferenceByName. rewrite Hrc. fold (getConferenceByName s2 n).
      rewrite (getConferenceByName_after_update (-1) n n _ s2 E2), String.eqb_refl.
      change (getConferenceByName (with_bookings s _) n) with (getConferenceByName s n).
      now rewrite Hc. }
    rewrite Hconf. f_equal. f_equal.
    rewrite find_none_all; [reflexivity|].
    intros w Hw. cbn [waitlist removeUserFromAllWaitlists with_bookings with_waitlist] in Hw.
    apply filter_In in Hw. destruct Hw as [Hw _]. rewrite Hw2 in Hw. now apply Hnow.
  - unfold booking_by_id. cbn [bookings waitlist conferences].
    rewrite find_appended; [|assumption|apply String.eqb_refl].
    cbn [conference_name].
    change (getConferenceByName _ n) with (getConferenceByName s n). rewrite Hc.
    rewrite find_appended; [reflexivity|assumption|apply String.eqb_refl].
Qed.

Lemma status_after_booking_witness :
  getBookingStatus carol_waitlisted id_b3
  = Data (mkBookingStatusData (mkBooking id_b3 rust_days "carol" WAITLISTED 3 None)
            (Some 2) 10000000 20000000).
Proof.
  destruct (status_after_booking 3 id_b3 rust_days "carol" bob_waitlisted carol_waitlisted
              WAITLISTED (Some 2)) as (c & Hc & H).
  - reflexivity.
  - intros w Hw. vm_compute in Hw. destruct Hw as [<-|[]]. vm_compute. auto.
  - reflexivity.
  - vm_compute in Hc. injection Hc as <-. exact H.
Defined.

(** * A waitlist row exists exactly for the WAITLISTED bookings *)

(** Statements that rewrite deadlines or positions. *)
Lemma consistent_rewritten (bs : list booking) (ws : list waitlist_entry)
    (f : booking -> booking) (g : waitlist_entry -> waitlist_entry) :
  (forall b, booking_id (f b) = booking_id b /\ conference_name (f b) = conference_name b
             /\ status (f b) = status b) ->
  (forall w, w_booking_id (g w) = w_booking_id w
             /\ w_conference_name (g w) = w_conference_name w) ->
  consistent_rows bs ws -> consistent_rows (map f bs) (map g ws).
Proof.
  intros Hf Hg [W1 W2]. split.
  - intros w' Hw'. apply in_map_iff in Hw'. destruct Hw' as [w [<- Hw]].
    destruct (W1 w Hw) as (b & Hb & Hid & Hc & Hst).
    exists (f b). destruct (Hf b) as (F1 & F2 & F3). destruct (Hg w) as [G1 G2].
    split; [now apply in_map|]. repeat split; congruence.
  - intros b' Hb' Hst'. apply in_map_iff in Hb'. destruct Hb' as [b [<- Hb]].
    destruct (Hf b) as (F1 & F2 & F3).
    destruct (W2 b Hb) as (w & Hw & Hid & Hc); [congruence|].
    exists (g w). destruct (Hg w) as [G1 G2].
    split; [now apply in_map|]. split; congruence.
Qed.

(** A booking leaves the WAITLISTED status and its waitlist rows are deleted. *)
Lemma consistent_retired (bs : list booking) (ws : list waitlist_entry) (id : string)
    (f : booking -> booking) :
  (forall b, status (f b) <> WAITLISTED) ->
  consistent_rows bs ws ->
  consistent_rows (map (fun b => if String.eqb (booking_id b) id then f b else b) bs)
                  (filter (fun w => negb (String.eqb (w_booking_id w) id)) ws).
Proof.
  intros Hf [W1 W2]. split.
  - intros w Hw. apply filter_In in Hw. destruct Hw as [Hw Hne].
    apply negb_true_iff in Hne.
    destruct (W1 w Hw) as (b & Hb & Hid & Hc & Hst).
    exists b. split; [|auto]. apply in_map_iff. exists b.
    rewrite Hid, Hne. auto.
  - intros b' Hb' Hst'. apply in_map_iff in Hb'. destruct Hb' as [b [Hb' Hb]].
    destruct (String.eqb (booking_id b) id) eqn:E.
    + subst b'. now destruct (Hf b).
    + subst b'. destruct (W2 b Hb Hst') as (w & Hw & Hid & Hc).
      exists w. split; [|auto]. apply filter_In. split; [assumption|].
      now rewrite Hid, E.
Qed.

(** Displacement. *)
Lemma consistent_displaced (bs : list booking) (ws : list waitlist_entry)
    (u : string) (ex : option string) :
  NoDup (map booking_id bs) ->
  consistent_rows bs ws ->
  consistent_rows
    (map (fun b => if displaced u ex b then set_status b CANCELED else b) bs)
    (filter (fun w => negb (existsb (fun b => displaced u ex b
                                              && String.eqb (booking_id b) (w_booking_id w)) bs))
            ws).
Proof.
  intros Hnd [W1 W2]. split.
  - intros w Hw. apply filter_In in Hw. destruct Hw as [Hw Hkeep].
    apply negb_true_iff in Hkeep.
    destruct (W1 w Hw) as (b & Hb & Hid & Hc & Hst).
    exists b. split; [|auto]. apply in_map_iff. exists b. split; [|assumption].
    destruct (displaced u ex b) eqn:E; [|reflexivity].
    assert (X : existsb (fun b0 => displaced u ex b0
                  && String.eqb (booking_id b0) (w_booking_id w)) bs = true).
    { apply existsb_exists. exists b. now rewrite E, Hid, String.eqb_refl. }
    congruence.
  - intros b' Hb' Hst'. apply in_map_iff in Hb'. destruct Hb' as [b [Hb' Hb]].
    destruct (displaced u ex b) eqn:E; [subst b'; discriminate|]. subst b'.
    destruct (W2 b Hb Hst') as (w & Hw & Hid & Hc).
    exists w. split; [|auto]. apply filter_In. split; [assumption|].
    apply negb_true_iff. apply existsb_false. intros b0 Hb0.
    destruct (displaced u ex b0) eqn:E0; [|reflexivity]. simpl.
    apply String.eqb_neq. intros Eid.
    assert (b0 = b) by (apply (unique_id bs); auto; congruence).
    subst b0. congruence.
Qed.

(** One step of the post-start sweep. *)
Lemma consistent_swept (bs : list booking) (ws : list waitlist_entry) (n : string) :
  consistent_rows bs ws ->
  consistent_rows
    (map (fun b => if String.eqb (conference_name b) n && status_eqb (status b) WAITLISTED
                   then set_status b CANCELED else b) bs)
    (filter (fun w => negb (String.eqb (w_conference_name w) n)) ws).
Proof.
  intros [W1 W2]. split.
  - intros w Hw. apply filter_In in Hw. destruct Hw as [Hw Hne].
    apply negb_true_iff in Hne.
    destruct (W1 w Hw) as (b & Hb & Hid & Hc & Hst).
    exists b. split; [|auto]. apply in_map_iff. exists b. rewrite Hc, Hne. auto.
  - intros b' Hb' Hst'. apply in_map_iff in Hb'. destruct Hb' as [b [Hb' Hb]].
    destruct (String.eqb (conference_name b) n && status_eqb (status b) WAITLISTED) eqn:E;
      [subst b'; discriminate|]. subst b'.
    destruct (W2 b Hb Hst') as (w & Hw & Hid & Hc).
    exists w. split; [|auto]. apply filter_In. split; [assumption|].
    rewrite Hst' in E. simpl in E. rewrite andb_true_r in E. now rewrite Hc, E.
Qed.

Lemma consistent_inserted (bs : list booking) (ws : list waitlist_entry) (b : booking) :
  status b <> WAITLISTED ->
  consistent_rows bs ws -> consistent_rows (bs ++ [b]) ws.
Proof.
  intros Hst [W1 W2]. split.
  - intros w Hw. destruct (W1 w Hw) as (b0 & Hb0 & H).
    exists b0. split; [apply in_or_app; now left|assumption].
  - intros b0 Hb0 Hst0. apply in_app_or in Hb0.
    destruct Hb0 as [Hb0|[<-|[]]]; [now apply W2|contradiction].
Qed.

Lemma consistent_queued (bs : list booking) (ws : list waitlist_entry) (b : booking)
    (w : waitlist_entry) :
  status b = WAITLISTED ->
  w_booking_id w = booking_id b -> w_conference_name w = conference_name b ->
  consistent_rows bs ws -> consistent_rows (bs ++ [b]) (ws ++ [w]).
Proof.
  intros Hst Hid Hc [W1 W2]. split.
  - intros w0 Hw0. apply in_app_or in Hw0. destruct Hw0 as [Hw0|[<-|[]]].
    + destruct (W1 w0 Hw0) as (b0 & Hb0 & H).
      exists b0. split; [apply in_or_app; now left|assumption].
    + exists b. split; [apply in_or_app; right; now left|auto].
  - intros b0 Hb0 Hst0. apply in_app_or in Hb0. destruct Hb0 as [Hb0|[<-|[]]].
    + destruct (W2 b0 Hb0 Hst0) as (w0 & Hw0 & H).
      exists w0. split; [apply in_or_app; now left|assumption].
    + exists w. split; [apply in_or_app; right; now left|auto].
Qed.

Lemma processNextInWaitlist_consistent (now : Z) (n : string) (s : database) :
  waitlist_consistent s -> waitlist_consistent (processNextInWaitlist now n s).
Proof.
  unfold waitlist_consistent.
  destruct (processNextInWaitlist_frame now n s) as (_ & Hw & _ & f & Hf & Hb).
  intros H. rewrite Hw, Hb.
  rewrite <- (map_id (waitlist s)).
  apply consistent_rewritten; [|auto|exact H].
  intros b. destruct (Hf b) as [-> | ->]; auto.
Qed.

Lemma removeUserFromAllWaitlists_consistent (u : string) (ex : option string) (s : database) :
  booking_ids_unique s ->
  waitlist_consistent s -> waitlist_consistent (removeUserFromAllWaitlists u ex s).
Proof. intros Hnd H. now apply consistent_displaced. Qed.

Lemma consistent_released (bs : list booking) (ws : list waitlist_entry) (b : booking)
    (f : booking -> booking) :
  NoDup (map booking_id bs) ->
  In b bs -> status b <> WAITLISTED ->
  (forall x, status (f x) <> WAITLISTED) ->
  consistent_rows bs ws ->
  consistent_rows
    (map (fun x => if String.eqb (booking_id x) (booking_id b) then f x else x) bs) ws.
Proof.
  intros Hnd Hb Hst Hf H.
  assert (X : filter (fun w => negb (String.eqb (w_booking_id w) (booking_id b))) ws = ws).
  { apply forallb_filter_id. apply forallb_forall. intros w Hw.
    apply negb_true_iff, String.eqb_neq. intros Eid.
    destruct H as [W1 _]. destruct (W1 w Hw) as (b0 & Hb0 & Hid & _ & Hst0).
    assert (b0 = b) by (apply (unique_id bs); auto; congruence).
    subst b0. contradiction. }
  rewrite <- X. now apply consistent_retired.
Qed.

Lemma waitlist_consistent_rewritten (s s' : database) (f : booking -> booking)
    (g : waitlist_entry -> waitlist_entry) :
  bookings s' = map f (bookings s) ->
  waitlist s' = map g (waitlist s) ->
  (forall b, booking_id (f b) = booking_id b /\ conference_name (f b) = conference_name b
             /\ status (f b) = status b) ->
  (forall w, w_booking_id (g w) = w_booking_id w
             /\ w_conference_name (g w) = w_conference_name w) ->
  waitlist_consistent s -> waitlist_consistent s'.
Proof.
  unfold waitlist_consistent. intros -> -> Hf Hg. now apply consistent_rewritten.
Qed.

Lemma waitlist_consistent_same (s s' : database) :
  bookings s' = bookings s -> waitlist s' = waitlist s ->
  waitlist_consistent s -> waitlist_consistent s'.
Proof. unfold waitlist_consistent. now intros -> ->. Qed.

Lemma renumbered_consistent (plan : query_plan) (n : string) (s : database) :
  waitlist_consistent s -> waitlist_consistent (renumbered plan n s).
Proof.
  apply (waitlist_consistent_rewritten s _ (fun b => b)
           (fun w => if String.eqb (w_conference_name w) n then
              match new_position (row_number 1 (order_by_created_at plan (waitlist_of s n)))
                      (w_booking_id w) with
              | Some p => set_position w p
              | None => w
              end
            else w)).
  - simpl. now rewrite map_id.
  - reflexivity.
  - auto.
  - intros w. destruct (String.eqb (w_conference_name w) n); [|auto].
    destruct (new_position _ _); auto.
Qed.

Lemma requeue_expired_consistent (now : Z) (e : booking) (s s' : database) :
  requeue_expired now e s = Some s' ->
  waitlist_consistent s -> waitlist_consistent s'.
Proof.
  unfold requeue_expired, bind.
  destruct (update_waitlist_position _ _ s) as [s1|] eqn:E1; [|discriminate].
  intros [= <-] H. apply processNextInWaitlist_consistent.
  unfold update_waitlist_position in E1.
  destruct (forallb _ _); [|discriminate]. injection E1 as <-.
  apply (waitlist_consistent_rewritten s _
           (fun b => if String.eqb (booking_id b) (booking_id e)
                     then set_confirm_by b None else b)
           (fun w => if String.eqb (w_booking_id w) (booking_id e)
                     then set_position w (max_position s (conference_name e) + 1) else w));
    try reflexivity; [| |assumption].
  - intros b. destruct (String.eqb (booking_id b) (booking_id e)); auto.
  - intros w. destruct (String.eqb (w_booking_id w) (booking_id e)); auto.
Qed.

Lemma cancel_waitlisted_consistent (query_fails : string -> bool) (c : conference)
    (s s' : database) :
  cancel_waitlisted query_fails c s = Some s' ->
  waitlist_consistent s -> waitlist_consistent s'.
Proof.
  unfold cancel_waitlisted. destruct (query_fails (name c)); [discriminate|].
  intros [= <-] H. now apply consistent_swept.
Qed.

Lemma run_keeps_consistent (now : Z) (op : operation) (s : database) :
  schema_ok s -> waitlist_consistent s -> waitlist_consistent (run now op s).
Proof.
  intros Hok Hcon. destruct op as [id n u|id|id plan| |query_fails]; simpl.
  - unfold bookConference.
    destruct (getConferenceByName s n) as [c|] eqn:Hc; [|assumption].
    destruct (getUserById s u); [|assumption].
    destruct (hasConferenceStarted now s n) as [[|]|]; try assumption.
    destruct (hasExistingBooking s u n); [assumption|].
    destruct (hasConflictingBooking s u (start_time c) (end_time c)); [assumption|].
    destruct (0 <? available_slots c); unfold bind.
    + destruct (insert_booking _ s) as [s1|] eqn:E1; [|assumption].
      destruct (add_available_slots (-1) n s1) as [s2|] eqn:E2; [|assumption].
      simpl.
      assert (Hok1 : schema_ok s1).
      { apply (insert_booking_schema _ _ _ E1); [simpl; congruence|assumption]. }
      pose proof (add_available_slots_schema _ _ _ _ E2 Hok1) as Hok2.
      apply insert_booking_some in E1. destruct E1 as (Hb1 & _ & Hw1 & _).
      apply add_available_slots_some in E2. destruct E2 as (_ & Hb2 & Hw2 & _).
      apply removeUserFromAllWaitlists_consistent; [apply Hok2|].
      unfold waitlist_consistent. rewrite Hb2, Hw2, Hb1, Hw1.
      apply consistent_inserted; [discriminate|assumption].
    + destruct (insert_booking _ s) as [s1|] eqn:E1; [|assumption].
      destruct (insert_waitlist _ s1) as [s2|] eqn:E2; [|assumption].
      simpl. apply insert_booking_some in E1. destruct E1 as (Hb1 & _ & Hw1 & _).
      unfold insert_waitlist in E2. destruct (existsb _ _); [discriminate|].
      injection E2 as <-. unfold waitlist_consistent. simpl. rewrite Hb1, Hw1.
      now apply consistent_queued.
  - parse_id id. unfold confirm_uuid.
    destruct (booking_with_conference s id) as [[b c]|]; [|assumption].
    destruct (negb _); [assumption|].
    destruct (start_time c <=? now); [assumption|].
    destruct (deadline_passed now b); [assumption|].
    destruct (available_slots c <=? 0); [assumption|].
    unfold bind.
    set (s1 := update_booking id (fun x => set_confirm_by (set_status x CONFIRMED) None) s).
    destruct (add_available_slots (-1) (conference_name b) s1) as [s2|] eqn:E2; [|assumption].
    simpl.
    assert (Hok1 : schema_ok s1) by now apply update_booking_schema.
    pose proof (add_available_slots_schema _ _ _ _ E2 Hok1) as Hok2.
    apply add_available_slots_some in E2. destruct E2 as (_ & Hb2 & Hw2 & _).
    apply processNextInWaitlist_consistent.
    apply removeUserFromAllWaitlists_consistent;
      [apply (delete_waitlist_schema id s2 Hok2)|].
    unfold waitlist_consistent. simpl. rewrite Hb2, Hw2.
    apply (consistent_retired (bookings s) (waitlist s) id); [discriminate|assumption].
  - parse_id id. unfold cancel_uuid.
    destruct (booking_with_conference s id) as [[b c]|] eqn:Hbc; [|assumption].
    destruct (status_eqb (status b) CANCELED); [assumption|].
    destruct (start_time c <=? now); [assumption|].
    apply booking_with_conference_some in Hbc. destruct Hbc as [Hb _].
    apply booking_by_id_some in Hb. destruct Hb as [Hin Hid].
    set (s1 := update_booking id (fun x => set_status x CANCELED) s).
    unfold bind.
    destruct (status_eqb (status b) CONFIRMED) eqn:Est.
    + apply status_eqb_eq in Est.
      destruct (add_available_slots 1 (conference_name b) s1) as [s2|] eqn:E2; [|assumption].
      apply add_available_slots_some in E2. destruct E2 as (_ & Hb2 & Hw2 & _).
      rewrite Est. simpl. apply processNextInWaitlist_consistent.
      apply (waitlist_consistent_same s1); [assumption..|].
      unfold waitlist_consistent. simpl. rewrite <- Hid.
      apply (consistent_released (bookings s) (waitlist s) b);
        [apply Hok|assumption|congruence|discriminate|assumption].
    + destruct (status_eqb (status b) WAITLISTED) eqn:Ew; simpl.
      * open_reorder; [|assumption].
        apply renumbered_consistent. unfold waitlist_consistent. simpl.
        apply (consistent_retired (bookings s) (waitlist s) id); [discriminate|assumption].
      * apply status_eqb_neq in Ew. unfold waitlist_consistent. simpl. rewrite <- Hid.
        apply (consistent_released (bookings s) (waitlist s) b);
          [apply Hok|assumption|assumption|discriminate|assumption].
  - unfold handleExpiredWaitlistBookings.
    destruct (for_each _ _ s) as [s'|] eqn:E; simpl; [|assumption].
    revert Hcon. revert E.
    apply (for_each_preserves (fun a b => waitlist_consistent a -> waitlist_consistent b)); auto.
    intros e t t'. apply requeue_expired_consistent.
  - unfold autoCancelForStartedConferences.
    destruct (for_each _ _ s) as [s'|] eqn:E; simpl; [|assumption].
    revert Hcon. revert E.
    apply (for_each_preserves (fun a b => waitlist_consistent a -> waitlist_consistent b)); auto.
    intros c t t'. apply cancel_waitlisted_consistent.
Qed.

Lemma reachable_consistent (init s : database) :
  schema_ok init -> ledger_invariant init -> waitlist_consistent init ->
  reachable init s -> waitlist_consistent s.
Proof.
  intros Hschema Hledger Hcon Hreach.
  induction Hreach as [|now op s Hreach IH]; [assumption|].
  apply run_keeps_consistent; [|assumption].
  now apply (reachable_states_ok init s Hschema Hledger).
Qed.

(** X14.  Waitlist rows and WAITLISTED bookings go together.  Start from a
    state the schema allows, whose ledger balances, and in which the waitlist
    rows are exactly those of the WAITLISTED bookings.  Then in every state
    the engine reaches, a WAITLISTED booking has a waitlist row of its own
    conference, and a waitlist row carrying a booking's id belongs to a
    WAITLISTED booking of the row's conference: no operation leaves a
    waitlisted booking outside the queue or a confirmed or canceled one
    inside it. *)
Theorem waitlisted_iff_queued (init s : database) (b : booking) :
  schema_ok init -> ledger_invariant init -> waitlist_consistent init ->
  reachable init s -> In b (bookings s) ->
  (status b = WAITLISTED ->
     exists w, In w (waitlist s) /\ w_booking_id w = booking_id b
               /\ w_conference_name w = conference_name b)
  /\ (forall w, In w (waitlist s) -> w_booking_id w = booking_id b ->
        status b = WAITLISTED /\ w_conference_name w = conference_name b).
Proof.
  intros Hschema Hledger Hcon Hreach Hb.
  destruct (reachable_consistent init s Hschema Hledger Hcon Hreach) as [W1 W2].
  destruct (reachable_states_ok init s Hschema Hledger Hreach) as [Hok _].
  split.
  - intros Hst. now apply W2.
  - intros w Hw Hid. destruct (W1 w Hw) as (b0 & Hb0 & Hid0 & Hc0 & Hst0).
    assert (b0 = b) by (apply (unique_id (bookings s)); [apply Hok|auto|auto|congruence]).
    subst b0. auto.
Qed.

Lemma waitlisted_iff_queued_witness :
  (status (mkBooking id_b2 rust_days "bob" WAITLISTED 2 None) = WAITLISTED ->
     exists w, In w (waitlist carol_waitlisted)
               /\ w_booking_id w = id_b2 /\ w_conference_name w = rust_days)
  /\ (forall w, In w (waitlist carol_waitlisted) -> w_booking_id w = id_b2 ->
        status (mkBooking id_b2 rust_days "bob" WAITLISTED 2 None) = WAITLISTED
        /\ w_conference_name w = rust_days).
Proof.
  apply (waitlisted_iff_queued two_conferences carol_waitlisted
           (mkBooking id_b2 rust_days "bob" WAITLISTED 2 None)).
  - apply two_conferences_ok.
  - apply two_conferences_ok.
  - split; intros x [].
  - apply carol_waitlisted_reachable.
  - vm_compute. right. left. reflexivity.
Defined.

(** * bookingService.getConferenceWaitlist *)

Lemma no_booking_with_id (bs : list booking) (id : string) :
  ~ In id (map booking_id bs) ->
  filter (fun x => String.eqb (booking_id x) id) bs = [].
Proof.
  induction bs as [|x rest IH]; simpl; intros H; [reflexivity|].
  destruct (String.eqb (booking_id x) id) eqn:E.
  - apply String.eqb_eq in E. exfalso. apply H. now left.
  - apply IH. intros Hin. apply H. now right.
Qed.

Lemma one_booking_with_id (bs : list booking) (b : booking) :
  NoDup (map booking_id bs) -> In b bs ->
  filter (fun x => String.eqb (booking_id x) (booking_id b)) bs = [b].
Proof.
  induction bs as [|x rest IH]; simpl; [contradiction|].
  intros Hnd Hin. inversion Hnd as [|? ? Hx Hrest]; subst.
  destruct Hin as [->|Hin].
  - rewrite String.eqb_refl. f_equal. now apply no_booking_with_id.
  - destruct (String.eqb (booking_id x) (booking_id b)) eqn:E; [|now apply IH].
    apply String.eqb_eq in E. exfalso. apply Hx. rewrite E. now apply in_map.
Qed.

Lemma waitlist_join_keys (s : database) (ws : list waitlist_entry) :
  booking_ids_unique s ->
  (forall w, In w ws -> In (w_booking_id w) (map booking_id (bookings s))) ->
  map line_key
      (flat_map (fun w =>
                   map (fun b => mkWaitlistLine (position w) (booking_id b) (user_id b)
                                   (created_at b) (confirm_by b))
                       (bookings_with_id s (w_booking_id w))) ws)
  = map entry_key ws.
Proof.
  intros Hnd. induction ws as [|w rest IH]; intros Hfk; [reflexivity|].
  cbn [flat_map]. rewrite map_app, IH by (intros x Hx; apply Hfk; now right).
  destruct (proj1 (in_map_iff _ _ _) (Hfk w (or_introl eq_refl))) as [b [Hid Hb]].
  unfold bookings_with_id. rewrite <- Hid, (one_booking_with_id _ b Hnd Hb).
  cbn [map app]. unfold line_key at 1, entry_key at 1. cbn [wl_booking_id wl_position].
  now rewrite Hid.
Qed.

Lemma insert_by_position_perm (x : waitlist_line) (l : list waitlist_line) :
  Permutation (insert_by_position x l) (x :: l).
Proof.
  induction l as [|y rest IH]; simpl; [apply Permutation_refl|].
  destruct (wl_position x <=? wl_position y); [apply Permutation_refl|].
  eapply perm_trans; [apply perm_skip, IH|apply perm_swap].
Qed.

Lemma order_by_position_perm (l : list waitlist_line) :
  Permutation (order_by_position l) l.
Proof.
  induction l as [|x rest IH]; simpl; [apply perm_nil|].
  eapply perm_trans; [apply insert_by_position_perm|now apply perm_skip].
Qed.

Lemma insert_by_position_ascending (x : waitlist_line) (l : list waitlist_line) :
  ~ In (wl_position x) (map wl_position l) ->
  ascending l -> ascending (insert_by_position x l).
Proof.
  unfold ascending. induction l as [|y rest IH]; simpl; intros Hx Hl.
  - constructor; constructor.
  - inversion Hl as [|? ? Hrest Hall]; subst.
    destruct (wl_position x <=? wl_position y) eqn:E.
    + apply Z.leb_le in E.
      assert (Hlt : wl_position x < wl_position y) by (assert (wl_position y <> wl_position x) by tauto; lia).
      constructor; [assumption|]. constructor; [assumption|].
      eapply Forall_impl; [|exact Hall]. simpl. intros a Ha. lia.
    + apply Z.leb_gt in E. constructor.
      * apply IH; [tauto|assumption].
      * eapply Permutation_Forall; [apply Permutation_sym, insert_by_position_perm|].
        constructor; assumption.
Qed.

Lemma order_by_position_ascending (l : list waitlist_line) :
  NoDup (map wl_position l) -> ascending (order_by_position l).
Proof.
  induction l as [|x rest IH]; simpl; intros Hnd; [constructor|].
  inversion Hnd as [|? ? Hx Hrest]; subst.
  apply insert_by_position_ascending; [|now apply IH].
  intros Hin. apply Hx.
  eapply Permutation_in; [apply Permutation_map, order_by_position_perm|exact Hin].
Qed.

Lemma line_positions (l : list waitlist_line) :
  map wl_position l = map snd (map line_key l).
Proof. rewrite map_map. reflexivity. Qed.

Lemma entry_positions (l : list waitlist_entry) :
  map position l = map snd (map entry_key l).
Proof. rewrite map_map. reflexivity. Qed.

Lemma waitlist_of_references (s : database) (n : string) :
  waitlist_references_bookings s ->
  forall w, In w (waitlist_of s n) -> In (w_booking_id w) (map booking_id (bookings s)).
Proof. intros Hfk w Hw. apply Hfk. apply filter_In in Hw. tauto. Qed.

Lemma waitlist_listing (s : database) (n : string) :
  schema_ok s -> positions_unique s ->
  ascending (fst (getConferenceWaitlist s n))
  /\ Permutation (map line_key (fst (getConferenceWaitlist s n)))
                 (map entry_key (waitlist_of s n))
  /\ snd (getConferenceWaitlist s n) = List.length (waitlist_of s n).
Proof.
  intros Hok Hpos.
  assert (Hkeys : map line_key (waitlist_join s n) = map entry_key (waitlist_of s n)).
  { apply waitlist_join_keys; [apply Hok|].
    apply waitlist_of_references, Hok. }
  assert (Hperm : Permutation (map line_key (order_by_position (waitlist_join s n)))
                              (map entry_key (waitlist_of s n))).
  { rewrite <- Hkeys. apply Permutation_map, order_by_position_perm. }
  simpl. split; [|split].
  - apply order_by_position_ascending.
    rewrite line_positions, Hkeys, <- entry_positions. apply Hpos.
  - exact Hperm.
  - apply Permutation_length in Hperm. now rewrite !length_map in Hperm.
Qed.

(** X15.  The waitlist listing is in queue order.  In a state the schema
    allows, with the positions of each conference pairwise distinct,
    [getConferenceWaitlist] lists the waitlist rows of the conference by
    strictly ascending position: each row appears once with its booking id
    and position, and [count] is the number of rows. *)
Theorem waitlist_listing_in_queue_order (s : database) (n : string) :
  schema_ok s -> positions_unique s ->
  ascending (fst (getConferenceWaitlist s n))
  /\ Permutation (map line_key (fst (getConferenceWaitlist s n)))
                 (map entry_key (waitlist_of s n))
  /\ snd (getConferenceWaitlist s n) = List.length (waitlist_of s n).
Proof. exact (waitlist_listing s n). Qed.

Lemma waitlist_listing_in_queue_order_witness :
  ascending (fst (getConferenceWaitlist carol_waitlisted rust_days))
  /\ Permutation (map line_key (fst (getConferenceWaitlist carol_waitlisted rust_days)))
                 (map entry_key (waitlist_of carol_waitlisted rust_days))
  /\ snd (getConferenceWaitlist carol_waitlisted rust_days)
     = List.length (waitlist_of carol_waitlisted rust_days).
Proof.
  apply waitlist_listing_in_queue_order.
  - apply (reachable_states_ok two_conferences carol_waitlisted);
      [apply two_conferences_ok|apply two_conferences_ok|apply carol_waitlisted_reachable].
  - apply (reachable_positions_unique two_conferences);
      [apply two_conferences_ok|apply two_conferences_ok| |apply carol_waitlisted_reachable].
    intros n. simpl. constructor.
Defined.

Lemma waitlisted_ids_unique (bs : list booking) (n : string) :
  NoDup (map booking_id bs) -> NoDup (map booking_id (filter (waitlisted_for n) bs)).
Proof.
  induction bs as [|b rest IH]; simpl; intros Hnd; [constructor|].
  inversion Hnd as [|? ? Hb Hrest]; subst.
  destruct (waitlisted_for n b); [|now apply IH].
  simpl. constructor; [|now apply IH].
  intros Hin. apply Hb. apply in_map_iff in Hin. destruct Hin as [x [Hx Hin]].
  apply filter_In in Hin. rewrite <- Hx. apply in_map. tauto.
Qed.

Lemma waitlisted_for_spec (n : string) (b : booking) :
  waitlisted_for n b = true <-> conference_name b = n /\ status b = WAITLISTED.
Proof.
  unfold waitlisted_for. rewrite andb_true_iff, String.eqb_eq, status_eqb_eq. tauto.
Qed.

(** As many waitlist rows as WAITLISTED bookings. *)
Lemma queue_length (s : database) (n : string) :
  schema_ok s -> waitlist_consistent s ->
  List.length (waitlist_of s n) = count_waitlisted s n.
Proof.
  intros Hok [W1 W2]. unfold count_waitlisted.
  rewrite <- (length_map w_booking_id (waitlist_of s n)).
  rewrite <- (length_map booking_id (filter (waitlisted_for n) (bookings s))).
  apply Nat.le_antisymm; apply NoDup_incl_length.
  - apply Hok.
  - intros id Hid. apply in_map_iff in Hid. destruct Hid as [w [<- Hw]].
    apply filter_In in Hw. destruct Hw as [Hw Hn]. apply String.eqb_eq in Hn.
    destruct (W1 w Hw) as (b & Hb & Hid & Hc & Hst).
    rewrite <- Hid. apply in_map. apply filter_In. split; [assumption|].
    apply waitlisted_for_spec. split; congruence.
  - apply waitlisted_ids_unique, Hok.
  - intros id Hid. apply in_map_iff in Hid. destruct Hid as [b [<- Hb]].
    apply filter_In in Hb. destruct Hb as [Hb Hwf].
    apply waitlisted_for_spec in Hwf. destruct Hwf as [Hc Hst].
    destruct (W2 b Hb Hst) as (w & Hw & Hid & Hcw).
    rewrite <- Hid. apply in_map. apply filter_In. split; [assumption|].
    apply String.eqb_eq. congruence.
Qed.

Lemma count_waitlisted_of_conference (s : database) (n : string) :
  count_status WAITLISTED (bookings_of s n) = count_waitlisted s n.
Proof.
  unfold count_status, bookings_of, count_waitlisted, waitlisted_for.
  rewrite <- filter_both. reflexivity.
Qed.

Lemma waitlist_listing_count (s : database) (n : string) :
  schema_ok s -> snd (getConferenceWaitlist s n) = List.length (waitlist_of s n).
Proof.
  intros Hok. simpl.
  rewrite (Permutation_length (order_by_position_perm _)).
  rewrite <- (length_map line_key), <- (length_map entry_key). f_equal.
  apply waitlist_join_keys; [apply Hok|]. apply waitlist_of_references, Hok.
Qed.

(** X16.  The listing and the statistics count the same queue.  In every
    state the engine reaches from a state the schema allows, with a balanced
    ledger and the waitlist rows being those of the WAITLISTED bookings, the
    [count] of [getConferenceWaitlist] equals the [waitlisted_bookings] that
    [getConferenceStats] reports for the conference. *)
Theorem waitlist_count_matches_stats (init s : database) (n : string)
    (stats : conference_stats) :
  schema_ok init -> ledger_invariant init -> waitlist_consistent init ->
  reachable init s ->
  getConferenceStats s n = Data stats ->
  snd (getConferenceWaitlist s n) = cs_waitlisted_bookings stats.
Proof.
  intros Hschema Hledger Hcon Hreach Hstats.
  pose proof (reachable_consistent init s Hschema Hledger Hcon Hreach) as Hcon'.
  destruct (reachable_states_ok init s Hschema Hledger Hreach) as [Hok _].
  rewrite (waitlist_listing_count s n Hok), (queue_length s n Hok Hcon').
  unfold getConferenceStats in Hstats.
  destruct (getConferenceByName s n) as [c|] eqn:Hc; [|discriminate].
  apply getConferenceByName_name in Hc. destruct Hc as [_ Hn].
  injection Hstats as <-. simpl. rewrite Hn.
  symmetry. apply count_waitlisted_of_conference.
Qed.

Lemma waitlist_count_matches_stats_witness :
  snd (getConferenceWaitlist carol_waitlisted rust_days) = 2%nat.
Proof.
  apply (waitlist_count_matches_stats two_conferences carol_waitlisted rust_days
           (mkConferenceStats rust_days 1 0 1 1 2 0)).
  - apply two_conferences_ok.
  - apply two_conferences_ok.
  - split; intros x [].
  - apply carol_waitlisted_reachable.
  - reflexivity.
Defined.

(** X17.  The first line of the listing is the booking promoted next.  In a
    state the schema allows, with the positions of each conference pairwise
    distinct, the booking id heading the result of [getConferenceWaitlist]
    is the one [processNextInWaitlist] selects; both are absent when the
    conference has no waitlist rows. *)
Theorem waitlist_listing_head_is_next (s : database) (n : string) :
  schema_ok s -> positions_unique s ->
  option_map wl_booking_id (hd_error (fst (getConferenceWaitlist s n)))
  = option_map w_booking_id (waitlist_head s n).
Proof.
  intros Hok Hpos.
  destruct (waitlist_listing s n Hok Hpos) as (Hasc & Hperm & Hcount).
  assert (Hfk : waitlist_references_bookings s) by apply Hok.
  simpl in Hasc, Hperm, Hcount |- *.
  destruct (waitlist_of s n) as [|w0 ws] eqn:Ewl.
  - simpl in Hcount. apply length_zero_iff_nil in Hcount. rewrite Hcount.
    unfold waitlist_head. rewrite Ewl. reflexivity.
  - destruct (waitlist_head_exists s n Hfk) as [h Hh]; [now rewrite Ewl|].
    rewrite Hh. destruct (waitlist_head_spec s n h Hh) as (Hin & _ & Hmin).
    rewrite Ewl in Hin, Hmin.
    destruct (order_by_position (waitlist_join s n)) as [|l1 rest];
      [discriminate|].
    simpl. f_equal.
    assert (H1 : In (line_key l1) (map entry_key (w0 :: ws))).
    { eapply Permutation_in; [exact Hperm|]. now left. }
    apply in_map_iff in H1. destruct H1 as [w1 [Hk1 Hw1]].
    assert (Hh' : In (entry_key h) (map line_key (l1 :: rest))).
    { eapply Permutation_in; [apply Permutation_sym, Hperm|]. now apply in_map. }
    apply in_map_iff in Hh'. destruct Hh' as [lh [Hkh Hlh]].
    unfold line_key, entry_key in Hk1, Hkh.
    injection Hk1 as Hid1 Hp1. injection Hkh as Hidh Hph.
    destruct Hlh as [<-|Hlh]; [assumption|].
    exfalso. inversion Hasc as [|? ? _ Hall]; subst.
    rewrite Forall_forall in Hall. specialize (Hall lh Hlh).
    assert (position h <= position w1).
    { apply Hmin; [assumption|]. apply Hfk.
      assert (X : In w1 (waitlist_of s n)) by (rewrite Ewl; assumption).
      apply filter_In in X. tauto. }
    lia.
Qed.

Lemma waitlist_listing_head_is_next_witness :
  option_map wl_booking_id (hd_error (fst (getConferenceWaitlist carol_waitlisted rust_days)))
  = option_map w_booking_id (waitlist_head carol_waitlisted rust_days).
Proof.
  apply waitlist_listing_head_is_next.
  - apply (reachable_states_ok two_conferences carol_waitlisted);
      [apply two_conferences_ok|apply two_conferences_ok|apply carol_waitlisted_reachable].
  - apply (reachable_positions_unique two_conferences);
      [apply two_conferences_ok|apply two_conferences_ok| |apply carol_waitlisted_reachable].
    intros n. simpl. constructor.
Defined.

(** * Topic lists *)

Lemma split_commas_pieces (x : js_string) : split_commas x <> [].
Proof.
  destruct x as [|c rest]; simpl; [discriminate|].
  destruct (c =? comma); [discriminate|].
  destruct (split_commas rest); discriminate.
Qed.

Lemma split_commas_no_comma (x piece : js_string) :
  In piece (split_commas x) -> ~ In comma piece.
Proof.
  revert piece. induction x as [|c rest IH]; simpl; intros piece Hin.
  - destruct Hin as [<-|[]]. auto.
  - destruct (c =? comma) eqn:E.
    + destruct Hin as [<-|Hin]; [auto|now apply IH].
    + apply Z.eqb_neq in E.
      destruct (split_commas rest) as [|p ps].
      * destruct Hin as [<-|[]]. intros [H|[]]. congruence.
      * destruct Hin as [<-|Hin].
        -- intros [H|H]; [congruence|]. apply (IH p); [now left|assumption].
        -- apply IH. now right.
Qed.

Lemma join_split_commas (x : js_string) : join_commas (split_commas x) = x.
Proof.
  induction x as [|c rest IH]; [reflexivity|].
  cbn [split_commas].
  destruct (split_commas rest) as [|p ps] eqn:Es;
    [exfalso; apply (split_commas_pieces rest Es)|].
  destruct (c =? comma) eqn:E.
  - apply Z.eqb_eq in E. subst c.
    change (join_commas ([] :: p :: ps)) with (comma :: join_commas (p :: ps)).
    now rewrite IH.
  - destruct ps as [|q qs]; cbn [join_commas app] in IH |- *; now rewrite IH.
Qed.

Lemma split_commas_count (x : js_string) :
  List.length (split_commas x) = S (List.length (filter (fun c => c =? comma) x)).
Proof.
  induction x as [|c rest IH]; [reflexivity|].
  simpl. pose proof (split_commas_pieces rest) as Hne.
  destruct (c =? comma); simpl; [now rewrite IH|].
  destruct (split_commas rest) as [|p ps]; [contradiction|]. exact IH.
Qed.

Lemma trim_start_suffix (x : js_string) :
  exists spaces, x = spaces ++ trim_start x.
Proof.
  induction x as [|c rest [sp IH]]; simpl; [now exists []|].
  destruct (is_space c).
  - exists (c :: sp). simpl. now rewrite <- IH.
  - now exists [].
Qed.

Lemma trim_start_head (x : js_string) (c : Z) :
  hd_error (trim_start x) = Some c -> is_space c = false.
Proof.
  induction x as [|a rest IH]; simpl; [discriminate|].
  destruct (is_space a) eqn:E; [exact IH|]. simpl. now intros [= <-].
Qed.

Lemma trim_start_last (x : js_string) :
  trim_start x <> [] -> hd_error (rev (trim_start x)) = hd_error (rev x).
Proof.
  intros Hne. destruct (trim_start_suffix x) as [sp Hsp].
  rewrite Hsp at 2. rewrite rev_app_distr.
  destruct (rev (trim_start x)) as [|c r] eqn:E; [|reflexivity].
  exfalso. apply Hne. apply (f_equal (@rev Z)) in E.
  now rewrite rev_involutive in E.
Qed.

Lemma trim_start_In (x : js_string) (c : Z) : In c (trim_start x) -> In c x.
Proof.
  destruct (trim_start_suffix x) as [sp Hsp]. intros H.
  rewrite Hsp. apply in_or_app. now right.
Qed.

Lemma trim_In (x : js_string) (c : Z) : In c (trim x) -> In c x.
Proof.
  unfold trim. intros H. apply in_rev in H. apply trim_start_In in H.
  apply in_rev in H. now apply trim_start_In in H.
Qed.

Lemma trim_ends (x : js_string) :
  (forall c, hd_error (trim x) = Some c -> is_space c = false)
  /\ (forall c, hd_error (rev (trim x)) = Some c -> is_space c = false).
Proof.
  unfold trim. split; intros c Hc.
  - destruct (trim_start (rev (trim_start x))) as [|a r] eqn:E; [discriminate|].
    rewrite <- E in Hc. rewrite trim_start_last in Hc by (rewrite E; discriminate).
    rewrite rev_involutive in Hc. now apply (trim_start_head x).
  - rewrite rev_involutive in Hc. now apply (trim_start_head (rev (trim_start x))).
Qed.

Lemma parse_topics_clean_topic (topics topic : js_string) :
  In topic (parse_topics topics) -> clean_topic topic.
Proof.
  unfold parse_topics. intros H. apply filter_In in H. destruct H as [Hin Hlen].
  apply in_map_iff in Hin. destruct Hin as [piece [<- Hpiece]].
  split; [|split].
  - intros E. rewrite E in Hlen. discriminate.
  - intros Hc. apply trim_In in Hc. now apply (split_commas_no_comma topics piece).
  - apply trim_ends.
Qed.

Lemma filter_length_le {A : Type} (p : A -> bool) (l : list A) :
  (List.length (filter p l) <= List.length l)%nat.
Proof.
  induction l as [|x l IH]; simpl; [lia|]. destruct (p x); simpl; lia.
Qed.

(** X18.  What the services store as topics.  Every topic that
    [parse_topics] keeps is not empty, holds no comma and has no space at
    either end, and there are at most as many topics as the string has
    commas, plus one.  Splitting loses nothing: joining the pieces with
    commas gives the string back. *)
Theorem parsed_topics_are_clean (topics : js_string) :
  (forall topic, In topic (parse_topics topics) -> clean_topic topic)
  /\ (List.length (parse_topics topics)
      <= S (List.length (filter (fun c => Z.eqb c comma) topics)))%nat
  /\ join_commas (split_commas topics) = topics.
Proof.
  split; [|split].
  - intros topic. apply parse_topics_clean_topic.
  - unfold parse_topics. rewrite <- split_commas_count.
    rewrite <- (length_map trim (split_commas topics)). apply filter_length_le.
  - apply join_split_commas.
Qed.

Lemma parsed_topics_are_clean_witness :
  clean_topic (code_units "Rust").
Proof.
  apply (proj1 (parsed_topics_are_clean (code_units "AI, Rust ,"))).
  vm_compute. right. left. reflexivity.
Defined.

(** * validators: the topics rules, and the services behind them *)

Lemma validated_topics (topics : js_string) :
  validateTopicsString topics = true ->
  parse_topics topics = map trim (split_commas topics)
  /\ (1 <= List.length (parse_topics topics) <= 50)%nat
  /\ forall topic, In topic (parse_topics topics) ->
       isAlphanumericWithSpaces topic = true /\ (List.length topic <= 100)%nat.
Proof.
  unfold validateTopicsString. destruct topics as [|c rest]; [discriminate|].
  set (x := c :: rest). intros H.
  destruct (Nat.ltb 50 (List.length (map trim (split_commas x)))) eqn:E50; [discriminate|].
  apply Nat.ltb_ge in E50. rewrite forallb_forall in H.
  assert (Hkeep : parse_topics x = map trim (split_commas x)).
  { unfold parse_topics. apply forallb_filter_id. apply forallb_forall.
    intros t Ht. specialize (H t Ht). apply andb_true_iff in H. destruct H as [H _].
    apply andb_true_iff in H. tauto. }
  split; [exact Hkeep|]. rewrite Hkeep. split.
  - split; [|exact E50]. rewrite length_map.
    pose proof (split_commas_pieces x). destruct (split_commas x); [contradiction|simpl; lia].
  - intros t Ht. specialize (H t Ht). apply andb_true_iff in H. destruct H as [H Ha].
    apply andb_true_iff in H. destruct H as [_ Hl]. apply Nat.leb_le in Hl. tauto.
Qed.

(** X19.  Topics that pass the conference rule pass the service.  When the
    [topics] rule of [conferenceValidation] raises no error, the service
    keeps every piece of the string as a topic, there are between 1 and 10 of
    them, each is at most 100 code units of letters, digits and spaces, and
    [addConference] never answers "Maximum 10 topics allowed per conference"
    or "At least one topic is required", whatever the other values and the
    state. *)
Theorem accepted_topics_pass_the_service (topics : js_string) :
  conference_topics_accepted topics = true ->
  parse_topics topics = map trim (split_commas topics)
  /\ (1 <= List.length (parse_topics topics) <= 10)%nat
  /\ (forall topic, In topic (parse_topics topics) ->
        isAlphanumericWithSpaces topic = true /\ (List.length topic <= 100)%nat)
  /\ forall (n location : string) (start finish slots : Z) (s : database),
       snd (addConference n location topics start finish slots s)
         <> Error "Maximum 10 topics allowed per conference"
       /\ snd (addConference n location topics start finish slots s)
         <> Error "At least one topic is required".
Proof.
  unfold conference_topics_accepted. intros H. apply andb_true_iff in H.
  destruct H as [Hv H10]. apply negb_true_iff, Nat.ltb_ge in H10.
  destruct (validated_topics topics Hv) as (Hkeep & [H1 _] & Hall).
  rewrite <- Hkeep in H10.
  split; [exact Hkeep|]. split; [lia|]. split; [exact Hall|].
  intros n location start finish slots s. unfold addConference.
  destruct (negb (isUniqueConferenceName s n)); [split; discriminate|].
  destruct (Nat.ltb 10 (List.length (parse_topics topics))) eqn:E; [apply Nat.ltb_lt in E; lia|].
  destruct (Nat.eqb (List.length (parse_topics topics)) 0) eqn:E0;
    [apply Nat.eqb_eq in E0; lia|].
  destruct (insert_conference n location start finish slots s) as [[s' c]|];
    split; discriminate.
Qed.

Lemma accepted_topics_pass_the_service_witness :
  (1 <= List.length (parse_topics (code_units "Rust, Formal Methods ,Web")) <= 10)%nat.
Proof.
  apply (accepted_topics_pass_the_service (code_units "Rust, Formal Methods ,Web")).
  reflexivity.
Defined.

(** * conferenceService.addConference *)

Lemma find_after (A : Type) (p : A -> bool) (l : list A) (x : A) :
  find p (l ++ [x])
  = match find p l with
    | Some y => Some y
    | None => if p x then Some x else None
    end.
Proof.
  induction l as [|y l IH]; simpl; [reflexivity|].
  destruct (p y); [reflexivity|exact IH].
Qed.

Lemma isUniqueConferenceName_spec (s : database) (n : string) :
  isUniqueConferenceName s n = true <-> getConferenceByName s n = None.
Proof.
  unfold isUniqueConferenceName, getConferenceByName.
  induction (conferences s) as [|c cs IH]; simpl; [tauto|].
  destruct (String.eqb (name c) n); simpl; [split; discriminate|exact IH].
Qed.

Lemma name_taken_spec (s : database) (n : string) :
  existsb (fun c => String.eqb (name c) n) (conferences s) = false
  <-> getConferenceByName s n = None.
Proof.
  unfold getConferenceByName.
  induction (conferences s) as [|c cs IH]; simpl; [tauto|].
  destruct (String.eqb (name c) n); simpl; [split; discriminate|exact IH].
Qed.

Lemma varchar255_short (x : string) :
  (String.length x <= 255)%nat -> varchar255 x = Some x.
Proof.
  intros H. unfold varchar255. apply Nat.leb_le in H. now rewrite H.
Qed.

Lemma insert_conference_some (n location : string) (start finish slots : Z)
    (s s' : database) (row : conference) :
  insert_conference n location start finish slots s = Some (s', row) ->
  exists stored,
    varchar255 n = Some stored
    /\ row = mkConference stored start finish slots slots
    /\ s' = with_conferences s (conferences s ++ [row])
    /\ 1 <= slots <= 2147483647
    /\ start < finish <= start + twelve_hours
    /\ getConferenceByName s stored = None.
Proof.
  unfold insert_conference.
  destruct (varchar255 n) as [stored|]; [|discriminate].
  destruct (varchar255 location); [|discriminate].
  cbn [total_slots available_slots start_time end_time].
  destruct (integer slots) eqn:Ei; [|discriminate].
  destruct (0 <? slots) eqn:E1; [|discriminate].
  destruct (0 <=? slots) eqn:E2; [|discriminate].
  destruct (start <? finish) eqn:E3; [|discriminate].
  destruct (finish <=? start + twelve_hours) eqn:E4; [|discriminate].
  destruct (slots <=? slots) eqn:E5; [|discriminate].
  destruct (existsb _ (conferences s)) eqn:E6; [discriminate|].
  simpl. intros [= <- <-]. exists stored.
  unfold integer in Ei. apply andb_true_iff in Ei. destruct Ei as [_ Ei].
  apply Z.leb_le in Ei, E4. apply Z.ltb_lt in E1, E3.
  apply name_taken_spec in E6.
  repeat split; auto; lia.
Qed.

Lemma insert_conference_valid (n location : string) (start finish slots : Z) (s : database) :
  (String.length n <= 255)%nat -> (String.length location <= 255)%nat ->
  start < finish <= start + twelve_hours ->
  1 <= slots <= 2147483647 ->
  getConferenceByName s n = None ->
  insert_conference n location start finish slots s
  = Some (with_conferences s (conferences s ++ [mkConference n start finish slots slots]),
          mkConference n start finish slots slots).
Proof.
  intros Hn Hl Ht Hs Hnew. unfold insert_conference.
  rewrite (varchar255_short n Hn), (varchar255_short location Hl).
  cbn [total_slots available_slots start_time end_time].
  apply name_taken_spec in Hnew. rewrite Hnew.
  unfold integer.
  replace (-2147483648 <=? slots) with true by (symmetry; apply Z.leb_le; lia).
  replace (slots <=? 2147483647) with true by (symmetry; apply Z.leb_le; lia).
  replace (0 <? slots) with true by (symmetry; apply Z.ltb_lt; lia).
  replace (0 <=? slots) with true by (symmetry; apply Z.leb_le; lia).
  replace (start <? finish) with true by (symmetry; apply Z.ltb_lt; lia).
  replace (finish <=? start + twelve_hours) with true by (symmetry; apply Z.leb_le; lia).
  replace (slots <=? slots) with true by (symmetry; apply Z.leb_le; lia).
  reflexivity.
Qed.

Lemma addConference_added (n location : string) (topics : js_string)
    (start finish slots : Z) (s s' : database) (c : conference) :
  addConference n location topics start finish slots s = (s', Data c) ->
  insert_conference n location start finish slots s = Some (s', c).
Proof.
  unfold addConference.
  destruct (negb (isUniqueConferenceName s n)); [discriminate|].
  destruct (Nat.ltb 10 _); [discriminate|].
  destruct (Nat.eqb _ 0); [discriminate|].
  destruct (insert_conference n location start finish slots s) as [[t r]|]; [|discriminate].
  now intros [= <- <-].
Qed.

Lemma no_confirmed_of_unknown_conference (s : database) (n : string) :
  (forall b, In b (bookings s) -> conference_name b <> n) ->
  count_confirmed s n = 0%nat.
Proof.
  unfold count_confirmed. induction (bookings s) as [|b bs IH]; intros H; [reflexivity|].
  simpl. unfold confirmed_for at 1.
  replace (String.eqb (conference_name b) n) with false
    by (symmetry; apply String.eqb_neq, H; now left).
  simpl. apply IH. intros x Hx. apply H. now right.
Qed.

Lemma no_booking_of_unknown_conference (s : database) (n : string) :
  bookings_reference_conferences s ->
  getConferenceByName s n = None ->
  forall b, In b (bookings s) -> conference_name b <> n.
Proof. intros Hfk Hnone b Hb E. apply (Hfk b Hb). now rewrite E. Qed.

Lemma appended_conference_schema (s : database) (row : conference) :
  getConferenceByName s (name row) = None ->
  0 <= available_slots row <= total_slots row ->
  schema_ok s -> schema_ok (with_conferences s (conferences s ++ [row])).
Proof.
  intros Hnew Hchk (S1 & S2 & S3 & S4 & S5 & S6 & S7).
  split; [|split; [|split; [|split; [|split; [|split]]]]]; try assumption.
  - unfold conference_names_unique. simpl. rewrite map_app.
    apply NoDup_app; [assumption|repeat constructor; auto|].
    intros x Hx [<-|[]]. apply in_map_iff in Hx. destruct Hx as [c [Hc Hin]].
    unfold getConferenceByName in Hnew.
    apply (find_none _ _ Hnew) in Hin. rewrite Hc, String.eqb_refl in Hin. discriminate.
  - intros c Hc. simpl in Hc. apply in_app_or in Hc.
    destruct Hc as [Hc|[<-|[]]]; [now apply S2|assumption].
  - intros b Hb. simpl in Hb. specialize (S5 b Hb).
    unfold getConferenceByName in *. simpl. rewrite find_after.
    destruct (find (fun c => String.eqb (name c) (conference_name b)) (conferences s))
      eqn:E; [discriminate|]. exfalso. now apply S5.
Qed.

Lemma appended_conference_ledger (s : database) (row : conference) :
  bookings_reference_conferences s ->
  getConferenceByName s (name row) = None ->
  available_slots row = total_slots row ->
  ledger_invariant s -> ledger_invariant (with_conferences s (conferences s ++ [row])).
Proof.
  intros Hfk Hnew Hfull Hinv c Hc. simpl in Hc.
  change (count_confirmed (with_conferences s (conferences s ++ [row])) (name c))
    with (count_confirmed s (name c)).
  apply in_app_or in Hc. destruct Hc as [Hc|[<-|[]]]; [now apply Hinv|].
  rewrite (no_confirmed_of_unknown_conference s (name row))
    by now apply no_booking_of_unknown_conference.
  simpl. lia.
Qed.

(** X20.  A conference starts with every seat free.  When [addConference]
    succeeds in a state the schema allows whose ledger balances, the name was
    not taken, the row returned is appended to the conferences with
    [available_slots = total_slots], the window and number of seats asked
    for, and nothing else changes; the new state satisfies the schema and the
    ledger, the conference is found under its name, and its statistics show
    no booking. *)
Theorem addConference_opens_all_seats (n location : string) (topics : js_string)
    (start finish slots : Z) (s s' : database) (c : conference) :
  schema_ok s -> ledger_invariant s ->
  addConference n location topics start finish slots s = (s', Data c) ->
  getConferenceByName s (name c) = None
  /\ conferences s' = conferences s ++ [c]
  /\ users s' = users s /\ bookings s' = bookings s /\ waitlist s' = waitlist s
  /\ varchar255 n = Some (name c)
  /\ c = mkConference (name c) start finish slots slots
  /\ getConferenceByName s' (name c) = Some c
  /\ schema_ok s' /\ ledger_invariant s'
  /\ getConferenceStats s' (name c)
     = Data (mkConferenceStats (name c) slots slots 0 0 0 0).
Proof.
  intros Hok Hledger H. apply addConference_added in H.
  apply insert_conference_some in H.
  destruct H as (stored & Hv & -> & -> & Hslots & Hwin & Hnew).
  cbn [name].
  assert (Hfound : getConferenceByName
                     (with_conferences s
                        (conferences s ++ [mkConference stored start finish slots slots]))
                     stored
                   = Some (mkConference stored start finish slots slots)).
  { unfold getConferenceByName in *. simpl. rewrite find_after, Hnew. simpl.
    now rewrite String.eqb_refl. }
  assert (Hfk : bookings_reference_conferences s) by apply Hok.
  split; [assumption|]. split; [reflexivity|]. split; [reflexivity|].
  split; [reflexivity|]. split; [reflexivity|]. split; [assumption|].
  split; [reflexivity|]. split; [assumption|].
  split; [apply appended_conference_schema; simpl; auto; lia|].
  split; [apply appended_conference_ledger; simpl; auto|].
  unfold getConferenceStats. rewrite Hfound. cbn [name total_slots available_slots].
  assert (Hnone : bookings_of
                    (with_conferences s
                       (conferences s ++ [mkConference stored start finish slots slots]))
                    stored = []).
  { unfold bookings_of. simpl.
    pose proof (no_booking_of_unknown_conference s stored Hfk Hnew) as Hno.
    induction (bookings s) as [|b bs IH]; [reflexivity|]. simpl.
    replace (String.eqb (conference_name b) stored) with false
      by (symmetry; apply String.eqb_neq, Hno; now left).
    apply IH. intros x Hx. apply Hno. now right. }
  rewrite Hnone. simpl. f_equal. f_equal. lia.
Qed.

Lemma addConference_opens_all_seats_witness :
  getConferenceByName three_conferences "Types Forum" = Some types_forum
  /\ schema_ok three_conferences /\ ledger_invariant three_conferences
  /\ getConferenceStats three_conferences "Types Forum"
     = Data (mkConferenceStats "Types Forum" 30 30 0 0 0 0).
Proof.
  apply (addConference_opens_all_seats "Types Forum" "Lyon" (code_units "Types, Proofs")
           50000000 60000000 30 two_conferences three_conferences types_forum).
  - apply two_conferences_ok.
  - apply two_conferences_ok.
  - vm_compute. reflexivity.
Defined.

(** X21.  A valid conference is added exactly when its name is new.  For
    values that the rules of [conferenceValidation] let through,
    [addConference] stores the conference as given, with every seat free,
    when no conference has the name; when one has, it answers "Conference
    name already exists".  Whatever the values, a failed call leaves the
    state as it was. *)
Theorem valid_conference_added_iff_new (n location : string) (topics : js_string)
    (start finish slots : Z) (s : database) :
  conference_row_valid n location topics start finish slots ->
  (getConferenceByName s n = None ->
   addConference n location topics start finish slots s
   = (with_conferences s (conferences s ++ [mkConference n start finish slots slots]),
      Data (mkConference n start finish slots slots)))
  /\ (getConferenceByName s n <> None ->
      addConference n location topics start finish slots s
      = (s, Error "Conference name already exists"))
  /\ (forall e, snd (addConference n location topics start finish slots s) = Error e ->
        fst (addConference n location topics start finish slots s) = s).
Proof.
  intros (Hn & Hl & Htopics & Hwin & Hslots).
  split; [|split].
  - intros Hnew. unfold addConference.
    rewrite (proj2 (isUniqueConferenceName_spec s n) Hnew). cbn [negb].
    unfold conference_topics_accepted in Htopics. apply andb_true_iff in Htopics.
    destruct Htopics as [Hv H10]. apply negb_true_iff in H10.
    destruct (validated_topics topics Hv) as (Hkeep & [H1 _] & _).
    rewrite Hkeep, H10.
    rewrite Hkeep in H1.
    destruct (Nat.eqb (List.length (map trim (split_commas topics))) 0) eqn:E0;
      [apply Nat.eqb_eq in E0; lia|].
    now rewrite (insert_conference_valid n location start finish slots s).
  - intros Htaken. unfold addConference.
    destruct (isUniqueConferenceName s n) eqn:E; [|reflexivity].
    apply isUniqueConferenceName_spec in E. contradiction.
  - intros e. unfold addConference.
    destruct (negb (isUniqueConferenceName s n)); [reflexivity|].
    destruct (Nat.ltb 10 _); [reflexivity|].
    destruct (Nat.eqb _ 0); [reflexivity|].
    destruct (insert_conference n location start finish slots s) as [[t r]|];
      [discriminate|reflexivity].
Qed.

Lemma valid_conference_added_iff_new_witness :
  addConference rust_days "Lyon" (code_units "Rust") 50000000 60000000 30 two_conferences
  = (two_conferences, Error "Conference name already exists").
Proof.
  apply (valid_conference_added_iff_new rust_days "Lyon" (code_units "Rust")
           50000000 60000000 30 two_conferences).
  - unfold conference_row_valid. split; [vm_compute; lia|]. split; [vm_compute; lia|].
    split; [reflexivity|]. unfold twelve_hours. lia.
  - vm_compute. discriminate.
Defined.

(** * userService.addUser *)

Lemma user_known_spec (s : database) (u : string) :
  existsb (String.eqb u) (users s) = false <-> getUserById s u = None.
Proof.
  unfold getUserById. induction (users s) as [|x xs IH]; simpl; [tauto|].
  rewrite (String.eqb_sym u x).
  destruct (String.eqb x u); simpl; [split; discriminate|exact IH].
Qed.

Lemma getUserById_found (s : database) (u x : string) :
  getUserById s u = Some x -> x = u /\ In u (users s).
Proof.
  unfold getUserById. intros H. apply find_some in H. destruct H as [Hin E].
  apply String.eqb_eq in E. subst x. auto.
Qed.

Lemma user_known_found (s : database) (u : string) :
  existsb (String.eqb u) (users s) = true -> getUserById s u = Some u.
Proof.
  intros H. destruct (getUserById s u) as [x|] eqn:E.
  - apply getUserById_found in E. destruct E as [-> _]. reflexivity.
  - apply user_known_spec in E. congruence.
Qed.

(** X22.  Adding a user.  When [addUser] succeeds, the identifier stored was
    unknown, it is appended to the users and found afterwards, and no other
    table changes.  It answers "User ID already exists" only for an
    identifier that is stored already, and a failed call leaves the state as
    it was.  For an identifier of at most 255 characters and topics that pass
    the rule of [userValidation], the call succeeds when the identifier is
    new and answers "User ID already exists" otherwise. *)
Theorem addUser_outcome (u : string) (topics : js_string) (s : database) :
  (forall s' row, addUser u topics s = (s', Data row) ->
     varchar255 u = Some row /\ getUserById s row = None
     /\ users s' = users s ++ [row] /\ getUserById s' row = Some row
     /\ conferences s' = conferences s /\ bookings s' = bookings s
     /\ waitlist s' = waitlist s)
  /\ (snd (addUser u topics s) = Error "User ID already exists" ->
      exists stored, varchar255 u = Some stored /\ getUserById s stored = Some stored)
  /\ (forall e, snd (addUser u topics s) = Error e -> fst (addUser u topics s) = s)
  /\ ((String.length u <= 255)%nat -> user_topics_accepted topics = true ->
      (getUserById s u = None ->
       addUser u topics s = (with_users s (users s ++ [u]), Data u))
      /\ (getUserById s u <> None ->
          addUser u topics s = (s, Error "User ID already exists"))).
Proof.
  unfold addUser, insert_user. split; [|split; [|split]].
  - intros s' row. destruct (varchar255 u) as [stored|]; [|discriminate].
    destruct (Nat.ltb 50 _); [discriminate|].
    destruct (existsb (String.eqb stored) (users s)) eqn:E; [discriminate|].
    intros [= <- <-]. apply user_known_spec in E.
    split; [reflexivity|]. split; [assumption|]. split; [reflexivity|].
    split; [|auto]. unfold getUserById in *. simpl. rewrite find_after, E.
    now rewrite String.eqb_refl.
  - destruct (varchar255 u) as [stored|]; [|discriminate].
    destruct (Nat.ltb 50 _); [discriminate|].
    destruct (existsb (String.eqb stored) (users s)) eqn:E; [|discriminate].
    intros _. exists stored. split; [reflexivity|]. now apply user_known_found.
  - intros e. destruct (varchar255 u) as [stored|]; [|reflexivity].
    destruct (Nat.ltb 50 _); [reflexivity|].
    destruct (existsb (String.eqb stored) (users s)); [reflexivity|discriminate].
  - intros Hlen Htopics. rewrite (varchar255_short u Hlen).
    unfold user_topics_accepted in Htopics. apply andb_true_iff in Htopics.
    destruct Htopics as [Hv _].
    destruct (validated_topics topics Hv) as (_ & [_ H50] & _).
    apply Nat.ltb_ge in H50. rewrite H50. split.
    + intros Hnew. apply user_known_spec in Hnew. now rewrite Hnew.
    + intros Hknown. destruct (existsb (String.eqb u) (users s)) eqn:E; [reflexivity|].
      apply user_known_spec in E. contradiction.
Qed.

Lemma addUser_outcome_witness :
  addUser "erin" (code_units "Types, Rust") three_conferences = (erin_signed_up, Data "erin"%string).
Proof.
  apply (addUser_outcome "erin" (code_units "Types, Rust") three_conferences).
  - vm_compute. lia.
  - reflexivity.
  - reflexivity.
Defined.

(** * The service as a whole *)

Lemma same_setup_refl (s : database) : same_setup s s.
Proof. split; reflexivity. Qed.

Lemma same_setup_trans (s1 s2 s3 : database) :
  same_setup s1 s2 -> same_setup s2 s3 -> same_setup s1 s3.
Proof. unfold same_setup. intros [H1 H2] [H3 H4]. split; congruence. Qed.

Lemma same_setup_tables (s s' : database) :
  conferences s' = conferences s -> users s' = users s -> same_setup s s'.
Proof. unfold same_setup. intros -> ->. auto. Qed.

Lemma add_available_slots_setup (delta : Z) (n : string) (s s' : database) :
  add_available_slots delta n s = Some s' -> same_setup s s'.
Proof.
  intros H. apply add_available_slots_some in H. destruct H as (Hc & _ & _ & Hu).
  split; [|assumption]. rewrite Hc, map_map. apply map_ext.
  intros c. destruct (String.eqb (name c) n); reflexivity.
Qed.

Lemma processNextInWaitlist_setup (now : Z) (n : string) (s : database) :
  same_setup s (processNextInWaitlist now n s).
Proof. apply same_setup_tables; apply processNextInWaitlist_frame. Qed.

Lemma removeUserFromAllWaitlists_setup (u : string) (ex : option string) (s : database) :
  same_setup s (removeUserFromAllWaitlists u ex s).
Proof. apply same_setup_tables; apply removeUserFromAllWaitlists_frame. Qed.

Lemma windows_valid_same (s s' : database) :
  same_setup s s' -> windows_valid s -> windows_valid s'.
Proof.
  intros [Hsame _] Hvalid c Hc.
  assert (Hin : In (window c) (map window (conferences s)))
    by (rewrite <- Hsame; now apply in_map).
  apply in_map_iff in Hin. destruct Hin as [c0 [E Hc0]].
  specialize (Hvalid c0 Hc0). unfold window in E. injection E as E1 E2 E3 E4.
  rewrite <- E2, <- E3, <- E4. exact Hvalid.
Qed.

Lemma run_same_setup (now : Z) (op : operation) (s : database) :
  same_setup s (run now op s).
Proof.
  destruct op as [id n u|id|id plan| |query_fails]; simpl.
  - unfold bookConference.
    destruct (getConferenceByName s n) as [c|]; [|apply same_setup_refl].
    destruct (getUserById s u); [|apply same_setup_refl].
    destruct (hasConferenceStarted now s n) as [[|]|]; try apply same_setup_refl.
    destruct (hasExistingBooking s u n); [apply same_setup_refl|].
    destruct (hasConflictingBooking s u (start_time c) (end_time c));
      [apply same_setup_refl|].
    destruct (0 <? available_slots c); unfold bind.
    + destruct (insert_booking _ s) as [s1|] eqn:E1; [|apply same_setup_refl].
      destruct (add_available_slots (-1) n s1) as [s2|] eqn:E2; [|apply same_setup_refl].
      simpl. apply insert_booking_some in E1. destruct E1 as (_ & Hc1 & _ & Hu1 & _).
      apply add_available_slots_setup in E2.
      apply (same_setup_trans s s1); [now apply same_setup_tables|].
      apply (same_setup_trans s1 s2); [assumption|].
      apply removeUserFromAllWaitlists_setup.
    + destruct (insert_booking _ s) as [s1|] eqn:E1; [|apply same_setup_refl].
      destruct (insert_waitlist _ s1) as [s2|] eqn:E2; [|apply same_setup_refl].
      simpl. apply insert_booking_some in E1. destruct E1 as (_ & Hc1 & _ & Hu1 & _).
      unfold insert_waitlist in E2. destruct (existsb _ _); [discriminate|].
      injection E2 as <-. now apply same_setup_tables.
  - parse_id id; [apply same_setup_refl|]. unfold confirm_uuid.
    destruct (booking_with_conference s id) as [[b c]|]; [|apply same_setup_refl].
    destruct (negb _); [apply same_setup_refl|].
    destruct (start_time c <=? now); [apply same_setup_refl|].
    destruct (deadline_passed now b); [apply same_setup_refl|].
    destruct (available_slots c <=? 0); [apply same_setup_refl|].
    unfold bind.
    destruct (add_available_slots (-1) (conference_name b) _) as [s2|] eqn:E2;
      [|apply same_setup_refl].
    simpl. apply add_available_slots_setup in E2.
    eapply same_setup_trans; [exact E2|].
    eapply same_setup_trans; [|apply processNextInWaitlist_setup].
    eapply same_setup_trans; [|apply removeUserFromAllWaitlists_setup].
    apply same_setup_tables; reflexivity.
  - parse_id id; [apply same_setup_refl|]. unfold cancel_uuid.
    destruct (booking_with_conference s id) as [[b c]|]; [|apply same_setup_refl].
    destruct (status_eqb (status b) CANCELED); [apply same_setup_refl|].
    destruct (start_time c <=? now); [apply same_setup_refl|].
    unfold bind.
    destruct (status_eqb (status b) CONFIRMED).
    + destruct (add_available_slots 1 (conference_name b) _) as [s2|] eqn:E2;
        [|apply same_setup_refl].
      apply add_available_slots_setup in E2.
      destruct (status_eqb (status b) WAITLISTED); simpl;
        [open_reorder; [|apply same_setup_refl]|];
        (eapply same_setup_trans; [exact E2|]);
        (eapply same_setup_trans; [apply processNextInWaitlist_setup|]);
        apply same_setup_tables; reflexivity.
    + destruct (status_eqb (status b) WAITLISTED); simpl;
        [open_reorder; [|apply same_setup_refl]|];
        apply same_setup_tables; reflexivity.
  - unfold handleExpiredWaitlistBookings.
    destruct (for_each _ _ s) as [s'|] eqn:E; simpl; [|apply same_setup_refl].
    revert E. apply (for_each_preserves same_setup);
      [apply same_setup_refl|apply same_setup_trans|].
    intros e t t'. unfold requeue_expired, bind.
    destruct (update_waitlist_position _ _ t) as [t1|] eqn:E1; [|discriminate].
    intros [= <-]. unfold update_waitlist_position in E1.
    destruct (forallb _ _); [|discriminate]. injection E1 as <-.
    eapply same_setup_trans; [|apply processNextInWaitlist_setup].
    apply same_setup_tables; reflexivity.
  - unfold autoCancelForStartedConferences.
    destruct (for_each _ _ s) as [s'|] eqn:E; simpl; [|apply same_setup_refl].
    revert E. apply (for_each_preserves same_setup);
      [apply same_setup_refl|apply same_setup_trans|].
    intros c t t'. unfold cancel_waitlisted.
    destruct (query_fails (name c)); [discriminate|]. intros [= <-].
    apply same_setup_tables; reflexivity.
Qed.

Lemma same_identities_users (s s' : database) :
  same_identities s s' -> map user_id (bookings s') = map user_id (bookings s).
Proof.
  unfold same_identities. intros H.
  assert (X : forall bs, map user_id bs = map snd (map identity bs)).
  { intros bs. rewrite map_map. reflexivity. }
  now rewrite !X, H.
Qed.

Lemma references_users_kept (s s' : database) :
  same_identities s s' -> users s' = users s ->
  bookings_reference_users s -> bookings_reference_users s'.
Proof.
  intros Hid Hu Hfk b Hb. rewrite Hu.
  assert (Hin : In (user_id b) (map user_id (bookings s)))
    by (rewrite <- (same_identities_users s s' Hid); now apply in_map).
  apply in_map_iff in Hin. destruct Hin as [b0 [E Hb0]]. rewrite <- E. now apply Hfk.
Qed.

Lemma run_keeps_users_reference (now : Z) (op : operation) (s : database) :
  bookings_reference_users s -> bookings_reference_users (run now op s).
Proof.
  intros Hfk.
  pose proof (run_same_setup now op s) as [_ Hu].
  destruct op as [id n u|id|id| |query_fails].
  - clear Hu. simpl. unfold bookConference.
    destruct (getConferenceByName s n) as [c|]; [|assumption].
    destruct (getUserById s u) as [x|] eqn:Eu; [|assumption].
    apply getUserById_found in Eu. destruct Eu as [_ Hu].
    destruct (hasConferenceStarted now s n) as [[|]|]; try assumption.
    destruct (hasExistingBooking s u n); [assumption|].
    destruct (hasConflictingBooking s u (start_time c) (end_time c)); [assumption|].
    assert (Hnew : forall st t, bookings t = bookings s ++ [mkBooking id n u st now None] ->
              users t = users s -> bookings_reference_users t).
    { intros st t Hb Hut b Hin. rewrite Hut. rewrite Hb in Hin. apply in_app_or in Hin.
      destruct Hin as [Hin|[<-|[]]]; [now apply Hfk|exact Hu]. }
    destruct (0 <? available_slots c); unfold bind.
    + destruct (insert_booking _ s) as [s1|] eqn:E1; [|assumption].
      destruct (add_available_slots (-1) n s1) as [s2|] eqn:E2; [|assumption].
      simpl. apply insert_booking_some in E1. destruct E1 as (Hb1 & _ & _ & Hu1 & _).
      apply add_available_slots_some in E2. destruct E2 as (_ & Hb2 & _ & Hu2).
      apply (references_users_kept s2);
        [apply removeUserFromAllWaitlists_identities
        |apply removeUserFromAllWaitlists_frame|].
      apply (Hnew CONFIRMED); congruence.
    + destruct (insert_booking _ s) as [s1|] eqn:E1; [|assumption].
      destruct (insert_waitlist _ s1) as [s2|] eqn:E2; [|assumption].
      simpl. apply insert_booking_some in E1. destruct E1 as (Hb1 & _ & _ & Hu1 & _).
      unfold insert_waitlist in E2. destruct (existsb _ _); [discriminate|].
      injection E2 as <-. now apply (Hnew WAITLISTED).
  - apply (references_users_kept s); [apply confirmWaitlistBooking_identities|exact Hu|exact Hfk].
  - apply (references_users_kept s); [apply cancelBooking_identities|exact Hu|exact Hfk].
  - apply (references_users_kept s);
      [apply handleExpiredWaitlistBookings_identities|exact Hu|exact Hfk].
  - apply (references_users_kept s);
      [apply autoCancelForStartedConferences_identities|exact Hu|exact Hfk].
Qed.

Lemma run_keeps_sound (now : Z) (op : operation) (s : database) :
  sound s -> sound (run now op s).
Proof.
  intros (Hok & Hfk & Hwin & Hledger & Hpos & Hcon).
  split; [now apply run_keeps_schema|].
  split; [now apply run_keeps_users_reference|].
  split; [apply (windows_valid_same s); [apply run_same_setup|assumption]|].
  split; [apply run_keeps_ledger; [apply Hok|assumption]|].
  split; [now apply run_keeps_positions|now apply run_keeps_consistent].
Qed.

Lemma addConference_keeps_sound (n location : string) (topics : js_string)
    (start finish slots : Z) (s : database) :
  sound s -> sound (fst (addConference n location topics start finish slots s)).
Proof.
  intros Hs.
  destruct (addConference n location topics start finish slots s) as [s' [c|e]] eqn:E.
  - simpl. apply addConference_added, insert_conference_some in E.
    destruct E as (stored & _ & -> & -> & Hslots & Hwindow & Hnew).
    destruct Hs as (Hok & Hfk & Hwin & Hledger & Hpos & Hcon).
    split; [apply appended_conference_schema; simpl; auto; lia|].
    split; [exact Hfk|].
    split.
    { intros c Hc. simpl in Hc. apply in_app_or in Hc.
      destruct Hc as [Hc|[<-|[]]]; [now apply Hwin|]. simpl. lia. }
    split; [apply appended_conference_ledger; simpl; auto; apply Hok|].
    split; [exact Hpos|exact Hcon].
  - unfold addConference in E. simpl.
    destruct (negb (isUniqueConferenceName s n)); [now injection E as <- _|].
    destruct (Nat.ltb 10 _); [now injection E as <- _|].
    destruct (Nat.eqb _ 0); [now injection E as <- _|].
    destruct (insert_conference n location start finish slots s) as [[t r]|];
      [discriminate|now injection E as <- _].
Qed.

Lemma addUser_keeps_sound (u : string) (topics : js_string) (s : database) :
  sound s -> sound (fst (addUser u topics s)).
Proof.
  intros Hs. unfold addUser, insert_user.
  destruct (varchar255 u) as [stored|]; [|exact Hs].
  destruct (Nat.ltb 50 _); [exact Hs|].
  destruct (existsb (String.eqb stored) (users s)); [exact Hs|].
  simpl. destruct Hs as (Hok & Hfk & Hrest).
  split; [exact Hok|]. split; [|exact Hrest].
  intros b Hb. simpl. apply in_or_app. left. now apply Hfk.
Qed.

Lemma serve_keeps_sound (now : Z) (r : request) (s : database) :
  sound s -> sound (serve now r s).
Proof.
  destruct r as [op|n location topics start finish slots|u topics]; simpl.
  - apply run_keeps_sound.
  - apply addConference_keeps_sound.
  - apply addUser_keeps_sound.
Qed.

Lemma empty_database_sound : sound empty_database.
Proof.
  unfold sound, schema_ok, conference_names_unique, checks_hold, booking_ids_unique,
    one_booking_per_pair, bookings_reference_conferences, waitlist_references_bookings,
    waitlist_ids_unique, bookings_reference_users, windows_valid, ledger_invariant,
    positions_unique, waitlist_consistent, consistent_rows.
  simpl. repeat split; try contradiction; try (intros ? []); try constructor.
Qed.

Lemma serve_all_sound (log : list (Z * request)) (s : database) :
  sound s -> sound (serve_all log s).
Proof.
  revert s. induction log as [|[now r] log IH]; intros s Hs; [exact Hs|].
  simpl. apply IH. now apply serve_keeps_sound.
Qed.

(** X23.  The engine leaves the setup alone.  No operation of the booking
    engine adds, removes or renames a conference, moves its window, changes
    its [total_slots], or touches the users: only [available_slots] moves. *)
Theorem engine_never_rewrites_setup (now : Z) (op : operation) (s : database) :
  map window (conferences (run now op s)) = map window (conferences s)
  /\ users (run now op s) = users s.
Proof. exact (run_same_setup now op s). Qed.

(** X24.  From empty tables, the service never overbooks.  Serve any log of
    requests ([addConference], [addUser] and the operations of the booking
    engine, each at any time) starting from empty tables.  The state reached
    satisfies the constraints of the schema, every conference has a window of
    at most twelve hours and a positive number of seats, the ledger balances
    ([available_slots = total_slots - CONFIRMED bookings], between 0 and
    [total_slots]), positions are pairwise distinct within a conference, and
    the waitlist rows are those of the WAITLISTED bookings. *)
Theorem service_never_overbooks (log : list (Z * request)) :
  let s := serve_all log empty_database in
  sound s
  /\ forall c, In c (conferences s) ->
       available_slots c = total_slots c - Z.of_nat (count_confirmed s (name c))
       /\ 0 <= available_slots c <= total_slots c
       /\ Z.of_nat (count_confirmed s (name c)) <= total_slots c.
Proof.
  intros s.
  assert (Hs : sound s) by (apply serve_all_sound, empty_database_sound).
  split; [exact Hs|]. intros c Hc.
  destruct Hs as ((_ & Hchk & _) & _ & _ & Hledger & _).
  specialize (Hchk c Hc). specialize (Hledger c Hc). lia.
Qed.

Lemma service_never_overbooks_witness :
  Z.of_nat (count_confirmed (serve_all opening_log empty_database) "Types Forum") <= 30.
Proof.
  refine (proj2 (proj2 (proj2 (service_never_overbooks opening_log)
                                (mkConference "Types Forum" 50000000 60000000 30 29) _))).
  vm_compute. left. reflexivity.
Defined.

(** * A new user books a new conference *)

Lemma valid_conference_added (n location : string) (topics : js_string)
    (start finish slots : Z) (s : database) :
  conference_row_valid n location topics start finish slots ->
  getConferenceByName s n = None ->
  addConference n location topics start finish slots s
  = (with_conferences s (conferences s ++ [mkConference n start finish slots slots]),
     Data (mkConference n start finish slots slots)).
Proof.
  intros (Hn & Hl & Htopics & Hwin & Hslots) Hnew. unfold addConference.
  rewrite (proj2 (isUniqueConferenceName_spec s n) Hnew). cbn [negb].
  unfold conference_topics_accepted in Htopics. apply andb_true_iff in Htopics.
  destruct Htopics as [Hv H10]. apply negb_true_iff in H10.
  destruct (validated_topics topics Hv) as (Hkeep & [H1 _] & _).
  rewrite Hkeep, H10. rewrite Hkeep in H1.
  destruct (Nat.eqb (List.length (map trim (split_commas topics))) 0) eqn:E0;
    [apply Nat.eqb_eq in E0; lia|].
  now rewrite (insert_conference_valid n location start finish slots s).
Qed.

Lemma valid_user_added (u : string) (topics : js_string) (s : database) :
  (String.length u <= 255)%nat -> user_topics_accepted topics = true ->
  getUserById s u = None ->
  addUser u topics s = (with_users s (users s ++ [u]), Data u).
Proof.
  intros Hlen Htopics Hnew. unfold addUser, insert_user.
  rewrite (varchar255_short u Hlen).
  unfold user_topics_accepted in Htopics. apply andb_true_iff in Htopics.
  destruct Htopics as [Hv _].
  destruct (validated_topics topics Hv) as (_ & [_ H50] & _).
  apply Nat.ltb_ge in H50. rewrite H50.
  apply user_known_spec in Hnew. now rewrite Hnew.
Qed.

Lemma unknown_user_has_no_booking (s : database) (u : string) :
  bookings_reference_users s -> getUserById s u = None ->
  forall b, In b (bookings s) -> String.eqb (user_id b) u = false.
Proof.
  intros Hfk Hnone b Hb. unfold getUserById in Hnone.
  apply (find_none _ _ Hnone). now apply Hfk.
Qed.

(** X25.  A new user can book a new conference.  In a sound state, add a
    conference whose values pass [conferenceValidation] under a name that is
    not taken, then a user whose identifier is new; when this user books the
    conference under a fresh booking id before it starts, the booking is
    CONFIRMED and the conference has one seat less than its total. *)
Theorem new_user_books_new_conference (now : Z) (n location u id : string)
    (topics interested_topics : js_string) (start finish slots : Z) (s : database) :
  sound s ->
  conference_row_valid n location topics start finish slots ->
  (String.length u <= 255)%nat -> user_topics_accepted interested_topics = true ->
  getConferenceByName s n = None -> getUserById s u = None ->
  ~ In id (map booking_id (bookings s)) ->
  now < start ->
  exists s3,
    bookConference now id n u
      (fst (addUser u interested_topics
              (fst (addConference n location topics start finish slots s))))
    = (s3, Success id CONFIRMED None)
    /\ In (mkBooking id n u CONFIRMED now None) (bookings s3)
    /\ getConferenceByName s3 n = Some (mkConference n start finish slots (slots - 1)).
Proof.
  intros (Hok & Hfk & _) Hvalid Hlen Htopics Hnew Hunknown Hfresh Hnow.
  rewrite (valid_conference_added n location topics start finish slots s Hvalid Hnew).
  cbn [fst].
  set (row := mkConference n start finish slots slots).
  set (s1 := with_conferences s (conferences s ++ [row])).
  rewrite (valid_user_added u interested_topics s1 Hlen Htopics Hunknown). cbn [fst].
  set (s2 := with_users s1 (users s1 ++ [u])).
  destruct Hvalid as (_ & _ & _ & Hwin & Hslots).
  assert (Hok1 : schema_ok s1)
    by (apply appended_conference_schema; simpl; auto; lia).
  pose proof (unknown_user_has_no_booking s u Hfk Hunknown) as Hnone.
  destruct (book_free_seat now id n u s2 row) as (s3 & H1 & H2 & H3 & _).
  - split; [|split; [|split; [|split]]].
    + unfold getConferenceByName in *. simpl. rewrite find_after, Hnew. simpl.
      now rewrite String.eqb_refl.
    + unfold getUserById in *. simpl. rewrite find_after, Hunknown.
      rewrite String.eqb_refl. discriminate.
    + exact Hnow.
    + unfold hasExistingBooking. apply existsb_false. intros b Hb.
      simpl in Hb. now rewrite (Hnone b Hb).
    + unfold hasConflictingBooking. apply existsb_false. intros b Hb.
      simpl in Hb. now rewrite (Hnone b Hb).
  - simpl. lia.
  - exact Hfresh.
  - intros b Hb _ E. simpl in Hb. apply Hnone in Hb. apply String.eqb_neq in Hb.
    contradiction.
  - apply Hok1.
  - apply Hok1.
  - exists s3. split; [exact H1|]. split; [exact H2|exact H3].
Qed.

Lemma new_user_books_new_conference_witness :
  exists s3,
    bookConference 2 id_b9 "Types Forum" "erin"
      (fst (addUser "erin" (code_units "Types")
              (fst (addConference "Types Forum" "Lyon" (code_units "Types, Proofs")
                      50000000 60000000 30 carol_waitlisted))))
    = (s3, Success id_b9 CONFIRMED None)
    /\ In (mkBooking id_b9 "Types Forum" "erin" CONFIRMED 2 None) (bookings s3)
    /\ getConferenceByName s3 "Types Forum"
       = Some (mkConference "Types Forum" 50000000 60000000 30 (30 - 1)).
Proof.
  apply new_user_books_new_conference.
  - apply (serve_all_sound
             [(1, Engine (BookConference id_b1 rust_days "alice"));
              (2, Engine (BookConference id_b2 rust_days "bob"));
              (3, Engine (BookConference id_b3 rust_days "carol"))] two_conferences).
    destruct two_conferences_ok as [H1 H2].
    split; [exact H1|]. split; [intros b []|]. split.
    { intros c [<-|[<-|[]]]; vm_compute; intuition discriminate. }
    split; [exact H2|]. split; [intros n; simpl; constructor|split; intros x []].
  - unfold conference_row_valid. split; [vm_compute; lia|]. split; [vm_compute; lia|].
    split; [reflexivity|]. unfold twelve_hours. lia.
  - vm_compute. lia.
  - reflexivity.
  - reflexivity.
  - reflexivity.
  - vm_compute. intuition discriminate.
  - lia.
Defined.

(** * Refused requests *)

Lemma bookConference_refused (now : Z) (id n u : string) (s : database) (e : string) :
  snd (bookConference now id n u s) = Failure e -> fst (bookConference now id n u s) = s.
Proof.
  unfold bookConference.
  destruct (getConferenceByName s n) as [c|]; [|reflexivity].
  destruct (getUserById s u); [|reflexivity].
  destruct (hasConferenceStarted now s n) as [[|]|]; try reflexivity.
  destruct (hasExistingBooking s u n); [reflexivity|].
  destruct (hasConflictingBooking s u (start_time c) (end_time c)); [reflexivity|].
  destruct (0 <? available_slots c).
  - destruct (_ <- insert_booking _ s ;; _) as [s'|]; [discriminate|reflexivity].
  - destruct (_ <- insert_booking _ s ;; _) as [[s' p]|]; [discriminate|reflexivity].
Qed.

Lemma confirm_uuid_refused (now : Z) (id : string) (s : database) (e : string) :
  snd (confirm_uuid now id s) = Failure e -> fst (confirm_uuid now id s) = s.
Proof.
  unfold confirm_uuid.
  destruct (booking_with_conference s id) as [[b c]|]; [|reflexivity].
  destruct (negb _); [reflexivity|].
  destruct (start_time c <=? now); [reflexivity|].
  destruct (deadline_passed now b); [reflexivity|].
  destruct (available_slots c <=? 0); [reflexivity|].
  destruct (_ <- add_available_slots _ _ _ ;; _) as [s'|]; [discriminate|reflexivity].
Qed.

Lemma cancel_uuid_refused (plan : query_plan) (now : Z) (id : string) (s : database)
    (e : string) :
  snd (cancel_uuid plan now id s) = Failure e -> fst (cancel_uuid plan now id s) = s.
Proof.
  unfold cancel_uuid.
  destruct (booking_with_conference s id) as [[b c]|]; [|reflexivity].
  destruct (status_eqb (status b) CANCELED); [reflexivity|].
  destruct (start_time c <=? now); [reflexivity|].
  match goal with
  | |- context [match ?m with Some _ => _ | None => _ end] =>
      destruct m as [s'|]; [discriminate|reflexivity]
  end.
Qed.

Lemma confirm_uuid_result (now : Z) (id : string) (s : database) :
  snd (confirm_uuid now id s) = Success id CONFIRMED None
  \/ exists e, snd (confirm_uuid now id s) = Failure e.
Proof.
  unfold confirm_uuid.
  destruct (booking_with_conference s id) as [[b c]|]; [|right; simpl; eauto].
  destruct (negb _); [right; simpl; eauto|].
  destruct (start_time c <=? now); [right; simpl; eauto|].
  destruct (deadline_passed now b); [right; simpl; eauto|].
  destruct (available_slots c <=? 0); [right; simpl; eauto|].
  destruct (_ <- add_available_slots _ _ _ ;; _) as [s'|]; [now left|right; simpl; eauto].
Qed.

Lemma cancel_uuid_result (plan : query_plan) (now : Z) (id : string) (s : database) :
  snd (cancel_uuid plan now id s) = Success id CANCELED None
  \/ exists e, snd (cancel_uuid plan now id s) = Failure e.
Proof.
  unfold cancel_uuid.
  destruct (booking_with_conference s id) as [[b c]|]; [|right; simpl; eauto].
  destruct (status_eqb (status b) CANCELED); [right; simpl; eauto|].
  destruct (start_time c <=? now); [right; simpl; eauto|].
  match goal with
  | |- context [match ?m with Some _ => _ | None => _ end] =>
      destruct m as [s'|]; [now left|right; simpl; eauto]
  end.
Qed.

(** What [confirmWaitlistBooking] answers. *)
Lemma confirm_answer (now : Z) (bookingId : string) (s s' : database) (r : result) :
  confirmWaitlistBooking now bookingId s = (s', r) ->
  r = Success bookingId CONFIRMED None \/ (s' = s /\ exists e, r = Failure e).
Proof.
  unfold confirmWaitlistBooking. destruct (uuid_in bookingId) as [id|].
  - pose proof (confirm_uuid_result now id s) as Hr.
    pose proof (confirm_uuid_refused now id s) as Hs.
    destruct (confirm_uuid now id s) as [t res]. simpl in *.
    intros [= <- <-]. destruct Hr as [->|[e ->]]; [now left|].
    right. split; [now apply (Hs e)|simpl; eauto].
  - intros [= <- <-]. right. eauto.
Qed.

(** What [cancelBooking] answers. *)
Lemma cancel_answer (plan : query_plan) (now : Z) (bookingId : string)
    (s s' : database) (r : result) :
  cancelBooking plan now bookingId s = (s', r) ->
  r = Success bookingId CANCELED None \/ (s' = s /\ exists e, r = Failure e).
Proof.
  unfold cancelBooking. destruct (uuid_in bookingId) as [id|].
  - pose proof (cancel_uuid_result plan now id s) as Hr.
    pose proof (cancel_uuid_refused plan now id s) as Hs.
    destruct (cancel_uuid plan now id s) as [t res]. simpl in *.
    intros [= <- <-]. destruct Hr as [->|[e ->]]; [now left|].
    right. split; [now apply (Hs e)|simpl; eauto].
  - intros [= <- <-]. right. eauto.
Qed.

(** X26.  A refused request changes nothing.  [bookConference] answers
    with the booking CONFIRMED, and then the CONFIRMED booking is stored, or
    WAITLISTED with a position, or with an error and the state as it was.
    [confirmWaitlistBooking] and [cancelBooking] answer with the [bookingId]
    as it came and the status CONFIRMED or CANCELED, or with an error and the
    state as it was.  A [bookingId] that is not the text of an identifier
    is refused by all three functions that take one, each with its own
    "Failed to ..." error; for the text of an identifier, [getBookingStatus]
    answers "Booking not found" exactly when no booking row joined with its
    conference carries the identifier. *)
Theorem refused_requests_change_nothing (plan : query_plan) (now : Z)
    (id n u bookingId : string) (s : database) :
  (forall s' r, bookConference now id n u s = (s', r) ->
     (r = Success id CONFIRMED None
      /\ In (mkBooking id n u CONFIRMED now None) (bookings s'))
     \/ (exists p, r = Success id WAITLISTED (Some p))
     \/ (s' = s /\ exists e, r = Failure e))
  /\ (forall s' r, confirmWaitlistBooking now bookingId s = (s', r) ->
        r = Success bookingId CONFIRMED None \/ (s' = s /\ exists e, r = Failure e))
  /\ (forall s' r, cancelBooking plan now bookingId s = (s', r) ->
        r = Success bookingId CANCELED None \/ (s' = s /\ exists e, r = Failure e))
  /\ (uuid_in bookingId = None ->
      confirmWaitlistBooking now bookingId s = (s, Failure "Failed to confirm booking")
      /\ cancelBooking plan now bookingId s = (s, Failure "Failed to cancel booking")
      /\ getBookingStatus s bookingId = Error "Failed to get booking status")
  /\ (forall uuid, uuid_in bookingId = Some uuid ->
        (getBookingStatus s bookingId = Error "Booking not found"
         <-> booking_with_conference s uuid = None)).
Proof.
  split; [|split; [|split; [|split]]].
  - intros s' r E. destruct r as [id' st pos|e].
    + pose proof (book_success_inv _ _ _ _ _ _ _ _ _ E) as (c & _ & -> & _ & Hcase).
      destruct Hcase as [(-> & -> & s2 & E2 & ->)|(-> & -> & _)].
      * left. split; [reflexivity|].
        apply add_available_slots_some in E2. destruct E2 as (_ & Hb2 & _).
        rewrite (proj2 (proj2 (removeUserFromAllWaitlists_frame u (Some n) s2))), Hb2.
        apply in_map_iff. exists (mkBooking id n u CONFIRMED now None). split.
        -- destruct (displaced u (Some n) _) eqn:Ed; [|reflexivity].
           apply displaced_waitlisted in Ed. destruct Ed as [Ed _]. discriminate.
        -- simpl. apply in_or_app. right. now left.
      * right. left. eauto.
    + right. right.
      pose proof (bookConference_refused now id n u s e) as H. rewrite E in H.
      split; [now apply H|eauto].
  - intros s' r. apply confirm_answer.
  - intros s' r. apply cancel_answer.
  - intros Hid. unfold confirmWaitlistBooking, cancelBooking, getBookingStatus.
    now rewrite Hid.
  - intros uuid Hid. unfold getBookingStatus, status_uuid. rewrite Hid.
    destruct (booking_with_conference s uuid) as [[b c]|]; split; intros; congruence.
Qed.

Lemma refused_requests_change_nothing_witness :
  confirmWaitlistBooking 5 id_b2 bob_promoted
  = (fst (confirmWaitlistBooking 5 id_b2 bob_promoted), Success id_b2 CONFIRMED None)
  /\ cancelBooking table_order 5 "b2" bob_promoted
     = (bob_promoted, Failure "Failed to cancel booking").
Proof.
  destruct (refused_requests_change_nothing table_order 5 id_b2 rust_days "bob" id_b2
              bob_promoted) as (_ & H & _).
  destruct (refused_requests_change_nothing table_order 5 id_b2 rust_days "bob" "b2"
              bob_promoted) as (_ & _ & _ & H' & _).
  split.
  - destruct (H (fst (confirmWaitlistBooking 5 id_b2 bob_promoted))
                (snd (confirmWaitlistBooking 5 id_b2 bob_promoted)) eq_refl)
      as [E|[_ [e E]]]; [|discriminate E].
    now rewrite <- E.
  - now apply H'.
Defined.

(** * cancelBooking, whatever the plan *)

(** X27.  The outcome of a cancellation by prior status, for the text of an
    identifier whose booking belongs to a conference that has not started.
    Prior status CONFIRMED: the call succeeds, the booking becomes CANCELED,
    [available_slots] of its conference grows by exactly 1 and no other
    conference changes, the waitlist rows are untouched, and the head of the
    conference's waitlist, if any, holds the deadline [now] + 1 hour.  Prior
    status WAITLISTED: either the [UPDATE] of [reorderWaitlist] raises, and
    then the call fails and the state is the one it started from; or the
    call succeeds, the booking becomes CANCELED, no waitlist row carries its
    identifier any more, the remaining rows of the conference are the old
    ones (same bookings, same arrival times) with positions exactly [1..N],
    a row that arrived earlier having the lower position, and the rows of the
    other conferences and all [available_slots] are unchanged.  The states
    are those the schema admits that satisfy the capacity ledger. *)
Theorem cancel_outcome_by_prior_status (plan : query_plan) (now : Z)
    (bookingId id : string) (s : database) (b : booking) (c : conference) :
  uuid_in bookingId = Some id ->
  booking_with_conference s id = Some (b, c) ->
  now < start_time c ->
  (status b = CONFIRMED ->
   conference_names_unique s -> checks_hold s -> ledger_invariant s ->
   exists s',
     cancelBooking plan now bookingId s = (s', Success bookingId CANCELED None)
     /\ booking_has s' id (fun x => status x = CANCELED)
     /\ getConferenceByName s' (conference_name b)
        = Some (set_available c (available_slots c + 1))
     /\ (forall m, m <> conference_name b ->
           getConferenceByName s' m = getConferenceByName s m)
     /\ (forall h, waitlist_head s' (conference_name b) = Some h ->
           booking_has s' (w_booking_id h)
             (fun x => confirm_by x = Some (now + 60 * 60 * 1000)))
     /\ waitlist s' = waitlist s)
  /\ (status b = WAITLISTED ->
      waitlist_ids_unique s (conference_name b) ->
      (reorderWaitlist plan (conference_name b)
         (delete_waitlist id (update_booking id (fun x => set_status x CANCELED) s)) = None
       /\ cancelBooking plan now bookingId s = (s, Failure "Failed to cancel booking"))
      \/ (exists s',
            cancelBooking plan now bookingId s = (s', Success bookingId CANCELED None)
            /\ booking_has s' id (fun x => status x = CANCELED)
            /\ (forall w, In w (waitlist s') -> w_booking_id w <> id)
            /\ dense (waitlist_of s' (conference_name b))
            /\ arrival_ordered (waitlist_of s' (conference_name b))
            /\ map arrival (waitlist_of s' (conference_name b))
               = map arrival (filter (fun w => negb (String.eqb (w_booking_id w) id))
                                     (waitlist_of s (conference_name b)))
            /\ (forall m, m <> conference_name b ->
                  waitlist_of s' m
                  = filter (fun w => negb (String.eqb (w_booking_id w) id))
                           (waitlist_of s m))
            /\ conferences s' = conferences s)).
Proof.
  intros Hid Hbc Hstart. split.
  - intros Hst Hnd Hchk Hinv.
    destruct (cancel_confirmed plan now id s b c Hbc Hstart Hst Hnd Hchk Hinv)
      as (s' & E & H).
    exists s'. split; [|exact H].
    exact (cancel_text plan now bookingId id s s' _ Hid E).
  - intros Hst Huniq.
    destruct (reorderWaitlist plan (conference_name b)
                (delete_waitlist id (update_booking id (fun x => set_status x CANCELED) s)))
      as [s'|] eqn:Er.
    + right. exists s'.
      destruct (cancel_waitlisted_booking plan now id s s' b c Hbc Hstart Hst Huniq Er)
        as (E & H).
      split; [|exact H].
      exact (cancel_text plan now bookingId id s s' _ Hid E).
    + left. split; [reflexivity|].
      pose proof (cancel_waitlisted_raised plan now id s b c Hbc Hstart Hst Er) as E.
      exact (cancel_text plan now bookingId id s s _ Hid E).
Qed.

Lemma cancel_outcome_by_prior_status_witness :
  (exists s',
     cancelBooking table_order 4 id_b1 carol_waitlisted = (s', Success id_b1 CANCELED None)
     /\ getConferenceByName s' rust_days
        = Some (mkConference rust_days 10000000 20000000 1 1))
  /\ (exists s',
        cancelBooking table_order 4 id_b2 carol_waitlisted
        = (s', Success id_b2 CANCELED None)
        /\ dense (waitlist_of s' rust_days)).
Proof.
  split.
  - destruct (proj1 (cancel_outcome_by_prior_status table_order 4 id_b1 id_b1
               carol_waitlisted
               (mkBooking id_b1 rust_days "alice" CONFIRMED 1 None)
               (mkConference rust_days 10000000 20000000 1 0) eq_refl eq_refl eq_refl))
      as (s' & H1 & _ & H2 & _).
    + reflexivity.
    + unfold conference_names_unique. vm_compute.
      repeat constructor; simpl; intuition discriminate.
    + intros c Hc. vm_compute in Hc. destruct Hc as [<-|[<-|[]]]; simpl; lia.
    + intros c Hc. vm_compute in Hc. destruct Hc as [<-|[<-|[]]]; reflexivity.
    + exists s'. split; [exact H1|exact H2].
  - destruct (proj2 (cancel_outcome_by_prior_status table_order 4 id_b2 id_b2
               carol_waitlisted
               (mkBooking id_b2 rust_days "bob" WAITLISTED 2 None)
               (mkConference rust_days 10000000 20000000 1 0) eq_refl eq_refl eq_refl))
      as [[Hr _]|(s' & H1 & _ & _ & H2 & _)].
    + reflexivity.
    + unfold waitlist_ids_unique. vm_compute.
      repeat constructor; simpl; intuition discriminate.
    + discriminate Hr.
    + exists s'. split; [exact H1|exact H2].
Defined.

(** * userService.deleteUser *)

Lemma user_rows_spec (s : database) (u : string) :
  filter (fun x => String.eqb x u) (users s) = [] <-> getUserById s u = None.
Proof.
  unfold getUserById. induction (users s) as [|x xs IH]; simpl; [tauto|].
  destruct (String.eqb x u); [split; discriminate|exact IH].
Qed.

Lemma filter_split_count {A : Type} (p q : A -> bool) (l : list A) :
  List.length (filter p l)
  = (List.length (filter p (filter (fun x => negb (q x)) l))
     + List.length (filter (fun x => p x && q x) l))%nat.
Proof.
  induction l as [|x l IH]; [reflexivity|].
  simpl. destruct (q x) eqn:Eq, (p x) eqn:Ep; simpl; rewrite ?Ep; simpl; lia.
Qed.

Lemma deleteUser_deleted (u : string) (s : database) :
  getUserById s u <> None ->
  deleteUser true u s
  = Some (mkDatabase (conferences s)
            (filter (fun x => negb (String.eqb x u)) (users s))
            (filter (fun b => negb (String.eqb (user_id b) u)) (bookings s))
            (filter (fun w => negb (existsb (fun b => String.eqb (booking_id b) (w_booking_id w))
                                      (filter (fun b => String.eqb (user_id b) u) (bookings s))))
                    (waitlist s)),
          Data "User deleted successfully"%string).
Proof.
  intros Hknown. unfold deleteUser, delete_user_row, delete_bookings_of. simpl.
  destruct (filter (fun x => String.eqb x u) (users s)) as [|x xs] eqn:E; [|reflexivity].
  apply user_rows_spec in E. contradiction.
Qed.

(** X28.  Deleting a user gives no seat back.  Without a client the call
    raises; for an unknown user it answers "User not found" and changes
    nothing.  For a known user it removes the user, the user's bookings and
    the waitlist rows of these bookings, and keeps every other booking, but it
    leaves the conferences as they were: in a state whose ledger balanced,
    each conference then counts the seats the user held as neither available
    nor booked, and the ledger no longer balances when the user held a
    CONFIRMED booking. *)
Theorem deleteUser_gives_no_seat_back (u : string) (s : database) :
  ledger_invariant s ->
  deleteUser false u s = None
  /\ (getUserById s u = None -> deleteUser true u s = Some (s, Error "User not found"))
  /\ (getUserById s u <> None ->
      exists s',
        deleteUser true u s = Some (s', Data "User deleted successfully"%string)
        /\ getUserById s' u = None
        /\ bookings s' = filter (fun b => negb (String.eqb (user_id b) u)) (bookings s)
        /\ (forall w, In w (waitlist s') ->
              In w (waitlist s)
              /\ forall b, In b (bookings s) -> booking_id b = w_booking_id w ->
                   user_id b <> u)
        /\ conferences s' = conferences s
        /\ (forall c, In c (conferences s') ->
              available_slots c
              = total_slots c - Z.of_nat (count_confirmed s' (name c))
                - Z.of_nat (seats_held s u (name c)))
        /\ (forall c, In c (conferences s) -> (0 < seats_held s u (name c))%nat ->
              ~ ledger_invariant s')).
Proof.
  intros Hledger. split; [reflexivity|]. split.
  - intros Hnone. unfold deleteUser, delete_user_row, delete_bookings_of. simpl.
    now rewrite (proj2 (user_rows_spec s u) Hnone).
  - intros Hknown. rewrite (deleteUser_deleted u s Hknown).
    eexists. split; [reflexivity|]. cbn [bookings conferences waitlist users].
    assert (Hdrift : forall c, In c (conferences s) ->
              available_slots c
              = total_slots c
                - Z.of_nat (List.length
                    (filter (confirmed_for (name c))
                       (filter (fun b => negb (String.eqb (user_id b) u)) (bookings s))))
                - Z.of_nat (seats_held s u (name c))).
    { intros c Hc. specialize (Hledger c Hc). unfold count_confirmed in Hledger.
      rewrite (filter_split_count (confirmed_for (name c))
                 (fun b => String.eqb (user_id b) u)) in Hledger.
      unfold seats_held. lia. }
    split; [|split; [reflexivity|split; [|split; [reflexivity|split]]]].
    + unfold getUserById. simpl. apply find_none_all. intros x Hx.
      apply filter_In in Hx. destruct Hx as [_ Hx].
      now apply negb_true_iff in Hx.
    + intros w Hw. apply filter_In in Hw. destruct Hw as [Hw Hkeep].
      split; [exact Hw|]. intros b Hb Hid Hu.
      apply negb_true_iff in Hkeep.
      assert (X : existsb (fun b0 => String.eqb (booking_id b0) (w_booking_id w))
                    (filter (fun b0 => String.eqb (user_id b0) u) (bookings s)) = true).
      { apply existsb_exists. exists b. split.
        - apply filter_In. split; [exact Hb|]. now apply String.eqb_eq.
        - now apply String.eqb_eq. }
      congruence.
    + exact Hdrift.
    + intros c Hc Hheld Hbalanced.
      specialize (Hdrift c Hc). specialize (Hbalanced c Hc).
      unfold count_confirmed in Hbalanced. simpl in Hbalanced. lia.
Qed.

Lemma deleteUser_gives_no_seat_back_witness :
  exists s',
    deleteUser true "alice" alice_confirmed = Some (s', Data "User deleted successfully"%string)
    /\ ~ ledger_invariant s'.
Proof.
  assert (Hledger : ledger_invariant alice_confirmed).
  { apply (reachable_states_ok two_conferences alice_confirmed);
      [apply two_conferences_ok|apply two_conferences_ok|].
    unfold alice_confirmed. apply reachable_step, reachable_init. }
  destruct (proj2 (proj2 (deleteUser_gives_no_seat_back "alice" alice_confirmed Hledger)))
    as (s' & H1 & _ & _ & _ & _ & _ & H7).
  - vm_compute. discriminate.
  - exists s'. split; [exact H1|].
    apply (H7 (mkConference rust_days 10000000 20000000 1 0)).
    + vm_compute. left. reflexivity.
    + vm_compute. lia.
Defined.

(** * Asking for the status after a confirmation or a cancellation *)

Lemma status_report (s : database) (id : string) (b : booking) (c : conference) :
  booking_by_id s id = Some b ->
  getConferenceByName s (conference_name b) = Some c ->
  (forall w, In w (waitlist s) -> String.eqb (w_booking_id w) id = false) ->
  status_uuid s id
  = Data (mkBookingStatusData b None (start_time c) (end_time c)).
Proof.
  intros Hb Hc Hw. unfold status_uuid, booking_with_conference.
  rewrite Hb, Hc. now rewrite (find_none_all _ _ Hw).
Qed.

Lemma booking_found_after (id : string) (f : booking -> booking) (s s' : database)
    (b : booking) :
  bookings s' = map f (bookings s) ->
  (forall x, booking_id (f x) = booking_id x) ->
  booking_by_id s id = Some b ->
  booking_by_id s' id = Some (f b).
Proof.
  intros Hb Hid Hfound.
  now rewrite (booking_by_id_after_map id f s s' Hb Hid), Hfound.
Qed.

Lemma processNextInWaitlist_other (now : Z) (n id : string) (s : database) (b : booking) :
  booking_by_id s id = Some b ->
  (forall w, In w (waitlist s) -> String.eqb (w_booking_id w) id = false) ->
  booking_by_id (processNextInWaitlist now n s) id = Some b.
Proof.
  intros Hb Hw. unfold processNextInWaitlist.
  destruct (waitlist_head s n) as [h|] eqn:Eh; [|exact Hb].
  apply waitlist_head_spec in Eh. destruct Eh as (Hin & _).
  apply filter_In in Hin. destruct Hin as [Hin _]. specialize (Hw h Hin).
  pose proof (booking_by_id_some s id b Hb) as [_ Hidb].
  rewrite (booking_found_after id
             (fun x => if String.eqb (booking_id x) (w_booking_id h)
                       then set_confirm_by x (Some (now + confirm_window)) else x)
             s _ b); [|reflexivity| |exact Hb].
  - rewrite Hidb, String.eqb_sym, Hw. reflexivity.
  - intros x. destruct (String.eqb (booking_id x) (w_booking_id h)); reflexivity.
Qed.

Lemma no_row_of_booking (s : database) (b : booking) :
  booking_ids_unique s -> waitlist_consistent s ->
  In b (bookings s) -> status b <> WAITLISTED ->
  forall w, In w (waitlist s) -> String.eqb (w_booking_id w) (booking_id b) = false.
Proof.
  intros Hnd [W1 _] Hb Hst w Hw. apply String.eqb_neq. intros E.
  destruct (W1 w Hw) as (b0 & Hb0 & Hid0 & _ & Hst0).
  assert (b0 = b) by (apply (unique_id (bookings s)); auto; congruence).
  subst b0. contradiction.
Qed.

Lemma status_after_confirm (now : Z) (id id' : string) (s s' : database)
    (st : booking_status) (pos : option Z) :
  confirm_uuid now id s = (s', Success id' st pos) ->
  exists b c,
    booking_with_conference s id = Some (b, c)
    /\ status_uuid s' id
       = Data (mkBookingStatusData (set_confirm_by (set_status b CONFIRMED) None) None
                 (start_time c) (end_time c)).
Proof.
  intros H. apply confirm_success_inv in H.
  destruct H as (b & c & s2 & Hbc & Hst & _ & _ & E2 & -> & _).
  exists b, c. split; [exact Hbc|].
  apply booking_with_conference_some in Hbc. destruct Hbc as [Hb Hc].
  pose proof (booking_by_id_some s id b Hb) as [_ Hidb].
  set (f := fun x : booking => set_confirm_by (set_status x CONFIRMED) None) in *.
  set (s1 := update_booking id f s) in *.
  pose proof (add_available_slots_some _ _ _ _ E2) as (_ & Hb2 & Hw2 & _).
  set (s3 := delete_waitlist id s2).
  set (s4 := removeUserFromAllWaitlists (user_id b) (Some (conference_name b)) s3).
  assert (Hb1 : booking_by_id s1 id = Some (f b)).
  { rewrite (booking_found_after id
               (fun x => if String.eqb (booking_id x) id then f x else x) s s1 b);
      [|reflexivity| |exact Hb].
    - now rewrite Hidb, String.eqb_refl.
    - intros x. destruct (String.eqb (booking_id x) id); reflexivity. }
  assert (Hb3 : booking_by_id s3 id = Some (f b)).
  { unfold booking_by_id in *. simpl. now rewrite Hb2. }
  assert (Hb4 : booking_by_id s4 id = Some (f b)).
  { rewrite (booking_found_after id
               (fun x => if displaced (user_id b) (Some (conference_name b)) x
                         then set_status x CANCELED else x) s3 s4 (f b));
      [|apply removeUserFromAllWaitlists_frame| |exact Hb3].
    - destruct (displaced _ _ (f b)) eqn:Ed; [|reflexivity].
      apply displaced_waitlisted in Ed. destruct Ed as [Ed _]. discriminate.
    - intros x. destruct (displaced _ _ x); reflexivity. }
  assert (Hw4 : forall w, In w (waitlist s4) -> String.eqb (w_booking_id w) id = false).
  { intros w Hw. unfold s4, removeUserFromAllWaitlists in Hw. simpl in Hw.
    apply filter_In in Hw. destruct Hw as [Hw _].
    apply filter_In in Hw. destruct Hw as [_ Hw]. now apply negb_true_iff in Hw. }
  apply (status_report _ id (f b) (set_available c (available_slots c + -1))).
  - now apply processNextInWaitlist_other.
  - unfold getConferenceByName.
    rewrite (proj1 (processNextInWaitlist_frame now (conference_name b) s4)).
    unfold s4. rewrite (proj1 (removeUserFromAllWaitlists_frame _ _ s3)).
    change (conferences s3) with (conferences s2).
    change (conference_name (f b)) with (conference_name b).
    fold (getConferenceByName s2 (conference_name b)).
    rewrite (getConferenceByName_after_update (-1) (conference_name b) _ s1 s2 E2).
    rewrite String.eqb_refl.
    change (getConferenceByName s1 (conference_name b))
      with (getConferenceByName s (conference_name b)).
    rewrite Hc. reflexivity.
  - intros w Hw. apply Hw4.
    now rewrite (proj1 (proj2 (processNextInWaitlist_frame now (conference_name b) s4))) in Hw.
Qed.

Lemma status_after_cancel (plan : query_plan) (now : Z) (id id' : string)
    (s s' : database) (st : booking_status) (pos : option Z) :
  booking_ids_unique s -> waitlist_consistent s ->
  cancel_uuid plan now id s = (s', Success id' st pos) ->
  exists b c,
    booking_with_conference s id = Some (b, c)
    /\ status_uuid s' id
       = Data (mkBookingStatusData (set_status b CANCELED) None
                 (start_time c) (end_time c)).
Proof.
  intros Hnd Hcon. unfold cancel_uuid.
  destruct (booking_with_conference s id) as [[b c]|] eqn:Hbc; [|discriminate].
  destruct (status_eqb (status b) CANCELED); [discriminate|].
  destruct (start_time c <=? now); [discriminate|].
  intros H. exists b, c. split; [reflexivity|].
  apply booking_with_conference_some in Hbc. destruct Hbc as [Hb Hc].
  pose proof (booking_by_id_some s id b Hb) as [Hin Hidb].
  set (g := fun x : booking => set_status x CANCELED) in *.
  set (s1 := update_booking id g s) in *.
  assert (Hb1 : booking_by_id s1 id = Some (g b)).
  { rewrite (booking_found_after id
               (fun x => if String.eqb (booking_id x) id then g x else x) s s1 b);
      [|reflexivity| |exact Hb].
    - now rewrite Hidb, String.eqb_refl.
    - intros x. destruct (String.eqb (booking_id x) id); reflexivity. }
  assert (Hrows : status b <> WAITLISTED ->
            forall w, In w (waitlist s) -> String.eqb (w_booking_id w) id = false).
  { intros Hst. rewrite <- Hidb. now apply no_row_of_booking. }
  unfold bind in H.
  destruct (status_eqb (status b) CONFIRMED) eqn:Est.
  - apply status_eqb_eq in Est.
    destruct (add_available_slots 1 (conference_name b) s1) as [s2|] eqn:E2;
      [|discriminate].
    rewrite Est in H. simpl in H. injection H as <- _ _ _.
    pose proof (add_available_slots_some _ _ _ _ E2) as (_ & Hb2 & Hw2 & _).
    assert (Hw : forall w, In w (waitlist s2) -> String.eqb (w_booking_id w) id = false).
    { intros w Hw. rewrite Hw2 in Hw. apply Hrows; [congruence|exact Hw]. }
    apply (status_report _ id (g b) (set_available c (available_slots c + 1))).
    + apply processNextInWaitlist_other; [|exact Hw].
      unfold booking_by_id in *. now rewrite Hb2.
    + unfold getConferenceByName.
      rewrite (proj1 (processNextInWaitlist_frame now (conference_name b) s2)).
      change (conference_name (g b)) with (conference_name b).
      fold (getConferenceByName s2 (conference_name b)).
      rewrite (getConferenceByName_after_update 1 (conference_name b) _ s1 s2 E2).
      rewrite String.eqb_refl.
      change (getConferenceByName s1 (conference_name b))
        with (getConferenceByName s (conference_name b)).
      rewrite Hc. reflexivity.
    + intros w Hin'. apply Hw.
      now rewrite (proj1 (proj2 (processNextInWaitlist_frame now (conference_name b) s2)))
        in Hin'.
  - destruct (status_eqb (status b) WAITLISTED) eqn:Ew; simpl in H.
    + destruct (reorderWaitlist plan (conference_name b) (delete_waitlist id s1))
        as [t|] eqn:Er; [|discriminate].
      apply reorderWaitlist_renumbered in Er. subst t. injection H as <- _ _ _.
      apply (status_report _ id (g b) c); [exact Hb1|exact Hc|].
      intros w Hw. unfold renumbered in Hw. simpl in Hw.
      apply in_map_iff in Hw. destruct Hw as [w0 [<- Hw0]].
      apply filter_In in Hw0. destruct Hw0 as [_ Hw0]. apply negb_true_iff in Hw0.
      destruct (String.eqb (w_conference_name w0) (conference_name b)); [|exact Hw0].
      destruct (new_position _ _); exact Hw0.
    + injection H as <- _ _ _. apply status_eqb_neq in Ew.
      apply (status_report _ id (g b) c); [exact Hb1|exact Hc|].
      intros w Hw. now apply Hrows.
Qed.

Lemma cancel_text_inv (plan : query_plan) (now : Z) (bookingId id reported_id : string)
    (s s' : database) (st : booking_status) (pos : option Z) :
  uuid_in bookingId = Some id ->
  cancelBooking plan now bookingId s = (s', Success reported_id st pos) ->
  exists i, cancel_uuid plan now id s = (s', Success i st pos).
Proof.
  intros Hid. unfold cancelBooking. rewrite Hid.
  destruct (cancel_uuid plan now id s) as [s1 r].
  destruct r as [i st1 pos1|e]; simpl; [|discriminate].
  intros [= <- _ <- <-]. now exists i.
Qed.

(** X29.  Asking for the status after a confirmation or a cancellation,
    with the same text of an identifier.  After a successful
    [confirmWaitlistBooking], [getBookingStatus] returns the booking as
    CONFIRMED, without a deadline and without a waitlist position.  After a
    successful [cancelBooking] in a state with unique booking ids whose
    waitlist rows are those of the WAITLISTED bookings, it returns the
    booking as CANCELED without a waitlist position.  In both cases the other
    columns of the booking and the window of its conference are as before. *)
Theorem status_after_confirm_or_cancel (plan : query_plan) (now : Z)
    (bookingId id : string) (s : database) :
  uuid_in bookingId = Some id ->
  booking_ids_unique s -> waitlist_consistent s ->
  (forall s' r, confirmWaitlistBooking now bookingId s = (s', r) -> succeeded r = true ->
     exists b c,
       booking_with_conference s id = Some (b, c)
       /\ getBookingStatus s' bookingId
          = Data (mkBookingStatusData (set_confirm_by (set_status b CONFIRMED) None) None
                    (start_time c) (end_time c)))
  /\ (forall s' r, cancelBooking plan now bookingId s = (s', r) -> succeeded r = true ->
        exists b c,
          booking_with_conference s id = Some (b, c)
          /\ getBookingStatus s' bookingId
             = Data (mkBookingStatusData (set_status b CANCELED) None
                       (start_time c) (end_time c))).
Proof.
  intros Hid Hnd Hcon.
  assert (Hstatus : forall t, getBookingStatus t bookingId = status_uuid t id).
  { intros t. unfold getBookingStatus. now rewrite Hid. }
  split; intros s' [id' st pos|e] H Hok; try discriminate; rewrite Hstatus.
  - apply (confirm_text_inv now bookingId id) in H; [|exact Hid].
    now apply (status_after_confirm now id id s s' st pos).
  - apply (cancel_text_inv plan now bookingId id) in H; [|exact Hid].
    destruct H as [i H].
    now apply (status_after_cancel plan now id i s s' st pos).
Qed.

Lemma status_after_confirm_or_cancel_witness :
  exists b c,
    booking_with_conference carol_waitlisted id_b2 = Some (b, c)
    /\ getBookingStatus bob_cancelled id_b2
       = Data (mkBookingStatusData (set_status b CANCELED) None
                 (start_time c) (end_time c)).
Proof.
  apply (proj2 (status_after_confirm_or_cancel table_order 4 id_b2 id_b2 carol_waitlisted
                  eq_refl
                  (proj1 (proj2 (proj2 (proj1 (reachable_states_ok two_conferences
                     carol_waitlisted (proj1 two_conferences_ok) (proj2 two_conferences_ok)
                     carol_waitlisted_reachable)))))
                  (reachable_consistent two_conferences carol_waitlisted
                     (proj1 two_conferences_ok) (proj2 two_conferences_ok)
                     (conj (fun x (H : In x []) => match H with end)
                           (fun x (H : In x []) => match H with end))
                     carol_waitlisted_reachable))
           bob_cancelled (Success id_b2 CANCELED None)); reflexivity.
Defined.

(** * No user is booked twice at the same time *)

Lemma retired_refl (bs : list booking) : retired bs bs.
Proof. exists (fun b => b). split; [now rewrite map_id|auto]. Qed.

Lemma retired_trans (bs1 bs2 bs3 : list booking) :
  retired bs1 bs2 -> retired bs2 bs3 -> retired bs1 bs3.
Proof.
  intros (f & -> & Hf) (g & -> & Hg). exists (fun b => g (f b)).
  split; [now rewrite map_map|]. intros b Hb.
  destruct (Hf b Hb) as [F1 F2]. destruct (Hg (f b) (in_map f _ _ Hb)) as [G1 G2].
  split; [congruence|auto].
Qed.

Lemma retired_map (bs : list booking) (f : booking -> booking) :
  (forall b, In b bs ->
     identity (f b) = identity b /\ (status b = CANCELED -> status (f b) = CANCELED)) ->
  retired bs (map f bs).
Proof. intros H. exists f. auto. Qed.

Lemma processNextInWaitlist_retired (now : Z) (n : string) (s : database) :
  retired (bookings s) (bookings (processNextInWaitlist now n s)).
Proof.
  destruct (processNextInWaitlist_frame now n s) as (_ & _ & _ & f & Hf & ->).
  apply retired_map. intros b _. destruct (Hf b) as [-> | ->]; auto.
Qed.

Lemma removeUserFromAllWaitlists_retired (u : string) (ex : option string) (s : database) :
  retired (bookings s) (bookings (removeUserFromAllWaitlists u ex s)).
Proof.
  rewrite (proj2 (proj2 (removeUserFromAllWaitlists_frame u ex s))).
  apply retired_map. intros b _. destruct (displaced u ex b); auto.
Qed.

Lemma find_same_windows (n : string) (cs cs' : list conference) (c' : conference) :
  map window cs' = map window cs ->
  find (fun c => String.eqb (name c) n) cs' = Some c' ->
  exists c, find (fun c => String.eqb (name c) n) cs = Some c /\ window c = window c'.
Proof.
  revert cs'. induction cs as [|x cs IH]; intros [|x' cs'] Hw Hfind; try discriminate.
  simpl in Hw. unfold window at 1 3 in Hw. injection Hw as E1 E2 E3 E4 Hrest.
  simpl in Hfind |- *. rewrite E1 in Hfind.
  destruct (String.eqb (name x) n).
  - injection Hfind as <-. exists x. split; [reflexivity|]. unfold window. congruence.
  - now apply (IH cs').
Qed.

Lemma no_double_booking_kept (s s' : database) :
  retired (bookings s) (bookings s') ->
  map window (conferences s') = map window (conferences s) ->
  no_double_booking s -> no_double_booking s'.
Proof.
  intros (f & Hb & Hf) Hwin Hndb u b1' b2' c1' c2' H1 H2 Hne A1 A2 Hc1 Hc2.
  rewrite Hb in H1, H2. apply in_map_iff in H1, H2.
  destruct H1 as [b1 [<- H1]]. destruct H2 as [b2 [<- H2]].
  destruct (Hf b1 H1) as [I1 K1]. destruct (Hf b2 H2) as [I2 K2].
  unfold identity in I1, I2. injection I1 as I1a I1b I1c. injection I2 as I2a I2b I2c.
  unfold getConferenceByName in Hc1, Hc2.
  destruct (find_same_windows _ _ _ _ Hwin Hc1) as (c1 & Hf1 & W1).
  destruct (find_same_windows _ _ _ _ Hwin Hc2) as (c2 & Hf2 & W2).
  unfold window in W1, W2. injection W1 as _ Ws1 We1 _. injection W2 as _ Ws2 We2 _.
  rewrite <- Ws1, <- We1, <- Ws2, <- We2.
  assert (Hact : forall b, (status b = CANCELED -> status (f b) = CANCELED) ->
            active_booking u (f b) -> user_id (f b) = user_id b -> active_booking u b).
  { intros b K [Hu Hst] Huid. split; [congruence|].
    destruct (status b); auto.
    specialize (K eq_refl). rewrite K in Hst. destruct Hst; discriminate. }
  apply (Hndb u b1 b2 c1 c2); auto.
  - congruence.
  - unfold getConferenceByName. now rewrite <- I1b.
  - unfold getConferenceByName. now rewrite <- I2b.
Qed.

Lemma update_booking_retired (id : string) (g : booking -> booking) (s : database) :
  (forall b, In b (bookings s) -> booking_id b = id ->
     identity (g b) = identity b /\ (status b = CANCELED -> status (g b) = CANCELED)) ->
  retired (bookings s) (bookings (update_booking id g s)).
Proof.
  intros Hg. apply retired_map. intros b Hb.
  destruct (String.eqb (booking_id b) id) eqn:E; [|auto].
  apply String.eqb_eq in E. now apply Hg.
Qed.

Lemma engine_retires (now : Z) (op : operation) (s : database) :
  booking_ids_unique s ->
  match op with BookConference _ _ _ => True
  | _ => retired (bookings s) (bookings (run now op s)) end.
Proof.
  intros Hnd. destruct op as [id n u|id|id plan| |query_fails]; [exact I| | | |]; simpl.
  - apply (confirm_parsed (fun t => retired (bookings s) (bookings t)));
      [apply retired_refl|].
    intros uuid _. clear id. rename uuid into id. unfold confirm_uuid.
    destruct (booking_with_conference s id) as [[b c]|] eqn:Hbc; [|apply retired_refl].
    destruct (negb (status_eqb (status b) WAITLISTED)) eqn:Est; [apply retired_refl|].
    destruct (start_time c <=? now); [apply retired_refl|].
    destruct (deadline_passed now b); [apply retired_refl|].
    destruct (available_slots c <=? 0); [apply retired_refl|].
    unfold bind.
    destruct (add_available_slots (-1) (conference_name b) _) as [s2|] eqn:E2;
      [|apply retired_refl].
    simpl. apply add_available_slots_some in E2. destruct E2 as (_ & Hb2 & _).
    apply negb_false_iff, status_eqb_eq in Est.
    apply booking_with_conference_some in Hbc. destruct Hbc as [Hb _].
    apply booking_by_id_some in Hb. destruct Hb as [Hin Hid].
    eapply retired_trans; [|apply processNextInWaitlist_retired].
    eapply retired_trans; [|apply removeUserFromAllWaitlists_retired].
    change (bookings (delete_waitlist id s2)) with (bookings s2). rewrite Hb2.
    apply update_booking_retired. intros x Hx Hidx. split; [reflexivity|].
    assert (x = b) by (apply (unique_id (bookings s)); auto; congruence).
    subst x. congruence.
  - apply (cancel_parsed (fun t => retired (bookings s) (bookings t)));
      [apply retired_refl|].
    intros uuid _. clear id. rename uuid into id. unfold cancel_uuid.
    destruct (booking_with_conference s id) as [[b c]|]; [|apply retired_refl].
    destruct (status_eqb (status b) CANCELED); [apply retired_refl|].
    destruct (start_time c <=? now); [apply retired_refl|].
    assert (H1 : retired (bookings s)
                   (bookings (update_booking id (fun x => set_status x CANCELED) s))).
    { apply update_booking_retired. intros x _ _. auto. }
    unfold bind.
    destruct (status_eqb (status b) CONFIRMED).
    + destruct (add_available_slots 1 (conference_name b) _) as [s2|] eqn:E2;
        [|apply retired_refl].
      apply add_available_slots_some in E2. destruct E2 as (_ & Hb2 & _).
      assert (H2 : retired (bookings s)
                     (bookings (processNextInWaitlist now (conference_name b) s2))).
      { eapply retired_trans; [|apply processNextInWaitlist_retired]. now rewrite Hb2. }
      destruct (status_eqb (status b) WAITLISTED); simpl; [|exact H2].
      open_reorder; [exact H2|apply retired_refl].
    + destruct (status_eqb (status b) WAITLISTED); simpl; [|exact H1].
      open_reorder; [exact H1|apply retired_refl].
  - unfold handleExpiredWaitlistBookings.
    destruct (for_each _ _ s) as [s'|] eqn:E; simpl; [|apply retired_refl].
    revert E.
    apply (for_each_preserves (fun a b => retired (bookings a) (bookings b)));
      [intros; apply retired_refl|intros a b c; apply retired_trans|].
    intros e t t'. unfold requeue_expired, bind.
    destruct (update_waitlist_position _ _ t) as [t1|] eqn:E1; [|discriminate].
    intros [= <-]. unfold update_waitlist_position in E1.
    destruct (forallb _ _); [|discriminate]. injection E1 as <-.
    eapply retired_trans; [|apply processNextInWaitlist_retired].
    apply (update_booking_retired (booking_id e) (fun b => set_confirm_by b None)
             (with_waitlist t _)).
    intros x _ _. auto.
  - unfold autoCancelForStartedConferences.
    destruct (for_each _ _ s) as [s'|] eqn:E; simpl; [|apply retired_refl].
    revert E.
    apply (for_each_preserves (fun a b => retired (bookings a) (bookings b)));
      [intros; apply retired_refl|intros a b c; apply retired_trans|].
    intros c t t'. unfold cancel_waitlisted.
    destruct (query_fails (name c)); [discriminate|]. intros [= <-]. simpl.
    apply retired_map. intros b _.
    destruct (String.eqb (conference_name b) (name c) && status_eqb (status b) WAITLISTED);
      auto.
Qed.

Lemma no_conflict_no_overlap (s : database) (u : string) (startTime endTime : Z)
    (b : booking) (c : conference) :
  hasConflictingBooking s u startTime endTime = false ->
  In b (bookings s) -> active_booking u b ->
  getConferenceByName s (conference_name b) = Some c ->
  hasTimeOverlap (start_time c) (end_time c) startTime endTime = false.
Proof.
  intros Hno Hb Hact Hc.
  destruct (hasTimeOverlap (start_time c) (end_time c) startTime endTime) eqn:E;
    [|reflexivity].
  apply getConferenceByName_name in Hc. destruct Hc as [Hin Hname].
  assert (X : hasConflictingBooking s u startTime endTime = true).
  { apply hasConflictingBooking_spec. exists b, c. auto. }
  congruence.
Qed.

Lemma inserted_no_double_booking (now : Z) (id n u : string) (st : booking_status)
    (s : database) (c : conference) :
  getConferenceByName s n = Some c ->
  hasConflictingBooking s u (start_time c) (end_time c) = false ->
  no_double_booking s ->
  no_double_booking (with_bookings s (bookings s ++ [mkBooking id n u st now None])).
Proof.
  intros Hc Hno Hndb v b1 b2 c1 c2 H1 H2 Hne A1 A2 Hc1 Hc2.
  change (getConferenceByName (with_bookings s (bookings s ++ [mkBooking id n u st now None]))
            (conference_name b1))
    with (getConferenceByName s (conference_name b1)) in Hc1.
  change (getConferenceByName (with_bookings s (bookings s ++ [mkBooking id n u st now None]))
            (conference_name b2))
    with (getConferenceByName s (conference_name b2)) in Hc2.
  simpl in H1, H2. apply in_app_or in H1, H2.
  destruct H1 as [H1|[<-|[]]], H2 as [H2|[<-|[]]].
  - now apply (Hndb v b1 b2).
  - simpl in Hc2. rewrite Hc in Hc2. injection Hc2 as <-.
    destruct A2 as [Hu _]. simpl in Hu. subst v.
    now apply (no_conflict_no_overlap s u _ _ b1 c1).
  - simpl in Hc1. rewrite Hc in Hc1. injection Hc1 as <-.
    destruct A1 as [Hu _]. simpl in Hu. subst v.
    unfold hasTimeOverlap. rewrite andb_comm.
    now apply (no_conflict_no_overlap s u _ _ b2 c2).
  - now elim Hne.
Qed.

Lemma bookConference_no_double_booking (now : Z) (id n u : string) (s : database) :
  no_double_booking s -> no_double_booking (fst (bookConference now id n u s)).
Proof.
  intros Hndb. unfold bookConference.
  destruct (getConferenceByName s n) as [c|] eqn:Hc; [|assumption].
  destruct (getUserById s u); [|assumption].
  destruct (hasConferenceStarted now s n) as [[|]|]; try assumption.
  destruct (hasExistingBooking s u n); [assumption|].
  destruct (hasConflictingBooking s u (start_time c) (end_time c)) eqn:Hno; [assumption|].
  destruct (0 <? available_slots c); unfold bind.
  - destruct (insert_booking _ s) as [s1|] eqn:E1; [|assumption].
    destruct (add_available_slots (-1) n s1) as [s2|] eqn:E2; [|assumption].
    simpl. unfold insert_booking in E1. destruct (existsb _ _); [discriminate|].
    injection E1 as <-.
    set (s1 := with_bookings s (bookings s ++ [mkBooking id n u CONFIRMED now None])) in *.
    pose proof (add_available_slots_setup _ _ _ _ E2) as [Hwin _].
    apply add_available_slots_some in E2. destruct E2 as (_ & Hb2 & _).
    apply (no_double_booking_kept s2).
    + apply removeUserFromAllWaitlists_retired.
    + now rewrite (proj1 (removeUserFromAllWaitlists_frame u (Some n) s2)).
    + apply (no_double_booking_kept s1 s2);
        [rewrite Hb2; apply retired_refl|exact Hwin|].
      now apply (inserted_no_double_booking now id n u CONFIRMED s c).
  - destruct (insert_booking _ s) as [s1|] eqn:E1; [|assumption].
    destruct (insert_waitlist _ s1) as [s2|] eqn:E2; [|assumption].
    simpl. unfold insert_booking in E1. destruct (existsb _ _); [discriminate|].
    injection E1 as <-.
    unfold insert_waitlist in E2. destruct (existsb _ _); [discriminate|].
    injection E2 as <-.
    eapply no_double_booking_kept; [apply retired_refl|reflexivity|].
    now apply (inserted_no_double_booking now id n u WAITLISTED s c).
Qed.

Lemma addConference_refused (n location : string) (topics : js_string)
    (start finish slots : Z) (s : database) (e : string) :
  snd (addConference n location topics start finish slots s) = Error e ->
  fst (addConference n location topics start finish slots s) = s.
Proof.
  unfold addConference.
  destruct (negb (isUniqueConferenceName s n)); [reflexivity|].
  destruct (Nat.ltb 10 _); [reflexivity|].
  destruct (Nat.eqb _ 0); [reflexivity|].
  destruct (insert_conference n location start finish slots s) as [[t r]|];
    [discriminate|reflexivity].
Qed.

Lemma serve_keeps_no_double_booking (now : Z) (r : request) (s : database) :
  sound s -> no_double_booking s -> no_double_booking (serve now r s).
Proof.
  intros Hs Hndb. destruct r as [op|n location topics start finish slots|u topics]; simpl.
  - destruct op as [id n u|id|id| |query_fails].
    + now apply bookConference_no_double_booking.
    + apply (no_double_booking_kept s); [|apply run_same_setup|assumption].
      apply (engine_retires now (ConfirmWaitlistBooking id) s), Hs.
    + apply (no_double_booking_kept s); [|apply run_same_setup|assumption].
      apply (engine_retires now (CancelBooking id plan) s), Hs.
    + apply (no_double_booking_kept s); [|apply run_same_setup|assumption].
      apply (engine_retires now HandleExpiredWaitlistBookings s), Hs.
    + apply (no_double_booking_kept s); [|apply run_same_setup|assumption].
      apply (engine_retires now (AutoCancelForStartedConferences query_fails) s), Hs.
  - destruct (addConference n location topics start finish slots s) as [s' [c|e]] eqn:E.
    + simpl. apply addConference_added, insert_conference_some in E.
      destruct E as (stored & _ & -> & -> & _ & _ & Hnew).
      destruct Hs as ((_ & _ & _ & _ & Hfk & _) & _).
      assert (Hsame : forall b, In b (bookings s) ->
                getConferenceByName
                  (with_conferences s
                     (conferences s ++ [mkConference stored start finish slots slots]))
                  (conference_name b)
                = getConferenceByName s (conference_name b)).
      { intros b Hb. specialize (Hfk b Hb). unfold getConferenceByName in *. simpl.
        rewrite find_after.
        destruct (find (fun c => String.eqb (name c) (conference_name b)) (conferences s));
          [reflexivity|contradiction]. }
      intros v b1 b2 c1 c2 H1 H2 Hne A1 A2 Hc1 Hc2. simpl in H1, H2.
      rewrite (Hsame b1 H1) in Hc1. rewrite (Hsame b2 H2) in Hc2.
      now apply (Hndb v b1 b2).
    + pose proof (addConference_refused n location topics start finish slots s e) as H.
      rewrite E in H. simpl in H |- *. now rewrite H.
  - unfold addUser, insert_user.
    destruct (varchar255 u) as [stored|]; [|exact Hndb].
    destruct (Nat.ltb 50 _); [exact Hndb|].
    destruct (existsb (String.eqb stored) (users s)); exact Hndb.
Qed.

Lemma serve_all_no_double_booking (log : list (Z * request)) (s : database) :
  sound s -> no_double_booking s -> no_double_booking (serve_all log s).
Proof.
  revert s. induction log as [|[now r] log IH]; intros s Hs Hndb; [exact Hndb|].
  simpl. apply IH; [now apply serve_keeps_sound|now apply serve_keeps_no_double_booking].
Qed.

(** X30.  No user is booked twice at the same time.  Serve any log of
    requests starting from empty tables.  In the state reached, two different
    bookings of one user that are both CONFIRMED or WAITLISTED are of
    conferences that share no instant: the conflict check of
    [bookConference] holds for good, through confirmations, cancellations,
    sweeps and new conferences. *)
Theorem no_user_is_double_booked (log : list (Z * request)) (u : string)
    (b1 b2 : booking) (c1 c2 : conference) (t : Z) :
  let s := serve_all log empty_database in
  In b1 (bookings s) -> In b2 (bookings s) ->
  booking_id b1 <> booking_id b2 ->
  active_booking u b1 -> active_booking u b2 ->
  getConferenceByName s (conference_name b1) = Some c1 ->
  getConferenceByName s (conference_name b2) = Some c2 ->
  ~ (start_time c1 <= t < end_time c1 /\ start_time c2 <= t < end_time c2).
Proof.
  intros s H1 H2 Hne A1 A2 Hc1 Hc2 Ht.
  assert (Hs : sound s) by (apply serve_all_sound, empty_database_sound).
  assert (Hndb : no_double_booking s).
  { apply serve_all_no_double_booking; [apply empty_database_sound|].
    intros v x1 x2 y1 y2 []. }
  pose proof (Hndb u b1 b2 c1 c2 H1 H2 Hne A1 A2 Hc1 Hc2) as Hno.
  destruct Hs as (_ & _ & Hwin & _).
  pose proof (getConferenceByName_name _ _ _ Hc1) as [Hin1 _].
  pose proof (getConferenceByName_name _ _ _ Hc2) as [Hin2 _].
  destruct (Hwin c1 Hin1) as (_ & Hw1 & _). destruct (Hwin c2 Hin2) as (_ & Hw2 & _).
  assert (X : hasTimeOverlap (start_time c1) (end_time c1) (start_time c2) (end_time c2)
              = true).
  { apply (hasTimeOverlap_shared_instant _ _ _ _ Hw1 Hw2). exists t. exact Ht. }
  congruence.
Qed.

Lemma no_user_is_double_booked_witness :
  ~ (50000000 <= 55000000 < 60000000 /\ 70000000 <= 55000000 < 80000000).
Proof.
  apply (no_user_is_double_booked second_log "erin"
           (mkBooking id_b1 "Types Forum" "erin" CONFIRMED 2 None)
           (mkBooking id_b2 "Proof Camp" "erin" CONFIRMED 4 None)
           (mkConference "Types Forum" 50000000 60000000 30 29)
           (mkConference "Proof Camp" 70000000 80000000 10 9) 55000000).
  - vm_compute. left. reflexivity.
  - vm_compute. right. left. reflexivity.
  - discriminate.
  - split; [reflexivity|now left].
  - split; [reflexivity|now left].
  - reflexivity.
  - reflexivity.
Defined.
